(** * Logi dial receiver: the controller-to-parameter bridge engine

    A shallow embedding of the ExtendScript panel that polls the state
    files written by the device host and drives After Effects:

    - [readPositionFile], [readButtonFile]   (state channel)
    - [checkButtons]                         (navigation, keyframes)
    - [updateProperty]                       (dial delta to parameter)
    - [logiReceiverUpdate]                   (the scheduled tick)

    together with the earlier single-dial script ([Legacy]), whose
    [updateProperty] differs in its threshold and in how it leaves a
    rejected tick.

    JavaScript numbers are IEEE 754 binary64 values; they are modelled
    by [spec_float] with precision 53 and maximal exponent 1024, whose
    operations are plain Rocq functions and therefore compute. *)

From Stdlib Require Import ZArith List String Ascii Bool Lia.
From Stdlib Require Import Floats.SpecFloat.
From Stdlib Require Import DecimalString.
Import ListNotations.
Open Scope list_scope.
Open Scope string_scope.
Open Scope nat_scope.

Set Warnings "-register-all".

(** ** Numbers *)

Module Num.

Definition num := spec_float.

Definition prec : Z := 53.
Definition emax : Z := 1024.

Definition add : num -> num -> num := SFadd prec emax.
Definition sub : num -> num -> num := SFsub prec emax.
Definition mul : num -> num -> num := SFmul prec emax.
Definition div : num -> num -> num := SFdiv prec emax.
Definition abs : num -> num := SFabs.
Definition ltb : num -> num -> bool := SFltb.
Definition leb : num -> num -> bool := SFleb.
Definition eqb : num -> num -> bool := SFeqb.

(** An integer literal. *)
Definition ofZ (z : Z) : num := binary_normalize prec emax z 0 false.

(** A decimal literal [n / d]: the double nearest to the quotient. *)
Definition dec (n d : Z) : num := div (ofZ n) (ofZ d).

Definition zero : num := S754_zero false.
Definition one : num := Eval vm_compute in ofZ 1.
(** The literals [200], [50], [0.1], [0.01] and [0.001] of the scripts. *)
Definition n200 : num := Eval vm_compute in ofZ 200.
Definition n50 : num := Eval vm_compute in ofZ 50.
Definition tenth : num := Eval vm_compute in dec 1 10.
Definition hundredth : num := Eval vm_compute in dec 1 100.
Definition thousandth : num := Eval vm_compute in dec 1 1000.
Definition nan : num := S754_nan.

Definition is_nan (x : num) : bool :=
  match x with S754_nan => true | _ => false end.

Definition is_zero (x : num) : bool :=
  match x with S754_zero _ => true | _ => false end.

(** [isFinite(x)] on a number. *)
Definition isFinite (x : num) : bool :=
  match x with
  | S754_zero _ | S754_finite _ _ _ => true
  | S754_infinity _ | S754_nan => false
  end.

(** [x > y], [x >= y] are [y < x], [y <= x]. *)
Definition gtb (x y : num) : bool := ltb y x.
Definition geb (x y : num) : bool := leb y x.

(** [Math.min] and [Math.max] of two numbers: [NaN] if either is, and
    [-0] below [+0]. *)
Definition min (x y : num) : num :=
  match SFcompare x y with
  | None => nan
  | Some Lt => x
  | Some Gt => y
  | Some Eq => match x with S754_zero true => x | _ => y end
  end.

Definition max (x y : num) : num :=
  match SFcompare x y with
  | None => nan
  | Some Lt => y
  | Some Gt => x
  | Some Eq => match x with S754_zero false => x | _ => y end
  end.

End Num.

Abbreviation num := Num.num.

(** ** JavaScript values *)

Inductive jsval : Type :=
| JUndefined
| JNull
| JBool (b : bool)
| JNum (n : num)
| JStr (s : string)
| JArr (elems : list jsval)
| JObj (fields : list (string * jsval)).

Module JS.

(** ToBoolean. *)
Definition truthy (v : jsval) : bool :=
  match v with
  | JUndefined | JNull => false
  | JBool b => b
  | JNum n => negb (Num.is_zero n || Num.is_nan n)
  | JStr s => negb (String.eqb s "")
  | JArr _ | JObj _ => true
  end.

(** [a || b]. *)
Definition or (a b : jsval) : jsval := if truthy a then a else b.

(** [typeof v]. *)
Definition typeof (v : jsval) : string :=
  match v with
  | JUndefined => "undefined"
  | JNull => "object"
  | JBool _ => "boolean"
  | JNum _ => "number"
  | JStr _ => "string"
  | JArr _ | JObj _ => "object"
  end.

Fixpoint assoc (k : string) (l : list (string * jsval)) : option jsval :=
  match l with
  | [] => None
  | (k', v) :: r => if String.eqb k k' then Some v else assoc k r
  end.

(** [v.k] and [v[k]] for the own properties of an object parsed from
    a file; [None] is the TypeError raised on [null] and [undefined].
    Inherited properties and the indexed properties of arrays and
    strings are not modelled: they read as [undefined]. *)
Definition get (v : jsval) (k : string) : option jsval :=
  match v with
  | JUndefined | JNull => None
  | JObj fs => Some (match assoc k fs with Some x => x | None => JUndefined end)
  | _ => Some JUndefined
  end.

(** [a === b] where [a] was parsed afresh: objects and arrays are new
    references and equal nothing older. *)
Definition strictEq (a b : jsval) : bool :=
  match a, b with
  | JUndefined, JUndefined | JNull, JNull => true
  | JBool x, JBool y => Bool.eqb x y
  | JNum x, JNum y => Num.eqb x y
  | JStr x, JStr y => String.eqb x y
  | _, _ => false
  end.

(** [x || dflt] on a number. *)
Definition numOr (x dflt : num) : num :=
  if Num.is_zero x || Num.is_nan x then dflt else x.

(** [v === "s"]. *)
Definition is_str (v : jsval) (s : string) : bool :=
  match v with JStr s' => String.eqb s' s | _ => false end.

(** [typeof v === 'number' && isFinite(v)]. *)
Definition finite_number (v : jsval) : bool :=
  match v with JNum n => Num.isFinite n | _ => false end.

End JS.

(** ** Strings *)

Module Str.

(** The ASCII part of the regular expression class [\s]. *)
Definition is_space (a : ascii) : bool :=
  let n := nat_of_ascii a in
  ((9 <=? n) && (n <=? 13)) || (n =? 32).

Fixpoint ltrim (s : string) : string :=
  match s with
  | String a r => if is_space a then ltrim r else s
  | EmptyString => EmptyString
  end.

Fixpoint rtrim (s : string) : string :=
  match s with
  | String a r =>
      match rtrim r with
      | EmptyString => if is_space a then EmptyString else String a EmptyString
      | r' => String a r'
      end
  | EmptyString => EmptyString
  end.

(** [c.replace(/^\s+|\s+$/g, '')]. *)
Definition trim (s : string) : string := rtrim (ltrim s).

(** [c.charAt(0)] and [c.charAt(c.length - 1)]; [None] is the empty
    string that [charAt] gives out of range. *)
Definition first (s : string) : option ascii :=
  match s with String a _ => Some a | EmptyString => None end.

Fixpoint last (s : string) : option ascii :=
  match s with
  | EmptyString => None
  | String a EmptyString => Some a
  | String _ r => last r
  end.

Definition is_char (o : option ascii) (c : ascii) : bool :=
  match o with Some a => Ascii.eqb a c | None => false end.

(** The corruption guard: the text begins with an opening brace and
    ends with a closing one. *)
Definition braced (c : string) : bool :=
  is_char (first c) "{"%char && is_char (last c) "}"%char.

(** [s.replace(/\/$/, '')]: one trailing slash removed. *)
Fixpoint dropTrailingSlash (s : string) : string :=
  match s with
  | EmptyString => EmptyString
  | String a EmptyString => if Ascii.eqb a "/"%char then EmptyString else s
  | String a r => String a (dropTrailingSlash r)
  end.

Definition ofNat (n : nat) : string := NilEmpty.string_of_uint (Nat.to_uint n).

End Str.

(** ** The host application

    After Effects as the scripts see it.  A property keeps its static
    value and its keyframes in a store addressed by an identifier, so
    that the references held in [currentProperties] alias the
    application's own objects.  Keyframes are kept in time order and are
    numbered from 1. *)

Inductive PropertyValueType : Type :=
| NO_VALUE | ThreeD_SPATIAL | ThreeD | TwoD_SPATIAL | TwoD | OneD
| COLOR | CUSTOM_VALUE | MARKER | LAYER_INDEX | MASK_INDEX | SHAPE
| TEXT_DOCUMENT.

Definition pvt_eqb (a b : PropertyValueType) : bool :=
  match a, b with
  | NO_VALUE, NO_VALUE | ThreeD_SPATIAL, ThreeD_SPATIAL | ThreeD, ThreeD
  | TwoD_SPATIAL, TwoD_SPATIAL | TwoD, TwoD | OneD, OneD | COLOR, COLOR
  | CUSTOM_VALUE, CUSTOM_VALUE | MARKER, MARKER | LAYER_INDEX, LAYER_INDEX
  | MASK_INDEX, MASK_INDEX | SHAPE, SHAPE | TEXT_DOCUMENT, TEXT_DOCUMENT => true
  | _, _ => false
  end.

Definition keyframe : Type := (num * jsval)%type.

Record Property : Type := mkProperty {
  p_name : string;
  p_matchName : string;
  p_valueType : PropertyValueType;
  p_static : jsval;
  p_keys : list keyframe }.

(** A property group holds properties and further groups. *)
Inductive PropNode : Type :=
| Leaf (id : nat)
| Group (name matchName : string) (children : list PropNode).

Record Effect : Type := mkEffect {
  eff_name : string;
  eff_children : list PropNode }.

Record Layer : Type := mkLayer {
  l_name : string;
  l_selected : bool;
  l_effects : list Effect }.

Record Comp : Type := mkComp {
  c_time : num;
  c_duration : num;
  c_frameDuration : num;
  c_layers : list Layer }.

(** [activeItem] is [None] when nothing is open or the active item is
    not a composition.  [clockText] is what
    [(new Date()).toTimeString().split(' ')[0]] gives at this instant. *)
Record Host : Type := mkHost {
  activeItem : option Comp;
  properties : list Property;
  clockText : string }.

(** What can be raised: by the application, on a stale reference, on
    [setValue] with keyframes present and on a keyframe index out of
    range; by the interpreter, a TypeError. *)
Inductive Fault : Type :=
| InvalidObject
| KeyframedSetValue
| BadKeyIndex
| TypeError.

Inductive outcome (A : Type) : Type :=
| Ok (a : A)
| Throw (f : Fault).
Arguments Ok {A} a.
Arguments Throw {A} f.

Definition bind {A B : Type} (c : outcome A) (k : A -> outcome B) : outcome B :=
  match c with
  | Ok a => k a
  | Throw f => Throw f
  end.

Notation "x <- c ;; k" := (bind c (fun x => k))
  (at level 61, c at next level, right associativity).

Module AE.

Definition set_p_static (v : jsval) (p : Property) : Property :=
  mkProperty (p_name p) (p_matchName p) (p_valueType p) v (p_keys p).

Definition set_p_keys (ks : list keyframe) (p : Property) : Property :=
  mkProperty (p_name p) (p_matchName p) (p_valueType p) (p_static p) ks.

Definition set_c_time (t : num) (c : Comp) : Comp :=
  mkComp t (c_duration c) (c_frameDuration c) (c_layers c).

Definition set_c_layers (ls : list Layer) (c : Comp) : Comp :=
  mkComp (c_time c) (c_duration c) (c_frameDuration c) ls.

Definition set_l_selected (b : bool) (l : Layer) : Layer :=
  mkLayer (l_name l) b (l_effects l).

Definition set_activeItem (c : option Comp) (h : Host) : Host :=
  mkHost c (properties h) (clockText h).

Definition set_properties (ps : list Property) (h : Host) : Host :=
  mkHost (activeItem h) ps (clockText h).

(** [prop.numKeys] *)
Definition numKeys (p : Property) : nat := List.length (p_keys p).

(** [prop.keyTime(i)] *)
Definition keyTime (p : Property) (i : nat) : outcome num :=
  match i with
  | O => Throw BadKeyIndex
  | S j => match nth_error (p_keys p) j with
           | Some k => Ok (fst k)
           | None => Throw BadKeyIndex
           end
  end.

(** Distance of a key time from the time [t]. *)
Definition dist (t kt : num) : num := Num.abs (Num.sub kt t).

Fixpoint nearest_from (t : num) (best : nat) (bestd : num) (i : nat)
         (ks : list keyframe) : nat :=
  match ks with
  | [] => best
  | k :: r =>
      if Num.ltb (dist t (fst k)) bestd
      then nearest_from t i (dist t (fst k)) (S i) r
      else nearest_from t best bestd (S i) r
  end.

(** [prop.nearestKeyIndex(t)]: the index of the keyframe nearest in
    time, the earliest one among equally near ones. *)
Definition nearestKeyIndex (p : Property) (t : num) : outcome nat :=
  match p_keys p with
  | [] => Throw BadKeyIndex
  | k :: r => Ok (nearest_from t 1 (dist t (fst k)) 2 r)
  end.

Fixpoint remove_nth {A : Type} (j : nat) (l : list A) : list A :=
  match l, j with
  | [], _ => []
  | _ :: r, O => r
  | a :: r, S j' => a :: remove_nth j' r
  end.

(** [prop.removeKey(i)] *)
Definition removeKey (p : Property) (i : nat) : outcome Property :=
  match i with
  | O => Throw BadKeyIndex
  | S j => if j <? List.length (p_keys p)
           then Ok (set_p_keys (remove_nth j (p_keys p)) p)
           else Throw BadKeyIndex
  end.

Fixpoint putKey (t : num) (v : jsval) (ks : list keyframe) : list keyframe :=
  match ks with
  | [] => [(t, v)]
  | k :: r =>
      if Num.eqb (fst k) t then (fst k, v) :: r
      else if Num.ltb t (fst k) then (t, v) :: k :: r
      else k :: putKey t v r
  end.

(** [prop.setValueAtTime(t, v)]: the keyframe at [t] takes the value,
    a new one is created when there is none. *)
Definition setValueAtTime (p : Property) (t : num) (v : jsval) : Property :=
  set_p_keys (putKey t v (p_keys p)) p.

(** [prop.setValue(v)]: only for a property without keyframes. *)
Definition setValue (p : Property) (v : jsval) : outcome Property :=
  match p_keys p with
  | [] => Ok (set_p_static v p)
  | _ :: _ => Throw KeyframedSetValue
  end.

(** Writing a property back into the store. *)
Fixpoint replace_nth {A : Type} (j : nat) (a : A) (l : list A) : list A :=
  match l, j with
  | [], _ => []
  | _ :: r, O => a :: r
  | b :: r, S j' => b :: replace_nth j' a r
  end.

Definition storeProperty (id : nat) (p : Property) (h : Host) : Host :=
  set_properties (replace_nth id p (properties h)) h.

Definition lookupProperty (h : Host) (id : nat) : outcome Property :=
  match nth_error (properties h) id with
  | Some p => Ok p
  | None => Throw InvalidObject
  end.

(** [comp.selectedLayers[0]] with its [index]: the first selected
    layer in stacking order. *)
Fixpoint firstSelected (i : nat) (ls : list Layer) : option (nat * Layer) :=
  match ls with
  | [] => None
  | l :: r => if l_selected l then Some (i, l) else firstSelected (S i) r
  end.

Definition selectedLayer0 (c : Comp) : option (nat * Layer) :=
  firstSelected 1 (c_layers c).

(** [comp.numLayers] *)
Definition numLayers (c : Comp) : nat := List.length (c_layers c).

(** [comp.layer(i).selected = b] for a valid [i]. *)
Fixpoint setSelected (i : nat) (b : bool) (ls : list Layer) : list Layer :=
  match ls, i with
  | [], _ => []
  | l :: r, 1 => set_l_selected b l :: r
  | l :: r, S i' => l :: setSelected i' b r
  | l :: r, O => l :: r
  end.

End AE.

(** ** The script's state

    The variables of the script and the widgets of its panel.  Widgets
    are passive stores: assigning a selection or a text from the script
    does not dispatch the widget's [onChange] handler. *)

(** An entry of [currentEffects]. *)
Record EffectInfo : Type := mkEffectInfo {
  ei_name : string;
  ei_index : nat;
  ei_effect : Effect }.

(** An entry of [currentProperties]; [pi_prop] refers to the property in
    the application's store. *)
Record PropInfo : Type := mkPropInfo {
  pi_name : string;
  pi_index : nat;
  pi_prop : nat;
  pi_valueType : PropertyValueType;
  pi_currentValue : jsval;
  pi_matchName : string }.

(** A dropdown list: its items and the index of the selected one. *)
Record Dropdown : Type := mkDropdown {
  dd_items : list string;
  dd_selection : option nat }.

Record Vars : Type := mkVars {
  isActive : bool;
  lastDialValue : option num;
  lastSmallDialValue : option num;
  lastLayerName : string;
  currentEffects : list EffectInfo;
  currentProperties : list PropInfo;
  lastButtonTimestamp : jsval;
  mappingsCache : list (string * jsval);
  isLoadingMappings : bool;
  lastRawPositionContent : string;
  lastRawButtonContent : string;
  verboseDebug : bool;
  lastPositionTS : jsval;
  lastValidPosition : jsval }.

Record UI : Type := mkUI {
  statusText : string;
  layerText : string;
  valDisplay : string;
  heartbeatText : string;
  posExistsText : string;
  posRawText : string;
  btnExistsText : string;
  btnRawText : string;
  effectDropdown : Dropdown;
  propDropdown : Dropdown;
  keypadDropdowns : list Dropdown;
  sensInput : string;
  sensInputTimeline : string }.

Record World : Type := mkWorld {
  host : Host;
  vars : Vars;
  ui : UI }.

Module Upd.

Definition set_isActive (x : bool) (s : Vars) : Vars :=
  mkVars x (lastDialValue s) (lastSmallDialValue s) (lastLayerName s) (currentEffects s) (currentProperties s) (lastButtonTimestamp s) (mappingsCache s) (isLoadingMappings s) (lastRawPositionContent s) (lastRawButtonContent s) (verboseDebug s) (lastPositionTS s) (lastValidPosition s).
Definition set_lastDialValue (x : option num) (s : Vars) : Vars :=
  mkVars (isActive s) x (lastSmallDialValue s) (lastLayerName s) (currentEffects s) (currentProperties s) (lastButtonTimestamp s) (mappingsCache s) (isLoadingMappings s) (lastRawPositionContent s) (lastRawButtonContent s) (verboseDebug s) (lastPositionTS s) (lastValidPosition s).
Definition set_lastSmallDialValue (x : option num) (s : Vars) : Vars :=
  mkVars (isActive s) (lastDialValue s) x (lastLayerName s) (currentEffects s) (currentProperties s) (lastButtonTimestamp s) (mappingsCache s) (isLoadingMappings s) (lastRawPositionContent s) (lastRawButtonContent s) (verboseDebug s) (lastPositionTS s) (lastValidPosition s).
Definition set_lastLayerName (x : string) (s : Vars) : Vars :=
  mkVars (isActive s) (lastDialValue s) (lastSmallDialValue s) x (currentEffects s) (currentProperties s) (lastButtonTimestamp s) (mappingsCache s) (isLoadingMappings s) (lastRawPositionContent s) (lastRawButtonContent s) (verboseDebug s) (lastPositionTS s) (lastValidPosition s).
Definition set_currentEffects (x : list EffectInfo) (s : Vars) : Vars :=
  mkVars (isActive s) (lastDialValue s) (lastSmallDialValue s) (lastLayerName s) x (currentProperties s) (lastButtonTimestamp s) (mappingsCache s) (isLoadingMappings s) (lastRawPositionContent s) (lastRawButtonContent s) (verboseDebug s) (lastPositionTS s) (lastValidPosition s).
Definition set_currentProperties (x : list PropInfo) (s : Vars) : Vars :=
  mkVars (isActive s) (lastDialValue s) (lastSmallDialValue s) (lastLayerName s) (currentEffects s) x (lastButtonTimestamp s) (mappingsCache s) (isLoadingMappings s) (lastRawPositionContent s) (lastRawButtonContent s) (verboseDebug s) (lastPositionTS s) (lastValidPosition s).
Definition set_lastButtonTimestamp (x : jsval) (s : Vars) : Vars :=
  mkVars (isActive s) (lastDialValue s) (lastSmallDialValue s) (lastLayerName s) (currentEffects s) (currentProperties s) x (mappingsCache s) (isLoadingMappings s) (lastRawPositionContent s) (lastRawButtonContent s) (verboseDebug s) (lastPositionTS s) (lastValidPosition s).
Definition set_mappingsCache (x : list (string * jsval)) (s : Vars) : Vars :=
  mkVars (isActive s) (lastDialValue s) (lastSmallDialValue s) (lastLayerName s) (currentEffects s) (currentProperties s) (lastButtonTimestamp s) x (isLoadingMappings s) (lastRawPositionContent s) (lastRawButtonContent s) (verboseDebug s) (lastPositionTS s) (lastValidPosition s).
Definition set_isLoadingMappings (x : bool) (s : Vars) : Vars :=
  mkVars (isActive s) (lastDialValue s) (lastSmallDialValue s) (lastLayerName s) (currentEffects s) (currentProperties s) (lastButtonTimestamp s) (mappingsCache s) x (lastRawPositionContent s) (lastRawButtonContent s) (verboseDebug s) (lastPositionTS s) (lastValidPosition s).
Definition set_lastRawPositionContent (x : string) (s : Vars) : Vars :=
  mkVars (isActive s) (lastDialValue s) (lastSmallDialValue s) (lastLayerName s) (currentEffects s) (currentProperties s) (lastButtonTimestamp s) (mappingsCache s) (isLoadingMappings s) x (lastRawButtonContent s) (verboseDebug s) (lastPositionTS s) (lastValidPosition s).
Definition set_lastRawButtonContent (x : string) (s : Vars) : Vars :=
  mkVars (isActive s) (lastDialValue s) (lastSmallDialValue s) (lastLayerName s) (currentEffects s) (currentProperties s) (lastButtonTimestamp s) (mappingsCache s) (isLoadingMappings s) (lastRawPositionContent s) x (verboseDebug s) (lastPositionTS s) (lastValidPosition s).
Definition set_verboseDebug (x : bool) (s : Vars) : Vars :=
  mkVars (isActive s) (lastDialValue s) (lastSmallDialValue s) (lastLayerName s) (currentEffects s) (currentProperties s) (lastButtonTimestamp s) (mappingsCache s) (isLoadingMappings s) (lastRawPositionContent s) (lastRawButtonContent s) x (lastPositionTS s) (lastValidPosition s).
Definition set_lastPositionTS (x : jsval) (s : Vars) : Vars :=
  mkVars (isActive s) (lastDialValue s) (lastSmallDialValue s) (lastLayerName s) (currentEffects s) (currentProperties s) (lastButtonTimestamp s) (mappingsCache s) (isLoadingMappings s) (lastRawPositionContent s) (lastRawButtonContent s) (verboseDebug s) x (lastValidPosition s).
Definition set_lastValidPosition (x : jsval) (s : Vars) : Vars :=
  mkVars (isActive s) (lastDialValue s) (lastSmallDialValue s) (lastLayerName s) (currentEffects s) (currentProperties s) (lastButtonTimestamp s) (mappingsCache s) (isLoadingMappings s) (lastRawPositionContent s) (lastRawButtonContent s) (verboseDebug s) (lastPositionTS s) x.

Definition set_statusText (x : string) (s : UI) : UI :=
  mkUI x (layerText s) (valDisplay s) (heartbeatText s) (posExistsText s) (posRawText s) (btnExistsText s) (btnRawText s) (effectDropdown s) (propDropdown s) (keypadDropdowns s) (sensInput s) (sensInputTimeline s).
Definition set_layerText (x : string) (s : UI) : UI :=
  mkUI (statusText s) x (valDisplay s) (heartbeatText s) (posExistsText s) (posRawText s) (btnExistsText s) (btnRawText s) (effectDropdown s) (propDropdown s) (keypadDropdowns s) (sensInput s) (sensInputTimeline s).
Definition set_valDisplay (x : string) (s : UI) : UI :=
  mkUI (statusText s) (layerText s) x (heartbeatText s) (posExistsText s) (posRawText s) (btnExistsText s) (btnRawText s) (effectDropdown s) (propDropdown s) (keypadDropdowns s) (sensInput s) (sensInputTimeline s).
Definition set_heartbeatText (x : string) (s : UI) : UI :=
  mkUI (statusText s) (layerText s) (valDisplay s) x (posExistsText s) (posRawText s) (btnExistsText s) (btnRawText s) (effectDropdown s) (propDropdown s) (keypadDropdowns s) (sensInput s) (sensInputTimeline s).
Definition set_posExistsText (x : string) (s : UI) : UI :=
  mkUI (statusText s) (layerText s) (valDisplay s) (heartbeatText s) x (posRawText s) (btnExistsText s) (btnRawText s) (effectDropdown s) (propDropdown s) (keypadDropdowns s) (sensInput s) (sensInputTimeline s).
Definition set_posRawText (x : string) (s : UI) : UI :=
  mkUI (statusText s) (layerText s) (valDisplay s) (heartbeatText s) (posExistsText s) x (btnExistsText s) (btnRawText s) (effectDropdown s) (propDropdown s) (keypadDropdowns s) (sensInput s) (sensInputTimeline s).
Definition set_btnExistsText (x : string) (s : UI) : UI :=
  mkUI (statusText s) (layerText s) (valDisplay s) (heartbeatText s) (posExistsText s) (posRawText s) x (btnRawText s) (effectDropdown s) (propDropdown s) (keypadDropdowns s) (sensInput s) (sensInputTimeline s).
Definition set_btnRawText (x : string) (s : UI) : UI :=
  mkUI (statusText s) (layerText s) (valDisplay s) (heartbeatText s) (posExistsText s) (posRawText s) (btnExistsText s) x (effectDropdown s) (propDropdown s) (keypadDropdowns s) (sensInput s) (sensInputTimeline s).
Definition set_effectDropdown (x : Dropdown) (s : UI) : UI :=
  mkUI (statusText s) (layerText s) (valDisplay s) (heartbeatText s) (posExistsText s) (posRawText s) (btnExistsText s) (btnRawText s) x (propDropdown s) (keypadDropdowns s) (sensInput s) (sensInputTimeline s).
Definition set_propDropdown (x : Dropdown) (s : UI) : UI :=
  mkUI (statusText s) (layerText s) (valDisplay s) (heartbeatText s) (posExistsText s) (posRawText s) (btnExistsText s) (btnRawText s) (effectDropdown s) x (keypadDropdowns s) (sensInput s) (sensInputTimeline s).
Definition set_keypadDropdowns (x : list Dropdown) (s : UI) : UI :=
  mkUI (statusText s) (layerText s) (valDisplay s) (heartbeatText s) (posExistsText s) (posRawText s) (btnExistsText s) (btnRawText s) (effectDropdown s) (propDropdown s) x (sensInput s) (sensInputTimeline s).
Definition set_sensInput (x : string) (s : UI) : UI :=
  mkUI (statusText s) (layerText s) (valDisplay s) (heartbeatText s) (posExistsText s) (posRawText s) (btnExistsText s) (btnRawText s) (effectDropdown s) (propDropdown s) (keypadDropdowns s) x (sensInputTimeline s).
Definition set_sensInputTimeline (x : string) (s : UI) : UI :=
  mkUI (statusText s) (layerText s) (valDisplay s) (heartbeatText s) (posExistsText s) (posRawText s) (btnExistsText s) (btnRawText s) (effectDropdown s) (propDropdown s) (keypadDropdowns s) (sensInput s) x.

Definition set_host (x : Host) (s : World) : World :=
  mkWorld x (vars s) (ui s).
Definition set_vars (x : Vars) (s : World) : World :=
  mkWorld (host s) x (ui s).
Definition set_ui (x : UI) (s : World) : World :=
  mkWorld (host s) (vars s) x.

Definition on_vars (f : Vars -> Vars) (w : World) : World :=
  set_vars (f (vars w)) w.

Definition on_ui (f : UI -> UI) (w : World) : World :=
  set_ui (f (ui w)) w.

Definition on_host (f : Host -> Host) (w : World) : World :=
  set_host (f (host w)) w.

End Upd.

Module DD.

(** [dropdown.removeAll()] *)
Definition removeAll (d : Dropdown) : Dropdown := mkDropdown [] None.

(** [dropdown.add("item", text)] *)
Definition add (text : string) (d : Dropdown) : Dropdown :=
  mkDropdown (dd_items d ++ [text])%list (dd_selection d).

(** [dropdown.selection = i]: the item at [i], none when there is no
    such item. *)
Definition select (i : nat) (d : Dropdown) : Dropdown :=
  mkDropdown (dd_items d)
             (if i <? List.length (dd_items d) then Some i else None).

(** [dropdown.selection ? dropdown.selection.index : dflt], as an
    integer, for the call sites whose default is [-1]. *)
Definition indexOr (dflt : Z) (d : Dropdown) : Z :=
  match dd_selection d with
  | Some i => Z.of_nat i
  | None => dflt
  end.

End DD.

(** ** The panel script *)

Definition FileSystem : Type := string -> option string.

Definition POSITION_FILE : string := "C:/temp/logi_position.json".
Definition BUTTON_FILE : string := "C:/temp/logi_button.json".
Definition MAPPINGS_FOLDER : string :=
  "C:/Program Files/Adobe/Adobe After Effects 2025/Support Files/Scripts/ScriptUI Panels/logi-mx-creative-dialpad-integrations/mappings".

Definition keypadButtons : list string :=
  ["1"; "2"; "3"; "4"; "5"; "6"; "7"; "8"; "9"].

(** The state with which the script starts, over a given application
    state. *)
Definition initialVars : Vars :=
  {| isActive := false;
     lastDialValue := None;
     lastSmallDialValue := None;
     lastLayerName := "";
     currentEffects := [];
     currentProperties := [];
     lastButtonTimestamp := JNum Num.zero;
     mappingsCache := [];
     isLoadingMappings := false;
     lastRawPositionContent := "";
     lastRawButtonContent := "";
     verboseDebug := false;
     lastPositionTS := JNum Num.zero;
     lastValidPosition := JObj [("x", JNum Num.zero); ("y", JNum Num.zero)] |}.

Definition initialUI : UI :=
  {| statusText := "Select a layer to see its effects";
     layerText := "Selected: (none)";
     valDisplay := "---";
     heartbeatText := "HB: n/a";
     posExistsText := "pos file: (unknown)";
     posRawText := "pos raw: ";
     btnExistsText := "btn file: (unknown)";
     btnRawText := "btn raw: ";
     effectDropdown := mkDropdown ["(select layer first)"] (Some 0);
     propDropdown := mkDropdown ["(select effect first)"] (Some 0);
     keypadDropdowns := repeat (mkDropdown ["(none)"] (Some 0)) 6;
     sensInput := "0.1";
     sensInputTimeline := "1" |}.

Definition initialWorld (h : Host) : World := mkWorld h initialVars initialUI.

Module Panel.
Section Script.

(** What the script takes from its environment. *)

(** [JSON.parse]; [None] when it raises. *)
Variable JSON_parse : string -> option jsval.
(** [parseFloat] *)
Variable parseFloat : string -> num.
(** [x.toFixed(d)] *)
Variable toFixed : num -> nat -> string.
(** [String(v)] *)
Variable toStr : jsval -> string.
(** [prop.value] of a property with keyframes, at a time. *)
Variable valueAtTime : list keyframe -> num -> jsval.
(** [e.message] *)
Variable faultMessage : Fault -> string.
(** [a <= b] when the operands are not both numbers. *)
Variable looseLe : jsval -> jsval -> bool.
(** The fallback folders, computed when the script is loaded. *)
Variable fallbackCandidates : list string.

(** *** State channel *)

(** [tryPath] of [readPositionFile]; [JNull] is its [null]. *)
Definition tryPath (fs : FileSystem) (path : string) (v : Vars) : jsval * Vars :=
  match fs path with
  | None => (JNull, v)
  | Some c =>
      let v := Upd.set_lastRawPositionContent c v in
      if String.eqb c "" then (JNull, v) else
      let c := Str.trim c in
      if negb (Str.braced c) then (JNull, v) else
      match JSON_parse c with
      | None => (JNull, v)
      | Some parsed =>
          let ts :=
            JS.or (if JS.truthy parsed
                   then match JS.get parsed "_ts", JS.get parsed "timestamp" with
                        | Some a, Some b => JS.or a b
                        | _, _ => JUndefined
                        end
                   else parsed)
                  (JNum Num.zero) in
          if JS.truthy ts && JS.strictEq ts (lastPositionTS v)
          then (lastValidPosition v, v)
          else
            let v := if JS.truthy ts then Upd.set_lastPositionTS ts v else v in
            match JS.get parsed "x", JS.get parsed "y" with
            | Some px, Some py =>
                if JS.finite_number px && JS.finite_number py
                then (parsed, Upd.set_lastValidPosition parsed v)
                else (JNull, v)
            | _, _ => (JNull, v)
            end
      end
  end.

(** The loop of [readPositionFile] over the fallback folders. *)
Fixpoint tryFallbacks (fs : FileSystem) (cands : list string) (v : Vars)
  : jsval * Vars :=
  match cands with
  | [] => (JNull, v)
  | candidate :: rest =>
      if String.eqb candidate "" then tryFallbacks fs rest v else
      let p := Str.dropTrailingSlash candidate ++ "/logi_position.json" in
      let (res, v) := tryPath fs p v in
      if JS.truthy res then (res, v) else tryFallbacks fs rest v
  end.

Definition markMissingPosition (v : Vars) : Vars :=
  if String.eqb (lastRawPositionContent v) ""
  then Upd.set_lastRawPositionContent "(missing)" v
  else v.

Definition readPositionFile (fs : FileSystem) (v : Vars) : jsval * Vars :=
  let v := Upd.set_lastRawPositionContent "" v in
  let (res, v) := tryPath fs POSITION_FILE v in
  if JS.truthy res then (res, v) else
  let (res, v) := tryFallbacks fs fallbackCandidates v in
  if JS.truthy res then (res, v) else
  let v := markMissingPosition v in
  (lastValidPosition v, v).

(** [tryPathB] of [readButtonFile]. *)
Definition tryPathB (fs : FileSystem) (path : string) (v : Vars) : jsval * Vars :=
  match fs path with
  | None => (JNull, v)
  | Some c =>
      let v := Upd.set_lastRawButtonContent c v in
      if String.eqb c "" then (JNull, v) else
      let c := Str.trim c in
      if Str.braced c
      then match JSON_parse c with
           | Some parsed => (parsed, v)
           | None => (JNull, v)
           end
      else (JNull, v)
  end.

Fixpoint tryFallbacksB (fs : FileSystem) (cands : list string) (v : Vars)
  : jsval * Vars :=
  match cands with
  | [] => (JNull, v)
  | cand :: rest =>
      if String.eqb cand "" then tryFallbacksB fs rest v else
      let pb := Str.dropTrailingSlash cand ++ "/logi_button.json" in
      let (r, v) := tryPathB fs pb v in
      if JS.truthy r then (r, v) else tryFallbacksB fs rest v
  end.

Definition markMissingButton (v : Vars) : Vars :=
  if String.eqb (lastRawButtonContent v) ""
  then Upd.set_lastRawButtonContent "(missing)" v
  else v.

Definition readButtonFile (fs : FileSystem) (v : Vars) : jsval * Vars :=
  let v := Upd.set_lastRawButtonContent "" v in
  let (r, v) := tryPathB fs BUTTON_FILE v in
  if JS.truthy r then (r, v) else
  let (r, v) := tryFallbacksB fs fallbackCandidates v in
  if JS.truthy r then (r, v) else
  (JNull, markMissingButton v).

(** *** Enumerating effects and properties *)

Definition hostTime (h : Host) : num :=
  match activeItem h with
  | Some c => c_time c
  | None => Num.zero
  end.

(** [prop.value] at the time [t] of the composition. *)
Definition propValue (t : num) (p : Property) : jsval :=
  match p_keys p with
  | [] => p_static p
  | ks => valueAtTime ks t
  end.

Fixpoint effectInfos (i : nat) (es : list Effect) : list EffectInfo :=
  match es with
  | [] => []
  | e :: r => mkEffectInfo (eff_name e) i e :: effectInfos (S i) r
  end.

Definition getLayerEffects (layer : Layer) : list EffectInfo :=
  effectInfos 1 (l_effects layer).

Definition displayName (name matchName : string) : string :=
  if String.eqb name "" then "[" ++ matchName ++ "]" else name.

Definition prefixed (prefix name : string) : string :=
  if String.eqb prefix "" then name else prefix ++ " > " ++ name.

Definition hasNumericValue (v : jsval) : bool :=
  match v with
  | JNum _ => true
  | JArr (JNum _ :: _) => true
  | _ => false
  end.

(** One child of a group, at index [i], in [getEffectProperties]. *)
Fixpoint propertiesOfNode (h : Host) (prefix : string) (i : nat)
         (n : PropNode) : list PropInfo :=
  match n with
  | Leaf id =>
      match nth_error (properties h) id with
      | None => []
      | Some p =>
          let propName := prefixed prefix (displayName (p_name p) (p_matchName p)) in
          let currentValue := propValue (hostTime h) p in
          if hasNumericValue currentValue
          then [mkPropInfo propName i id (p_valueType p) currentValue (p_matchName p)]
          else []
      end
  | Group name matchName children =>
      let propName := prefixed prefix (displayName name matchName) in
      (fix children_from (j : nat) (l : list PropNode) : list PropInfo :=
         match l with
         | [] => []
         | c :: r => (propertiesOfNode h propName j c ++ children_from (S j) r)%list
         end) 1 children
  end.

Fixpoint propertiesFrom (h : Host) (prefix : string) (i : nat)
         (l : list PropNode) : list PropInfo :=
  match l with
  | [] => []
  | c :: r => (propertiesOfNode h prefix i c ++ propertiesFrom h prefix (S i) r)%list
  end.

Definition getEffectProperties (h : Host) (effect : Effect) (prefix : string)
  : list PropInfo :=
  propertiesFrom h prefix 1 (eff_children effect).

Fixpoint addItems (names : list string) (d : Dropdown) : Dropdown :=
  match names with
  | [] => d
  | n :: r => addItems r (DD.add n d)
  end.

Definition populateProperties (w : World) : World :=
  let w := Upd.on_ui (fun u => Upd.set_propDropdown (DD.removeAll (propDropdown u)) u) w in
  let w := Upd.on_vars (Upd.set_currentProperties []) w in
  let effectIdx := DD.indexOr (-1) (effectDropdown (ui w)) in
  let placeholder text w :=
    Upd.on_ui (fun u => Upd.set_propDropdown
                          (DD.select 0 (DD.add text (propDropdown u))) u) w in
  if (effectIdx <? 0)%Z
     || (Z.of_nat (List.length (currentEffects (vars w))) <=? effectIdx)%Z
  then placeholder "(select effect first)" w
  else
    match nth_error (currentEffects (vars w)) (Z.to_nat effectIdx) with
    | None => placeholder "(select effect first)" w
    | Some ei =>
        let props := getEffectProperties (host w) (ei_effect ei) "" in
        let w := Upd.on_vars (Upd.set_currentProperties props) w in
        match props with
        | [] =>
            let w := placeholder "(no adjustable properties)" w in
            Upd.on_ui (Upd.set_statusText "No numeric properties found in this effect") w
        | _ =>
            let w := Upd.on_ui (Upd.set_statusText
                       ("Found " ++ Str.ofNat (List.length props) ++ " properties")) w in
            Upd.on_ui (fun u => Upd.set_propDropdown
                         (DD.select 0 (addItems (map pi_name props) (propDropdown u))) u) w
        end
    end.

(** One keypad dropdown in [updateKeypadDropdowns]. *)
Definition refillKeypad (props : list PropInfo) (dropdown : Dropdown) : Dropdown :=
  let currentSelection := match dd_selection dropdown with Some i => i | None => 0 end in
  let d := addItems (map pi_name props) (DD.add "(none)" (DD.removeAll dropdown)) in
  if (0 <? currentSelection) && (currentSelection <=? List.length props)
  then DD.select currentSelection d
  else DD.select 0 d.

Definition updateKeypadDropdowns (w : World) : World :=
  let w := Upd.on_vars (Upd.set_isLoadingMappings true) w in
  let w := Upd.on_ui (fun u => Upd.set_keypadDropdowns
               (map (refillKeypad (currentProperties (vars w))) (keypadDropdowns u)) u) w in
  Upd.on_vars (Upd.set_isLoadingMappings false) w.

(** *** Keypad mappings and the effect list *)

Definition isAlnum (a : ascii) : bool :=
  let n := nat_of_ascii a in
  ((48 <=? n) && (n <=? 57)) || ((65 <=? n) && (n <=? 90))
  || ((97 <=? n) && (n <=? 122)).

Fixpoint sanitize (s : string) : string :=
  match s with
  | EmptyString => EmptyString
  | String a r => String (if isAlnum a then a else "_"%char) (sanitize r)
  end.

Definition getEffectFileName (effectName : string) : string :=
  sanitize effectName ++ ".json".

(** [cache[k] = v] *)
Fixpoint assocSet (k : string) (v : jsval) (l : list (string * jsval))
  : list (string * jsval) :=
  match l with
  | [] => [(k, v)]
  | (k', v') :: r =>
      if String.eqb k k' then (k, v) :: r else (k', v') :: assocSet k v r
  end.

(** [cache[k]], [undefined] when absent. *)
Definition cacheGet (k : string) (l : list (string * jsval)) : jsval :=
  match JS.assoc k l with Some v => v | None => JUndefined end.

(** The search of [currentProperties] for a property name: the
    dropdown index to select. *)
Fixpoint findProperty (propName : jsval) (props : list PropInfo) (j : nat)
  : option nat :=
  match props with
  | [] => None
  | p :: r => if JS.is_str propName (pi_name p) then Some (j + 1)
              else findProperty propName r (S j)
  end.

(** One keypad dropdown in the loop of [autoLoadMappings]. *)
Definition applyMapping (mappings : jsval) (props : list PropInfo)
           (btnName : string) (dropdown : Dropdown) : Dropdown :=
  match JS.get mappings "buttons" with
  | Some buttons =>
      if JS.truthy buttons then
        match JS.get buttons btnName with
        | Some propName =>
            if JS.truthy propName then
              match findProperty propName props 0 with
              | Some sel => DD.select sel dropdown
              | None => DD.select 0 dropdown
              end
            else DD.select 0 dropdown
        | None => DD.select 0 dropdown
        end
      else DD.select 0 dropdown
  | None => DD.select 0 dropdown
  end.

Fixpoint applyMappings (mappings : jsval) (props : list PropInfo) (i : nat)
         (dds : list Dropdown) : list Dropdown :=
  match dds with
  | [] => []
  | d :: r =>
      applyMapping mappings props (nth i keypadButtons "undefined") d
      :: applyMappings mappings props (S i) r
  end.

Definition autoLoadMappings (fs : FileSystem) (w : World) : World :=
  let w := Upd.on_vars (Upd.set_isLoadingMappings true) w in
  let finish w := Upd.on_vars (Upd.set_isLoadingMappings false) w in
  let effectIdx := DD.indexOr (-1) (effectDropdown (ui w)) in
  if (effectIdx <? 0)%Z
     || (Z.of_nat (List.length (currentEffects (vars w))) <=? effectIdx)%Z
  then finish w
  else
    match nth_error (currentEffects (vars w)) (Z.to_nat effectIdx) with
    | None => finish w
    | Some ei =>
        let effectName := ei_name ei in
        let apply mappings w :=
          if negb (JS.truthy mappings) then finish w else
          let w := Upd.on_ui (fun u => Upd.set_keypadDropdowns
                     (applyMappings mappings (currentProperties (vars w)) 0
                                    (keypadDropdowns u)) u) w in
          finish (Upd.on_ui (Upd.set_statusText
                               ("Loaded mapping for: " ++ effectName)) w) in
        if JS.truthy (cacheGet effectName (mappingsCache (vars w)))
        then apply (cacheGet effectName (mappingsCache (vars w))) w
        else
          match fs (MAPPINGS_FOLDER ++ "/" ++ getEffectFileName effectName) with
          | None => apply JNull w
          | Some content =>
              match JSON_parse content with
              | None => finish w
              | Some mappings =>
                  apply mappings
                        (Upd.on_vars (fun v => Upd.set_mappingsCache
                           (assocSet effectName mappings (mappingsCache v)) v) w)
              end
          end
    end.

Definition populateEffects (fs : FileSystem) (w : World) : World :=
  let w := Upd.on_ui (fun u => Upd.set_effectDropdown (DD.removeAll (effectDropdown u)) u) w in
  let w := Upd.on_ui (fun u => Upd.set_propDropdown (DD.removeAll (propDropdown u)) u) w in
  let w := Upd.on_vars (Upd.set_currentEffects []) w in
  let w := Upd.on_vars (Upd.set_currentProperties []) w in
  let effectPlaceholder text w :=
    Upd.on_ui (fun u => Upd.set_effectDropdown
                          (DD.select 0 (DD.add text (effectDropdown u))) u) w in
  match activeItem (host w) with
  | None => effectPlaceholder "(no composition)" w
  | Some comp =>
      match AE.selectedLayer0 comp with
      | None => effectPlaceholder "(no layer selected)" w
      | Some (_, layer) =>
          let w := Upd.on_ui (Upd.set_layerText ("Selected: " ++ l_name layer)) w in
          let effects := getLayerEffects layer in
          let w := Upd.on_vars (Upd.set_currentEffects effects) w in
          match effects with
          | [] =>
              let w := effectPlaceholder "(no effects on layer)" w in
              Upd.on_ui (fun u => Upd.set_propDropdown
                (DD.select 0 (DD.add "(select effect first)" (propDropdown u))) u) w
          | _ =>
              let w := Upd.on_ui (fun u => Upd.set_effectDropdown
                         (DD.select 0 (addItems (map ei_name effects)
                                                (effectDropdown u))) u) w in
              autoLoadMappings fs (updateKeypadDropdowns (populateProperties w))
          end
      end
  end.

(** *** Layer selection *)

Definition selectLayerByIndex (fs : FileSystem) (layerIndex : Z) (w : World) : World :=
  match activeItem (host w) with
  | None => w
  | Some comp =>
      if (1 <=? layerIndex)%Z && (layerIndex <=? Z.of_nat (AE.numLayers comp))%Z
      then
        let deselected := map (AE.set_l_selected false) (c_layers comp) in
        let layers := AE.setSelected (Z.to_nat layerIndex) true deselected in
        let comp := AE.set_c_layers layers comp in
        let w := Upd.on_host (AE.set_activeItem (Some comp)) w in
        let w := Upd.on_vars (Upd.set_lastLayerName "") w in
        let w := populateEffects fs w in
        match nth_error layers (Z.to_nat layerIndex - 1) with
        | Some l => Upd.on_ui (Upd.set_statusText ("Layer: " ++ l_name l)) w
        | None => w
        end
      else w
  end.

Definition getCurrentLayerIndex (w : World) : Z :=
  match activeItem (host w) with
  | None => (-1)%Z
  | Some comp =>
      match AE.selectedLayer0 comp with
      | None => (-1)%Z
      | Some (i, _) => Z.of_nat i
      end
  end.

(** *** Button events *)

(** [a <= b] *)
Definition jsLe (a b : jsval) : bool :=
  match a, b with
  | JNum x, JNum y => Num.leb x y
  | _, _ => looseLe a b
  end.

Definition presence (raw : string) : string :=
  if String.eqb raw "" then "(empty)" else "present".

(** The verbose display of the raw file contents. *)
Definition debugTexts (w : World) : World :=
  if verboseDebug (vars w) then
    let v := vars w in
    Upd.on_ui (fun u =>
      Upd.set_btnRawText ("btn raw: " ++ lastRawButtonContent v)
        (Upd.set_btnExistsText ("btn file: " ++ presence (lastRawButtonContent v))
           (Upd.set_posRawText ("pos raw: " ++ lastRawPositionContent v)
              (Upd.set_posExistsText ("pos file: " ++ presence (lastRawPositionContent v)) u)))) w
  else w.

Definition setStatus (text : string) (w : World) : World :=
  Upd.on_ui (Upd.set_statusText text) w.

Definition activeComp (w : World) : outcome Comp :=
  match activeItem (host w) with
  | Some c => Ok c
  | None => Throw TypeError
  end.

(** [comp.time = t] *)
Definition setCompTime (t : num) (w : World) : World :=
  match activeItem (host w) with
  | Some c => Upd.on_host (AE.set_activeItem (Some (AE.set_c_time t c))) w
  | None => w
  end.

(** The entry of [currentProperties] under
    [propIdx >= 0 && propIdx < currentProperties.length]. *)
Definition selectedProperty (w : World) : option PropInfo :=
  let propIdx := DD.indexOr (-1) (propDropdown (ui w)) in
  if (0 <=? propIdx)%Z && (propIdx <? Z.of_nat (List.length (currentProperties (vars w))))%Z
  then nth_error (currentProperties (vars w)) (Z.to_nat propIdx)
  else None.

(** TOP RIGHT and TOP LEFT: the next and the previous effect. *)
Definition navigateEffects (button : jsval) (w : World) : World * option Fault :=
  let currentIdx := DD.indexOr 0 (effectDropdown (ui w)) in
  let n := Z.of_nat (List.length (currentEffects (vars w))) in
  let newIdx :=
    if JS.is_str button "TOP RIGHT"
    then (if (n <=? currentIdx + 1)%Z then 0 else currentIdx + 1)%Z
    else if JS.is_str button "TOP LEFT"
    then (if (currentIdx - 1 <? 0)%Z then n - 1 else currentIdx - 1)%Z
    else currentIdx in
  if negb (newIdx =? currentIdx)%Z && (0 <? n)%Z then
    let w := Upd.on_ui (fun u => Upd.set_effectDropdown
               (DD.select (Z.to_nat newIdx) (effectDropdown u)) u) w in
    let w := updateKeypadDropdowns (populateProperties w) in
    let w := Upd.on_vars (Upd.set_lastDialValue None) w in
    match nth_error (currentEffects (vars w)) (Z.to_nat newIdx) with
    | Some ei => (setStatus ("Effect: " ++ ei_name ei) w, None)
    | None => (w, Some TypeError)
    end
  else (w, None).

(** BOTTOM RIGHT and BOTTOM LEFT: the next and the previous layer. *)
Definition navigateLayers (fs : FileSystem) (button : jsval) (w : World) : World :=
  match activeItem (host w) with
  | None => w
  | Some comp =>
      let currentLayerIdx :=
        if (getCurrentLayerIndex w <? 0)%Z then 1%Z else getCurrentLayerIndex w in
      let n := Z.of_nat (AE.numLayers comp) in
      let newLayerIdx :=
        if JS.is_str button "BOTTOM RIGHT"
        then (if (n <? currentLayerIdx + 1)%Z then 1 else currentLayerIdx + 1)%Z
        else if JS.is_str button "BOTTOM LEFT"
        then (if (currentLayerIdx - 1 <? 1)%Z then n else currentLayerIdx - 1)%Z
        else currentLayerIdx in
      if negb (newLayerIdx =? currentLayerIdx)%Z
      then selectLayerByIndex fs newLayerIdx w
      else w
  end.

(** ["1"] to ["6"]: [parseInt(button) - 1]. *)
Definition keypadIndex (button : jsval) : option nat :=
  if JS.is_str button "1" then Some 0
  else if JS.is_str button "2" then Some 1
  else if JS.is_str button "3" then Some 2
  else if JS.is_str button "4" then Some 3
  else if JS.is_str button "5" then Some 4
  else if JS.is_str button "6" then Some 5
  else None.

(** Keypad 1 to 6: select the mapped property. *)
Definition selectMapped (keypadButtonIndex : nat) (w : World) : World :=
  match nth_error (keypadDropdowns (ui w)) keypadButtonIndex with
  | None => w
  | Some dropdown =>
      let propIdx := match dd_selection dropdown with Some i => i | None => 0 end in
      if (0 <? propIdx) && (propIdx <=? List.length (currentProperties (vars w))) then
        match nth_error (currentProperties (vars w)) (propIdx - 1) with
        | Some pinfo =>
            let w := Upd.on_ui (fun u => Upd.set_propDropdown
                       (DD.select (propIdx - 1) (propDropdown u)) u) w in
            let w := Upd.on_vars (Upd.set_lastDialValue None) w in
            setStatus ("Property: " ++ pi_name pinfo) w
        | None => w
        end
      else w
  end.

(** Keypad 7: the body of the [try]. *)
Definition prevKeyframe (pinfo : PropInfo) (w : World) : outcome World :=
  prop <- AE.lookupProperty (host w) (pi_prop pinfo) ;;
  if 0 <? AE.numKeys prop then
    comp <- activeComp w ;;
    nearestKey <- AE.nearestKeyIndex prop (c_time comp) ;;
    keyTime <- AE.keyTime prop nearestKey ;;
    w <- (if Num.geb keyTime (c_time comp) && (1 <? nearestKey)
          then t <- AE.keyTime prop (nearestKey - 1) ;; Ok (setCompTime t w)
          else if Num.ltb keyTime (c_time comp)
          then Ok (setCompTime keyTime w)
          else if 1 <? nearestKey
          then t <- AE.keyTime prop (nearestKey - 1) ;; Ok (setCompTime t w)
          else Ok w) ;;
    Ok (setStatus "Jumped to previous keyframe" w)
  else Ok (setStatus "No keyframes on this property" w).

(** Keypad 9: the body of the [try]. *)
Definition nextKeyframe (pinfo : PropInfo) (w : World) : outcome World :=
  prop <- AE.lookupProperty (host w) (pi_prop pinfo) ;;
  if 0 <? AE.numKeys prop then
    comp <- activeComp w ;;
    nearestKey <- AE.nearestKeyIndex prop (c_time comp) ;;
    keyTime <- AE.keyTime prop nearestKey ;;
    w <- (if Num.leb keyTime (c_time comp) && (nearestKey <? AE.numKeys prop)
          then t <- AE.keyTime prop (nearestKey + 1) ;; Ok (setCompTime t w)
          else if Num.gtb keyTime (c_time comp)
          then Ok (setCompTime keyTime w)
          else if nearestKey <? AE.numKeys prop
          then t <- AE.keyTime prop (nearestKey + 1) ;; Ok (setCompTime t w)
          else Ok w) ;;
    Ok (setStatus "Jumped to next keyframe" w)
  else Ok (setStatus "No keyframes on this property" w).

(** Keypad 8: the body of the [try].  [keyAtTime] is the index of the
    keyframe found at the current time, [0] standing for the [-1] of
    the script. *)
Definition toggleKeyframe (pinfo : PropInfo) (w : World) : outcome World :=
  comp <- activeComp w ;;
  let currentTime := c_time comp in
  prop <- AE.lookupProperty (host w) (pi_prop pinfo) ;;
  keyAtTime <-
    (if 0 <? AE.numKeys prop then
       nearestKey <- AE.nearestKeyIndex prop currentTime ;;
       keyTime <- AE.keyTime prop nearestKey ;;
       if Num.ltb (Num.abs (Num.sub keyTime currentTime)) Num.thousandth
       then Ok nearestKey else Ok 0
     else Ok 0) ;;
  if 0 <? keyAtTime then
    prop' <- AE.removeKey prop keyAtTime ;;
    Ok (setStatus ("Keyframe removed at " ++ toFixed currentTime 2 ++ "s")
                  (Upd.on_host (AE.storeProperty (pi_prop pinfo) prop') w))
  else
    let currentValue := propValue currentTime prop in
    Ok (setStatus ("Keyframe added at " ++ toFixed currentTime 2 ++ "s")
                  (Upd.on_host (AE.storeProperty (pi_prop pinfo)
                     (AE.setValueAtTime prop currentTime currentValue)) w)).

(** [try { body } catch (e) { statusText.text = prefix + e.message; }]
    around a keypad action on the selected property. *)
Definition onSelectedProperty (prefix : string)
           (body : PropInfo -> World -> outcome World) (w : World) : World :=
  match selectedProperty w with
  | None => w
  | Some pinfo =>
      match body pinfo w with
      | Ok w' => w'
      | Throw f => setStatus (prefix ++ faultMessage f) w
      end
  end.

(** What [checkButtons] does before it looks at the event: both files
    are read and the debug display refreshed. *)
Definition pollFiles (fs : FileSystem) (w : World) : jsval * World :=
  let (btnData, v) := readButtonFile fs (vars w) in
  let (_, v) := readPositionFile fs v in
  (btnData, debugTexts (Upd.set_vars v w)).

(** The blocks of [checkButtons] after the TOP one. *)
Definition dispatchRest (fs : FileSystem) (button : jsval) (w : World) : World :=
  let w := if JS.is_str button "BOTTOM RIGHT" || JS.is_str button "BOTTOM LEFT"
           then navigateLayers fs button w else w in
  let w := match keypadIndex button with
           | Some i => selectMapped i w
           | None => w
           end in
  let w := if JS.is_str button "7"
           then onSelectedProperty "Keyframe nav error: " prevKeyframe w else w in
  let w := if JS.is_str button "8"
           then onSelectedProperty "Keyframe toggle error: " toggleKeyframe w else w in
  if JS.is_str button "9"
  then onSelectedProperty "Keyframe nav error: " nextKeyframe w else w.

(** The dispatch on the button name, for a pressed, new event. *)
Definition dispatchButton (fs : FileSystem) (button : jsval) (w : World)
  : World * option Fault :=
  if JS.is_str button "TOP RIGHT" || JS.is_str button "TOP LEFT" then
    match navigateEffects button w with
    | (w, None) => (dispatchRest fs button w, None)
    | (w, Some f) => (w, Some f)
    end
  else (dispatchRest fs button w, None).

(** [checkButtons].  The second component is the exception that
    leaves the function, if any; the first is the state reached. *)
Definition checkButtons (fs : FileSystem) (w : World) : World * option Fault :=
  let (btnData, w) := pollFiles fs w in
  if negb (JS.truthy btnData) then (w, None) else
  match JS.get btnData "button", JS.get btnData "timestamp", JS.get btnData "pressed" with
  | Some button, Some timestamp, Some pressed =>
      if negb (JS.truthy button) then (w, None) else
      let ts := JS.or timestamp (JNum Num.zero) in
      if jsLe ts (lastButtonTimestamp (vars w)) then (w, None) else
      let w := Upd.on_vars (Upd.set_lastButtonTimestamp ts) w in
      if negb (JS.truthy pressed) then (w, None) else
      dispatchButton fs button w
  | _, _, _ => (w, None)
  end.

(** *** Dial to parameter *)

(** [dialValue !== lastDialValue] *)
Definition differs (x : num) (last : option num) : bool :=
  match last with
  | None => true
  | Some l => negb (Num.eqb x l)
  end.

(** [(last !== null) ? (x - last) : 0] *)
Definition deltaFrom (x : num) (last : option num) : num :=
  match last with
  | None => Num.zero
  | Some l => Num.sub x l
  end.

(** [if (Math.abs(d) > maxDelta) d = 0] *)
Definition limitDelta (maxDelta d : num) : num :=
  if Num.gtb (Num.abs d) maxDelta then Num.zero else d.

(** [lastSmallDialValue || 0] *)
Definition lastOrZero (last : option num) : num :=
  match last with
  | None => Num.zero
  | Some l => JS.numOr l Num.zero
  end.

(** The small dial scrubs the timeline. *)
Definition scrubTimeline (smallDialDelta : num) (w : World) : World :=
  match activeItem (host w) with
  | None => w
  | Some comp =>
      let timelineSensitivity :=
        JS.numOr (parseFloat (sensInputTimeline (ui w))) Num.one in
      let frameDelta := Num.mul smallDialDelta timelineSensitivity in
      let frameTime := c_frameDuration comp in
      let newTime := Num.add (c_time comp) (Num.mul frameDelta frameTime) in
      let newTime :=
        Num.max Num.zero (Num.min (Num.sub (c_duration comp) frameTime) newTime) in
      setCompTime newTime w
  end.

(** [prop.setValueAtTime(comp.time, v)] when the property has
    keyframes, [prop.setValue(v)] otherwise; the displayed texts end
    in the marks of the keyframed case. *)
Definition writeValue (propInfo : PropInfo) (prop : Property) (v : jsval)
           (shown label : string) (w : World) : outcome World :=
  if 0 <? AE.numKeys prop then
    let prop' := AE.setValueAtTime prop (hostTime (host w)) v in
    let w := Upd.on_host (AE.storeProperty (pi_prop propInfo) prop') w in
    let w := Upd.on_ui (Upd.set_valDisplay (shown ++ " [K]")) w in
    Ok (setStatus (label ++ " (keyframe)") w)
  else
    prop' <- AE.setValue prop v ;;
    let w := Upd.on_host (AE.storeProperty (pi_prop propInfo) prop') w in
    let w := Upd.on_ui (Upd.set_valDisplay shown) w in
    Ok (setStatus label w).

(** The new first component of an array value. *)
Definition adjustFirst (valueType : PropertyValueType) (x delta : num) : num :=
  if pvt_eqb valueType COLOR
  then Num.max Num.zero (Num.min Num.one (Num.add x (Num.mul delta Num.hundredth)))
  else Num.add x delta.

(** The big dial adjusts the property, for a delta that is not [0]. *)
Definition adjustProperty (propInfo : PropInfo) (dialDelta : num) (w : World) : World :=
  match AE.lookupProperty (host w) (pi_prop propInfo) with
  | Throw f => setStatus ("Cannot read value: " ++ faultMessage f) w
  | Ok prop =>
      let currentValue := propValue (hostTime (host w)) prop in
      let bigSensitivity := JS.numOr (parseFloat (sensInput (ui w))) Num.tenth in
      let delta := Num.mul dialDelta bigSensitivity in
      let attempt :=
        match currentValue with
        | JNum x =>
            let newValue := Num.add x delta in
            writeValue propInfo prop (JNum newValue)
                       (toFixed newValue 2)
                       (pi_name propInfo ++ ": " ++ toFixed newValue 2) w
        | JArr (JNum x :: rest) =>
            let new0 := adjustFirst (pi_valueType propInfo) x delta in
            writeValue propInfo prop (JArr (JNum new0 :: rest))
                       ("[" ++ toFixed new0 2 ++ ", ...]")
                       (pi_name propInfo ++ "[0]: " ++ toFixed new0 2) w
        | JArr (_ :: _) => Ok (setStatus "Array[0] not numeric" w)
        | _ => Ok (setStatus ("Cannot adjust: " ++ JS.typeof currentValue) w)
        end in
      match attempt with
      | Ok w' => w'
      | Throw f => setStatus ("Cannot set: " ++ faultMessage f) w
      end
  end.

(** [updateProperty] from the validation of the dial values on. *)
Definition applyDials (propInfo : PropInfo) (px py : jsval) (w : World) : World :=
  match px with
  | JNum dialValue =>
      if negb (Num.isFinite dialValue) then w else
      let smallDialValue :=
        match py with
        | JNum y => if Num.isFinite y then y
                    else lastOrZero (lastSmallDialValue (vars w))
        | _ => lastOrZero (lastSmallDialValue (vars w))
        end in
      let bigDialChanged := differs dialValue (lastDialValue (vars w)) in
      let smallDialChanged := differs smallDialValue (lastSmallDialValue (vars w)) in
      if negb bigDialChanged && negb smallDialChanged then w else
      let dialDelta :=
        limitDelta Num.n200 (deltaFrom dialValue (lastDialValue (vars w))) in
      let smallDialDelta :=
        limitDelta Num.n200 (deltaFrom smallDialValue (lastSmallDialValue (vars w))) in
      let w := Upd.on_vars (Upd.set_lastDialValue (Some dialValue)) w in
      let w := Upd.on_vars (Upd.set_lastSmallDialValue (Some smallDialValue)) w in
      let w := if negb (Num.eqb smallDialDelta Num.zero)
               then scrubTimeline smallDialDelta w else w in
      if Num.eqb dialDelta Num.zero then w
      else adjustProperty propInfo dialDelta w
  | _ => w
  end.

(** The layer changed: the effect list is rebuilt and the dial
    baseline dropped. *)
Definition onLayerChange (fs : FileSystem) (layer : Layer) (w : World) : World :=
  if negb (String.eqb (l_name layer) (lastLayerName (vars w))) then
    let w := Upd.on_vars (Upd.set_lastLayerName (l_name layer)) w in
    let w := Upd.on_ui (Upd.set_layerText ("Selected: " ++ l_name layer)) w in
    let w := populateEffects fs w in
    Upd.on_vars (Upd.set_lastDialValue None) w
  else w.

Definition updateProperty (fs : FileSystem) (w : World) : World :=
  if negb (isActive (vars w)) then w else
  match activeItem (host w) with
  | None =>
      Upd.on_ui (Upd.set_valDisplay "---")
                (Upd.on_ui (Upd.set_layerText "Selected: (no comp)") w)
  | Some comp =>
      match AE.selectedLayer0 comp with
      | None =>
          Upd.on_ui (Upd.set_valDisplay "---")
                    (Upd.on_ui (Upd.set_layerText "Selected: (none)") w)
      | Some (_, layer) =>
          let w := onLayerChange fs layer w in
          let effectIdx := DD.indexOr (-1) (effectDropdown (ui w)) in
          if (effectIdx <? 0)%Z
             || (Z.of_nat (List.length (currentEffects (vars w))) <=? effectIdx)%Z
          then Upd.on_ui (Upd.set_valDisplay "(no effect)") w
          else
            match selectedProperty w with
            | None => Upd.on_ui (Upd.set_valDisplay "(no property)") w
            | Some propInfo =>
                let (pos, v) := readPositionFile fs (vars w) in
                let (_, v) := readButtonFile fs v in
                let w := Upd.set_vars v w in
                match JS.get pos "x", JS.get pos "y" with
                | Some px, Some py => applyDials propInfo px py (debugTexts w)
                | _, _ => setStatus ("Error: " ++ faultMessage TypeError) w
                end
            end
      end
  end.

(** *** The scheduled tick

    A step of the tick either returns or raises; [tick] is the body of
    [$.global.logiReceiverUpdate] over two arbitrary steps. *)
Definition step : Type := World -> World * option Fault.

(** [heartbeatText.text = "HB: " + (new Date()).toTimeString().split(' ')[0]] *)
Definition beat (w : World) : World :=
  Upd.on_ui (Upd.set_heartbeatText ("HB: " ++ clockText (host w))) w.

Definition tick (buttons dials : step) (w : World) : World * option Fault :=
  let w := beat w in
  let attempt :=
    if isActive (vars w) then
      match buttons w with
      | (w, None) => dials w
      | (w, Some f) => (w, Some f)
      end
    else (w, None) in
  match attempt with
  | (w, None) => (w, None)
  | (w, Some f) => (setStatus ("Scheduler error: " ++ faultMessage f) w, None)
  end.

Definition logiReceiverUpdate (fs : FileSystem) (w : World) : World * option Fault :=
  tick (checkButtons fs) (fun w => (updateProperty fs w, None)) w.

End Script.
End Panel.
Import Panel.

(** ** The earlier single-dial script

    [logi_receiver.jsx]: one position file, no buttons, no keyframes.
    It shares the state records; the fields it has no counterpart for
    are left alone. *)

Module Legacy.
Section Script.

Variable JSON_parse : string -> option jsval.
Variable parseFloat : string -> num.
Variable toFixed : num -> nat -> string.
Variable toStr : jsval -> string.
Variable valueAtTime : list keyframe -> num -> jsval.
Variable faultMessage : Fault -> string.

Definition readPositionFile (fs : FileSystem) (v : Vars) : jsval * Vars :=
  match fs POSITION_FILE with
  | None => (lastValidPosition v, v)
  | Some content =>
      if String.eqb content "" then (lastValidPosition v, v) else
      let content := Str.trim content in
      if negb (Str.braced content) then (lastValidPosition v, v) else
      match JSON_parse content with
      | None => (lastValidPosition v, v)
      | Some parsed =>
          match JS.get parsed "x", JS.get parsed "y" with
          | Some px, Some py =>
              if JS.finite_number px && JS.finite_number py
              then (parsed, Upd.set_lastValidPosition parsed v)
              else (lastValidPosition v, v)
          | _, _ => (lastValidPosition v, v)
          end
      end
  end.

(** The label of a property in the dropdown. *)
Definition label (p : PropInfo) : string :=
  match pi_currentValue p with
  | JNum x => pi_name p ++ " (" ++ toFixed x 2 ++ ")"
  | JArr _ => pi_name p ++ " [arr]"
  | _ => pi_name p
  end.

Definition populateProperties (w : World) : World :=
  let w := Upd.on_ui (fun u => Upd.set_propDropdown (DD.removeAll (propDropdown u)) u) w in
  let w := Upd.on_vars (Upd.set_currentProperties []) w in
  let effectIdx := DD.indexOr (-1) (effectDropdown (ui w)) in
  let placeholder text w :=
    Upd.on_ui (fun u => Upd.set_propDropdown
                          (DD.select 0 (DD.add text (propDropdown u))) u) w in
  if (effectIdx <? 0)%Z
     || (Z.of_nat (List.length (currentEffects (vars w))) <=? effectIdx)%Z
  then placeholder "(select effect first)" w
  else
    match nth_error (currentEffects (vars w)) (Z.to_nat effectIdx) with
    | None => placeholder "(select effect first)" w
    | Some ei =>
        let props := getEffectProperties valueAtTime (host w) (ei_effect ei) "" in
        let w := Upd.on_vars (Upd.set_currentProperties props) w in
        match props with
        | [] =>
            let w := placeholder "(no adjustable properties)" w in
            Upd.on_ui (Upd.set_statusText "No numeric properties found in this effect") w
        | _ =>
            let w := Upd.on_ui (Upd.set_statusText
                       ("Found " ++ Str.ofNat (List.length props) ++ " properties")) w in
            Upd.on_ui (fun u => Upd.set_propDropdown
                         (DD.select 0 (addItems (map label props) (propDropdown u))) u) w
        end
    end.

Definition populateEffects (w : World) : World :=
  let w := Upd.on_ui (fun u => Upd.set_effectDropdown (DD.removeAll (effectDropdown u)) u) w in
  let w := Upd.on_ui (fun u => Upd.set_propDropdown (DD.removeAll (propDropdown u)) u) w in
  let w := Upd.on_vars (Upd.set_currentEffects []) w in
  let w := Upd.on_vars (Upd.set_currentProperties []) w in
  let effectPlaceholder text w :=
    Upd.on_ui (fun u => Upd.set_effectDropdown
                          (DD.select 0 (DD.add text (effectDropdown u))) u) w in
  match activeItem (host w) with
  | None => effectPlaceholder "(no composition)" w
  | Some comp =>
      match AE.selectedLayer0 comp with
      | None => effectPlaceholder "(no layer selected)" w
      | Some (_, layer) =>
          let w := Upd.on_ui (Upd.set_layerText ("Selected: " ++ l_name layer)) w in
          let effects := getLayerEffects layer in
          let w := Upd.on_vars (Upd.set_currentEffects effects) w in
          match effects with
          | [] =>
              let w := effectPlaceholder "(no effects on layer)" w in
              Upd.on_ui (fun u => Upd.set_propDropdown
                (DD.select 0 (DD.add "(select effect first)" (propDropdown u))) u) w
          | _ =>
              let w := Upd.on_ui (fun u => Upd.set_effectDropdown
                         (DD.select 0 (addItems (map ei_name effects)
                                                (effectDropdown u))) u) w in
              populateProperties w
          end
      end
  end.

Definition onLayerChange (layer : Layer) (w : World) : World :=
  if negb (String.eqb (l_name layer) (lastLayerName (vars w))) then
    let w := Upd.on_vars (Upd.set_lastLayerName (l_name layer)) w in
    let w := Upd.on_ui (Upd.set_layerText ("Selected: " ++ l_name layer)) w in
    let w := populateEffects w in
    Upd.on_vars (Upd.set_lastDialValue None) w
  else w.

(** The first read after a reset: the value is shown, nothing is set. *)
Definition showValue (currentValue : jsval) (w : World) : outcome World :=
  w <- match currentValue with
       | JNum x => Ok (Upd.on_ui (Upd.set_valDisplay (toFixed x 2)) w)
       | JArr (JNum x :: _) =>
           Ok (Upd.on_ui (Upd.set_valDisplay ("[" ++ toFixed x 1 ++ ", ...]")) w)
       | JArr _ => Throw TypeError
       | _ => Ok (Upd.on_ui (Upd.set_valDisplay (toStr currentValue)) w)
       end ;;
  Ok (setStatus "Active - Rotate dial to adjust" w).

(** [prop.setValue(v)] and the texts that follow it. *)
Definition writeValue (propInfo : PropInfo) (prop : Property) (v : jsval)
           (shown label : string) (w : World) : outcome World :=
  prop' <- AE.setValue prop v ;;
  let w := Upd.on_host (AE.storeProperty (pi_prop propInfo) prop') w in
  let w := Upd.on_ui (Upd.set_valDisplay shown) w in
  Ok (setStatus label w).

(** [updateProperty] from the validation of the dial value on.  The
    only exception that reaches the outer [catch] from here is the
    one of [showValue]. *)
Definition applyDial (propInfo : PropInfo) (px : jsval) (w : World) : World :=
  match px with
  | JNum dialValue =>
      if negb (Num.isFinite dialValue) then w else
      if negb (differs dialValue (lastDialValue (vars w))) then w else
      let dialDelta := deltaFrom dialValue (lastDialValue (vars w)) in
      let maxDelta := Num.n50 in
      if Num.gtb (Num.abs dialDelta) maxDelta
      then Upd.on_vars (Upd.set_lastDialValue (Some dialValue)) w
      else
        let w := Upd.on_vars (Upd.set_lastDialValue (Some dialValue)) w in
        match AE.lookupProperty (host w) (pi_prop propInfo) with
        | Throw f => setStatus ("Cannot read value: " ++ faultMessage f) w
        | Ok prop =>
            let currentValue := propValue valueAtTime (hostTime (host w)) prop in
            if Num.eqb dialDelta Num.zero then
              match showValue currentValue w with
              | Ok w' => w'
              | Throw f => setStatus ("Error: " ++ faultMessage f) w
              end
            else
            let sensitivity := JS.numOr (parseFloat (sensInput (ui w))) Num.tenth in
            let delta := Num.mul dialDelta sensitivity in
            let attempt :=
              match currentValue with
              | JNum x =>
                  let newValue := Num.add x delta in
                  writeValue propInfo prop (JNum newValue)
                             (toFixed newValue 2)
                             (pi_name propInfo ++ ": " ++ toFixed newValue 2) w
              | JArr (JNum x :: rest) =>
                  let new0 := adjustFirst (pi_valueType propInfo) x delta in
                  writeValue propInfo prop (JArr (JNum new0 :: rest))
                             ("[" ++ toFixed new0 2 ++ ", ...]")
                             (pi_name propInfo ++ "[0]: " ++ toFixed new0 2) w
              | JArr (_ :: _) => Ok (setStatus "Array[0] not numeric" w)
              | _ => Ok (setStatus ("Cannot adjust: " ++ JS.typeof currentValue) w)
              end in
            match attempt with
            | Ok w' => w'
            | Throw f => setStatus ("Cannot set: " ++ faultMessage f) w
            end
        end
  | _ => w
  end.

Definition updateProperty (fs : FileSystem) (w : World) : World :=
  if negb (isActive (vars w)) then w else
  match activeItem (host w) with
  | None =>
      Upd.on_ui (Upd.set_valDisplay "---")
                (Upd.on_ui (Upd.set_layerText "Selected: (no comp)") w)
  | Some comp =>
      match AE.selectedLayer0 comp with
      | None =>
          Upd.on_ui (Upd.set_valDisplay "---")
                    (Upd.on_ui (Upd.set_layerText "Selected: (none)") w)
      | Some (_, layer) =>
          let w := onLayerChange layer w in
          let effectIdx := DD.indexOr (-1) (effectDropdown (ui w)) in
          if (effectIdx <? 0)%Z
             || (Z.of_nat (List.length (currentEffects (vars w))) <=? effectIdx)%Z
          then Upd.on_ui (Upd.set_valDisplay "(no effect)") w
          else
            match selectedProperty w with
            | None => Upd.on_ui (Upd.set_valDisplay "(no property)") w
            | Some propInfo =>
                let (pos, v) := readPositionFile fs (vars w) in
                let w := Upd.set_vars v w in
                match JS.get pos "x" with
                | Some px => applyDial propInfo px w
                | None => setStatus ("Error: " ++ faultMessage TypeError) w
                end
            end
      end
  end.

(** [$.global.logiEffectUpdate] *)
Definition logiEffectUpdate (fs : FileSystem) (w : World) : World :=
  if isActive (vars w) then updateProperty fs w else w.

End Script.
End Legacy.

(** ** The repeating task

    [app.scheduleTask(code, 33, true)] runs the tick again and again;
    between two runs the device host may rewrite the state files, so
    each run sees its own file system.  What the application does with a
    task whose code raises is not documented; the model takes the worst
    case, in which the task is not run again.  The second component
    counts the runs that took place. *)

Fixpoint schedule (task : FileSystem -> World -> World * option Fault)
         (files : list FileSystem) (w : World) : World * nat :=
  match files with
  | [] => (w, 0)
  | fs :: rest =>
      match task fs w with
      | (w', None) => let (w'', n) := schedule task rest w' in (w'', S n)
      | (w', Some _) => (w', 1)
      end
  end.

(** ** Observations used by the statements below *)

(** The playhead after the small dial has moved by [delta] at the
    timeline sensitivity [s]: [delta * s] frames further, and inside
    the composition. *)
Definition scrubbed (delta s : num) (comp : Comp) : num :=
  Num.max Num.zero
    (Num.min (Num.sub (c_duration comp) (c_frameDuration comp))
       (Num.add (c_time comp) (Num.mul (Num.mul delta s) (c_frameDuration comp)))).

(** A keyframe lies within the tolerance of the time [t]. *)
Definition keyNear (t : num) (k : keyframe) : bool :=
  Num.ltb (AE.dist t (fst k)) Num.thousandth.

(** Keyframe presence at [t], and the number of keyframes there. *)
Definition keyPresent (t : num) (ks : list keyframe) : bool := existsb (keyNear t) ks.

Definition keysNear (t : num) (ks : list keyframe) : nat :=
  List.length (filter (keyNear t) ks).

(** Key times are finite numbers. *)
Definition timesFinite (ks : list keyframe) : Prop :=
  Forall (fun k : keyframe => Num.isFinite (fst k) = true) ks.

(** Keyframe presence at the playhead for the property [id]. *)
Definition keyframeAtPlayhead (w : World) (id : nat) : option bool :=
  match activeItem (host w), nth_error (properties (host w)) id with
  | Some comp, Some prop => Some (keyPresent (c_time comp) (p_keys prop))
  | _, _ => None
  end.

(** The paths that [readPositionFile] and [readButtonFile] try. *)
Definition candidatePaths (fallbackCandidates : list string) (name : string)
  : list string :=
  map (fun c => Str.dropTrailingSlash c ++ name)
      (filter (fun c => negb (String.eqb c "")) fallbackCandidates).

Definition positionPaths (fallbackCandidates : list string) : list string :=
  POSITION_FILE :: candidatePaths fallbackCandidates "/logi_position.json".

Definition buttonPaths (fallbackCandidates : list string) : list string :=
  BUTTON_FILE :: candidatePaths fallbackCandidates "/logi_button.json".

(** A position file that passes every guard: present, not empty, braced
    once trimmed, parsed, with finite numbers in [x] and [y]. *)
Definition positionUsable (JSON_parse : string -> option jsval)
           (fs : FileSystem) (path : string) : bool :=
  match fs path with
  | None => false
  | Some c =>
      negb (String.eqb c "") && Str.braced (Str.trim c) &&
      match JSON_parse (Str.trim c) with
      | None => false
      | Some parsed =>
          match JS.get parsed "x", JS.get parsed "y" with
          | Some px, Some py => JS.finite_number px && JS.finite_number py
          | _, _ => false
          end
      end
  end.

(** A button file that yields a record. *)
Definition buttonUsable (JSON_parse : string -> option jsval)
           (fs : FileSystem) (path : string) : bool :=
  match fs path with
  | None => false
  | Some c =>
      negb (String.eqb c "") && Str.braced (Str.trim c) &&
      match JSON_parse (Str.trim c) with
      | None => false
      | Some parsed => JS.truthy parsed
      end
  end.

(** The tick can proceed to the dial values: the panel is active, the
    selected layer is the one seen last, and an effect and the property
    [propInfo] are selected. *)
Definition steady (w : World) (propInfo : PropInfo) : Prop :=
  isActive (vars w) = true /\
  (exists comp i layer,
      activeItem (host w) = Some comp /\
      AE.selectedLayer0 comp = Some (i, layer) /\
      l_name layer = lastLayerName (vars w)) /\
  (exists e, dd_selection (effectDropdown (ui w)) = Some e /\
             e < List.length (currentEffects (vars w))) /\
  selectedProperty w = Some propInfo.

(** Two states agree on what [steady] looks at. *)
Definition stable (w w' : World) : Prop :=
  isActive (vars w') = isActive (vars w) /\
  lastLayerName (vars w') = lastLayerName (vars w) /\
  currentEffects (vars w') = currentEffects (vars w) /\
  currentProperties (vars w') = currentProperties (vars w) /\
  effectDropdown (ui w') = effectDropdown (ui w) /\
  propDropdown (ui w') = propDropdown (ui w) /\
  option_map c_layers (activeItem (host w')) = option_map c_layers (activeItem (host w)).

(** The variables of the position channel, and those that enumerating
    effects and loading mappings write. *)
Definition positionFields (raw : string) (ts pos : jsval) (v : Vars) : Vars :=
  Upd.set_lastRawPositionContent raw
    (Upd.set_lastPositionTS ts (Upd.set_lastValidPosition pos v)).

Definition navFields (ce : list EffectInfo) (cp : list PropInfo) (lm : bool)
           (mc : list (string * jsval)) (v : Vars) : Vars :=
  Upd.set_currentEffects ce
    (Upd.set_currentProperties cp
       (Upd.set_isLoadingMappings lm (Upd.set_mappingsCache mc v))).

(** What a position read returns depends on the position cache only. *)
Definition sameCache (v v' : Vars) : Prop :=
  lastPositionTS v = lastPositionTS v' /\ lastValidPosition v = lastValidPosition v'.

(** The property as [adjustProperty] leaves it when it writes [v] at
    the time [t]: a keyframe when the property has keyframes, the static
    value otherwise. *)
Definition written (prop : Property) (t : num) (v : jsval) : Property :=
  if 0 <? AE.numKeys prop then AE.setValueAtTime prop t v else AE.set_p_static v prop.

(** The value written for a number and for an array whose first
    component is a number. *)
Definition newValue (current : jsval) (valueType : PropertyValueType) (delta : num)
  : option jsval :=
  match current with
  | JNum old => Some (JNum (Num.add old delta))
  | JArr (JNum c :: rest) => Some (JArr (JNum (adjustFirst valueType c delta) :: rest))
  | _ => None
  end.

(** The state in which a button event is dispatched: its marker is the
    last one seen. *)
Definition accepted (ts : jsval) (w : World) : World :=
  Upd.on_vars (Upd.set_lastButtonTimestamp ts) w.

Module Frame.
Section Env.

Variable JSON_parse : string -> option jsval.
Variable parseFloat : string -> num.
Variable fallbackCandidates : list string.

(** The state in which the dial values are applied: the files have
    been read, nothing else has changed. *)
Definition polled (fs : FileSystem) (w : World) : World :=
  debugTexts
    (Upd.set_vars
       (snd (readButtonFile JSON_parse fallbackCandidates fs
               (snd (readPositionFile JSON_parse fallbackCandidates fs (vars w))))) w).

(** The state in which the property is adjusted: both baselines are
    the samples, the small dial has scrubbed the timeline. *)
Definition afterSmallDial (x y smallDelta : num) (w : World) : World :=
  let w := Upd.on_vars (Upd.set_lastDialValue (Some x)) w in
  let w := Upd.on_vars (Upd.set_lastSmallDialValue (Some y)) w in
  if negb (Num.eqb smallDelta Num.zero) then scrubTimeline parseFloat smallDelta w else w.

End Env.
End Frame.

(** ** The handlers of the panel

    The functions behind the buttons and dropdowns of the panel that
    the tick does not call: saving the keypad mappings, the change
    handlers of the dropdowns, Reset Dial, Start and Stop.  They write
    files, enable buttons, show alerts and schedule the tick; the state
    they need beyond [World] is in [Shell]. *)

(** [file.open("w"); file.write(content); file.close()] on a file
    system, for a path that can be opened for writing. *)
Definition writeFile (path content : string) (fs : FileSystem) : FileSystem :=
  fun p => if String.eqb p path then Some content else fs p.

(** The double quote and the line feed. *)
Definition dq : string := String (ascii_of_nat 34) EmptyString.
Definition lf : string := String (ascii_of_nat 10) EmptyString.

(** The text that Reset Dial writes: an object with [x] and [y] at 0. *)
Definition zeroPositionText : string :=
  "{" ++ dq ++ "x" ++ dq ++ ": 0, " ++ dq ++ "y" ++ dq ++ ": 0}".

Definition START_BAT : string :=
  "C:\Program Files\Adobe\Adobe After Effects 2025\Support Files\Scripts\ScriptUI Panels\logi-mx-creative-dialpad-integrations\start_webserver_debug.bat".

(** The two polling buttons, [$.global.logi_receiver_task_id] ([None]
    for [undefined] and [null]), the ids that [app.scheduleTask] has
    returned and [app.cancelTask] has not been given since, the alerts
    shown and the files executed, latest first. *)
Record Shell : Type := mkShell {
  startEnabled : bool;
  stopEnabled : bool;
  taskId : option nat;
  scheduled : list nat;
  alerts : list string;
  launched : list string }.

Definition initialShell : Shell := mkShell true false None [] [] [].

Module Controls.
Section Script.

Variable JSON_parse : string -> option jsval.
Variable valueAtTime : list keyframe -> num -> jsval.
(** [JSON.stringify] *)
Variable JSON_stringify : jsval -> string.
(** Whether [file.open("w")] succeeds on a path. *)
Variable canWrite : string -> bool.

Definition save (path content : string) (fs : FileSystem) : FileSystem :=
  if canWrite path then writeFile path content fs else fs.

(** The loop of [autoSaveMappings] over the keypad dropdowns:
    [mappings.buttons[btnName] = currentProperties[propIdx - 1].name]
    for the dropdowns that select a property. *)
Fixpoint savedButtons (props : list PropInfo) (i : nat) (dds : list Dropdown)
         (buttons : list (string * jsval)) : list (string * jsval) :=
  match dds with
  | [] => buttons
  | dropdown :: rest =>
      let btnName := nth i keypadButtons "undefined" in
      let propIdx := match dd_selection dropdown with Some s => s | None => 0 end in
      let buttons :=
        if (0 <? propIdx) && (propIdx <=? List.length props) then
          match nth_error props (propIdx - 1) with
          | Some p => assocSet btnName (JStr (pi_name p)) buttons
          | None => buttons
          end
        else buttons in
      savedButtons props (S i) rest buttons
  end.

(** The object that [autoSaveMappings] builds. *)
Definition mappingsOf (effectName : string) (w : World) : jsval :=
  JObj [("effectName", JStr effectName);
        ("buttons", JObj (savedButtons (currentProperties (vars w)) 0
                                       (keypadDropdowns (ui w)) []))].

Definition autoSaveMappings (fs : FileSystem) (w : World) : FileSystem * World :=
  if isLoadingMappings (vars w) then (fs, w) else
  let effectIdx := DD.indexOr (-1) (effectDropdown (ui w)) in
  if (effectIdx <? 0)%Z
     || (Z.of_nat (List.length (currentEffects (vars w))) <=? effectIdx)%Z
  then (fs, w)
  else
    match nth_error (currentEffects (vars w)) (Z.to_nat effectIdx) with
    | None => (fs, w)
    | Some ei =>
        let effectName := ei_name ei in
        let fileName := getEffectFileName effectName in
        let mappings := mappingsOf effectName w in
        let w := Upd.on_vars (fun v => Upd.set_mappingsCache
                                (assocSet effectName mappings (mappingsCache v)) v) w in
        (save (MAPPINGS_FOLDER ++ "/" ++ fileName) (JSON_stringify mappings) fs, w)
    end.

(** [effectDropdown.onChange] *)
Definition effectChanged (fs : FileSystem) (w : World) : World :=
  let w := populateProperties valueAtTime w in
  let w := updateKeypadDropdowns w in
  let w := autoLoadMappings JSON_parse fs w in
  Upd.on_vars (Upd.set_lastDialValue None) w.

(** [propDropdown.onChange] *)
Definition propertyChanged (w : World) : World :=
  Upd.on_vars (Upd.set_lastDialValue None) w.

(** [resetDial] *)
Definition resetDial (fs : FileSystem) (w : World) : FileSystem * World :=
  let fs := save POSITION_FILE zeroPositionText fs in
  let w := Upd.on_vars (Upd.set_lastDialValue None) w in
  let w := Upd.on_vars (Upd.set_lastSmallDialValue None) w in
  (fs, setStatus "Dial reset to zero." w).

(** A task id counts when it is not 0. *)
Definition idSet (id : option nat) : bool :=
  match id with Some (S _) => true | _ => false end.

(** [startPolling]: [batExists] is [batFile.exists], [id] what
    [app.scheduleTask] returns if it is called. *)
Definition startPolling (batExists : bool) (id : nat) (fs : FileSystem)
           (sw : Shell * World) : Shell * World :=
  let (s, w) := sw in
  let s := if batExists
           then mkShell (startEnabled s) (stopEnabled s) (taskId s) (scheduled s)
                        (alerts s) (START_BAT :: launched s)
           else mkShell (startEnabled s) (stopEnabled s) (taskId s) (scheduled s)
                        (("Batch file not found at:" ++ lf ++ START_BAT) :: alerts s)
                        (launched s) in
  let w := Upd.on_vars (Upd.set_isActive true) w in
  let w := Upd.on_vars (Upd.set_lastDialValue None) w in
  let w := Upd.on_vars (Upd.set_lastLayerName "") w in
  let s := mkShell false true (taskId s) (scheduled s) (alerts s) (launched s) in
  let w := populateEffects JSON_parse valueAtTime fs w in
  let w := setStatus "Active - Select effect & property, then rotate dial" w in
  if idSet (taskId s)
  then (s, setStatus "Already polling (logi)." w)
  else
    let s := mkShell (startEnabled s) (stopEnabled s) (Some id) (id :: scheduled s)
                     (if id =? 0
                      then ("Failed to start polling scheduler (scheduleTask returned: "
                            ++ Str.ofNat id ++ ")") :: alerts s
                      else alerts s)
                     (launched s) in
    (s, setStatus ("Active - polling started (id:" ++ Str.ofNat id ++ ")") w).

Fixpoint cancel (id : nat) (tasks : list nat) : list nat :=
  match tasks with
  | [] => []
  | t :: r => if t =? id then cancel id r else t :: cancel id r
  end.

(** [stopPolling] *)
Definition stopPolling (sw : Shell * World) : Shell * World :=
  let (s, w) := sw in
  let w := Upd.on_vars (Upd.set_isActive false) w in
  let s := mkShell true false (taskId s) (scheduled s) (alerts s) (launched s) in
  let w := setStatus "Stopping services..." w in
  let w := Upd.on_ui (Upd.set_valDisplay "---") w in
  let s := match taskId s with
           | Some (S n) => mkShell (startEnabled s) (stopEnabled s) None
                                   (cancel (S n) (scheduled s)) (alerts s) (launched s)
           | _ => s
           end in
  (s, setStatus "Stopped." w).

End Script.
End Controls.

(** ** Further observations *)

(** A position record whose [x] and [y] are finite numbers: what
    [tryPath] accepts. *)
Definition validPosition (p : jsval) : bool :=
  match JS.get p "x", JS.get p "y" with
  | Some px, Some py => JS.finite_number px && JS.finite_number py
  | _, _ => false
  end.

(** The timestamp that [tryPath] takes from a parsed record:
    [(parsed && (parsed._ts || parsed.timestamp)) || 0]. *)
Definition positionStamp (parsed : jsval) : jsval :=
  JS.or (if JS.truthy parsed
         then match JS.get parsed "_ts", JS.get parsed "timestamp" with
              | Some a, Some b => JS.or a b
              | _, _ => JUndefined
              end
         else parsed)
        (JNum Num.zero).

(** The record is stamped as the last one seen was. *)
Definition sameStamp (parsed : jsval) (v : Vars) : bool :=
  JS.truthy (positionStamp parsed) && JS.strictEq (positionStamp parsed) (lastPositionTS v).

(** Every character of a string passes a test. *)
Fixpoint allChars (p : ascii -> bool) (s : string) : bool :=
  match s with
  | EmptyString => true
  | String a r => p a && allChars p r
  end.

(** The characters of the base of a mapping file name. *)
Definition safeChar (a : ascii) : bool := isAlnum a || Ascii.eqb a "_"%char.

(** An entry of the property list that refers to a property of the
    application with a numeric value now, and agrees with it. *)
Definition adjustable (valueAtTime : list keyframe -> num -> jsval)
           (h : Host) (p : PropInfo) : Prop :=
  match nth_error (properties h) (pi_prop p) with
  | Some prop =>
      pi_currentValue p = Panel.propValue valueAtTime (hostTime h) prop /\
      hasNumericValue (pi_currentValue p) = true /\
      pi_valueType p = p_valueType prop /\
      pi_matchName p = p_matchName prop
  | None => False
  end.

(** The lists of the panel: the effects and properties the script
    holds, and the dropdowns that show them. *)
Definition lists (w : World)
  : list EffectInfo * list PropInfo * Dropdown * Dropdown * list Dropdown :=
  (currentEffects (vars w), currentProperties (vars w),
   effectDropdown (ui w), propDropdown (ui w), keypadDropdowns (ui w)).

(** An item of the dropdown is selected, below a bound. *)
Definition selectionWithin (bound : nat) (d : Dropdown) : Prop :=
  exists i, dd_selection d = Some i /\ i < bound.

(** The effect dropdown shows the effects held, one of them selected. *)
Definition effectsListed (w : World) : Prop :=
  currentEffects (vars w) = [] \/
  (dd_items (effectDropdown (ui w)) = map ei_name (currentEffects (vars w)) /\
   selectionWithin (List.length (currentEffects (vars w))) (effectDropdown (ui w))).

(** The property dropdown shows the properties held, one of them
    selected. *)
Definition propertiesListed (w : World) : Prop :=
  currentProperties (vars w) = [] \/
  (dd_items (propDropdown (ui w)) = map pi_name (currentProperties (vars w)) /\
   selectionWithin (List.length (currentProperties (vars w))) (propDropdown (ui w))).

(** A keypad dropdown shows "(none)" and the properties held; the
    selection is one of these. *)
Definition keypadListed (props : list PropInfo) (d : Dropdown) : Prop :=
  dd_items d = "(none)" :: map pi_name props /\
  selectionWithin (S (List.length props)) d.

Definition keypadsListed (w : World) : Prop :=
  currentEffects (vars w) = [] \/
  Forall (keypadListed (currentProperties (vars w))) (keypadDropdowns (ui w)).

Definition listed (w : World) : Prop :=
  effectsListed w /\ propertiesListed w /\ keypadsListed w.

(** The button names that [checkButtons] acts on. *)
Definition knownButtons : list string :=
  ["TOP RIGHT"; "TOP LEFT"; "BOTTOM RIGHT"; "BOTTOM LEFT";
   "1"; "2"; "3"; "4"; "5"; "6"; "7"; "8"; "9"].

(** Where keypad 7 and keypad 9 can lead from [w]: the status line is
    set, and the playhead may be on a keyframe of the property. *)
Definition jumped (p : PropInfo) (w w' : World) : Prop :=
  exists status,
    w' = Panel.setStatus status w \/
    exists prop k,
      AE.lookupProperty (host w) (pi_prop p) = Ok prop /\ In k (p_keys prop) /\
      w' = Panel.setStatus status (Panel.setCompTime (fst k) w).

(** What the mappings hold for a keypad dropdown: the name of the
    property it selects, if it selects one. *)
Definition mappedName (props : list PropInfo) (d : Dropdown) : option jsval :=
  match dd_selection d with
  | Some (S j) =>
      match nth_error props j with
      | Some p => Some (JStr (pi_name p))
      | None => None
      end
  | _ => None
  end.

(** The ids scheduled and not cancelled are the one registered in
    [$.global.logi_receiver_task_id], if one is. *)
Definition oneTask (s : Shell) : Prop :=
  scheduled s = match taskId s with Some (S n) => [S n] | _ => [] end.

(** ** A concrete environment *)

Module Demo.

Definition position (x y : Z) : jsval :=
  JObj [("x", JNum (Num.ofZ x)); ("y", JNum (Num.ofZ y))].

Definition button (name : string) (timestamp : Z) : jsval :=
  JObj [("button", JStr name); ("pressed", JBool true);
        ("timestamp", JNum (Num.ofZ timestamp))].

(** A parser that knows a handful of texts. *)
Definition JSON_parse (s : string) : option jsval :=
  if String.eqb s "{x:10,y:0}" then Some (position 10 0)
  else if String.eqb s "{x:15,y:0}" then Some (position 15 0)
  else if String.eqb s "{x:20,y:0}" then Some (position 20 0)
  else if String.eqb s "{x:900,y:0}" then Some (position 900 0)
  else if String.eqb s "{x:15,y:700}" then Some (position 15 700)
  else if String.eqb s "{button:'TOP RIGHT',pressed:true,timestamp:1000}"
  then Some (button "TOP RIGHT" 1000)
  else if String.eqb s "{button:'TOP RIGHT',pressed:true,timestamp:0}"
  then Some (button "TOP RIGHT" 0)
  else if String.eqb s "{button:'8',pressed:true,timestamp:1000}"
  then Some (button "8" 1000)
  else None.

Definition parseFloat (s : string) : num :=
  if String.eqb s "0.1" then Num.tenth
  else if String.eqb s "1" then Num.one
  else Num.nan.

Definition toFixed (x : num) (d : nat) : string := "#".
Definition toStr (v : jsval) : string := "?".

(** The value of the latest keyframe not after the time. *)
Fixpoint valueAtTime (ks : list keyframe) (t : num) : jsval :=
  match ks with
  | [] => JUndefined
  | k :: r =>
      match r with
      | [] => snd k
      | k' :: _ => if Num.ltb t (fst k') then snd k else valueAtTime r t
      end
  end.

Definition faultMessage (f : Fault) : string :=
  match f with
  | InvalidObject => "Object is invalid"
  | KeyframedSetValue => "Property has keyframes"
  | BadKeyIndex => "Index out of range"
  | TypeError => "undefined is not an object"
  end.

Definition looseLe (a b : jsval) : bool := false.

Definition fallbackCandidates : list string := ["C:/temp"].

(** One composition with three layers; the first, selected, carries
    the effects Glow and Tint. *)
Definition opacity : Property :=
  mkProperty "Opacity" "ADBE Opacity" OneD (JNum (Num.ofZ 50)) [].

Definition color : Property :=
  mkProperty "Color" "ADBE Color" COLOR
    (JArr [JNum (Num.dec 95 100); JNum (Num.dec 1 2); JNum (Num.dec 1 4); JNum Num.one]) [].

Definition glow : Effect := mkEffect "Glow" [Leaf 0; Leaf 1].
Definition tint : Effect := mkEffect "Tint" [Leaf 1].
Definition blur : Effect := mkEffect "Blur" [Leaf 0].

Definition scene : Comp :=
  mkComp (Num.ofZ 1) (Num.ofZ 10) (Num.dec 1 25)
         [mkLayer "A" true [glow; tint; blur]; mkLayer "B" false []; mkLayer "C" false []].

Definition app : Host := mkHost (Some scene) [opacity; color] "12:00:00".

(** The files of the device host. *)
Definition files (pos btn : option string) : FileSystem :=
  fun path =>
    if String.eqb path POSITION_FILE then pos
    else if String.eqb path BUTTON_FILE then btn
    else None.

Definition noFiles : FileSystem := fun _ => None.

(** The panel once started on [app]: active, effects listed. *)
Definition started : World :=
  populateEffects JSON_parse valueAtTime noFiles
    (Upd.on_vars (Upd.set_isActive true) (initialWorld app)).

(** The operations of the two scripts in this environment. *)
Definition readPosition : FileSystem -> Vars -> jsval * Vars :=
  readPositionFile JSON_parse fallbackCandidates.

Definition readButton : FileSystem -> Vars -> jsval * Vars :=
  readButtonFile JSON_parse fallbackCandidates.

Definition poll : FileSystem -> World -> jsval * World :=
  pollFiles JSON_parse fallbackCandidates.

Definition dials : FileSystem -> World -> World :=
  updateProperty JSON_parse parseFloat toFixed valueAtTime faultMessage fallbackCandidates.

Definition buttons : FileSystem -> World -> World * option Fault :=
  checkButtons JSON_parse toFixed valueAtTime faultMessage looseLe fallbackCandidates.

Definition press : FileSystem -> World -> World :=
  fun fs => dispatchRest JSON_parse toFixed valueAtTime faultMessage fs (JStr "8").

Definition update : FileSystem -> World -> World * option Fault :=
  logiReceiverUpdate JSON_parse parseFloat toFixed valueAtTime faultMessage looseLe
    fallbackCandidates.

Definition legacyRead : FileSystem -> Vars -> jsval * Vars :=
  Legacy.readPositionFile JSON_parse.

Definition legacyDials : FileSystem -> World -> World :=
  Legacy.updateProperty JSON_parse parseFloat toFixed toStr valueAtTime faultMessage.

(** File systems with a dial position, and with a button event. *)
Definition dialAt (text : string) : FileSystem := files (Some text) None.
Definition event (text : string) : FileSystem := files None (Some text).

(** The panel after a first dial sample [x = 10], with Opacity selected;
    the same for the earlier script. *)
Definition dialed : World := dials (dialAt "{x:10,y:0}") started.
Definition legacyDialed : World := legacyDials (dialAt "{x:10,y:0}") started.

Definition opacityInfo : PropInfo :=
  mkPropInfo "Opacity" 1 0 OneD (JNum (Num.ofZ 50)) "ADBE Opacity".

Definition colorInfo : PropInfo :=
  mkPropInfo "Color" 2 1 COLOR (p_static color) "ADBE Color".

(** The same with Color selected and the sensitivity field at 1. *)
Definition onColor (w : World) : World :=
  Upd.on_ui (fun u => Upd.set_sensInput "1"
                        (Upd.set_propDropdown (DD.select 1 (propDropdown u)) u)) w.

(** Opacity with two keyframes half a millisecond apart, the playhead
    on the first. *)
Definition keyedOpacity : Property :=
  mkProperty "Opacity" "ADBE Opacity" OneD (JNum (Num.ofZ 50))
    [(Num.ofZ 1, JNum (Num.ofZ 50)); (Num.dec 10005 10000, JNum (Num.ofZ 60))].

Definition keyed : World :=
  Upd.on_host (AE.storeProperty 0 keyedOpacity) dialed.

(** A release of TOP RIGHT, and a parser that knows it too. *)
Definition released : jsval :=
  JObj [("button", JStr "TOP RIGHT"); ("pressed", JBool false);
        ("timestamp", JNum (Num.ofZ 2000))].

Definition JSON_parse_release (s : string) : option jsval :=
  if String.eqb s "{button:'TOP RIGHT',pressed:false,timestamp:2000}"
  then Some released
  else JSON_parse s.

(** The panel with Color on every keypad key. *)
Definition mapped : World :=
  Upd.on_ui (fun u => Upd.set_keypadDropdowns
                        (map (DD.select 2) (keypadDropdowns u)) u) dialed.

(** The earlier script on the keyframed Opacity. *)
Definition legacyKeyed : World :=
  Upd.on_host (AE.storeProperty 0 keyedOpacity) legacyDialed.

(** A file system where every path holds the same text. *)
Definition everywhere (text : string) : FileSystem := fun _ => Some text.

(** A writer that produces no usable text, on a disk that cannot be
    written: saving reaches the cache only. *)
Definition JSON_stringify (v : jsval) : string := "{}".
Definition canWrite (path : string) : bool := false.

(** The mappings of [mapped] saved, and the same state with the keypad
    dropdowns back on "(none)". *)
Definition saved : World :=
  snd (Controls.autoSaveMappings JSON_stringify canWrite noFiles mapped).

Definition cleared : World :=
  Upd.on_ui (fun u => Upd.set_keypadDropdowns
                        (map (DD.select 0) (keypadDropdowns u)) u) saved.

End Demo.

(** * Properties *)

Module NumFacts.

Lemma pos_compare_cont_eq (p q : positive) : Pos.compare_cont Eq p q = Pos.compare p q.
Proof. reflexivity. Qed.

Ltac order_cases :=
  repeat match goal with
    | H : context [Z.compare ?a ?b] |- _ => destruct (Z.compare_spec a b)
    | |- context [Z.compare ?a ?b] => destruct (Z.compare_spec a b)
    | H : context [Pos.compare_cont Eq ?a ?b] |- _ =>
        change (Pos.compare_cont Eq a b) with (Pos.compare a b) in H;
        destruct (Pos.compare_spec a b)
    | |- context [Pos.compare_cont Eq ?a ?b] =>
        change (Pos.compare_cont Eq a b) with (Pos.compare a b);
        destruct (Pos.compare_spec a b)
    end.

Ltac float_cases :=
  intros;
  repeat match goal with
    | x : spec_float |- _ => destruct x
    | x : num |- _ => destruct x
    | s : bool |- _ => destruct s
    end;
  simpl in *; try discriminate; try reflexivity; try congruence.

Lemma compare_refl (x : num) : Num.is_nan x = false -> SFcompare x x = Some Eq.
Proof.
  float_cases; rewrite Z.compare_refl, Pos.compare_cont_refl; reflexivity.
Qed.

Lemma compare_antisym (x y : num) :
  SFcompare y x = option_map CompOpp (SFcompare x y).
Proof.
  float_cases; order_cases; subst; simpl; try reflexivity; lia.
Qed.

Lemma compare_trans_lt (x y z : num) :
  SFcompare x y = Some Lt -> SFcompare y z = Some Lt -> SFcompare x z = Some Lt.
Proof.
  float_cases; order_cases; subst; simpl in *; try discriminate; try reflexivity;
    try lia.
Qed.

(** Rounding never produces [NaN]. *)

Lemma shr_1_nonneg (mrs : shr_record) :
  (0 <= shr_m mrs)%Z -> (0 <= shr_m (shr_1 mrs))%Z.
Proof.
  destruct mrs as [m r s]; simpl; intros H.
  destruct m as [|[]|]; simpl; lia.
Qed.

Lemma iter_shr_1_nonneg (p : positive) : forall mrs,
  (0 <= shr_m mrs)%Z -> (0 <= shr_m (iter_pos shr_1 p mrs))%Z.
Proof.
  induction p; simpl; intros mrs H; auto using shr_1_nonneg.
Qed.

Lemma shr_fexp_nonneg (m e : Z) (l : location) :
  (0 <= m)%Z -> (0 <= shr_m (fst (shr_fexp Num.prec Num.emax m e l)))%Z.
Proof.
  intros H. unfold shr_fexp, shr.
  assert (H0 : (0 <= shr_m (shr_record_of_loc m l))%Z)
    by (destruct l as [|[]]; simpl; exact H).
  destruct (_ - e)%Z; simpl; auto using iter_shr_1_nonneg.
Qed.

Lemma round_nearest_even_nonneg (m : Z) (l : location) :
  (0 <= m)%Z -> (0 <= round_nearest_even m l)%Z.
Proof.
  intros H. destruct l as [|[]]; simpl; try lia. destruct (Z.even m); lia.
Qed.

Lemma binary_round_aux_not_nan (sx : bool) (mx ex : Z) (lx : location) :
  (0 <= mx)%Z ->
  Num.is_nan (binary_round_aux Num.prec Num.emax sx mx ex lx) = false.
Proof.
  intros H. unfold binary_round_aux.
  pose proof (shr_fexp_nonneg mx ex lx H) as H1.
  destruct (shr_fexp Num.prec Num.emax mx ex lx) as [mrs' e']; simpl in H1.
  pose proof (shr_fexp_nonneg _ e' loc_Exact
                (round_nearest_even_nonneg _ (loc_of_shr_record mrs') H1)) as H2.
  destruct (shr_fexp Num.prec Num.emax _ e' loc_Exact) as [mrs'' e'']; simpl in H2.
  destruct (shr_m mrs''); try lia; try reflexivity.
  destruct (_ <=? _)%Z; reflexivity.
Qed.

Lemma binary_normalize_not_nan (m e : Z) (s : bool) :
  Num.is_nan (binary_normalize Num.prec Num.emax m e s) = false.
Proof.
  destruct m; simpl; try reflexivity; unfold binary_round;
    destruct (shl_align _ _ _); apply binary_round_aux_not_nan; lia.
Qed.

Lemma add_not_nan (a b : num) :
  Num.isFinite a = true -> Num.is_nan b = false -> Num.is_nan (Num.add a b) = false.
Proof.
  destruct a, b; try discriminate; intros _ _; try reflexivity;
    try (destruct s, s0; reflexivity).
  apply binary_normalize_not_nan.
Qed.

Lemma sub_not_nan (a b : num) :
  Num.isFinite a = true -> Num.is_nan b = false -> Num.is_nan (Num.sub a b) = false.
Proof.
  destruct a, b; try discriminate; intros _ _; try reflexivity;
    try (destruct s, s0; reflexivity).
  apply binary_normalize_not_nan.
Qed.

Lemma mul_not_nan (a b : num) :
  Num.isFinite a = true -> Num.is_zero a = false -> Num.is_nan b = false ->
  Num.is_nan (Num.mul a b) = false.
Proof.
  destruct a, b; try discriminate; intros _ _ _; try reflexivity.
  apply binary_round_aux_not_nan; lia.
Qed.

Lemma mul_not_nan_r (a b : num) :
  Num.isFinite b = true -> Num.is_zero b = false -> Num.is_nan a = false ->
  Num.is_nan (Num.mul a b) = false.
Proof.
  destruct a, b; try discriminate; intros _ _ _; try reflexivity.
  apply binary_round_aux_not_nan; lia.
Qed.

(** A finite number minus itself is [+0]. *)
Lemma sub_diag (x : num) : Num.isFinite x = true -> Num.sub x x = Num.zero.
Proof.
  destruct x; try discriminate; intros _.
  - destruct s; reflexivity.
  - unfold Num.sub, SFsub. rewrite Z.sub_diag. reflexivity.
Qed.

(** Equal numbers have a zero difference. *)
Lemma eqb_sub_zero (x l : num) :
  Num.isFinite x = true -> Num.eqb x l = true -> Num.is_zero (Num.sub x l) = true.
Proof.
  unfold Num.eqb, SFeqb.
  destruct x as [s| | |s m e], l as [s'|s'| |s' m' e']; try discriminate;
    try (destruct s, s'; simpl; intros; try reflexivity; discriminate).
  intros _ H.
  assert (E : s = s' /\ e = e' /\ m = m').
  { destruct s, s'; simpl in H; try discriminate;
      order_cases; try discriminate; subst; auto. }
  destruct E as (-> & -> & ->).
  unfold Num.sub, SFsub. rewrite Z.sub_diag. reflexivity.
Qed.

Lemma eqb_zero_of_is_zero (d : num) : Num.is_zero d = true -> Num.eqb d Num.zero = true.
Proof. destruct d; try discriminate. reflexivity. Qed.

Lemma zero_within (d m : num) :
  Num.is_zero d = true -> Num.ltb Num.zero m = true -> Num.gtb (Num.abs d) m = false.
Proof.
  destruct d; try discriminate. intros _. unfold Num.gtb, Num.ltb, SFltb. simpl.
  destruct m as [|[]| |[]]; simpl; intros; try discriminate; reflexivity.
Qed.

Lemma leb_refl (x : num) : Num.is_nan x = false -> Num.leb x x = true.
Proof. intros H. unfold Num.leb, SFleb. rewrite (compare_refl x H). reflexivity. Qed.

Lemma ltb_leb (x y : num) : Num.ltb x y = true -> Num.leb x y = true.
Proof. unfold Num.ltb, Num.leb, SFltb, SFleb. destruct (SFcompare x y) as [[]|]; auto. Qed.

Lemma ltb_trans (x y z : num) :
  Num.ltb x y = true -> Num.ltb y z = true -> Num.ltb x z = true.
Proof.
  unfold Num.ltb, SFltb. intros H1 H2.
  destruct (SFcompare x y) as [[]|] eqn:E1; try discriminate.
  destruct (SFcompare y z) as [[]|] eqn:E2; try discriminate.
  rewrite (compare_trans_lt _ _ _ E1 E2). reflexivity.
Qed.

(** Without [NaN] the order is total. *)
Lemma ltb_false_leb (x y : num) :
  Num.is_nan x = false -> Num.is_nan y = false ->
  Num.ltb x y = false -> Num.leb y x = true.
Proof.
  unfold Num.ltb, Num.leb, SFltb, SFleb. intros Nx Ny. rewrite (compare_antisym x y).
  destruct (SFcompare x y) as [[]|] eqn:E; simpl; auto.
  destruct x, y; simpl in *; discriminate.
Qed.

Lemma leb_false_ltb (x y : num) :
  Num.is_nan x = false -> Num.is_nan y = false ->
  Num.leb x y = false -> Num.ltb y x = true.
Proof.
  unfold Num.ltb, Num.leb, SFltb, SFleb. intros Nx Ny. rewrite (compare_antisym x y).
  destruct (SFcompare x y) as [[]|] eqn:E; simpl; auto.
  destruct x, y; simpl in *; discriminate.
Qed.

Lemma compare_trans_eq_lt (x y z : num) :
  SFcompare x y = Some Eq -> SFcompare y z = Some Lt -> SFcompare x z = Some Lt.
Proof.
  float_cases; order_cases; subst; simpl in *; try discriminate; try reflexivity;
    try lia.
Qed.

Lemma leb_ltb_trans (x y z : num) :
  Num.leb x y = true -> Num.ltb y z = true -> Num.ltb x z = true.
Proof.
  unfold Num.ltb, Num.leb, SFltb, SFleb. intros H1 H2.
  destruct (SFcompare y z) as [[]|] eqn:E2; try discriminate.
  destruct (SFcompare x y) as [[]|] eqn:E1; try discriminate.
  - rewrite (compare_trans_eq_lt _ _ _ E1 E2). reflexivity.
  - rewrite (compare_trans_lt _ _ _ E1 E2). reflexivity.
Qed.

Lemma compare_none (x y : num) :
  SFcompare x y = None -> Num.is_nan x = true \/ Num.is_nan y = true.
Proof. destruct x, y; simpl; intros; try discriminate; auto. Qed.

(** [Math.max(0, Math.min(1, v))] lies between [0] and [1]. *)
Lemma clamp_unit (v : num) :
  Num.is_nan v = false ->
  Num.leb Num.zero (Num.max Num.zero (Num.min Num.one v)) = true /\
  Num.leb (Num.max Num.zero (Num.min Num.one v)) Num.one = true.
Proof.
  intros N.
  assert (M : Num.min Num.one v = Num.one \/
              (Num.min Num.one v = v /\ Num.leb v Num.one = true)).
  { unfold Num.min, Num.leb, SFleb. rewrite (compare_antisym Num.one v).
    destruct (SFcompare Num.one v) as [[]|] eqn:E; simpl; auto.
    destruct (compare_none _ _ E) as [H|H]; [discriminate|congruence]. }
  destruct M as [->|[-> L]]; [split; reflexivity|].
  unfold Num.max, Num.leb, SFleb in *.
  destruct (SFcompare Num.zero v) as [[]|] eqn:E; cbv beta iota.
  - split; reflexivity.
  - rewrite E. split; [reflexivity|exact L].
  - split; reflexivity.
  - destruct (compare_none _ _ E) as [H|H]; [discriminate|congruence].
Qed.

Lemma numOr_ok (x dflt : num) :
  Num.is_nan dflt = false -> Num.is_nan (JS.numOr x dflt) = false.
Proof.
  unfold JS.numOr. destruct x; simpl; auto.
Qed.

(** A difference that is a number within a finite bound is finite. *)
Lemma bounded_finite (d m : num) :
  Num.is_nan d = false -> Num.isFinite m = true ->
  Num.gtb (Num.abs d) m = false -> Num.isFinite d = true.
Proof.
  destruct d as [| | |]; simpl; auto; try discriminate.
  intros _. destruct m; simpl; discriminate.
Qed.

End NumFacts.
Section Facts.

Variable JSON_parse : string -> option jsval.
Variable parseFloat : string -> num.
Variable toFixed : num -> nat -> string.
Variable toStr : jsval -> string.
Variable valueAtTime : list keyframe -> num -> jsval.
Variable faultMessage : Fault -> string.
Variable looseLe : jsval -> jsval -> bool.
Variable fallbackCandidates : list string.

Local Abbreviation readPositionFile := (readPositionFile JSON_parse fallbackCandidates).
Local Abbreviation readButtonFile := (readButtonFile JSON_parse fallbackCandidates).
Local Abbreviation populateProperties := (populateProperties valueAtTime).
Local Abbreviation populateEffects := (populateEffects JSON_parse valueAtTime).
Local Abbreviation autoLoadMappings := (autoLoadMappings JSON_parse).
Local Abbreviation selectLayerByIndex := (selectLayerByIndex JSON_parse valueAtTime).
Local Abbreviation pollFiles := (pollFiles JSON_parse fallbackCandidates).
Local Abbreviation checkButtons :=
  (checkButtons JSON_parse toFixed valueAtTime faultMessage looseLe fallbackCandidates).
Local Abbreviation dispatchButton :=
  (dispatchButton JSON_parse toFixed valueAtTime faultMessage).
Local Abbreviation updateProperty :=
  (updateProperty JSON_parse parseFloat toFixed valueAtTime faultMessage fallbackCandidates).

(** *** What the state channel leaves alone *)


Ltac split_matches :=
  repeat match goal with
    | |- context [match ?x with _ => _ end] => destruct x eqn:?
    | |- context [if ?x then _ else _] => destruct x eqn:?
    end.

Lemma tryPath_shape (fs : FileSystem) (path : string) (v : Vars) :
  exists raw ts pos,
    snd (tryPath JSON_parse fs path v) = positionFields raw ts pos v.
Proof.
  destruct v. unfold tryPath, positionFields.
  split_matches;
    unfold Upd.set_lastRawPositionContent, Upd.set_lastPositionTS,
      Upd.set_lastValidPosition; simpl;
    do 3 eexists; reflexivity.
Qed.

Lemma positionFields_merge (raw raw' : string) (ts ts' pos pos' : jsval) (v : Vars) :
  positionFields raw ts pos (positionFields raw' ts' pos' v) = positionFields raw ts pos v.
Proof. reflexivity. Qed.

Lemma tryFallbacks_shape (fs : FileSystem) (cands : list string) : forall v,
  exists raw ts pos,
    snd (tryFallbacks JSON_parse fs cands v) = positionFields raw ts pos v.
Proof.
  induction cands as [|c rest IH]; intros v; simpl.
  - destruct v; do 3 eexists; reflexivity.
  - destruct (String.eqb c ""); [apply IH|].
    destruct (tryPath_shape fs (Str.dropTrailingSlash c ++ "/logi_position.json") v)
      as (raw & ts & pos & E).
    destruct (tryPath JSON_parse fs _ v) as [res v1]; simpl in E; subst v1.
    destruct (JS.truthy res); simpl.
    + do 3 eexists; reflexivity.
    + destruct (IH (positionFields raw ts pos v)) as (raw' & ts' & pos' & E').
      rewrite E', positionFields_merge. do 3 eexists; reflexivity.
Qed.

Lemma readPositionFile_shape (fs : FileSystem) (v : Vars) :
  exists raw ts pos,
    snd (readPositionFile fs v) = positionFields raw ts pos v.
Proof.
  unfold Panel.readPositionFile.
  destruct (tryPath_shape fs POSITION_FILE (Upd.set_lastRawPositionContent "" v))
    as (raw & ts & pos & E).
  destruct (tryPath JSON_parse fs POSITION_FILE _) as [res v1]; simpl in E; subst v1.
  destruct (JS.truthy res); simpl.
  - destruct v; do 3 eexists; reflexivity.
  - match goal with |- context [tryFallbacks _ _ _ ?v0] =>
      destruct (tryFallbacks_shape fs fallbackCandidates v0) as (raw' & ts' & pos' & E')
    end.
    destruct (tryFallbacks JSON_parse fs fallbackCandidates _) as [res' v2];
      simpl in E'; subst v2.
    destruct (JS.truthy res'); simpl.
    + destruct v; do 3 eexists; reflexivity.
    + unfold markMissingPosition. destruct v; simpl.
      destruct (String.eqb raw' ""); do 3 eexists; reflexivity.
Qed.

Lemma tryPathB_shape (fs : FileSystem) (path : string) (v : Vars) :
  exists raw, snd (tryPathB JSON_parse fs path v) = Upd.set_lastRawButtonContent raw v.
Proof.
  destruct v. unfold tryPathB.
  split_matches; unfold Upd.set_lastRawButtonContent; simpl; eexists; reflexivity.
Qed.

Lemma tryFallbacksB_shape (fs : FileSystem) (cands : list string) : forall v,
  exists raw, snd (tryFallbacksB JSON_parse fs cands v) = Upd.set_lastRawButtonContent raw v.
Proof.
  induction cands as [|c rest IH]; intros v; simpl.
  - destruct v; eexists; reflexivity.
  - destruct (String.eqb c ""); [apply IH|].
    destruct (tryPathB_shape fs (Str.dropTrailingSlash c ++ "/logi_button.json") v)
      as (raw & E).
    destruct (tryPathB JSON_parse fs _ v) as [res v1]; simpl in E; subst v1.
    destruct (JS.truthy res); simpl.
    + eexists; reflexivity.
    + destruct (IH (Upd.set_lastRawButtonContent raw v)) as (raw' & E').
      rewrite E'. exists raw'. reflexivity.
Qed.

Lemma readButtonFile_shape (fs : FileSystem) (v : Vars) :
  exists raw, snd (readButtonFile fs v) = Upd.set_lastRawButtonContent raw v.
Proof.
  unfold Panel.readButtonFile.
  destruct (tryPathB_shape fs BUTTON_FILE (Upd.set_lastRawButtonContent "" v))
    as (raw & E).
  destruct (tryPathB JSON_parse fs BUTTON_FILE _) as [res v1]; simpl in E; subst v1.
  destruct (JS.truthy res); simpl.
  - exists raw; reflexivity.
  - match goal with |- context [tryFallbacksB _ _ _ ?v0] =>
      destruct (tryFallbacksB_shape fs fallbackCandidates v0) as (raw' & E')
    end.
    destruct (tryFallbacksB JSON_parse fs fallbackCandidates _) as [res' v2];
      simpl in E'; subst v2.
    destruct (JS.truthy res'); simpl.
    + exists raw'; reflexivity.
    + unfold markMissingButton. simpl.
      destruct (String.eqb raw' ""); eexists; reflexivity.
Qed.

(** *** Reads that fail everywhere *)

Ltac settle :=
  try discriminate;
  repeat match goal with
    | |- _ /\ _ => split
    | |- _ -> _ => intro
    end; try discriminate; auto.

Lemma tryPath_unusable (fs : FileSystem) (path : string) (v : Vars) :
  positionUsable JSON_parse fs path = false ->
  lastValidPosition (snd (tryPath JSON_parse fs path v)) = lastValidPosition v /\
  (JS.truthy (fst (tryPath JSON_parse fs path v)) = true ->
   fst (tryPath JSON_parse fs path v) = lastValidPosition v).
Proof.
  unfold positionUsable, tryPath. destruct (fs path) as [c|]; [|simpl; settle].
  destruct (String.eqb c ""); simpl; [settle|].
  destruct (Str.braced (Str.trim c)); simpl; [|settle].
  destruct (JSON_parse (Str.trim c)) as [parsed|]; [|simpl; settle].
  intros U.
  match goal with |- context [if ?b then (lastValidPosition _, _) else _] => destruct b end;
    [destruct v; simpl; auto|].
  assert (F : forall v0 : Vars,
             lastValidPosition
               (snd (match JS.get parsed "x", JS.get parsed "y" with
                     | Some px, Some py =>
                         if JS.finite_number px && JS.finite_number py
                         then (parsed, Upd.set_lastValidPosition parsed v0)
                         else (JNull, v0)
                     | _, _ => (JNull, v0)
                     end)) = lastValidPosition v0 /\
             fst (match JS.get parsed "x", JS.get parsed "y" with
                  | Some px, Some py =>
                      if JS.finite_number px && JS.finite_number py
                      then (parsed, Upd.set_lastValidPosition parsed v0)
                      else (JNull, v0)
                  | _, _ => (JNull, v0)
                  end) = JNull).
  { intros v0. destruct (JS.get parsed "x"), (JS.get parsed "y"); simpl; auto.
    rewrite U. simpl. auto. }
  match goal with |- context [if ?b then Upd.set_lastPositionTS _ _ else _] => destruct b end;
    match goal with |- context [snd (match _ with _ => _ end)] => idtac end;
    match goal with
      |- lastValidPosition (snd ?m) = _ /\ _ =>
        match m with
        | context [Upd.set_lastValidPosition parsed ?v0] =>
            destruct (F v0) as [F1 F2]; rewrite F1, F2
        end
    end; destruct v; simpl; settle.
Qed.

Lemma tryFallbacks_unusable (fs : FileSystem) (cands : list string) : forall v,
  Forall (fun p => positionUsable JSON_parse fs p = false)
         (candidatePaths cands "/logi_position.json") ->
  lastValidPosition (snd (tryFallbacks JSON_parse fs cands v)) = lastValidPosition v /\
  (JS.truthy (fst (tryFallbacks JSON_parse fs cands v)) = true ->
   fst (tryFallbacks JSON_parse fs cands v) = lastValidPosition v).
Proof.
  unfold candidatePaths.
  induction cands as [|c rest IH]; intros v U; simpl in *.
  - settle.
  - destruct (String.eqb c ""); simpl in U; [auto|].
    inversion U as [|? ? U1 U2]; subst.
    destruct (tryPath_unusable fs (Str.dropTrailingSlash c ++ "/logi_position.json") v U1)
      as [P1 P2].
    destruct (tryPath JSON_parse fs _ v) as [res v1]; simpl in *.
    destruct (JS.truthy res) eqn:T; simpl.
    + auto.
    + destruct (IH v1 U2) as [Q1 Q2]. rewrite Q1, P1. split; [reflexivity|].
      intros T'. rewrite (Q2 T'). exact P1.
Qed.

Lemma readPositionFile_all_unusable (fs : FileSystem) (v : Vars) :
  Forall (fun p => positionUsable JSON_parse fs p = false)
         (positionPaths fallbackCandidates) ->
  fst (readPositionFile fs v) = lastValidPosition v /\
  lastValidPosition (snd (readPositionFile fs v)) = lastValidPosition v.
Proof.
  unfold positionPaths. intros U. inversion U as [|? ? U1 U2]; subst.
  unfold Panel.readPositionFile.
  destruct (tryPath_unusable fs POSITION_FILE (Upd.set_lastRawPositionContent "" v) U1)
    as [P1 P2].
  destruct (tryPath JSON_parse fs POSITION_FILE _) as [res v1]; simpl in *.
  destruct (JS.truthy res) eqn:T; simpl.
  - rewrite P1, (P2 eq_refl). destruct v; auto.
  - destruct (tryFallbacks_unusable fs fallbackCandidates v1 U2) as [Q1 Q2].
    destruct (tryFallbacks JSON_parse fs fallbackCandidates v1) as [res' v2]; simpl in *.
    destruct (JS.truthy res') eqn:T'; simpl.
    + rewrite Q1, (Q2 eq_refl), P1. destruct v; auto.
    + unfold markMissingPosition.
      destruct (String.eqb (lastRawPositionContent v2) ""); simpl;
        rewrite Q1, P1; destruct v; auto.
Qed.

Lemma tryPathB_unusable (fs : FileSystem) (path : string) (v : Vars) :
  buttonUsable JSON_parse fs path = false ->
  JS.truthy (fst (tryPathB JSON_parse fs path v)) = false.
Proof.
  unfold buttonUsable, tryPathB. destruct (fs path) as [c|]; [|reflexivity].
  destruct (String.eqb c ""); simpl; [reflexivity|].
  destruct (Str.braced (Str.trim c)); simpl; [|reflexivity].
  destruct (JSON_parse (Str.trim c)); simpl; auto.
Qed.

Lemma tryFallbacksB_unusable (fs : FileSystem) (cands : list string) : forall v,
  Forall (fun p => buttonUsable JSON_parse fs p = false)
         (candidatePaths cands "/logi_button.json") ->
  JS.truthy (fst (tryFallbacksB JSON_parse fs cands v)) = false.
Proof.
  unfold candidatePaths.
  induction cands as [|c rest IH]; intros v U; simpl in *; [reflexivity|].
  destruct (String.eqb c ""); simpl in U; [auto|].
  inversion U as [|? ? U1 U2]; subst.
  pose proof (tryPathB_unusable fs (Str.dropTrailingSlash c ++ "/logi_button.json") v U1) as P.
  destruct (tryPathB JSON_parse fs _ v) as [res v1]; simpl in *.
  rewrite P. auto.
Qed.

Lemma readButtonFile_all_unusable (fs : FileSystem) (v : Vars) :
  Forall (fun p => buttonUsable JSON_parse fs p = false)
         (buttonPaths fallbackCandidates) ->
  fst (readButtonFile fs v) = JNull.
Proof.
  unfold buttonPaths. intros U. inversion U as [|? ? U1 U2]; subst.
  unfold Panel.readButtonFile.
  pose proof (tryPathB_unusable fs BUTTON_FILE (Upd.set_lastRawButtonContent "" v) U1) as P.
  destruct (tryPathB JSON_parse fs BUTTON_FILE _) as [res v1]; simpl in *.
  rewrite P.
  pose proof (tryFallbacksB_unusable fs fallbackCandidates v1 U2) as Q.
  destruct (tryFallbacksB JSON_parse fs fallbackCandidates v1) as [res' v2]; simpl in *.
  rewrite Q. reflexivity.
Qed.

(** *** What navigation leaves alone *)


Ltac norm_upd :=
  cbv beta iota zeta delta
      [navFields positionFields setStatus Upd.on_vars Upd.on_ui Upd.on_host
       Upd.set_vars Upd.set_ui Upd.set_host
       Upd.set_isActive Upd.set_currentEffects Upd.set_currentProperties
       Upd.set_isLoadingMappings Upd.set_mappingsCache Upd.set_lastDialValue
       Upd.set_lastSmallDialValue Upd.set_lastLayerName Upd.set_lastButtonTimestamp
       Upd.set_lastRawPositionContent Upd.set_lastRawButtonContent
       Upd.set_lastPositionTS Upd.set_lastValidPosition
       Upd.set_statusText Upd.set_layerText Upd.set_valDisplay Upd.set_heartbeatText
       Upd.set_posExistsText Upd.set_posRawText Upd.set_btnExistsText
       Upd.set_btnRawText
       Upd.set_effectDropdown Upd.set_propDropdown Upd.set_keypadDropdowns
       host vars ui
       isActive lastDialValue lastSmallDialValue lastLayerName currentEffects
       currentProperties lastButtonTimestamp mappingsCache isLoadingMappings
       lastRawPositionContent lastRawButtonContent verboseDebug lastPositionTS
       lastValidPosition
       statusText layerText valDisplay heartbeatText posExistsText posRawText
       btnExistsText btnRawText effectDropdown propDropdown keypadDropdowns
       sensInput sensInputTimeline].

Lemma populateProperties_shape (w : World) :
  exists cp u,
    populateProperties w = mkWorld (host w) (Upd.set_currentProperties cp (vars w)) u /\
    effectDropdown u = effectDropdown (ui w) /\
    keypadDropdowns u = keypadDropdowns (ui w).
Proof.
  destruct w as [h v u]. unfold Panel.populateProperties. norm_upd.
  destruct (_ || _);
    [|destruct (nth_error _ _) as [ei|];
      [destruct (getEffectProperties _ _ _ _)|]];
    do 2 eexists; (split; [reflexivity|]); split; reflexivity.
Qed.

Lemma updateKeypadDropdowns_shape (w : World) :
  exists u,
    updateKeypadDropdowns w = mkWorld (host w) (Upd.set_isLoadingMappings false (vars w)) u /\
    effectDropdown u = effectDropdown (ui w) /\
    propDropdown u = propDropdown (ui w).
Proof.
  destruct w as [h v u]. unfold updateKeypadDropdowns. norm_upd.
  eexists; (split; [reflexivity|]); split; reflexivity.
Qed.

Lemma autoLoadMappings_shape (fs : FileSystem) (w : World) :
  exists mc u,
    autoLoadMappings fs w =
      mkWorld (host w)
              (Upd.set_isLoadingMappings false (Upd.set_mappingsCache mc (vars w))) u /\
    effectDropdown u = effectDropdown (ui w) /\
    propDropdown u = propDropdown (ui w).
Proof.
  destruct w as [h v u]. destruct v. unfold Panel.autoLoadMappings. norm_upd.
  destruct (_ || _);
    [|destruct (nth_error _ _) as [ei|];
      [destruct (JS.truthy (cacheGet _ _));
       [|destruct (fs _); [destruct (JSON_parse _) as [m|]; [destruct (JS.truthy m)|]|]]|]];
    cbv beta iota; do 2 eexists; (split; [reflexivity|]); split; reflexivity.
Qed.

Lemma populateEffects_shape (fs : FileSystem) (w : World) :
  exists ce cp lm mc u,
    populateEffects fs w = mkWorld (host w) (navFields ce cp lm mc (vars w)) u.
Proof.
  destruct w as [h v u]. destruct v. unfold Panel.populateEffects. norm_upd.
  destruct (activeItem h) as [comp|];
    [destruct (AE.selectedLayer0 comp) as [[i layer]|];
     [destruct (getLayerEffects layer) eqn:GE|]|];
    try (do 5 eexists; reflexivity).
  match goal with |- context [Panel.populateProperties _ ?w0] =>
    destruct (populateProperties_shape w0) as (cp & u1 & -> & _ & _) end.
  match goal with |- context [updateKeypadDropdowns ?w0] =>
    destruct (updateKeypadDropdowns_shape w0) as (u2 & -> & _ & _) end.
  match goal with |- context [Panel.autoLoadMappings _ _ ?w0] =>
    destruct (autoLoadMappings_shape fs w0) as (mc & u3 & -> & _ & _) end.
  norm_upd. do 5 eexists; reflexivity.
Qed.

Lemma host_populateEffects (fs : FileSystem) (w : World) :
  host (populateEffects fs w) = host w.
Proof.
  destruct (populateEffects_shape fs w) as (ce & cp & lm & mc & u & ->). reflexivity.
Qed.

(** *** The dial pass *)

Local Abbreviation scrubTimeline := (scrubTimeline parseFloat).
Local Abbreviation adjustProperty :=
  (adjustProperty parseFloat toFixed valueAtTime faultMessage).
Local Abbreviation applyDials :=
  (applyDials parseFloat toFixed valueAtTime faultMessage).

Lemma setCompTime_frame (t : num) (w : World) :
  properties (host (setCompTime t w)) = properties (host w) /\
  vars (setCompTime t w) = vars w /\ ui (setCompTime t w) = ui w.
Proof.
  unfold setCompTime. destruct (activeItem (host w)); simpl; auto.
Qed.

Lemma scrubTimeline_frame (d : num) (w : World) :
  properties (host (scrubTimeline d w)) = properties (host w) /\
  vars (scrubTimeline d w) = vars w /\ ui (scrubTimeline d w) = ui w.
Proof.
  unfold Panel.scrubTimeline. destruct (activeItem (host w)); auto.
  apply setCompTime_frame.
Qed.

Lemma writeValue_frame (propInfo : PropInfo) (prop : Property) (v : jsval)
      (shown label : string) (w w' : World) :
  writeValue propInfo prop v shown label w = Ok w' ->
  vars w' = vars w /\ activeItem (host w') = activeItem (host w) /\
  sensInput (ui w') = sensInput (ui w) /\
  effectDropdown (ui w') = effectDropdown (ui w) /\
  propDropdown (ui w') = propDropdown (ui w).
Proof.
  unfold Panel.writeValue. destruct (0 <? AE.numKeys prop).
  - intros E; inversion E; subst; clear E. destruct w as [h vv u]; simpl. auto.
  - destruct (AE.setValue prop v); simpl; [|discriminate].
    intros E; inversion E; subst; clear E. destruct w as [h vv u]; simpl. auto.
Qed.

Lemma adjustProperty_frame (propInfo : PropInfo) (d : num) (w : World) :
  vars (adjustProperty propInfo d w) = vars w /\
  activeItem (host (adjustProperty propInfo d w)) = activeItem (host w) /\
  sensInput (ui (adjustProperty propInfo d w)) = sensInput (ui w) /\
  effectDropdown (ui (adjustProperty propInfo d w)) = effectDropdown (ui w) /\
  propDropdown (ui (adjustProperty propInfo d w)) = propDropdown (ui w).
Proof.
  unfold Panel.adjustProperty.
  destruct (AE.lookupProperty (host w) (pi_prop propInfo)) as [prop|f];
    [|destruct w; simpl; auto].
  match goal with |- context [match ?a with Ok _ => _ | Throw _ => _ end] =>
    destruct a as [w'|f] eqn:E end; [|destruct w; simpl; auto].
  destruct (propValue valueAtTime (hostTime (host w)) prop) as [| |b|x|s|[|[] rest]|fs0];
    try (inversion E; subst; destruct w; simpl; auto; fail);
    try (eapply writeValue_frame; exact E).
Qed.

(** A tick whose limited delta is [0] writes no property. *)
Lemma applyDials_idle (propInfo : PropInfo) (px py : jsval) (w : World) :
  (forall x, px = JNum x ->
     Num.eqb (limitDelta Num.n200 (deltaFrom x (lastDialValue (vars w)))) Num.zero = true) ->
  properties (host (applyDials propInfo px py w)) = properties (host w).
Proof.
  intros H. unfold Panel.applyDials. destruct px as [| | |x| | |]; try reflexivity.
  specialize (H x eq_refl).
  destruct (negb (Num.isFinite x)); [reflexivity|].
  destruct (_ && _); [reflexivity|].
  rewrite H.
  match goal with |- context [if ?b then Panel.scrubTimeline _ ?d ?w0 else _] =>
    destruct b; [destruct (scrubTimeline_frame d w0) as [-> _]|] end;
    reflexivity.
Qed.

Lemma debugTexts_frame (w : World) :
  host (debugTexts w) = host w /\ vars (debugTexts w) = vars w /\
  sensInput (ui (debugTexts w)) = sensInput (ui w) /\
  sensInputTimeline (ui (debugTexts w)) = sensInputTimeline (ui w) /\
  effectDropdown (ui (debugTexts w)) = effectDropdown (ui w) /\
  propDropdown (ui (debugTexts w)) = propDropdown (ui w) /\
  keypadDropdowns (ui (debugTexts w)) = keypadDropdowns (ui w) /\
  statusText (ui (debugTexts w)) = statusText (ui w).
Proof.
  unfold debugTexts. destruct (verboseDebug (vars w)); destruct w; simpl; auto 10.
Qed.

Local Abbreviation polled := (Frame.polled JSON_parse fallbackCandidates).

Lemma polled_frame (fs : FileSystem) (w : World) :
  host (polled fs w) = host w /\
  (exists raw ts pos rawb,
      vars (polled fs w) =
        Upd.set_lastRawButtonContent rawb (positionFields raw ts pos (vars w))) /\
  sensInput (ui (polled fs w)) = sensInput (ui w) /\
  sensInputTimeline (ui (polled fs w)) = sensInputTimeline (ui w) /\
  effectDropdown (ui (polled fs w)) = effectDropdown (ui w) /\
  propDropdown (ui (polled fs w)) = propDropdown (ui w).
Proof.
  unfold Frame.polled.
  match goal with |- context [debugTexts ?w0] =>
    destruct (debugTexts_frame w0) as (-> & -> & -> & -> & -> & -> & _) end.
  destruct (readPositionFile_shape fs (vars w)) as (raw & ts & pos & ->).
  destruct (readButtonFile_shape fs (positionFields raw ts pos (vars w))) as (rawb & ->).
  simpl. repeat split; auto. do 4 eexists; reflexivity.
Qed.

(** In a steady state [updateProperty] goes straight to the dial
    values read from the position file. *)
Lemma updateProperty_steady (fs : FileSystem) (w : World) (propInfo : PropInfo) :
  steady w propInfo ->
  updateProperty fs w =
    match JS.get (fst (readPositionFile fs (vars w))) "x",
          JS.get (fst (readPositionFile fs (vars w))) "y" with
    | Some px, Some py => applyDials propInfo px py (polled fs w)
    | _, _ =>
        setStatus ("Error: " ++ faultMessage TypeError)
          (Upd.set_vars
             (snd (readButtonFile fs (snd (readPositionFile fs (vars w))))) w)
    end.
Proof.
  intros (A & (comp & i & layer & C & L & N) & (e & SE & LE) & SP).
  unfold Panel.updateProperty, Frame.polled. rewrite A, C, L. cbv beta iota zeta.
  unfold onLayerChange. rewrite N, String.eqb_refl.
  change (negb true) with false. cbv beta iota zeta.
  unfold DD.indexOr. rewrite SE.
  replace (Z.of_nat e <? 0)%Z with false by (symmetry; apply Z.ltb_ge; lia).
  replace (Z.of_nat (List.length (currentEffects (vars w))) <=? Z.of_nat e)%Z
    with false by (symmetry; apply Z.leb_gt; lia).
  cbv beta iota zeta. simpl orb. cbv iota. rewrite SP.
  destruct (readPositionFile fs (vars w)) as [pos v1]. cbv beta iota zeta.
  simpl fst. simpl snd.
  destruct (readButtonFile fs v1) as [btn v2]. cbv beta iota zeta.
  simpl fst. simpl snd.
  destruct (JS.get pos "x"); [destruct (JS.get pos "y")|]; reflexivity.
Qed.


Lemma tryPath_sameCache (fs : FileSystem) (path : string) (v v' : Vars) :
  sameCache v v' ->
  fst (tryPath JSON_parse fs path v) = fst (tryPath JSON_parse fs path v') /\
  sameCache (snd (tryPath JSON_parse fs path v)) (snd (tryPath JSON_parse fs path v')).
Proof.
  intros [T P]. destruct v, v'. simpl in T, P. subst.
  unfold tryPath, sameCache. destruct (fs path) as [c|]; [|simpl; auto].
  norm_upd.
  destruct (String.eqb c ""); [simpl; auto|].
  destruct (negb _); [simpl; auto|].
  destruct (JSON_parse _) as [parsed|]; [|simpl; auto].
  destruct (_ && _); [simpl; auto|].
  destruct (JS.truthy _);
    (destruct (JS.get parsed "x"); [destruct (JS.get parsed "y")|];
     [destruct (_ && _)| |]); simpl; auto.
Qed.

Lemma tryFallbacks_sameCache (fs : FileSystem) (cands : list string) : forall v v',
  sameCache v v' ->
  fst (tryFallbacks JSON_parse fs cands v) = fst (tryFallbacks JSON_parse fs cands v') /\
  sameCache (snd (tryFallbacks JSON_parse fs cands v))
            (snd (tryFallbacks JSON_parse fs cands v')).
Proof.
  induction cands as [|c rest IH]; intros v v' S; simpl; [auto|].
  destruct (String.eqb c ""); [auto|].
  destruct (tryPath_sameCache fs (Str.dropTrailingSlash c ++ "/logi_position.json") _ _ S)
    as [E S'].
  destruct (tryPath JSON_parse fs _ v) as [r1 v1],
           (tryPath JSON_parse fs _ v') as [r2 v2]; simpl in *; subst r2.
  destruct (JS.truthy r1); simpl; auto.
Qed.

Lemma readPositionFile_sameCache (fs : FileSystem) (v v' : Vars) :
  sameCache v v' ->
  fst (readPositionFile fs v) = fst (readPositionFile fs v').
Proof.
  intros S. unfold Panel.readPositionFile.
  assert (S0 : sameCache (Upd.set_lastRawPositionContent "" v)
                         (Upd.set_lastRawPositionContent "" v'))
    by (destruct S; split; assumption).
  destruct (tryPath_sameCache fs POSITION_FILE _ _ S0) as [E S1].
  destruct (tryPath JSON_parse fs _ (Upd.set_lastRawPositionContent "" v)) as [r1 v1],
           (tryPath JSON_parse fs _ (Upd.set_lastRawPositionContent "" v')) as [r2 v2];
    simpl in *; subst r2.
  destruct (JS.truthy r1); simpl; auto.
  destruct (tryFallbacks_sameCache fs fallbackCandidates _ _ S1) as [E2 S2].
  destruct (tryFallbacks JSON_parse fs _ v1) as [r3 v3],
           (tryFallbacks JSON_parse fs _ v2) as [r4 v4]; simpl in *; subst r4.
  destruct (JS.truthy r3); simpl; auto.
  unfold markMissingPosition.
  destruct S2 as [_ P2].
  destruct (String.eqb (lastRawPositionContent v3) ""),
           (String.eqb (lastRawPositionContent v4) ""); simpl; exact P2.
Qed.

(** Where [updateProperty] ends: either nothing in the application
    changed, or the dial values of the file were applied in a state
    that differs from the initial one by the rebuilt effect list, a
    dropped big-dial baseline and the reads. *)
Lemma updateProperty_inv (fs : FileSystem) (w : World) :
  host (updateProperty fs w) = host w \/
  exists propInfo w1 px py,
    host w1 = host w /\
    lastSmallDialValue (vars w1) = lastSmallDialValue (vars w) /\
    (lastDialValue (vars w1) = lastDialValue (vars w) \/
     lastDialValue (vars w1) = None) /\
    JS.get (fst (readPositionFile fs (vars w))) "x" = Some px /\
    JS.get (fst (readPositionFile fs (vars w))) "y" = Some py /\
    updateProperty fs w = applyDials propInfo px py w1.
Proof.
  unfold Panel.updateProperty.
  destruct (negb (isActive (vars w))); [left; reflexivity|].
  destruct (activeItem (host w)) as [comp|]; [|left; reflexivity].
  destruct (AE.selectedLayer0 comp) as [[i layer]|]; [|left; reflexivity].
  cbv zeta.
  assert (F : exists w0,
             onLayerChange JSON_parse valueAtTime fs layer w = w0 /\
             host w0 = host w /\
             lastSmallDialValue (vars w0) = lastSmallDialValue (vars w) /\
             (lastDialValue (vars w0) = lastDialValue (vars w) \/
              lastDialValue (vars w0) = None) /\
             sameCache (vars w0) (vars w)).
  { eexists; split; [reflexivity|]. unfold onLayerChange.
    destruct (negb _); [|unfold sameCache; auto 10].
    match goal with |- context [Panel.populateEffects _ _ _ ?w0] =>
      destruct (populateEffects_shape fs w0) as (ce & cp & lm & mc & u & ->) end.
    destruct w as [h v u0]; destruct v; unfold sameCache; simpl; auto 10. }
  destruct F as (w0 & -> & H0 & S0 & D0 & C0).
  destruct (_ || _); [left; simpl; exact H0|].
  destruct (selectedProperty w0) as [propInfo|]; [|left; simpl; exact H0].
  rewrite <- (readPositionFile_sameCache fs _ _ C0).
  pose proof (polled_frame fs w0) as (PH & (raw & ts & pos & rawb & PV) & _).
  unfold Frame.polled in PH, PV.
  destruct (readPositionFile fs (vars w0)) as [p v1]. cbv beta iota zeta.
  simpl fst in *. simpl snd in *.
  destruct (readButtonFile fs v1) as [btn v2]. cbv beta iota zeta.
  simpl snd in *.
  destruct (JS.get p "x") as [px|]; [destruct (JS.get p "y") as [py|]|];
    try (left; simpl; exact H0).
  right. exists propInfo, (debugTexts (Upd.set_vars v2 w0)), px, py.
  rewrite PH, PV. destruct (vars w0); simpl in *. auto 10.
Qed.

(** *** Rejected samples (panel) *)

Lemma limitDelta_rejected (maxDelta d : num) :
  Num.gtb (Num.abs d) maxDelta = true -> limitDelta maxDelta d = Num.zero.
Proof. unfold limitDelta. intros ->. reflexivity. Qed.

Lemma limitDelta_accepted (maxDelta d : num) :
  Num.gtb (Num.abs d) maxDelta = false -> limitDelta maxDelta d = d.
Proof. unfold limitDelta. intros ->. reflexivity. Qed.

Lemma applyDials_still (propInfo : PropInfo) (px : jsval) (y : num) (w : World) :
  Num.isFinite y = true ->
  Num.eqb (limitDelta Num.n200 (deltaFrom y (lastSmallDialValue (vars w)))) Num.zero = true ->
  activeItem (host (applyDials propInfo px (JNum y) w)) = activeItem (host w).
Proof.
  intros F H. unfold Panel.applyDials. destruct px as [| | |x| | |]; try reflexivity.
  destruct (negb (Num.isFinite x)); [reflexivity|]. rewrite F.
  destruct (_ && _); [reflexivity|].
  rewrite H. clear H. cbv beta iota zeta. change (negb true) with false. cbv iota.
  destruct (Num.eqb _ Num.zero); [reflexivity|].
  match goal with |- context [Panel.adjustProperty _ _ _ _ ?p ?d ?w0] =>
    destruct (adjustProperty_frame p d w0) as (_ & -> & _) end.
  reflexivity.
Qed.

Lemma big_glitch_writes_nothing (fs : FileSystem) (w : World) (l x : num) :
  lastDialValue (vars w) = Some l ->
  JS.get (fst (readPositionFile fs (vars w))) "x" = Some (JNum x) ->
  Num.gtb (Num.abs (Num.sub x l)) Num.n200 = true ->
  properties (host (updateProperty fs w)) = properties (host w).
Proof.
  intros L X G.
  destruct (updateProperty_inv fs w)
    as [->|(propInfo & w1 & px & py & H1 & _ & D & PX & _ & ->)]; [reflexivity|].
  rewrite X in PX. inversion PX; subst px; clear PX.
  rewrite applyDials_idle, H1; [reflexivity|].
  intros x0 E; inversion E; subst x0; clear E.
  destruct D as [D|D]; rewrite D; [rewrite L|]; simpl.
  - rewrite (limitDelta_rejected _ _ G). reflexivity.
  - reflexivity.
Qed.

Lemma small_glitch_moves_nothing (fs : FileSystem) (w : World) (l y : num) :
  lastSmallDialValue (vars w) = Some l ->
  JS.get (fst (readPositionFile fs (vars w))) "y" = Some (JNum y) ->
  Num.isFinite y = true ->
  Num.gtb (Num.abs (Num.sub y l)) Num.n200 = true ->
  activeItem (host (updateProperty fs w)) = activeItem (host w).
Proof.
  intros L Y F G.
  destruct (updateProperty_inv fs w)
    as [->|(propInfo & w1 & px & py & H1 & S & _ & _ & PY & ->)]; [reflexivity|].
  rewrite Y in PY. inversion PY; subst py; clear PY.
  rewrite applyDials_still, H1; [reflexivity|exact F|].
  rewrite S, L. simpl. rewrite (limitDelta_rejected _ _ G). reflexivity.
Qed.

(** *** Accepted samples (panel) *)

Local Abbreviation afterSmallDial := (Frame.afterSmallDial parseFloat).

Lemma afterSmallDial_frame (x y sd : num) (w : World) :
  properties (host (afterSmallDial x y sd w)) = properties (host w) /\
  vars (afterSmallDial x y sd w) =
    Upd.set_lastSmallDialValue (Some y) (Upd.set_lastDialValue (Some x) (vars w)) /\
  ui (afterSmallDial x y sd w) = ui w.
Proof.
  unfold Frame.afterSmallDial. cbv zeta. destruct (negb _).
  - match goal with |- context [Panel.scrubTimeline _ ?d ?w0] =>
      destruct (scrubTimeline_frame d w0) as (-> & -> & ->) end.
    destruct w; simpl; auto.
  - destruct w; simpl; auto.
Qed.

Lemma differs_of_delta (x l : num) :
  Num.isFinite x = true -> Num.eqb (Num.sub x l) Num.zero = false ->
  differs x (Some l) = true.
Proof.
  intros F D. unfold differs. destruct (Num.eqb x l) eqn:E; [|reflexivity].
  rewrite (NumFacts.eqb_zero_of_is_zero _ (NumFacts.eqb_sub_zero _ _ F E)) in D.
  discriminate.
Qed.

Lemma differs_of_glitch (m x l : num) :
  Num.isFinite x = true -> Num.ltb Num.zero m = true ->
  Num.gtb (Num.abs (Num.sub x l)) m = true ->
  differs x (Some l) = true.
Proof.
  intros F M G. unfold differs. destruct (Num.eqb x l) eqn:E; [|reflexivity].
  rewrite (NumFacts.zero_within _ _ (NumFacts.eqb_sub_zero _ _ F E) M) in G.
  discriminate.
Qed.

(** An accepted, non-zero big-dial delta reaches [adjustProperty]. *)
Lemma applyDials_accepted (propInfo : PropInfo) (x l : num) (py : jsval) (w : World) :
  Num.isFinite x = true ->
  lastDialValue (vars w) = Some l ->
  Num.gtb (Num.abs (Num.sub x l)) Num.n200 = false ->
  Num.eqb (Num.sub x l) Num.zero = false ->
  exists y sd,
    applyDials propInfo (JNum x) py w =
      adjustProperty propInfo (Num.sub x l) (afterSmallDial x y sd w).
Proof.
  intros F L A D. unfold Panel.applyDials, Frame.afterSmallDial. rewrite F, L.
  change (negb true) with false. cbv beta iota zeta.
  rewrite (differs_of_delta _ _ F D). change (negb true) with false.
  rewrite andb_false_l. cbv iota. simpl deltaFrom.
  rewrite (limitDelta_accepted _ _ A), D.
  do 2 eexists. reflexivity.
Qed.

(** A rejected big-dial delta stops before [adjustProperty]. *)
Lemma applyDials_rejected (propInfo : PropInfo) (x l : num) (py : jsval) (w : World) :
  Num.isFinite x = true ->
  lastDialValue (vars w) = Some l ->
  Num.gtb (Num.abs (Num.sub x l)) Num.n200 = true ->
  exists y sd, applyDials propInfo (JNum x) py w = afterSmallDial x y sd w.
Proof.
  intros F L G. unfold Panel.applyDials, Frame.afterSmallDial. rewrite F, L.
  change (negb true) with false. cbv beta iota zeta.
  rewrite (differs_of_glitch Num.n200 _ _ F eq_refl G). change (negb true) with false.
  rewrite andb_false_l. cbv iota. simpl deltaFrom.
  rewrite (limitDelta_rejected _ _ G).
  change (Num.eqb Num.zero Num.zero) with true. cbv iota.
  do 2 eexists. reflexivity.
Qed.

(** The first sample after a reset stops there too. *)
Lemma applyDials_first (propInfo : PropInfo) (x : num) (py : jsval) (w : World) :
  Num.isFinite x = true ->
  lastDialValue (vars w) = None ->
  exists y sd, applyDials propInfo (JNum x) py w = afterSmallDial x y sd w.
Proof.
  intros F L. unfold Panel.applyDials, Frame.afterSmallDial. rewrite F, L.
  change (negb true) with false. cbv beta iota zeta. simpl differs at 1.
  change (negb true) with false. rewrite andb_false_l. cbv iota. simpl deltaFrom.
  change (limitDelta Num.n200 Num.zero) with Num.zero.
  change (Num.eqb Num.zero Num.zero) with true. cbv iota.
  do 2 eexists. reflexivity.
Qed.


Lemma writeValue_written (propInfo : PropInfo) (prop : Property) (v : jsval)
      (shown label : string) (w : World) :
  exists w',
    writeValue propInfo prop v shown label w = Ok w' /\
    properties (host w') =
      AE.replace_nth (pi_prop propInfo) (written prop (hostTime (host w)) v)
                     (properties (host w)).
Proof.
  unfold Panel.writeValue, written. destruct (0 <? AE.numKeys prop) eqn:K.
  - eexists; split; [reflexivity|]. reflexivity.
  - unfold AE.setValue. unfold AE.numKeys in K.
    destruct (p_keys prop); [|discriminate]. simpl.
    eexists; split; [reflexivity|]. reflexivity.
Qed.


Lemma adjustProperty_writes (propInfo : PropInfo) (d : num) (w : World)
      (prop : Property) (v : jsval) :
  AE.lookupProperty (host w) (pi_prop propInfo) = Ok prop ->
  newValue (propValue valueAtTime (hostTime (host w)) prop) (pi_valueType propInfo)
           (Num.mul d (JS.numOr (parseFloat (sensInput (ui w))) Num.tenth)) = Some v ->
  properties (host (adjustProperty propInfo d w)) =
    AE.replace_nth (pi_prop propInfo) (written prop (hostTime (host w)) v)
                   (properties (host w)).
Proof.
  intros L N. unfold Panel.adjustProperty. rewrite L. cbv zeta.
  destruct (propValue valueAtTime (hostTime (host w)) prop)
    as [| |b|old|s|[|[| | |c| | |] rest]|fs0]; try discriminate;
    simpl in N; inversion N; subst v; clear N;
    match goal with |- context [Panel.writeValue ?a ?b ?c ?d ?e ?f] =>
      destruct (writeValue_written a b c d e f) as (w' & -> & ->) end;
    reflexivity.
Qed.

(** *** Steady states *)


Lemma stable_refl (w : World) : stable w w.
Proof. unfold stable; auto 10. Qed.

Lemma stable_trans (w1 w2 w3 : World) : stable w1 w2 -> stable w2 w3 -> stable w1 w3.
Proof.
  unfold stable.
  intros (A1 & A2 & A3 & A4 & A5 & A6 & A7) (B1 & B2 & B3 & B4 & B5 & B6 & B7).
  repeat split; congruence.
Qed.

Lemma steady_stable (w w' : World) (propInfo : PropInfo) :
  stable w w' -> steady w propInfo -> steady w' propInfo.
Proof.
  intros (A & L & CE & CP & ED & PD & H) (SA & (comp & i & layer & C & SL & N) & (e & SE & LE) & SP).
  unfold steady. rewrite A, L, CE, ED. repeat split; auto.
  - rewrite C in H. destruct (activeItem (host w')) as [comp'|]; [|discriminate].
    simpl in H. exists comp', i, layer. repeat split; auto.
    unfold AE.selectedLayer0 in *. inversion H as [H']. rewrite H'. exact SL.
  - exists e; auto.
  - unfold selectedProperty in *. rewrite PD, CP. exact SP.
Qed.

Lemma stable_setCompTime (t : num) (w : World) : stable w (setCompTime t w).
Proof.
  unfold stable, setCompTime. destruct (activeItem (host w)) eqn:E; simpl; rewrite ?E; auto 10.
Qed.

Lemma stable_scrubTimeline (d : num) (w : World) : stable w (scrubTimeline d w).
Proof.
  unfold Panel.scrubTimeline. destruct (activeItem (host w)); [|apply stable_refl].
  apply stable_setCompTime.
Qed.

Lemma stable_adjustProperty (propInfo : PropInfo) (d : num) (w : World) :
  stable w (adjustProperty propInfo d w).
Proof.
  destruct (adjustProperty_frame propInfo d w) as (V & A & _ & E & P).
  unfold stable. rewrite V, A, E, P. auto 10.
Qed.

Lemma stable_baselines (a b : option num) (w : World) :
  stable w (Upd.on_vars (Upd.set_lastSmallDialValue b)
              (Upd.on_vars (Upd.set_lastDialValue a) w)).
Proof. unfold stable. destruct w; simpl; auto 10. Qed.

Lemma stable_afterSmallDial (x y sd : num) (w : World) :
  stable w (afterSmallDial x y sd w).
Proof.
  unfold Frame.afterSmallDial. cbv zeta.
  destruct (negb _); [|apply stable_baselines].
  eapply stable_trans; [apply stable_baselines|apply stable_scrubTimeline].
Qed.

Lemma stable_applyDials (propInfo : PropInfo) (px py : jsval) (w : World) :
  stable w (applyDials propInfo px py w).
Proof.
  unfold Panel.applyDials. destruct px as [| | |x| | |]; try apply stable_refl.
  destruct (negb (Num.isFinite x)); [apply stable_refl|].
  cbv zeta. destruct (_ && _); [apply stable_refl|].
  match goal with
    |- stable w (if ?c then ?a else Panel.adjustProperty _ _ _ _ ?p ?d ?a) =>
      destruct c; [|eapply stable_trans; [|apply stable_adjustProperty]]
  end;
    (match goal with |- stable w (if ?c then _ else _) => destruct c end;
     [eapply stable_trans; [apply stable_baselines|apply stable_scrubTimeline]
     |apply stable_baselines]).
Qed.

Lemma stable_polled (fs : FileSystem) (w : World) : stable w (polled fs w).
Proof.
  destruct (polled_frame fs w) as (H & (raw & ts & pos & rawb & V) & _ & _ & E & P).
  unfold stable. rewrite H, V, E, P. destruct (vars w); simpl; auto 10.
Qed.

Lemma stable_setStatus (text : string) (w : World) : stable w (setStatus text w).
Proof. unfold stable. destruct w; simpl; auto 10. Qed.

(** A tick in a steady state leaves the state steady. *)
Lemma steady_updateProperty (fs : FileSystem) (w : World) (propInfo : PropInfo) :
  steady w propInfo -> steady (updateProperty fs w) propInfo.
Proof.
  intros S. rewrite (updateProperty_steady fs _ _ S).
  apply steady_stable with (w := w); [|exact S].
  destruct (JS.get _ "x"); [destruct (JS.get _ "y")|].
  - eapply stable_trans; [apply stable_polled|apply stable_applyDials].
  - destruct (readPositionFile_shape fs (vars w)) as (raw & ts & pos & E). rewrite E.
    match goal with |- context [snd (Panel.readButtonFile _ _ _ ?v0)] =>
      destruct (readButtonFile_shape fs v0) as (rawb & ->) end.
    unfold stable. destruct w as [h v u]; destruct v; simpl; auto 10.
  - destruct (readPositionFile_shape fs (vars w)) as (raw & ts & pos & E). rewrite E.
    match goal with |- context [snd (Panel.readButtonFile _ _ _ ?v0)] =>
      destruct (readButtonFile_shape fs v0) as (rawb & ->) end.
    unfold stable. destruct w as [h v u]; destruct v; simpl; auto 10.
Qed.

(** *** One tick of the panel in a steady state *)

Lemma get_defined (v a : jsval) (k k' : string) :
  JS.get v k = Some a -> exists b, JS.get v k' = Some b.
Proof. destruct v; simpl; try discriminate; eauto. Qed.

Lemma lookupProperty_same (h h' : Host) (id : nat) :
  properties h' = properties h -> AE.lookupProperty h' id = AE.lookupProperty h id.
Proof. unfold AE.lookupProperty. intros ->. reflexivity. Qed.

Lemma hostTime_same (h h' : Host) :
  activeItem h' = activeItem h -> hostTime h' = hostTime h.
Proof. unfold hostTime. intros ->. reflexivity. Qed.

(** The first sample and a rejected sample end the tick after the
    baselines are stored. *)
Lemma panel_tick_idle (fs : FileSystem) (w : World) (propInfo : PropInfo) (x : num) :
  steady w propInfo ->
  JS.get (fst (readPositionFile fs (vars w))) "x" = Some (JNum x) ->
  Num.isFinite x = true ->
  (lastDialValue (vars w) = None \/
   exists l, lastDialValue (vars w) = Some l /\
             Num.gtb (Num.abs (Num.sub x l)) Num.n200 = true) ->
  properties (host (updateProperty fs w)) = properties (host w) /\
  lastDialValue (vars (updateProperty fs w)) = Some x.
Proof.
  intros S X F C. rewrite (updateProperty_steady fs _ _ S), X.
  destruct (get_defined _ _ "x" "y" X) as (py & ->).
  destruct (polled_frame fs w) as (PH & (raw & ts & pos & rawb & PV) & _).
  assert (E : exists y sd,
             applyDials propInfo (JNum x) py (polled fs w)
             = afterSmallDial x y sd (polled fs w)).
  { destruct C as [N|(l & L & G)].
    - apply applyDials_first; [exact F|]. rewrite PV. destruct (vars w); exact N.
    - apply applyDials_rejected with (l := l); [exact F| |exact G].
      rewrite PV. destruct (vars w); exact L. }
  destruct E as (y & sd & ->).
  destruct (afterSmallDial_frame x y sd (polled fs w)) as (-> & -> & _).
  rewrite PH. split; reflexivity.
Qed.

(** An accepted sample writes the adjusted value. *)
Lemma panel_tick_writes (fs : FileSystem) (w : World) (propInfo : PropInfo)
      (prop : Property) (x l : num) (v : jsval) :
  steady w propInfo ->
  JS.get (fst (readPositionFile fs (vars w))) "x" = Some (JNum x) ->
  Num.isFinite x = true ->
  lastDialValue (vars w) = Some l ->
  Num.gtb (Num.abs (Num.sub x l)) Num.n200 = false ->
  Num.eqb (Num.sub x l) Num.zero = false ->
  AE.lookupProperty (host w) (pi_prop propInfo) = Ok prop ->
  newValue (propValue valueAtTime (hostTime (host (updateProperty fs w))) prop)
           (pi_valueType propInfo)
           (Num.mul (Num.sub x l) (JS.numOr (parseFloat (sensInput (ui w))) Num.tenth))
    = Some v ->
  properties (host (updateProperty fs w)) =
    AE.replace_nth (pi_prop propInfo)
                   (written prop (hostTime (host (updateProperty fs w))) v)
                   (properties (host w)) /\
  lastDialValue (vars (updateProperty fs w)) = Some x.
Proof.
  intros S X F L A D P. rewrite (updateProperty_steady fs _ _ S), X.
  destruct (get_defined _ _ "x" "y" X) as (py & ->).
  destruct (polled_frame fs w) as (PH & (raw & ts & pos & rawb & PV) & SI & _).
  assert (L' : lastDialValue (vars (polled fs w)) = Some l)
    by (rewrite PV; destruct (vars w); exact L).
  destruct (applyDials_accepted propInfo x l py (polled fs w) F L' A D) as (y & sd & ->).
  destruct (afterSmallDial_frame x y sd (polled fs w)) as (AP & AV & AU).
  destruct (adjustProperty_frame propInfo (Num.sub x l) (afterSmallDial x y sd (polled fs w)))
    as (V & T & _).
  rewrite (hostTime_same _ _ T). intros N.
  rewrite V, AV. split; [|reflexivity].
  rewrite (adjustProperty_writes propInfo (Num.sub x l) _ prop v).
  - rewrite AP, PH. reflexivity.
  - rewrite (lookupProperty_same _ _ _ AP), (lookupProperty_same _ _ _ (f_equal properties PH)).
    exact P.
  - rewrite AU, SI. exact N.
Qed.

(** *** The earlier script *)

Local Abbreviation legacyRead := (Legacy.readPositionFile JSON_parse).
Local Abbreviation legacyUpdate :=
  (Legacy.updateProperty JSON_parse parseFloat toFixed toStr valueAtTime faultMessage).
Local Abbreviation legacyApply :=
  (Legacy.applyDial parseFloat toFixed toStr valueAtTime faultMessage).

Lemma legacy_read_shape (fs : FileSystem) (v : Vars) :
  exists pos, snd (legacyRead fs v) = Upd.set_lastValidPosition pos v.
Proof.
  unfold Legacy.readPositionFile.
  destruct (fs POSITION_FILE) as [c|]; [|exists (lastValidPosition v); destruct v; reflexivity].
  destruct (String.eqb c ""); [exists (lastValidPosition v); destruct v; reflexivity|].
  destruct (negb _); [exists (lastValidPosition v); destruct v; reflexivity|].
  destruct (JSON_parse _) as [parsed|];
    [|exists (lastValidPosition v); destruct v; reflexivity].
  destruct (JS.get parsed "x"); [destruct (JS.get parsed "y")|];
    [destruct (_ && _)| |];
    try (exists (lastValidPosition v); destruct v; reflexivity).
  exists parsed. reflexivity.
Qed.

Lemma legacy_read_sameCache (fs : FileSystem) (v v' : Vars) :
  lastValidPosition v = lastValidPosition v' ->
  fst (legacyRead fs v) = fst (legacyRead fs v').
Proof.
  intros E. unfold Legacy.readPositionFile. rewrite E.
  destruct (fs POSITION_FILE) as [c|]; [|reflexivity].
  destruct (String.eqb c ""); [reflexivity|].
  destruct (negb _); [reflexivity|].
  destruct (JSON_parse _) as [parsed|]; [|reflexivity].
  destruct (JS.get parsed "x"); [destruct (JS.get parsed "y")|];
    [destruct (_ && _)| |]; reflexivity.
Qed.

Lemma legacy_populateProperties_shape (w : World) :
  exists cp u,
    Legacy.populateProperties toFixed valueAtTime w =
      mkWorld (host w) (Upd.set_currentProperties cp (vars w)) u.
Proof.
  destruct w as [h v u]. unfold Legacy.populateProperties. norm_upd.
  destruct (_ || _);
    [|destruct (nth_error _ _) as [ei|];
      [destruct (getEffectProperties _ _ _ _)|]];
    do 2 eexists; reflexivity.
Qed.

Lemma legacy_populateEffects_shape (w : World) :
  exists ce cp u,
    Legacy.populateEffects toFixed valueAtTime w =
      mkWorld (host w)
              (Upd.set_currentEffects ce (Upd.set_currentProperties cp (vars w))) u.
Proof.
  destruct w as [h v u]. destruct v. unfold Legacy.populateEffects. norm_upd.
  destruct (activeItem h) as [comp|];
    [destruct (AE.selectedLayer0 comp) as [[i layer]|];
     [destruct (getLayerEffects layer) eqn:GE|]|];
    try (do 3 eexists; reflexivity).
  match goal with |- context [Legacy.populateProperties _ _ ?w0] =>
    destruct (legacy_populateProperties_shape w0) as (cp & u1 & ->) end.
  norm_upd. do 3 eexists; reflexivity.
Qed.

Lemma legacy_writeValue_frame (propInfo : PropInfo) (prop : Property) (v : jsval)
      (shown label : string) (w w' : World) :
  Legacy.writeValue propInfo prop v shown label w = Ok w' ->
  vars w' = vars w /\ activeItem (host w') = activeItem (host w) /\
  effectDropdown (ui w') = effectDropdown (ui w) /\
  propDropdown (ui w') = propDropdown (ui w).
Proof.
  unfold Legacy.writeValue. destruct (AE.setValue prop v); simpl; [|discriminate].
  intros E; inversion E; subst; clear E. destruct w; simpl; auto.
Qed.

Lemma legacy_showValue_frame (cv : jsval) (w w' : World) :
  Legacy.showValue toFixed toStr cv w = Ok w' ->
  host w' = host w /\ vars w' = vars w /\
  effectDropdown (ui w') = effectDropdown (ui w) /\
  propDropdown (ui w') = propDropdown (ui w).
Proof.
  unfold Legacy.showValue.
  destruct cv as [| |b|x|s|[|[| | |c| | |] rest]|fs0]; simpl; try discriminate;
    intros E; inversion E; subst; clear E; destruct w; simpl; auto.
Qed.

(** Once the sample differs from the baseline it becomes the
    baseline, whatever happens next. *)
Lemma legacy_applyDial_run (propInfo : PropInfo) (x : num) (w : World) :
  Num.isFinite x = true ->
  differs x (lastDialValue (vars w)) = true ->
  vars (legacyApply propInfo (JNum x) w) = Upd.set_lastDialValue (Some x) (vars w) /\
  activeItem (host (legacyApply propInfo (JNum x) w)) = activeItem (host w) /\
  effectDropdown (ui (legacyApply propInfo (JNum x) w)) = effectDropdown (ui w) /\
  propDropdown (ui (legacyApply propInfo (JNum x) w)) = propDropdown (ui w).
Proof.
  intros F D. unfold Legacy.applyDial. rewrite F, D.
  change (negb true) with false. cbv beta iota zeta.
  destruct (Num.gtb _ _); [destruct w; auto|].
  match goal with |- context [AE.lookupProperty (host ?w0) _] => set (w1 := w0) end.
  assert (B : vars w1 = Upd.set_lastDialValue (Some x) (vars w) /\
              activeItem (host w1) = activeItem (host w) /\
              effectDropdown (ui w1) = effectDropdown (ui w) /\
              propDropdown (ui w1) = propDropdown (ui w))
    by (destruct w; auto).
  assert (T : forall w2 : World,
             vars w2 = vars w1 /\ activeItem (host w2) = activeItem (host w1) /\
             effectDropdown (ui w2) = effectDropdown (ui w1) /\
             propDropdown (ui w2) = propDropdown (ui w1) ->
             vars w2 = Upd.set_lastDialValue (Some x) (vars w) /\
             activeItem (host w2) = activeItem (host w) /\
             effectDropdown (ui w2) = effectDropdown (ui w) /\
             propDropdown (ui w2) = propDropdown (ui w)).
  { intros w2 (V & A & E & P). rewrite V, A, E, P. exact B. }
  clearbody w1.
  destruct (AE.lookupProperty (host w1) (pi_prop propInfo)) as [prop|f];
    [|apply T; destruct w1; simpl; auto].
  destruct (Num.eqb _ Num.zero).
  - destruct (Legacy.showValue _ _ _ w1) as [w2|f] eqn:E;
      [|apply T; destruct w1; simpl; auto].
    apply T. destruct (legacy_showValue_frame _ _ _ E) as (H & V & ED & PD).
    rewrite H, V, ED, PD. auto.
  - match goal with |- context [match ?a with Ok _ => _ | Throw _ => _ end] =>
      destruct a as [w2|f] eqn:E end; [|apply T; destruct w1; simpl; auto].
    apply T.
    destruct (propValue valueAtTime (hostTime (host w1)) prop)
      as [| |b|old|s|[|[| | |c| | |] rest]|fs0];
      try (inversion E; subst; destruct w1; simpl; auto; fail);
      try (eapply legacy_writeValue_frame; exact E).
Qed.

Lemma stable_legacyApply (propInfo : PropInfo) (px : jsval) (w : World) :
  stable w (legacyApply propInfo px w).
Proof.
  destruct px as [| | |x| | |]; try apply stable_refl.
  destruct (Num.isFinite x) eqn:F; [|unfold Legacy.applyDial; rewrite F; apply stable_refl].
  destruct (differs x (lastDialValue (vars w))) eqn:D;
    [|unfold Legacy.applyDial; rewrite F, D; apply stable_refl].
  destruct (legacy_applyDial_run propInfo x w F D) as (V & A & E & P).
  unfold stable. rewrite V, A, E, P. destruct (vars w); simpl; auto 10.
Qed.

(** A first or a rejected sample writes no property. *)
Lemma legacy_applyDial_idle (propInfo : PropInfo) (px : jsval) (w : World) :
  (forall x, px = JNum x ->
     Num.gtb (Num.abs (deltaFrom x (lastDialValue (vars w)))) Num.n50 = true \/
     Num.eqb (deltaFrom x (lastDialValue (vars w))) Num.zero = true) ->
  properties (host (legacyApply propInfo px w)) = properties (host w).
Proof.
  intros H. unfold Legacy.applyDial. destruct px as [| | |x| | |]; try reflexivity.
  specialize (H x eq_refl).
  destruct (negb (Num.isFinite x)); [reflexivity|].
  destruct (negb (differs _ _)); [reflexivity|].
  cbv zeta. destruct (Num.gtb _ _) eqn:G; [reflexivity|].
  destruct H as [H|H]; [discriminate|]. rewrite H.
  destruct (AE.lookupProperty _ _) as [prop|f]; [|reflexivity].
  match goal with |- context [Legacy.showValue ?a ?b ?c ?w1] =>
    destruct (Legacy.showValue a b c w1) as [w2|f] eqn:E end; [|reflexivity].
  destruct (legacy_showValue_frame _ _ _ E) as (-> & _). reflexivity.
Qed.

(** An accepted sample on a property without keyframes writes the
    adjusted value. *)
Lemma legacy_applyDial_writes (propInfo : PropInfo) (x l : num) (w : World)
      (prop : Property) (v : jsval) :
  Num.isFinite x = true ->
  lastDialValue (vars w) = Some l ->
  Num.gtb (Num.abs (Num.sub x l)) Num.n50 = false ->
  Num.eqb (Num.sub x l) Num.zero = false ->
  AE.lookupProperty (host w) (pi_prop propInfo) = Ok prop ->
  p_keys prop = [] ->
  newValue (p_static prop) (pi_valueType propInfo)
           (Num.mul (Num.sub x l) (JS.numOr (parseFloat (sensInput (ui w))) Num.tenth))
    = Some v ->
  properties (host (legacyApply propInfo (JNum x) w)) =
    AE.replace_nth (pi_prop propInfo) (AE.set_p_static v prop) (properties (host w)).
Proof.
  intros F L A D P K N. unfold Legacy.applyDial. rewrite F, L.
  rewrite (differs_of_delta _ _ F D). change (negb true) with false.
  cbv beta iota zeta. simpl deltaFrom. rewrite A, D.
  change (AE.lookupProperty
            (host (Upd.on_vars (Upd.set_lastDialValue (Some x)) w)) (pi_prop propInfo))
    with (AE.lookupProperty (host w) (pi_prop propInfo)).
  rewrite P. unfold propValue. rewrite K.
  unfold Legacy.writeValue, AE.setValue. rewrite K.
  destruct (p_static prop) as [| |b|old|s|[|[| | |c| | |] rest]|fs0]; try discriminate;
    simpl in N; inversion N; subst v; reflexivity.
Qed.

Lemma legacy_updateProperty_steady (fs : FileSystem) (w : World) (propInfo : PropInfo) :
  steady w propInfo ->
  legacyUpdate fs w =
    match JS.get (fst (legacyRead fs (vars w))) "x" with
    | Some px => legacyApply propInfo px (Upd.set_vars (snd (legacyRead fs (vars w))) w)
    | None =>
        setStatus ("Error: " ++ faultMessage TypeError)
                  (Upd.set_vars (snd (legacyRead fs (vars w))) w)
    end.
Proof.
  intros (A & (comp & i & layer & C & L & N) & (e & SE & LE) & SP).
  unfold Legacy.updateProperty. rewrite A, C, L. cbv beta iota zeta.
  unfold Legacy.onLayerChange. rewrite N, String.eqb_refl.
  change (negb true) with false. cbv beta iota zeta.
  unfold DD.indexOr. rewrite SE.
  replace (Z.of_nat e <? 0)%Z with false by (symmetry; apply Z.ltb_ge; lia).
  replace (Z.of_nat (List.length (currentEffects (vars w))) <=? Z.of_nat e)%Z
    with false by (symmetry; apply Z.leb_gt; lia).
  cbv beta iota zeta. simpl orb. cbv iota. rewrite SP.
  destruct (legacyRead fs (vars w)) as [pos v1]. reflexivity.
Qed.

Lemma legacy_updateProperty_inv (fs : FileSystem) (w : World) :
  host (legacyUpdate fs w) = host w \/
  exists propInfo w1 px,
    host w1 = host w /\
    (lastDialValue (vars w1) = lastDialValue (vars w) \/
     lastDialValue (vars w1) = None) /\
    JS.get (fst (legacyRead fs (vars w))) "x" = Some px /\
    legacyUpdate fs w = legacyApply propInfo px w1.
Proof.
  unfold Legacy.updateProperty.
  destruct (negb (isActive (vars w))); [left; reflexivity|].
  destruct (activeItem (host w)) as [comp|]; [|left; reflexivity].
  destruct (AE.selectedLayer0 comp) as [[i layer]|]; [|left; reflexivity].
  cbv zeta.
  assert (F : exists w0,
             Legacy.onLayerChange toFixed valueAtTime layer w = w0 /\
             host w0 = host w /\
             (lastDialValue (vars w0) = lastDialValue (vars w) \/
              lastDialValue (vars w0) = None) /\
             lastValidPosition (vars w0) = lastValidPosition (vars w)).
  { eexists; split; [reflexivity|]. unfold Legacy.onLayerChange.
    destruct (negb _); [|auto 10].
    match goal with |- context [Legacy.populateEffects _ _ ?w0] =>
      destruct (legacy_populateEffects_shape w0) as (ce & cp & u & ->) end.
    destruct w as [h v u0]; destruct v; simpl; auto 10. }
  destruct F as (w0 & -> & H0 & D0 & C0).
  destruct (_ || _); [left; simpl; exact H0|].
  destruct (selectedProperty w0) as [propInfo|]; [|left; simpl; exact H0].
  rewrite <- (legacy_read_sameCache fs _ _ C0).
  destruct (legacy_read_shape fs (vars w0)) as (pos & PV).
  destruct (legacyRead fs (vars w0)) as [p v1]. cbv beta iota zeta.
  simpl fst in *. simpl snd in *. subst v1.
  destruct (JS.get p "x") as [px|]; [|left; simpl; exact H0].
  right. exists propInfo, (Upd.set_vars (Upd.set_lastValidPosition pos (vars w0)) w0), px.
  destruct w0 as [h0 v0 u0]; destruct v0; simpl in *. auto 10.
Qed.

Lemma legacy_glitch_writes_nothing (fs : FileSystem) (w : World) (l x : num) :
  lastDialValue (vars w) = Some l ->
  JS.get (fst (legacyRead fs (vars w))) "x" = Some (JNum x) ->
  Num.gtb (Num.abs (Num.sub x l)) Num.n50 = true ->
  properties (host (legacyUpdate fs w)) = properties (host w).
Proof.
  intros L X G.
  destruct (legacy_updateProperty_inv fs w)
    as [->|(propInfo & w1 & px & H1 & D & PX & ->)]; [reflexivity|].
  rewrite X in PX. inversion PX; subst px; clear PX.
  rewrite legacy_applyDial_idle, H1; [reflexivity|].
  intros x0 E; inversion E; subst x0; clear E.
  destruct D as [D|D]; rewrite D; [rewrite L|]; simpl; auto.
Qed.

Lemma legacy_polled_frame (fs : FileSystem) (w : World) :
  host (Upd.set_vars (snd (legacyRead fs (vars w))) w) = host w /\
  lastDialValue (vars (Upd.set_vars (snd (legacyRead fs (vars w))) w))
    = lastDialValue (vars w) /\
  ui (Upd.set_vars (snd (legacyRead fs (vars w))) w) = ui w /\
  stable w (Upd.set_vars (snd (legacyRead fs (vars w))) w).
Proof.
  destruct (legacy_read_shape fs (vars w)) as (pos & ->).
  unfold stable. destruct w as [h v u]; destruct v; simpl; auto 12.
Qed.

Lemma steady_legacyUpdate (fs : FileSystem) (w : World) (propInfo : PropInfo) :
  steady w propInfo -> steady (legacyUpdate fs w) propInfo.
Proof.
  intros S. rewrite (legacy_updateProperty_steady fs _ _ S).
  apply steady_stable with (w := w); [|exact S].
  destruct (legacy_polled_frame fs w) as (_ & _ & _ & P).
  destruct (JS.get _ "x").
  - eapply stable_trans; [exact P|apply stable_legacyApply].
  - eapply stable_trans; [exact P|apply stable_setStatus].
Qed.

Lemma legacy_tick_idle (fs : FileSystem) (w : World) (propInfo : PropInfo) (x : num) :
  steady w propInfo ->
  JS.get (fst (legacyRead fs (vars w))) "x" = Some (JNum x) ->
  Num.isFinite x = true ->
  (lastDialValue (vars w) = None \/
   exists l, lastDialValue (vars w) = Some l /\
             Num.gtb (Num.abs (Num.sub x l)) Num.n50 = true) ->
  properties (host (legacyUpdate fs w)) = properties (host w) /\
  lastDialValue (vars (legacyUpdate fs w)) = Some x.
Proof.
  intros S X F C. rewrite (legacy_updateProperty_steady fs _ _ S), X.
  destruct (legacy_polled_frame fs w) as (PH & PL & _ & _).
  set (w1 := Upd.set_vars (snd (legacyRead fs (vars w))) w) in *.
  split.
  - rewrite legacy_applyDial_idle, PH; [reflexivity|].
    intros x0 E; inversion E; subst x0; clear E. rewrite PL.
    destruct C as [->|(l & -> & G)]; simpl; auto.
  - assert (D : differs x (lastDialValue (vars w1)) = true).
    { rewrite PL. destruct C as [->|(l & -> & G)]; [reflexivity|].
      exact (differs_of_glitch Num.n50 _ _ F eq_refl G). }
    destruct (legacy_applyDial_run propInfo x w1 F D) as (-> & _).
    destruct (vars w1); reflexivity.
Qed.

Lemma legacy_tick_writes (fs : FileSystem) (w : World) (propInfo : PropInfo)
      (prop : Property) (x l : num) (v : jsval) :
  steady w propInfo ->
  JS.get (fst (legacyRead fs (vars w))) "x" = Some (JNum x) ->
  Num.isFinite x = true ->
  lastDialValue (vars w) = Some l ->
  Num.gtb (Num.abs (Num.sub x l)) Num.n50 = false ->
  Num.eqb (Num.sub x l) Num.zero = false ->
  AE.lookupProperty (host w) (pi_prop propInfo) = Ok prop ->
  p_keys prop = [] ->
  newValue (p_static prop) (pi_valueType propInfo)
           (Num.mul (Num.sub x l) (JS.numOr (parseFloat (sensInput (ui w))) Num.tenth))
    = Some v ->
  properties (host (legacyUpdate fs w)) =
    AE.replace_nth (pi_prop propInfo) (AE.set_p_static v prop) (properties (host w)) /\
  lastDialValue (vars (legacyUpdate fs w)) = Some x.
Proof.
  intros S X F L A D P K N. rewrite (legacy_updateProperty_steady fs _ _ S), X.
  destruct (legacy_polled_frame fs w) as (PH & PL & PU & _).
  set (w1 := Upd.set_vars (snd (legacyRead fs (vars w))) w) in *.
  split.
  - assert (L1 : lastDialValue (vars w1) = Some l) by (rewrite PL; exact L).
    assert (P1 : AE.lookupProperty (host w1) (pi_prop propInfo) = Ok prop)
      by (rewrite PH; exact P).
    assert (N1 : newValue (p_static prop) (pi_valueType propInfo)
                   (Num.mul (Num.sub x l)
                      (JS.numOr (parseFloat (sensInput (ui w1))) Num.tenth)) = Some v)
      by (rewrite PU; exact N).
    rewrite (legacy_applyDial_writes propInfo x l w1 prop v F L1 A D P1 K N1), PH.
    reflexivity.
  - assert (D' : differs x (lastDialValue (vars w1)) = true)
      by (rewrite PL, L; exact (differs_of_delta _ _ F D)).
    destruct (legacy_applyDial_run propInfo x w1 F D') as (-> & _).
    destruct (vars w1); reflexivity.
Qed.

(** The colour component stays within the unit interval. *)
Lemma color_component_in_unit (m c x l s0 : num) :
  Num.isFinite m = true ->
  Num.isFinite c = true -> Num.isFinite x = true -> Num.isFinite l = true ->
  Num.gtb (Num.abs (Num.sub x l)) m = false ->
  Num.eqb (Num.sub x l) Num.zero = false ->
  Num.leb Num.zero
          (adjustFirst COLOR c (Num.mul (Num.sub x l) (JS.numOr s0 Num.tenth))) = true /\
  Num.leb (adjustFirst COLOR c (Num.mul (Num.sub x l) (JS.numOr s0 Num.tenth)))
          Num.one = true.
Proof.
  intros Fm Fc Fx Fl A D. unfold adjustFirst. simpl pvt_eqb. cbv iota.
  apply NumFacts.clamp_unit.
  assert (Nl : Num.is_nan l = false) by (destruct l; simpl in *; congruence).
  pose proof (NumFacts.sub_not_nan x l Fx Nl) as Nd.
  pose proof (NumFacts.bounded_finite _ _ Nd Fm A) as Fd.
  assert (Zd : Num.is_zero (Num.sub x l) = false).
  { destruct (Num.is_zero (Num.sub x l)) eqn:Z; [|reflexivity].
    rewrite (NumFacts.eqb_zero_of_is_zero _ Z) in D. discriminate. }
  apply NumFacts.add_not_nan; [exact Fc|].
  apply NumFacts.mul_not_nan_r; [reflexivity|reflexivity|].
  apply NumFacts.mul_not_nan; [exact Fd|exact Zd|].
  apply NumFacts.numOr_ok. reflexivity.
Qed.

(** *** The small dial of the panel *)

(** Where the small dial leaves the playhead: [delta] steps of the
    timeline sensitivity, in frames, kept inside the composition. *)
Lemma applyDials_small_rejected (propInfo : PropInfo) (x y ls : num) (w : World) :
  Num.isFinite x = true ->
  Num.isFinite y = true ->
  lastSmallDialValue (vars w) = Some ls ->
  Num.gtb (Num.abs (Num.sub y ls)) Num.n200 = true ->
  lastSmallDialValue (vars (applyDials propInfo (JNum x) (JNum y) w)) = Some y /\
  activeItem (host (applyDials propInfo (JNum x) (JNum y) w)) = activeItem (host w).
Proof.
  intros Fx Fy L G. unfold Panel.applyDials. rewrite Fx, Fy, L.
  change (negb true) with false. cbv beta iota zeta.
  rewrite (differs_of_glitch Num.n200 _ _ Fy eq_refl G).
  change (negb true) with false. rewrite andb_false_r. cbv iota.
  simpl deltaFrom. rewrite (limitDelta_rejected _ _ G).
  change (Num.eqb Num.zero Num.zero) with true.
  change (negb true) with false. cbv iota.
  match goal with |- context [if ?c then _ else _] => destruct c end.
  - destruct w as [h v u]; destruct v; split; reflexivity.
  - match goal with |- context [Panel.adjustProperty _ _ _ _ ?p ?d ?w0] =>
      destruct (adjustProperty_frame p d w0) as (-> & -> & _) end.
    destruct w as [h v u]; destruct v; split; reflexivity.
Qed.

Lemma applyDials_small_accepted (propInfo : PropInfo) (x y ls : num) (w : World)
      (comp : Comp) :
  Num.isFinite x = true ->
  Num.isFinite y = true ->
  lastSmallDialValue (vars w) = Some ls ->
  Num.gtb (Num.abs (Num.sub y ls)) Num.n200 = false ->
  Num.eqb (Num.sub y ls) Num.zero = false ->
  activeItem (host w) = Some comp ->
  lastSmallDialValue (vars (applyDials propInfo (JNum x) (JNum y) w)) = Some y /\
  activeItem (host (applyDials propInfo (JNum x) (JNum y) w))
  = Some (AE.set_c_time (scrubbed (Num.sub y ls)
                                  (JS.numOr (parseFloat (sensInputTimeline (ui w))) Num.one)
                                  comp) comp).
Proof.
  intros Fx Fy L A D C. unfold Panel.applyDials. rewrite Fx, Fy, L.
  change (negb true) with false. cbv beta iota zeta.
  rewrite (differs_of_delta _ _ Fy D).
  change (negb true) with false. rewrite andb_false_r. cbv iota.
  simpl deltaFrom. rewrite (limitDelta_accepted _ _ A), D.
  change (negb false) with true. cbv iota.
  assert (S : forall w0 : World,
             host w0 = host w -> ui w0 = ui w ->
             lastSmallDialValue (vars w0) = Some y ->
             lastSmallDialValue (vars (scrubTimeline (Num.sub y ls) w0)) = Some y /\
             activeItem (host (scrubTimeline (Num.sub y ls) w0))
             = Some (AE.set_c_time
                       (scrubbed (Num.sub y ls)
                                 (JS.numOr (parseFloat (sensInputTimeline (ui w))) Num.one)
                                 comp) comp)).
  { intros w0 H U V. unfold Panel.scrubTimeline, setCompTime.
    destruct w0 as [h0 v0 u0]. simpl in H, U, V. subst h0 u0.
    cbn [host ui vars]. rewrite C. cbv beta iota zeta. cbn [host ui vars]. rewrite ?C.
    split; [exact V|reflexivity]. }
  match goal with |- context [Panel.scrubTimeline _ _ ?w0] =>
    destruct (S w0) as [S1 S2];
      [destruct w; reflexivity|destruct w; reflexivity
       |destruct w as [h v u]; destruct v; reflexivity|] end.
  match goal with |- context [if ?c then _ else _] => destruct c end.
  - split; [exact S1|exact S2].
  - match goal with |- context [Panel.adjustProperty _ _ _ _ ?p ?d ?w0] =>
      destruct (adjustProperty_frame p d w0) as (-> & -> & _) end.
    split; [exact S1|exact S2].
Qed.

(** A rejected small-dial sample ends the tick with the sample as the
    baseline and the composition as it was. *)
Lemma panel_tick_small_idle (fs : FileSystem) (w : World) (propInfo : PropInfo)
      (x y ls : num) :
  steady w propInfo ->
  JS.get (fst (readPositionFile fs (vars w))) "x" = Some (JNum x) ->
  Num.isFinite x = true ->
  JS.get (fst (readPositionFile fs (vars w))) "y" = Some (JNum y) ->
  Num.isFinite y = true ->
  lastSmallDialValue (vars w) = Some ls ->
  Num.gtb (Num.abs (Num.sub y ls)) Num.n200 = true ->
  lastSmallDialValue (vars (updateProperty fs w)) = Some y /\
  activeItem (host (updateProperty fs w)) = activeItem (host w).
Proof.
  intros S X Fx Y Fy L G. rewrite (updateProperty_steady fs _ _ S), X, Y.
  destruct (polled_frame fs w) as (PH & (raw & ts & pos & rawb & PV) & _).
  assert (L' : lastSmallDialValue (vars (polled fs w)) = Some ls)
    by (rewrite PV; destruct (vars w); exact L).
  destruct (applyDials_small_rejected propInfo x y ls (polled fs w) Fx Fy L' G) as [E1 E2].
  rewrite E1, E2, PH. split; reflexivity.
Qed.

(** An accepted small-dial sample moves the playhead by its distance
    from the baseline. *)
Lemma panel_tick_scrubs (fs : FileSystem) (w : World) (propInfo : PropInfo)
      (comp : Comp) (x y ls : num) :
  steady w propInfo ->
  JS.get (fst (readPositionFile fs (vars w))) "x" = Some (JNum x) ->
  Num.isFinite x = true ->
  JS.get (fst (readPositionFile fs (vars w))) "y" = Some (JNum y) ->
  Num.isFinite y = true ->
  lastSmallDialValue (vars w) = Some ls ->
  Num.gtb (Num.abs (Num.sub y ls)) Num.n200 = false ->
  Num.eqb (Num.sub y ls) Num.zero = false ->
  activeItem (host w) = Some comp ->
  lastSmallDialValue (vars (updateProperty fs w)) = Some y /\
  activeItem (host (updateProperty fs w))
  = Some (AE.set_c_time (scrubbed (Num.sub y ls)
                                  (JS.numOr (parseFloat (sensInputTimeline (ui w))) Num.one)
                                  comp) comp).
Proof.
  intros S X Fx Y Fy L A D C. rewrite (updateProperty_steady fs _ _ S), X, Y.
  destruct (polled_frame fs w) as (PH & (raw & ts & pos & rawb & PV) & _ & ST & _).
  assert (L' : lastSmallDialValue (vars (polled fs w)) = Some ls)
    by (rewrite PV; destruct (vars w); exact L).
  assert (C' : activeItem (host (polled fs w)) = Some comp) by (rewrite PH; exact C).
  destruct (applyDials_small_accepted propInfo x y ls (polled fs w) comp Fx Fy L' A D C')
    as [E1 E2].
  rewrite E1, E2, ST. split; reflexivity.
Qed.

(** *** The claims about the dial pass *)

(** C1. A dial sample farther from the cached baseline than the
    threshold of the channel changes nothing on that channel in that
    tick: for the big dial of the panel (threshold 200) and for the
    dial of the earlier script (threshold 50) no property is written,
    and for the small dial of the panel (threshold 200) the playhead
    stays where it is. *)
Theorem glitch_sample_applies_nothing :
  (forall (fs : FileSystem) (w : World) (l x : num),
      lastDialValue (vars w) = Some l ->
      JS.get (fst (readPositionFile fs (vars w))) "x" = Some (JNum x) ->
      Num.gtb (Num.abs (Num.sub x l)) Num.n200 = true ->
      properties (host (updateProperty fs w)) = properties (host w)) /\
  (forall (fs : FileSystem) (w : World) (l y : num),
      lastSmallDialValue (vars w) = Some l ->
      JS.get (fst (readPositionFile fs (vars w))) "y" = Some (JNum y) ->
      Num.isFinite y = true ->
      Num.gtb (Num.abs (Num.sub y l)) Num.n200 = true ->
      activeItem (host (updateProperty fs w)) = activeItem (host w)) /\
  (forall (fs : FileSystem) (w : World) (l x : num),
      lastDialValue (vars w) = Some l ->
      JS.get (fst (legacyRead fs (vars w))) "x" = Some (JNum x) ->
      Num.gtb (Num.abs (Num.sub x l)) Num.n50 = true ->
      properties (host (legacyUpdate fs w)) = properties (host w)).
Proof.
  split; [|split].
  - exact big_glitch_writes_nothing.
  - exact small_glitch_moves_nothing.
  - exact legacy_glitch_writes_nothing.
Qed.

(** C2. In a steady state, with a finite sample [x] read for the big
    dial and a target whose current value is the number [old]: the
    first sample after a reset (no baseline) writes nothing and
    becomes the baseline; a later accepted sample, whose delta is
    [x - l] for the baseline [l], writes [old + (x - l) * sensitivity]
    (at the playhead when the property has keyframes) and becomes the
    baseline.  The same holds for the earlier script on a property
    without keyframes.  For the samples 10 and 15 at sensitivity 0.1
    the product is 0.5. *)
Theorem delta_is_difference_of_samples :
  (forall (fs : FileSystem) (w : World) (propInfo : PropInfo) (prop : Property)
          (x old : num),
      steady w propInfo ->
      JS.get (fst (readPositionFile fs (vars w))) "x" = Some (JNum x) ->
      Num.isFinite x = true ->
      AE.lookupProperty (host w) (pi_prop propInfo) = Ok prop ->
      propValue valueAtTime (hostTime (host (updateProperty fs w))) prop = JNum old ->
      (lastDialValue (vars w) = None ->
       properties (host (updateProperty fs w)) = properties (host w) /\
       lastDialValue (vars (updateProperty fs w)) = Some x) /\
      (forall l : num,
          lastDialValue (vars w) = Some l ->
          Num.gtb (Num.abs (Num.sub x l)) Num.n200 = false ->
          Num.eqb (Num.sub x l) Num.zero = false ->
          properties (host (updateProperty fs w)) =
            AE.replace_nth (pi_prop propInfo)
              (written prop (hostTime (host (updateProperty fs w)))
                 (JNum (Num.add old
                          (Num.mul (Num.sub x l)
                             (JS.numOr (parseFloat (sensInput (ui w))) Num.tenth)))))
              (properties (host w)) /\
          lastDialValue (vars (updateProperty fs w)) = Some x)) /\
  (forall (fs : FileSystem) (w : World) (propInfo : PropInfo) (prop : Property)
          (x old : num),
      steady w propInfo ->
      JS.get (fst (legacyRead fs (vars w))) "x" = Some (JNum x) ->
      Num.isFinite x = true ->
      AE.lookupProperty (host w) (pi_prop propInfo) = Ok prop ->
      p_keys prop = [] ->
      p_static prop = JNum old ->
      (lastDialValue (vars w) = None ->
       properties (host (legacyUpdate fs w)) = properties (host w) /\
       lastDialValue (vars (legacyUpdate fs w)) = Some x) /\
      (forall l : num,
          lastDialValue (vars w) = Some l ->
          Num.gtb (Num.abs (Num.sub x l)) Num.n50 = false ->
          Num.eqb (Num.sub x l) Num.zero = false ->
          properties (host (legacyUpdate fs w)) =
            AE.replace_nth (pi_prop propInfo)
              (AE.set_p_static
                 (JNum (Num.add old
                          (Num.mul (Num.sub x l)
                             (JS.numOr (parseFloat (sensInput (ui w))) Num.tenth))))
                 prop)
              (properties (host w)) /\
          lastDialValue (vars (legacyUpdate fs w)) = Some x)) /\
  Num.mul (Num.sub (Num.ofZ 15) (Num.ofZ 10)) Num.tenth = Num.dec 1 2.
Proof.
  split; [|split].
  - intros fs w propInfo prop x old S X F P V. split.
    + intros N. apply (panel_tick_idle fs w propInfo x S X F). left. exact N.
    + intros l L A D.
      apply (panel_tick_writes fs w propInfo prop x l _ S X F L A D P).
      rewrite V. reflexivity.
  - intros fs w propInfo prop x old S X F P K V. split.
    + intros N. apply (legacy_tick_idle fs w propInfo x S X F). left. exact N.
    + intros l L A D.
      apply (legacy_tick_writes fs w propInfo prop x l _ S X F L A D P K).
      rewrite V. reflexivity.
  - vm_compute. reflexivity.
Qed.

(** C7. In a steady state, an accepted big-dial delta [x - l] on a
    target whose value is an array with the number [c] first and whose
    value type is COLOR writes the array with only the first component
    replaced, by [max(0, min(1, c + (x - l) * sensitivity * 0.01))];
    for finite [c] and [l] that component lies in [0, 1].  The same
    holds for the earlier script on a property without keyframes.
    From 0.95, a delta of 10 at sensitivity 1 gives exactly 1. *)
Theorem color_component_scaled_and_clamped :
  (forall (fs : FileSystem) (w : World) (propInfo : PropInfo) (prop : Property)
          (x l c : num) (rest : list jsval),
      steady w propInfo ->
      JS.get (fst (readPositionFile fs (vars w))) "x" = Some (JNum x) ->
      Num.isFinite x = true ->
      lastDialValue (vars w) = Some l ->
      Num.gtb (Num.abs (Num.sub x l)) Num.n200 = false ->
      Num.eqb (Num.sub x l) Num.zero = false ->
      AE.lookupProperty (host w) (pi_prop propInfo) = Ok prop ->
      pi_valueType propInfo = COLOR ->
      propValue valueAtTime (hostTime (host (updateProperty fs w))) prop
        = JArr (JNum c :: rest) ->
      let sensitivity := JS.numOr (parseFloat (sensInput (ui w))) Num.tenth in
      let c' := Num.max Num.zero
                  (Num.min Num.one
                     (Num.add c (Num.mul (Num.mul (Num.sub x l) sensitivity)
                                         Num.hundredth))) in
      properties (host (updateProperty fs w)) =
        AE.replace_nth (pi_prop propInfo)
          (written prop (hostTime (host (updateProperty fs w))) (JArr (JNum c' :: rest)))
          (properties (host w)) /\
      (Num.isFinite c = true -> Num.isFinite l = true ->
       Num.leb Num.zero c' = true /\ Num.leb c' Num.one = true)) /\
  (forall (fs : FileSystem) (w : World) (propInfo : PropInfo) (prop : Property)
          (x l c : num) (rest : list jsval),
      steady w propInfo ->
      JS.get (fst (legacyRead fs (vars w))) "x" = Some (JNum x) ->
      Num.isFinite x = true ->
      lastDialValue (vars w) = Some l ->
      Num.gtb (Num.abs (Num.sub x l)) Num.n50 = false ->
      Num.eqb (Num.sub x l) Num.zero = false ->
      AE.lookupProperty (host w) (pi_prop propInfo) = Ok prop ->
      pi_valueType propInfo = COLOR ->
      p_keys prop = [] ->
      p_static prop = JArr (JNum c :: rest) ->
      let sensitivity := JS.numOr (parseFloat (sensInput (ui w))) Num.tenth in
      let c' := Num.max Num.zero
                  (Num.min Num.one
                     (Num.add c (Num.mul (Num.mul (Num.sub x l) sensitivity)
                                         Num.hundredth))) in
      properties (host (legacyUpdate fs w)) =
        AE.replace_nth (pi_prop propInfo)
          (AE.set_p_static (JArr (JNum c' :: rest)) prop) (properties (host w)) /\
      (Num.isFinite c = true -> Num.isFinite l = true ->
       Num.leb Num.zero c' = true /\ Num.leb c' Num.one = true)) /\
  adjustFirst COLOR (Num.dec 95 100) (Num.mul (Num.ofZ 10) Num.one) = Num.one.
Proof.
  split; [|split].
  - intros fs w propInfo prop x l c rest S X F L A D P T V sensitivity c'. split.
    + apply (panel_tick_writes fs w propInfo prop x l _ S X F L A D P).
      rewrite V, T. reflexivity.
    + intros Fc Fl.
      exact (color_component_in_unit Num.n200 c x l _ eq_refl Fc F Fl A D).
  - intros fs w propInfo prop x l c rest S X F L A D P T K V sensitivity c'. split.
    + apply (legacy_tick_writes fs w propInfo prop x l _ S X F L A D P K).
      rewrite V, T. reflexivity.
    + intros Fc Fl.
      exact (color_component_in_unit Num.n50 c x l _ eq_refl Fc F Fl A D).
  - vm_compute. reflexivity.
Qed.

(** C10. In a steady state, a sample rejected by the threshold still
    becomes the baseline of its channel.  Big dial of the panel and
    dial of the earlier script: nothing is written, the state stays
    steady, and the next accepted sample [x2] writes the value
    adjusted by [x2 - x], the difference to the rejected sample [x].
    Small dial of the panel: the composition stays as it is, the
    state stays steady, and the next accepted sample [y2] moves the
    playhead by [y2 - y] steps of the timeline sensitivity, the
    difference to the rejected sample [y]. *)
Theorem rejected_sample_becomes_baseline :
  (forall (fs : FileSystem) (w : World) (propInfo : PropInfo) (x l : num),
      steady w propInfo ->
      JS.get (fst (readPositionFile fs (vars w))) "x" = Some (JNum x) ->
      Num.isFinite x = true ->
      lastDialValue (vars w) = Some l ->
      Num.gtb (Num.abs (Num.sub x l)) Num.n200 = true ->
      lastDialValue (vars (updateProperty fs w)) = Some x /\
      properties (host (updateProperty fs w)) = properties (host w) /\
      steady (updateProperty fs w) propInfo /\
      forall (fs2 : FileSystem) (prop : Property) (x2 : num) (v : jsval),
        let w1 := updateProperty fs w in
        let w2 := updateProperty fs2 w1 in
        JS.get (fst (readPositionFile fs2 (vars w1))) "x" = Some (JNum x2) ->
        Num.isFinite x2 = true ->
        Num.gtb (Num.abs (Num.sub x2 x)) Num.n200 = false ->
        Num.eqb (Num.sub x2 x) Num.zero = false ->
        AE.lookupProperty (host w1) (pi_prop propInfo) = Ok prop ->
        newValue (propValue valueAtTime (hostTime (host w2)) prop)
                 (pi_valueType propInfo)
                 (Num.mul (Num.sub x2 x)
                          (JS.numOr (parseFloat (sensInput (ui w1))) Num.tenth))
          = Some v ->
        properties (host w2) =
          AE.replace_nth (pi_prop propInfo) (written prop (hostTime (host w2)) v)
                         (properties (host w1))) /\
  (forall (fs : FileSystem) (w : World) (propInfo : PropInfo) (x y l : num),
      steady w propInfo ->
      JS.get (fst (readPositionFile fs (vars w))) "x" = Some (JNum x) ->
      Num.isFinite x = true ->
      JS.get (fst (readPositionFile fs (vars w))) "y" = Some (JNum y) ->
      Num.isFinite y = true ->
      lastSmallDialValue (vars w) = Some l ->
      Num.gtb (Num.abs (Num.sub y l)) Num.n200 = true ->
      lastSmallDialValue (vars (updateProperty fs w)) = Some y /\
      activeItem (host (updateProperty fs w)) = activeItem (host w) /\
      steady (updateProperty fs w) propInfo /\
      forall (fs2 : FileSystem) (comp : Comp) (x2 y2 : num),
        let w1 := updateProperty fs w in
        let w2 := updateProperty fs2 w1 in
        JS.get (fst (readPositionFile fs2 (vars w1))) "x" = Some (JNum x2) ->
        Num.isFinite x2 = true ->
        JS.get (fst (readPositionFile fs2 (vars w1))) "y" = Some (JNum y2) ->
        Num.isFinite y2 = true ->
        Num.gtb (Num.abs (Num.sub y2 y)) Num.n200 = false ->
        Num.eqb (Num.sub y2 y) Num.zero = false ->
        activeItem (host w1) = Some comp ->
        lastSmallDialValue (vars w2) = Some y2 /\
        activeItem (host w2)
        = Some (AE.set_c_time
                  (scrubbed (Num.sub y2 y)
                            (JS.numOr (parseFloat (sensInputTimeline (ui w1))) Num.one)
                            comp)
                  comp)) /\
  (forall (fs : FileSystem) (w : World) (propInfo : PropInfo) (x l : num),
      steady w propInfo ->
      JS.get (fst (legacyRead fs (vars w))) "x" = Some (JNum x) ->
      Num.isFinite x = true ->
      lastDialValue (vars w) = Some l ->
      Num.gtb (Num.abs (Num.sub x l)) Num.n50 = true ->
      lastDialValue (vars (legacyUpdate fs w)) = Some x /\
      properties (host (legacyUpdate fs w)) = properties (host w) /\
      steady (legacyUpdate fs w) propInfo /\
      forall (fs2 : FileSystem) (prop : Property) (x2 : num) (v : jsval),
        let w1 := legacyUpdate fs w in
        let w2 := legacyUpdate fs2 w1 in
        JS.get (fst (legacyRead fs2 (vars w1))) "x" = Some (JNum x2) ->
        Num.isFinite x2 = true ->
        Num.gtb (Num.abs (Num.sub x2 x)) Num.n50 = false ->
        Num.eqb (Num.sub x2 x) Num.zero = false ->
        AE.lookupProperty (host w1) (pi_prop propInfo) = Ok prop ->
        p_keys prop = [] ->
        newValue (p_static prop) (pi_valueType propInfo)
                 (Num.mul (Num.sub x2 x)
                          (JS.numOr (parseFloat (sensInput (ui w1))) Num.tenth))
          = Some v ->
        properties (host w2) =
          AE.replace_nth (pi_prop propInfo) (AE.set_p_static v prop)
                         (properties (host w1))).
Proof.
  split; [|split].
  - intros fs w propInfo x l S X F L G.
    assert (I : properties (host (updateProperty fs w)) = properties (host w) /\
                lastDialValue (vars (updateProperty fs w)) = Some x)
      by (apply (panel_tick_idle fs w propInfo x S X F); right; exists l; auto).
    destruct I as [I1 I2].
    pose proof (steady_updateProperty fs w propInfo S) as S1.
    split; [exact I2|split; [exact I1|split; [exact S1|]]].
    intros fs2 prop x2 v w1 w2 X2 F2 A2 D2 P2 N2.
    exact (proj1 (panel_tick_writes fs2 w1 propInfo prop x2 x v S1 X2 F2 I2 A2 D2 P2 N2)).
  - intros fs w propInfo x y l S X Fx Y Fy L G.
    destruct (panel_tick_small_idle fs w propInfo x y l S X Fx Y Fy L G) as [I1 I2].
    pose proof (steady_updateProperty fs w propInfo S) as S1.
    split; [exact I1|split; [exact I2|split; [exact S1|]]].
    intros fs2 comp x2 y2 w1 w2 X2 Fx2 Y2 Fy2 A2 D2 C2.
    exact (panel_tick_scrubs fs2 w1 propInfo comp x2 y2 y S1 X2 Fx2 Y2 Fy2 I1 A2 D2 C2).
  - intros fs w propInfo x l S X F L G.
    assert (I : properties (host (legacyUpdate fs w)) = properties (host w) /\
                lastDialValue (vars (legacyUpdate fs w)) = Some x)
      by (apply (legacy_tick_idle fs w propInfo x S X F); right; exists l; auto).
    destruct I as [I1 I2].
    pose proof (steady_legacyUpdate fs w propInfo S) as S1.
    split; [exact I2|split; [exact I1|split; [exact S1|]]].
    intros fs2 prop x2 v w1 w2 X2 F2 A2 D2 P2 K2 N2.
    exact (proj1 (legacy_tick_writes fs2 w1 propInfo prop x2 x v S1 X2 F2 I2 A2 D2 P2 K2 N2)).
Qed.

(** *** Button events *)

Local Abbreviation navigateEffects := (navigateEffects valueAtTime).
Local Abbreviation navigateLayers := (navigateLayers JSON_parse valueAtTime).
Local Abbreviation dispatchRest :=
  (dispatchRest JSON_parse toFixed valueAtTime faultMessage).
Local Abbreviation toggleKeyframe := (toggleKeyframe toFixed valueAtTime).

(** Polling the files changes the raw contents, the position cache
    and the debug texts, nothing else. *)
Lemma pollFiles_frame (fs : FileSystem) (w : World) :
  host (snd (pollFiles fs w)) = host w /\
  (exists raw ts pos rawb,
      vars (snd (pollFiles fs w)) =
        positionFields raw ts pos (Upd.set_lastRawButtonContent rawb (vars w))) /\
  statusText (ui (snd (pollFiles fs w))) = statusText (ui w) /\
  effectDropdown (ui (snd (pollFiles fs w))) = effectDropdown (ui w) /\
  propDropdown (ui (snd (pollFiles fs w))) = propDropdown (ui w) /\
  keypadDropdowns (ui (snd (pollFiles fs w))) = keypadDropdowns (ui w).
Proof.
  unfold Panel.pollFiles.
  destruct (readButtonFile_shape fs (vars w)) as (rawb & E1).
  destruct (readButtonFile fs (vars w)) as [btn v1]. simpl in E1. subst v1.
  destruct (readPositionFile_shape fs (Upd.set_lastRawButtonContent rawb (vars w)))
    as (raw & ts & pos & E2).
  destruct (readPositionFile fs _) as [p v2]. simpl in E2. subst v2. simpl snd.
  match goal with |- context [debugTexts ?w0] =>
    destruct (debugTexts_frame w0) as (-> & -> & _ & _ & -> & -> & -> & ->) end.
  simpl. repeat split; auto. do 4 eexists; reflexivity.
Qed.

Lemma pollFiles_timestamp (fs : FileSystem) (w : World) :
  lastButtonTimestamp (vars (snd (pollFiles fs w))) = lastButtonTimestamp (vars w).
Proof.
  destruct (pollFiles_frame fs w) as (_ & (raw & ts & pos & rawb & ->) & _).
  destruct (vars w); reflexivity.
Qed.

(** The timestamp gate: an event whose marker is not above the last
    accepted one ends [checkButtons] right after the polling. *)
Lemma checkButtons_gate (fs : FileSystem) (w : World) (tsv : jsval) :
  JS.get (fst (pollFiles fs w)) "timestamp" = Some tsv ->
  jsLe looseLe (JS.or tsv (JNum Num.zero)) (lastButtonTimestamp (vars w)) = true ->
  checkButtons fs w = (snd (pollFiles fs w), None).
Proof.
  intros T G. unfold Panel.checkButtons.
  pose proof (pollFiles_timestamp fs w) as PT.
  destruct (pollFiles fs w) as [btnData w1]. simpl in *.
  destruct (negb (JS.truthy btnData)); [reflexivity|].
  rewrite T.
  destruct (JS.get btnData "button") as [button|]; [|reflexivity].
  destruct (JS.get btnData "pressed") as [pressed|]; [|reflexivity].
  destruct (negb (JS.truthy button)); [reflexivity|].
  cbv zeta. rewrite PT, G. reflexivity.
Qed.

(** A pressed event with a fresh marker is dispatched, in the state
    in which the marker has been accepted. *)
Lemma checkButtons_fresh (fs : FileSystem) (w : World) (button tsv pressed : jsval) :
  JS.get (fst (pollFiles fs w)) "button" = Some button ->
  JS.truthy button = true ->
  JS.get (fst (pollFiles fs w)) "timestamp" = Some tsv ->
  JS.get (fst (pollFiles fs w)) "pressed" = Some pressed ->
  JS.truthy pressed = true ->
  jsLe looseLe (JS.or tsv (JNum Num.zero)) (lastButtonTimestamp (vars w)) = false ->
  checkButtons fs w =
    dispatchButton fs button
      (accepted (JS.or tsv (JNum Num.zero)) (snd (pollFiles fs w))).
Proof.
  intros B TB T P TP G. unfold Panel.checkButtons, accepted.
  pose proof (pollFiles_timestamp fs w) as PT.
  destruct (pollFiles fs w) as [btnData w1]. simpl in *.
  assert (TD : JS.truthy btnData = true)
    by (destruct btnData; simpl in *; try discriminate; try reflexivity;
        inversion B; subst; discriminate).
  rewrite TD, B, T, P, TB, TP, PT, G. reflexivity.
Qed.

(** What the keyframe actions leave alone. *)
Lemma onSelectedProperty_frame (prefix : string)
      (body : PropInfo -> World -> outcome World) (w : World) :
  (forall p w0 w', body p w0 = Ok w' ->
     vars w' = vars w0 /\
     effectDropdown (ui w') = effectDropdown (ui w0) /\
     propDropdown (ui w') = propDropdown (ui w0)) ->
  vars (onSelectedProperty faultMessage prefix body w) = vars w /\
  effectDropdown (ui (onSelectedProperty faultMessage prefix body w))
    = effectDropdown (ui w) /\
  propDropdown (ui (onSelectedProperty faultMessage prefix body w))
    = propDropdown (ui w).
Proof.
  intros H. unfold onSelectedProperty.
  destruct (selectedProperty w) as [p|]; [|auto].
  destruct (body p w) as [w'|f] eqn:E; [exact (H _ _ _ E)|].
  destruct w; simpl; auto.
Qed.

Lemma setCompTime_vars_ui (t : num) (w : World) :
  vars (setCompTime t w) = vars w /\ ui (setCompTime t w) = ui w.
Proof. destruct (setCompTime_frame t w) as (_ & V & U). auto. Qed.

Ltac outcome_cases E :=
  unfold bind in E;
  repeat match goal with
    | H : context [match ?x with _ => _ end] |- _ =>
        destruct x eqn:?; try discriminate H
    end;
  repeat match goal with
    | H : Ok _ = Ok _ |- _ => inversion H; subst; clear H
    end.

Lemma prevKeyframe_frame (p : PropInfo) (w w' : World) :
  prevKeyframe p w = Ok w' ->
  vars w' = vars w /\
  effectDropdown (ui w') = effectDropdown (ui w) /\
  propDropdown (ui w') = propDropdown (ui w).
Proof.
  unfold prevKeyframe. intros E. outcome_cases E;
    try (destruct w; simpl; auto; fail);
    repeat match goal with
      | |- context [setCompTime ?t ?w0] =>
          let V := fresh in let U := fresh in
          destruct (setCompTime_vars_ui t w0) as [V U];
          simpl; rewrite ?V, ?U; clear V U
      end; auto.
Qed.

Lemma nextKeyframe_frame (p : PropInfo) (w w' : World) :
  nextKeyframe p w = Ok w' ->
  vars w' = vars w /\
  effectDropdown (ui w') = effectDropdown (ui w) /\
  propDropdown (ui w') = propDropdown (ui w).
Proof.
  unfold nextKeyframe. intros E. outcome_cases E;
    try (destruct w; simpl; auto; fail);
    repeat match goal with
      | |- context [setCompTime ?t ?w0] =>
          let V := fresh in let U := fresh in
          destruct (setCompTime_vars_ui t w0) as [V U];
          simpl; rewrite ?V, ?U; clear V U
      end; auto.
Qed.

Lemma toggleKeyframe_frame (p : PropInfo) (w w' : World) :
  toggleKeyframe p w = Ok w' ->
  vars w' = vars w /\
  effectDropdown (ui w') = effectDropdown (ui w) /\
  propDropdown (ui w') = propDropdown (ui w).
Proof.
  unfold Panel.toggleKeyframe. intros E. outcome_cases E;
    destruct w; simpl; auto.
Qed.

(** The dispatch never touches the accepted marker. *)
Lemma navigateEffects_marker (button : jsval) (w : World) :
  lastButtonTimestamp (vars (fst (navigateEffects button w)))
    = lastButtonTimestamp (vars w).
Proof.
  unfold Panel.navigateEffects. cbv zeta.
  destruct (_ && _); [|reflexivity].
  match goal with |- context [Panel.populateProperties _ ?w0] =>
    destruct (populateProperties_shape w0) as (cp & u1 & E1 & _) end.
  rewrite E1.
  match goal with |- context [updateKeypadDropdowns ?w0] =>
    destruct (updateKeypadDropdowns_shape w0) as (u2 & E2 & _) end.
  rewrite E2.
  destruct (nth_error _ _); destruct w as [h v u]; destruct v; reflexivity.
Qed.

Lemma selectLayerByIndex_marker (fs : FileSystem) (i : Z) (w : World) :
  lastButtonTimestamp (vars (selectLayerByIndex fs i w)) = lastButtonTimestamp (vars w).
Proof.
  unfold Panel.selectLayerByIndex.
  destruct (activeItem (host w)) as [comp|]; [|reflexivity].
  destruct (_ && _); [|reflexivity]. cbv zeta.
  match goal with |- context [Panel.populateEffects _ _ _ ?w0] =>
    destruct (populateEffects_shape fs w0) as (ce & cp & lm & mc & u & E) end.
  rewrite E.
  destruct (nth_error _ _); destruct w as [h v u0]; destruct v; reflexivity.
Qed.

Lemma navigateLayers_marker (fs : FileSystem) (button : jsval) (w : World) :
  lastButtonTimestamp (vars (navigateLayers fs button w)) = lastButtonTimestamp (vars w).
Proof.
  unfold Panel.navigateLayers.
  destruct (activeItem (host w)) as [comp|]; [|reflexivity]. cbv zeta.
  destruct (negb _); [apply selectLayerByIndex_marker|reflexivity].
Qed.

Lemma selectMapped_marker (i : nat) (w : World) :
  lastButtonTimestamp (vars (selectMapped i w)) = lastButtonTimestamp (vars w).
Proof.
  unfold selectMapped.
  destruct (nth_error (keypadDropdowns (ui w)) i); [|reflexivity]. cbv zeta.
  destruct (_ && _); [|reflexivity].
  destruct (nth_error _ _); [|reflexivity].
  destruct w as [h v u]; destruct v; reflexivity.
Qed.

Lemma dispatchRest_marker (fs : FileSystem) (button : jsval) (w : World) :
  lastButtonTimestamp (vars (dispatchRest fs button w)) = lastButtonTimestamp (vars w).
Proof.
  unfold Panel.dispatchRest. cbv zeta.
  assert (K : forall prefix body w0,
             (forall p w1 w', body p w1 = Ok w' ->
                vars w' = vars w1 /\
                effectDropdown (ui w') = effectDropdown (ui w1) /\
                propDropdown (ui w') = propDropdown (ui w1)) ->
             lastButtonTimestamp (vars (onSelectedProperty faultMessage prefix body w0))
             = lastButtonTimestamp (vars w0)).
  { intros prefix body w0 H.
    destruct (onSelectedProperty_frame prefix body w0 H) as (-> & _). reflexivity. }
  repeat match goal with
    | |- lastButtonTimestamp (vars (if ?b then _ else _)) = _ => destruct b
    | |- lastButtonTimestamp (vars (onSelectedProperty _ _ _ _)) = _ =>
        rewrite K; [|first [exact prevKeyframe_frame | exact nextKeyframe_frame
                           | exact toggleKeyframe_frame]]
    | |- lastButtonTimestamp (vars (match keypadIndex ?b with _ => _ end)) = _ =>
        destruct (keypadIndex b)
    | |- lastButtonTimestamp (vars (selectMapped _ _)) = _ => rewrite selectMapped_marker
    | |- lastButtonTimestamp (vars (navigateLayers _ _ _)) = _ =>
        rewrite navigateLayers_marker
    end; reflexivity.
Qed.

Lemma dispatchButton_marker (fs : FileSystem) (button : jsval) (w : World) :
  lastButtonTimestamp (vars (fst (dispatchButton fs button w)))
    = lastButtonTimestamp (vars w).
Proof.
  unfold Panel.dispatchButton.
  destruct (_ || _); [|simpl; apply dispatchRest_marker].
  pose proof (navigateEffects_marker button w) as N.
  destruct (navigateEffects button w) as [w1 [f|]]; simpl in *; [exact N|].
  rewrite dispatchRest_marker. exact N.
Qed.

(** After [checkButtons] has seen a record with the numeric marker
    [t], no marker up to [t] passes the gate. *)
Lemma checkButtons_raises_marker (fs : FileSystem) (w : World) (button : jsval) (t : num) :
  JS.get (fst (pollFiles fs w)) "button" = Some button ->
  JS.truthy button = true ->
  JS.get (fst (pollFiles fs w)) "timestamp" = Some (JNum t) ->
  Num.is_nan t = false -> Num.is_zero t = false ->
  jsLe looseLe (JNum t) (lastButtonTimestamp (vars (fst (checkButtons fs w)))) = true.
Proof.
  intros B TB T N Z.
  assert (O : JS.or (JNum t) (JNum Num.zero) = JNum t)
    by (unfold JS.or; simpl; rewrite N, Z; reflexivity).
  destruct (jsLe looseLe (JNum t) (lastButtonTimestamp (vars w))) eqn:G.
  - rewrite (checkButtons_gate fs w (JNum t) T); [|rewrite O; exact G].
    simpl. rewrite pollFiles_timestamp. exact G.
  - destruct (get_defined _ _ "button" "pressed" B) as (pressed & P).
    assert (R : lastButtonTimestamp (vars (fst (checkButtons fs w))) = JNum t).
    { unfold Panel.checkButtons.
      pose proof (pollFiles_timestamp fs w) as PT.
      destruct (pollFiles fs w) as [btnData w1]. simpl fst in *. simpl snd in *.
      assert (TD : JS.truthy btnData = true)
        by (destruct btnData; simpl in B; try discriminate; try reflexivity;
            inversion B; subst; discriminate).
      rewrite TD, B, T, P, TB, O, PT, G. simpl negb. cbv iota.
      destruct (negb (JS.truthy pressed)).
      - destruct w1 as [h v u]; destruct v; reflexivity.
      - rewrite dispatchButton_marker. destruct w1 as [h v u]; destruct v; reflexivity. }
    rewrite R. simpl. apply NumFacts.leb_refl. exact N.
Qed.

Lemma checkButtons_marker_cases (fs : FileSystem) (w : World) :
  lastButtonTimestamp (vars (fst (checkButtons fs w))) = lastButtonTimestamp (vars w) \/
  exists tsv,
    JS.get (fst (pollFiles fs w)) "timestamp" = Some tsv /\
    jsLe looseLe (JS.or tsv (JNum Num.zero)) (lastButtonTimestamp (vars w)) = false /\
    lastButtonTimestamp (vars (fst (checkButtons fs w))) = JS.or tsv (JNum Num.zero).
Proof.
  unfold Panel.checkButtons.
  pose proof (pollFiles_timestamp fs w) as PT.
  destruct (pollFiles fs w) as [btnData w1]. simpl fst in *. simpl snd in *.
  destruct (negb (JS.truthy btnData)); [left; exact PT|].
  destruct (JS.get btnData "button") as [button|]; [|left; exact PT].
  destruct (JS.get btnData "timestamp") as [tsv|]; [|left; exact PT].
  destruct (JS.get btnData "pressed") as [pressed|]; [|left; exact PT].
  destruct (negb (JS.truthy button)); [left; exact PT|].
  cbv zeta. rewrite PT.
  destruct (jsLe looseLe _ _) eqn:G; [left; exact PT|].
  right. exists tsv. split; [reflexivity|]. split; [exact G|].
  destruct (negb (JS.truthy pressed)).
  - destruct w1 as [h v u]; destruct v; reflexivity.
  - rewrite dispatchButton_marker. destruct w1 as [h v u]; destruct v; reflexivity.
Qed.

(** *** The claims about the marker of button events *)

(** C4. When two button records carrying the same non-zero numeric
    timestamp are processed one after the other, the second is no
    event: [checkButtons] ends right after polling the files, so the
    application, the selections, the dial baseline and the status are
    as the polling left them.  And a record is acted on only if its
    timestamp is strictly greater than the last accepted one: if it
    is not, [checkButtons] ends after the polling as well. *)
Theorem duplicate_timestamp_is_no_event :
  forall (fs1 fs2 : FileSystem) (w : World) (button : jsval) (t : num),
    JS.get (fst (pollFiles fs1 w)) "button" = Some button ->
    JS.truthy button = true ->
    JS.get (fst (pollFiles fs1 w)) "timestamp" = Some (JNum t) ->
    Num.is_nan t = false ->
    Num.is_zero t = false ->
    let w1 := fst (checkButtons fs1 w) in
    JS.get (fst (pollFiles fs2 w1)) "timestamp" = Some (JNum t) ->
    (checkButtons fs2 w1 = (snd (pollFiles fs2 w1), None) /\
     host (fst (checkButtons fs2 w1)) = host w1 /\
     effectDropdown (ui (fst (checkButtons fs2 w1))) = effectDropdown (ui w1) /\
     propDropdown (ui (fst (checkButtons fs2 w1))) = propDropdown (ui w1) /\
     lastDialValue (vars (fst (checkButtons fs2 w1))) = lastDialValue (vars w1) /\
     statusText (ui (fst (checkButtons fs2 w1))) = statusText (ui w1)) /\
    (forall l : num,
        lastButtonTimestamp (vars w) = JNum l ->
        Num.is_nan l = false ->
        Num.ltb l t = false ->
        checkButtons fs1 w = (snd (pollFiles fs1 w), None)).
Proof.
  intros fs1 fs2 w button t B TB T N Z w1 T2.
  assert (O : JS.or (JNum t) (JNum Num.zero) = JNum t)
    by (unfold JS.or; simpl; rewrite N, Z; reflexivity).
  split.
  - assert (E : checkButtons fs2 w1 = (snd (pollFiles fs2 w1), None)).
    { apply (checkButtons_gate fs2 w1 (JNum t) T2). rewrite O.
      exact (checkButtons_raises_marker fs1 w button t B TB T N Z). }
    rewrite E. simpl fst.
    destruct (pollFiles_frame fs2 w1)
      as (H & (raw & ts & pos & rawb & V) & S & ED & PD & _).
    rewrite H, V, S, ED, PD. destruct (vars w1); simpl. auto 10.
  - intros l L Nl G.
    apply (checkButtons_gate fs1 w (JNum t) T). rewrite O, L. simpl.
    exact (NumFacts.ltb_false_leb l t Nl N G).
Qed.

(** C9. A button record whose timestamp is falsy (0, or absent and so
    [undefined]) is never processed while the last accepted marker is
    a number not below 0: [checkButtons] ends right after polling the
    files.  The marker starts at 0, and it stays a number not below 0
    as long as the records carry numeric or falsy timestamps, so this
    is the case from the first event on. *)
Theorem zero_marker_is_never_processed :
  forall (fs : FileSystem) (w : World) (tsv : jsval) (l : num),
    JS.get (fst (pollFiles fs w)) "timestamp" = Some tsv ->
    lastButtonTimestamp (vars w) = JNum l ->
    Num.leb Num.zero l = true ->
    (JS.truthy tsv = false ->
     checkButtons fs w = (snd (pollFiles fs w), None) /\
     host (fst (checkButtons fs w)) = host w /\
     effectDropdown (ui (fst (checkButtons fs w))) = effectDropdown (ui w) /\
     propDropdown (ui (fst (checkButtons fs w))) = propDropdown (ui w) /\
     lastDialValue (vars (fst (checkButtons fs w))) = lastDialValue (vars w) /\
     statusText (ui (fst (checkButtons fs w))) = statusText (ui w)) /\
    ((JS.truthy tsv = false \/ exists t, tsv = JNum t) ->
     exists l',
       lastButtonTimestamp (vars (fst (checkButtons fs w))) = JNum l' /\
       Num.leb Num.zero l' = true) /\
    lastButtonTimestamp (vars (initialWorld (host w))) = JNum Num.zero.
Proof.
  intros fs w tsv l T L P.
  assert (G0 : JS.truthy tsv = false ->
               jsLe looseLe (JS.or tsv (JNum Num.zero)) (lastButtonTimestamp (vars w)) = true)
    by (intros F; unfold JS.or; rewrite F, L; exact P).
  split; [|split; [|reflexivity]].
  - intros F.
    assert (E : checkButtons fs w = (snd (pollFiles fs w), None))
      by (apply (checkButtons_gate fs w tsv T); exact (G0 F)).
    rewrite E. simpl fst.
    destruct (pollFiles_frame fs w)
      as (H & (raw & ts & pos & rawb & V) & S & ED & PD & _).
    rewrite H, V, S, ED, PD. destruct (vars w); simpl. auto 10.
  - intros C.
    destruct (checkButtons_marker_cases fs w) as [->|(tsv' & T' & G & ->)];
      [exists l; auto|].
    rewrite T in T'. inversion T'; subst tsv'; clear T'.
    destruct (JS.truthy tsv) eqn:F; [|rewrite (G0 eq_refl) in G; discriminate].
    destruct C as [C|(t & ->)]; [discriminate|].
    unfold JS.or in *. rewrite F in *. rewrite L in G. simpl in G.
    exists t. split; [reflexivity|].
    assert (Nt : Num.is_nan t = false)
      by (simpl in F; destruct (Num.is_nan t); [rewrite orb_true_r in F; discriminate|reflexivity]).
    assert (Nl : Num.is_nan l = false) by (destruct l; simpl in P; try discriminate; reflexivity).
    apply NumFacts.ltb_leb.
    apply (NumFacts.leb_ltb_trans Num.zero l t P).
    exact (NumFacts.leb_false_ltb t l Nt Nl G).
Qed.

(** *** Navigation *)

Lemma next_index (cur n : nat) :
  cur < n ->
  (if (Z.of_nat n <=? Z.of_nat cur + 1)%Z then 0 else Z.of_nat cur + 1)%Z
    = Z.of_nat ((cur + 1) mod n).
Proof.
  intros H. destruct (Z.leb_spec (Z.of_nat n) (Z.of_nat cur + 1)).
  - replace (cur + 1) with n by lia. rewrite Nat.Div0.mod_same. reflexivity.
  - rewrite Nat.mod_small by lia. lia.
Qed.

Lemma prev_index (cur n : nat) :
  cur < n ->
  (if (Z.of_nat cur - 1 <? 0)%Z then Z.of_nat n - 1 else Z.of_nat cur - 1)%Z
    = Z.of_nat ((cur + n - 1) mod n).
Proof.
  intros H. destruct (Z.ltb_spec (Z.of_nat cur - 1) 0).
  - replace cur with 0 by lia. simpl. rewrite Nat.mod_small by lia. lia.
  - replace (cur + n - 1) with ((cur - 1) + 1 * n) by lia.
    rewrite Nat.Div0.mod_add, Nat.mod_small by lia. lia.
Qed.

(** The effect index after a move to [newIdx]. *)
Lemma navigateEffects_moves (button : jsval) (w : World) (cur new : nat) :
  dd_selection (effectDropdown (ui w)) = Some cur ->
  List.length (dd_items (effectDropdown (ui w))) = List.length (currentEffects (vars w)) ->
  new < List.length (currentEffects (vars w)) ->
  (if JS.is_str button "TOP RIGHT"
   then (if (Z.of_nat (List.length (currentEffects (vars w))) <=? Z.of_nat cur + 1)%Z
         then 0 else Z.of_nat cur + 1)%Z
   else if JS.is_str button "TOP LEFT"
   then (if (Z.of_nat cur - 1 <? 0)%Z
         then Z.of_nat (List.length (currentEffects (vars w))) - 1
         else Z.of_nat cur - 1)%Z
   else Z.of_nat cur) = Z.of_nat new ->
  snd (navigateEffects button w) = None /\
  dd_selection (effectDropdown (ui (fst (navigateEffects button w)))) = Some new /\
  host (fst (navigateEffects button w)) = host w /\
  currentEffects (vars (fst (navigateEffects button w))) = currentEffects (vars w) /\
  (new = cur -> navigateEffects button w = (w, None)).
Proof.
  intros S L N E. destruct w as [h v u].
  destruct v as [ia ld lsd lln ce cp0 lbt mc lm lrp lrb vd lpt lvp].
  destruct u as [st lt vdp hb pe pr be br ed pd kd si sit].
  simpl in S, L, N, E.
  unfold Panel.navigateEffects. norm_upd. unfold DD.indexOr. rewrite S, E.
  destruct (Z.eqb_spec (Z.of_nat new) (Z.of_nat cur)) as [Q|Q].
  - assert (new = cur) by lia. subst new. simpl. rewrite S. auto.
  - replace (0 <? Z.of_nat (List.length ce))%Z with true
      by (symmetry; apply Z.ltb_lt; lia).
    simpl andb. cbv iota. rewrite Nat2Z.id.
    match goal with |- context [Panel.populateProperties _ ?w0] =>
      destruct (populateProperties_shape w0) as (cp & u1 & E1 & D1 & _) end.
    rewrite E1.
    match goal with |- context [updateKeypadDropdowns ?w0] =>
      destruct (updateKeypadDropdowns_shape w0) as (u2 & E2 & D2 & _) end.
    rewrite E2. destruct u1, u2. simpl in D1, D2. subst. simpl.
    destruct (nth_error ce new) as [ei|] eqn:NE;
      [|apply nth_error_None in NE; lia].
    simpl. unfold DD.select. simpl dd_items. rewrite L.
    replace (new <? List.length ce) with true
      by (symmetry; apply Nat.ltb_lt; exact N).
    repeat split; auto. intros ->. lia.
Qed.

Lemma navigateEffects_next (w : World) (cur : nat) :
  dd_selection (effectDropdown (ui w)) = Some cur ->
  List.length (dd_items (effectDropdown (ui w))) = List.length (currentEffects (vars w)) ->
  cur < List.length (currentEffects (vars w)) ->
  snd (navigateEffects (JStr "TOP RIGHT") w) = None /\
  dd_selection (effectDropdown (ui (fst (navigateEffects (JStr "TOP RIGHT") w))))
    = Some ((cur + 1) mod List.length (currentEffects (vars w))) /\
  host (fst (navigateEffects (JStr "TOP RIGHT") w)) = host w /\
  currentEffects (vars (fst (navigateEffects (JStr "TOP RIGHT") w)))
    = currentEffects (vars w) /\
  ((cur + 1) mod List.length (currentEffects (vars w)) = cur ->
   navigateEffects (JStr "TOP RIGHT") w = (w, None)).
Proof.
  intros S L C.
  apply (navigateEffects_moves (JStr "TOP RIGHT") w cur _ S L).
  - apply Nat.mod_upper_bound. lia.
  - simpl JS.is_str. cbv iota. apply next_index. exact C.
Qed.

Lemma navigateEffects_prev (w : World) (cur : nat) :
  dd_selection (effectDropdown (ui w)) = Some cur ->
  List.length (dd_items (effectDropdown (ui w))) = List.length (currentEffects (vars w)) ->
  cur < List.length (currentEffects (vars w)) ->
  snd (navigateEffects (JStr "TOP LEFT") w) = None /\
  dd_selection (effectDropdown (ui (fst (navigateEffects (JStr "TOP LEFT") w))))
    = Some ((cur + List.length (currentEffects (vars w)) - 1)
              mod List.length (currentEffects (vars w))) /\
  host (fst (navigateEffects (JStr "TOP LEFT") w)) = host w /\
  currentEffects (vars (fst (navigateEffects (JStr "TOP LEFT") w)))
    = currentEffects (vars w) /\
  ((cur + List.length (currentEffects (vars w)) - 1)
     mod List.length (currentEffects (vars w)) = cur ->
   navigateEffects (JStr "TOP LEFT") w = (w, None)).
Proof.
  intros S L C.
  apply (navigateEffects_moves (JStr "TOP LEFT") w cur _ S L).
  - apply Nat.mod_upper_bound. lia.
  - simpl JS.is_str. cbv iota. apply prev_index. exact C.
Qed.

(** With no effects nothing moves. *)
Lemma navigateEffects_empty (button : jsval) (w : World) :
  currentEffects (vars w) = [] -> navigateEffects button w = (w, None).
Proof.
  intros E. unfold Panel.navigateEffects. cbv zeta. rewrite E. simpl List.length.
  rewrite andb_false_r. reflexivity.
Qed.

Lemma firstSelected_bounds (ls : list Layer) : forall (i c : nat) (l : Layer),
  AE.firstSelected i ls = Some (c, l) -> i <= c < i + List.length ls.
Proof.
  induction ls as [|a r IH]; intros i c l; simpl; [discriminate|].
  destruct (l_selected a).
  - intros E; inversion E; subst. lia.
  - intros E. apply IH in E. lia.
Qed.

Lemma firstSelected_setSelected (ls : list Layer) : forall (k i : nat),
  1 <= k <= List.length ls ->
  exists l,
    AE.firstSelected i (AE.setSelected k true (map (AE.set_l_selected false) ls))
      = Some (i + k - 1, l).
Proof.
  induction ls as [|a r IH]; intros k i H; simpl in H; [lia|].
  destruct k as [|[|k']]; [lia| |].
  - simpl. eexists. replace (i + 1 - 1) with i by lia. reflexivity.
  - simpl map. change (AE.setSelected (S (S k')) true (AE.set_l_selected false a :: map (AE.set_l_selected false) r))
      with (AE.set_l_selected false a :: AE.setSelected (S k') true (map (AE.set_l_selected false) r)).
    unfold AE.firstSelected; fold AE.firstSelected. simpl l_selected. cbv iota.
    destruct (IH (S k') (S i)) as (l & E); [lia|].
    exists l. rewrite E. f_equal. f_equal. lia.
Qed.

Lemma selectLayerByIndex_selects (fs : FileSystem) (w : World) (comp : Comp) (k : nat) :
  activeItem (host w) = Some comp ->
  1 <= k <= AE.numLayers comp ->
  getCurrentLayerIndex (selectLayerByIndex fs (Z.of_nat k) w) = Z.of_nat k /\
  properties (host (selectLayerByIndex fs (Z.of_nat k) w)) = properties (host w).
Proof.
  intros A K. unfold Panel.selectLayerByIndex. rewrite A.
  replace (1 <=? Z.of_nat k)%Z with true by (symmetry; apply Z.leb_le; lia).
  replace (Z.of_nat k <=? Z.of_nat (AE.numLayers comp))%Z with true
    by (symmetry; apply Z.leb_le; lia).
  simpl andb. cbv iota zeta. rewrite Nat2Z.id.
  match goal with |- context [Panel.populateEffects _ _ _ ?w0] =>
    destruct (populateEffects_shape fs w0) as (ce & cp & lm & mc & u & E) end.
  rewrite E.
  unfold AE.numLayers in K.
  destruct (firstSelected_setSelected (c_layers comp) k 1 K) as (l & F).
  assert (G : forall w' : World,
             host w' = AE.set_activeItem
                         (Some (AE.set_c_layers
                                  (AE.setSelected k true
                                     (map (AE.set_l_selected false) (c_layers comp)))
                                  comp)) (host w) ->
             getCurrentLayerIndex w' = Z.of_nat k /\
             properties (host w') = properties (host w)).
  { intros w' H. unfold getCurrentLayerIndex, AE.selectedLayer0. rewrite H. simpl.
    rewrite F. split; [f_equal; lia|reflexivity]. }
  destruct (nth_error _ _); apply G; destruct w; reflexivity.
Qed.

(** The layer index after a move to [new]. *)
Lemma navigateLayers_moves (fs : FileSystem) (button : jsval) (w : World)
      (comp : Comp) (cur new : nat) (layer : Layer) :
  activeItem (host w) = Some comp ->
  AE.selectedLayer0 comp = Some (cur, layer) ->
  1 <= new <= AE.numLayers comp ->
  (if JS.is_str button "BOTTOM RIGHT"
   then (if (Z.of_nat (AE.numLayers comp) <? Z.of_nat cur + 1)%Z
         then 1 else Z.of_nat cur + 1)%Z
   else if JS.is_str button "BOTTOM LEFT"
   then (if (Z.of_nat cur - 1 <? 1)%Z
         then Z.of_nat (AE.numLayers comp) else Z.of_nat cur - 1)%Z
   else Z.of_nat cur) = Z.of_nat new ->
  getCurrentLayerIndex (navigateLayers fs button w) = Z.of_nat new /\
  properties (host (navigateLayers fs button w)) = properties (host w) /\
  (new = cur -> navigateLayers fs button w = w).
Proof.
  intros A S N E. unfold Panel.navigateLayers. rewrite A. cbv zeta.
  assert (C : getCurrentLayerIndex w = Z.of_nat cur)
    by (unfold getCurrentLayerIndex; rewrite A, S; reflexivity).
  rewrite C.
  replace (Z.of_nat cur <? 0)%Z with false by (symmetry; apply Z.ltb_ge; lia).
  cbv iota. rewrite E.
  destruct (Z.eqb_spec (Z.of_nat new) (Z.of_nat cur)) as [Q|Q]; simpl negb; cbv iota.
  - assert (new = cur) by lia. subst new. auto.
  - destruct (selectLayerByIndex_selects fs w comp new A N) as [G P].
    split; [exact G|]. split; [exact P|]. intros ->. lia.
Qed.

Lemma next_layer (p n : nat) :
  p < n ->
  (if (Z.of_nat n <? Z.of_nat (S p) + 1)%Z then 1 else Z.of_nat (S p) + 1)%Z
    = Z.of_nat (S ((p + 1) mod n)).
Proof.
  intros H. destruct (Z.ltb_spec (Z.of_nat n) (Z.of_nat (S p) + 1)).
  - replace (p + 1) with n by lia. rewrite Nat.Div0.mod_same. reflexivity.
  - rewrite Nat.mod_small by lia. lia.
Qed.

Lemma prev_layer (p n : nat) :
  p < n ->
  (if (Z.of_nat (S p) - 1 <? 1)%Z then Z.of_nat n else Z.of_nat (S p) - 1)%Z
    = Z.of_nat (S ((p + n - 1) mod n)).
Proof.
  intros H. destruct (Z.ltb_spec (Z.of_nat (S p) - 1) 1).
  - replace p with 0 by lia. simpl plus. rewrite Nat.mod_small by lia. lia.
  - replace (p + n - 1) with ((p - 1) + 1 * n) by lia.
    rewrite Nat.Div0.mod_add, Nat.mod_small by lia. lia.
Qed.

(** Without layers nothing moves. *)
Lemma navigateLayers_empty (fs : FileSystem) (button : jsval) (w : World) (comp : Comp) :
  activeItem (host w) = Some comp -> c_layers comp = [] ->
  navigateLayers fs button w = w.
Proof.
  intros A E. unfold Panel.navigateLayers, getCurrentLayerIndex, AE.selectedLayer0,
                AE.numLayers.
  rewrite A, E. simpl AE.firstSelected. cbv iota zeta. simpl List.length.
  destruct (JS.is_str button "BOTTOM RIGHT"); [reflexivity|].
  destruct (JS.is_str button "BOTTOM LEFT"); [|reflexivity].
  simpl. unfold Panel.selectLayerByIndex. rewrite A, E. reflexivity.
Qed.

Lemma dispatchButton_top (fs : FileSystem) (button : jsval) (w : World) :
  button = JStr "TOP RIGHT" \/ button = JStr "TOP LEFT" ->
  dispatchButton fs button w = navigateEffects button w.
Proof.
  intros [->| ->]; unfold Panel.dispatchButton; simpl JS.is_str; simpl orb; cbv iota;
    destruct (Panel.navigateEffects _ _ _) as [w' [f|]]; reflexivity.
Qed.

Lemma dispatchButton_bottom (fs : FileSystem) (button : jsval) (w : World) :
  button = JStr "BOTTOM RIGHT" \/ button = JStr "BOTTOM LEFT" ->
  dispatchButton fs button w = (navigateLayers fs button w, None).
Proof.
  intros [->| ->]; reflexivity.
Qed.

Lemma accepted_frame (fs : FileSystem) (ts : jsval) (w : World) :
  host (accepted ts (snd (pollFiles fs w))) = host w /\
  effectDropdown (ui (accepted ts (snd (pollFiles fs w)))) = effectDropdown (ui w) /\
  currentEffects (vars (accepted ts (snd (pollFiles fs w)))) = currentEffects (vars w).
Proof.
  destruct (pollFiles_frame fs w) as (H & (raw & tsp & pos & rawb & V) & _ & ED & _).
  unfold accepted. simpl. rewrite H, ED, V. destruct (vars w); simpl; auto.
Qed.

(** *** The claim about navigation *)

(** C5. For a pressed button event with a fresh marker, where [idle]
    is the state in which the event has only been accepted:

    - over [n] effects, with the dropdown listing them and its index
      [cur] below [n], TOP RIGHT moves the index to [(cur + 1) mod n]
      and TOP LEFT to [(cur + n - 1) mod n]: from [n - 1] next gives
      0, from 0 previous gives [n - 1], and the index stays below [n];
      with one effect, and with none, the state is [idle];
    - over [n] layers, the selected one at position [p] counted from
      0, BOTTOM RIGHT selects the layer at position [(p + 1) mod n]
      and BOTTOM LEFT the one at [(p + n - 1) mod n] (the layer index
      of the application is the position plus 1); with one layer, and
      with none, the state is [idle]. *)
Theorem navigation_wraps_cyclically :
  forall (fs : FileSystem) (w : World) (button tsv pressed : jsval),
    JS.get (fst (pollFiles fs w)) "button" = Some button ->
    JS.get (fst (pollFiles fs w)) "timestamp" = Some tsv ->
    JS.get (fst (pollFiles fs w)) "pressed" = Some pressed ->
    JS.truthy pressed = true ->
    jsLe looseLe (JS.or tsv (JNum Num.zero)) (lastButtonTimestamp (vars w)) = false ->
    let w' := fst (checkButtons fs w) in
    let idle := accepted (JS.or tsv (JNum Num.zero)) (snd (pollFiles fs w)) in
    (forall cur n : nat,
        n = List.length (currentEffects (vars w)) ->
        dd_selection (effectDropdown (ui w)) = Some cur ->
        cur < n ->
        List.length (dd_items (effectDropdown (ui w))) = n ->
        (button = JStr "TOP RIGHT" ->
         dd_selection (effectDropdown (ui w')) = Some ((cur + 1) mod n) /\
         (cur + 1) mod n < n /\
         (cur = n - 1 -> dd_selection (effectDropdown (ui w')) = Some 0)) /\
        (button = JStr "TOP LEFT" ->
         dd_selection (effectDropdown (ui w')) = Some ((cur + n - 1) mod n) /\
         (cur + n - 1) mod n < n /\
         (cur = 0 -> dd_selection (effectDropdown (ui w')) = Some (n - 1))) /\
        (n = 1 -> button = JStr "TOP RIGHT" \/ button = JStr "TOP LEFT" -> w' = idle)) /\
    (currentEffects (vars w) = [] ->
     button = JStr "TOP RIGHT" \/ button = JStr "TOP LEFT" -> w' = idle) /\
    (forall (comp : Comp) (p n : nat) (layer : Layer),
        activeItem (host w) = Some comp ->
        n = AE.numLayers comp ->
        AE.selectedLayer0 comp = Some (S p, layer) ->
        p < n /\
        (button = JStr "BOTTOM RIGHT" ->
         getCurrentLayerIndex w' = Z.of_nat (S ((p + 1) mod n)) /\
         (p + 1) mod n < n /\
         (p = n - 1 -> getCurrentLayerIndex w' = 1%Z)) /\
        (button = JStr "BOTTOM LEFT" ->
         getCurrentLayerIndex w' = Z.of_nat (S ((p + n - 1) mod n)) /\
         (p + n - 1) mod n < n /\
         (p = 0 -> getCurrentLayerIndex w' = Z.of_nat n)) /\
        (n = 1 -> button = JStr "BOTTOM RIGHT" \/ button = JStr "BOTTOM LEFT" ->
         w' = idle)) /\
    (forall comp : Comp,
        activeItem (host w) = Some comp -> c_layers comp = [] ->
        button = JStr "BOTTOM RIGHT" \/ button = JStr "BOTTOM LEFT" -> w' = idle).
Proof.
  intros fs w button tsv pressed B T P TP G w' idle.
  assert (TB : button = JStr "TOP RIGHT" \/ button = JStr "TOP LEFT" \/
               button = JStr "BOTTOM RIGHT" \/ button = JStr "BOTTOM LEFT" ->
               JS.truthy button = true)
    by (intros [->|[->|[->| ->]]]; reflexivity).
  assert (CB : button = JStr "TOP RIGHT" \/ button = JStr "TOP LEFT" \/
               button = JStr "BOTTOM RIGHT" \/ button = JStr "BOTTOM LEFT" ->
               checkButtons fs w = dispatchButton fs button idle)
    by (intros K; exact (checkButtons_fresh fs w button tsv pressed B (TB K) T P TP G)).
  destruct (accepted_frame fs (JS.or tsv (JNum Num.zero)) w) as (IH & IE & IC).
  fold idle in IH, IE, IC.
  split; [|split; [|split]].
  - intros cur n -> Sel C L.
    assert (S' : dd_selection (effectDropdown (ui idle)) = Some cur) by (rewrite IE; exact Sel).
    assert (L' : List.length (dd_items (effectDropdown (ui idle)))
                 = List.length (currentEffects (vars idle))) by (rewrite IE, IC; exact L).
    assert (C' : cur < List.length (currentEffects (vars idle))) by (rewrite IC; exact C).
    destruct (navigateEffects_next idle cur S' L' C') as (_ & N1 & _ & _ & N2).
    destruct (navigateEffects_prev idle cur S' L' C') as (_ & P1 & _ & _ & P2).
    rewrite IC in N1, N2, P1, P2.
    split; [|split].
    + intros K. unfold w'. rewrite CB by auto. rewrite dispatchButton_top by auto.
      subst button. rewrite N1. split; [reflexivity|]. split.
      * apply Nat.mod_upper_bound. lia.
      * intros ->. replace (List.length (currentEffects (vars w)) - 1 + 1)
          with (List.length (currentEffects (vars w))) by lia.
        rewrite Nat.Div0.mod_same. reflexivity.
    + intros K. unfold w'. rewrite CB by auto. rewrite dispatchButton_top by auto.
      subst button. rewrite P1. split; [reflexivity|]. split.
      * apply Nat.mod_upper_bound. lia.
      * intros ->. simpl plus. rewrite Nat.mod_small by lia. reflexivity.
    + intros One K. unfold w'. rewrite CB by (destruct K; auto 6). rewrite dispatchButton_top by auto.
      assert (cur = 0) by lia. subst cur. rewrite One in N2, P2.
      destruct K as [->| ->]; [rewrite N2|rewrite P2]; reflexivity.
  - intros E K. unfold w'. rewrite CB by (destruct K; auto 6). rewrite dispatchButton_top by auto.
    rewrite navigateEffects_empty; [reflexivity|]. rewrite IC. exact E.
  - intros comp p n layer A -> Sel.
    assert (Bd : p < AE.numLayers comp).
    { unfold AE.selectedLayer0 in Sel. apply firstSelected_bounds in Sel.
      unfold AE.numLayers. lia. }
    assert (A' : activeItem (host idle) = Some comp) by (rewrite IH; exact A).
    assert (MN : getCurrentLayerIndex
                   (navigateLayers fs (JStr "BOTTOM RIGHT") idle)
                 = Z.of_nat (S ((p + 1) mod AE.numLayers comp)) /\
                 (S ((p + 1) mod AE.numLayers comp) = S p ->
                  navigateLayers fs (JStr "BOTTOM RIGHT") idle = idle)).
    { destruct (navigateLayers_moves fs (JStr "BOTTOM RIGHT") idle comp (S p)
                  (S ((p + 1) mod AE.numLayers comp)) layer A' Sel) as (M1 & _ & M2).
      - pose proof (Nat.mod_upper_bound (p + 1) (AE.numLayers comp)). lia.
      - simpl JS.is_str. cbv iota. apply next_layer. exact Bd.
      - auto. }
    assert (MP : getCurrentLayerIndex
                   (navigateLayers fs (JStr "BOTTOM LEFT") idle)
                 = Z.of_nat (S ((p + AE.numLayers comp - 1) mod AE.numLayers comp)) /\
                 (S ((p + AE.numLayers comp - 1) mod AE.numLayers comp) = S p ->
                  navigateLayers fs (JStr "BOTTOM LEFT") idle = idle)).
    { destruct (navigateLayers_moves fs (JStr "BOTTOM LEFT") idle comp (S p)
                  (S ((p + AE.numLayers comp - 1) mod AE.numLayers comp)) layer A' Sel)
        as (M1 & _ & M2).
      - pose proof (Nat.mod_upper_bound (p + AE.numLayers comp - 1) (AE.numLayers comp)).
        lia.
      - simpl JS.is_str. cbv iota. apply prev_layer. exact Bd.
      - auto. }
    destruct MN as [N1 N2]. destruct MP as [P1 P2].
    split; [exact Bd|]. split; [|split].
    + intros K. unfold w'. rewrite CB by auto. rewrite dispatchButton_bottom by auto.
      subst button. simpl fst. rewrite N1. split; [reflexivity|]. split.
      * apply Nat.mod_upper_bound. lia.
      * intros Q. rewrite Q at 1.
        replace (AE.numLayers comp - 1 + 1) with (AE.numLayers comp) by lia.
        rewrite Nat.Div0.mod_same. reflexivity.
    + intros K. unfold w'. rewrite CB by auto. rewrite dispatchButton_bottom by auto.
      subst button. simpl fst. rewrite P1. split; [reflexivity|]. split.
      * apply Nat.mod_upper_bound. lia.
      * intros ->. simpl plus. rewrite Nat.mod_small by lia.
        f_equal. lia.
    + intros One K. unfold w'. rewrite CB by (destruct K; auto 6).
      rewrite dispatchButton_bottom by auto. simpl fst.
      assert (p = 0) by lia. subst p. rewrite One in N2, P2.
      destruct K as [->| ->]; [apply N2|apply P2]; reflexivity.
  - intros comp A E K. unfold w'. rewrite CB by (destruct K; auto 6).
    rewrite dispatchButton_bottom by auto. simpl fst.
    apply (navigateLayers_empty fs button idle comp); [rewrite IH; exact A|exact E].
Qed.

(** *** The tick *)

Local Abbreviation tick := (tick faultMessage).
Local Abbreviation logiReceiverUpdate :=
  (logiReceiverUpdate JSON_parse parseFloat toFixed valueAtTime faultMessage looseLe
     fallbackCandidates).

(** The state after the heartbeat line. *)
Lemma isActive_beat (w : World) :
  isActive (vars (beat w)) = isActive (vars w).
Proof. destruct w; reflexivity. Qed.

Lemma tick_returns (buttons dials : step) (w : World) :
  snd (tick buttons dials w) = None.
Proof.
  unfold Panel.tick. fold (beat w).
  destruct (isActive (vars (beat w))); [|reflexivity].
  destruct (buttons (beat w)) as [w1 [f|]]; [reflexivity|].
  destruct (dials w1) as [w2 [f|]]; reflexivity.
Qed.

Lemma schedule_runs_all (task : FileSystem -> World -> World * option Fault) :
  (forall fs w, snd (task fs w) = None) ->
  forall files w, snd (schedule task files w) = List.length files.
Proof.
  intros Safe files. induction files as [|fs rest IH]; intros w; simpl; [reflexivity|].
  specialize (Safe fs w). destruct (task fs w) as [w1 [f|]]; simpl in Safe; [discriminate|].
  specialize (IH w1). destruct (schedule task rest w1) as [w2 n]. simpl in *. congruence.
Qed.

(** C8. Whatever the two steps of a tick are, the tick returns and
    raises nothing.  When the button step raises [f], or returns and
    the dial step raises [f], the state the tick leaves is the one the
    failing step reached with the status line set to "Scheduler
    error: " followed by the message of [f].  A scheduler that would
    give up on a task that raises therefore runs every tick: over any
    sequence of file-system snapshots the number of runs is the length
    of the sequence, for arbitrary steps and for the steps of the
    panel. *)
Theorem tick_failures_are_contained :
  (forall (buttons dials : step) (w : World), snd (tick buttons dials w) = None) /\
  (forall (buttons dials : step) (w w1 : World) (f : Fault),
      isActive (vars w) = true ->
      buttons (beat w) = (w1, Some f) ->
      fst (tick buttons dials w)
      = setStatus ("Scheduler error: " ++ faultMessage f) w1) /\
  (forall (buttons dials : step) (w w1 w2 : World) (f : Fault),
      isActive (vars w) = true ->
      buttons (beat w) = (w1, None) ->
      dials w1 = (w2, Some f) ->
      fst (tick buttons dials w)
      = setStatus ("Scheduler error: " ++ faultMessage f) w2) /\
  (forall (fs : FileSystem) (w : World), snd (logiReceiverUpdate fs w) = None) /\
  (forall (buttons dials : FileSystem -> step) (files : list FileSystem) (w : World),
      snd (schedule (fun fs => tick (buttons fs) (dials fs)) files w)
      = List.length files) /\
  (forall (files : list FileSystem) (w : World),
      snd (schedule logiReceiverUpdate files w) = List.length files).
Proof.
  split; [exact tick_returns|].
  split.
  { intros buttons dials w w1 f A B. unfold Panel.tick. fold (beat w).
    rewrite isActive_beat, A, B. reflexivity. }
  split.
  { intros buttons dials w w1 w2 f A B D. unfold Panel.tick. fold (beat w).
    rewrite isActive_beat, A, B, D. reflexivity. }
  split; [intros fs w; apply tick_returns|].
  split.
  - intros buttons dials. apply schedule_runs_all. intros fs w. apply tick_returns.
  - apply schedule_runs_all. intros fs w. apply tick_returns.
Qed.

(** *** Keyframes near the playhead *)

Lemma abs_not_nan (x : num) : Num.is_nan x = false -> Num.is_nan (Num.abs x) = false.
Proof. destruct x; simpl; auto. Qed.

Lemma finite_not_nan (x : num) : Num.isFinite x = true -> Num.is_nan x = false.
Proof. destruct x; simpl; auto; discriminate. Qed.

Lemma dist_not_nan (t kt : num) :
  Num.isFinite kt = true -> Num.isFinite t = true -> Num.is_nan (AE.dist t kt) = false.
Proof.
  intros K T. unfold AE.dist. apply abs_not_nan, NumFacts.sub_not_nan; [exact K|].
  apply finite_not_nan, T.
Qed.

Lemma keyNear_eqb (t : num) (k : keyframe) :
  Num.isFinite (fst k) = true -> Num.eqb (fst k) t = true -> keyNear t k = true.
Proof.
  intros K E. unfold keyNear, AE.dist.
  pose proof (NumFacts.eqb_sub_zero (fst k) t K E) as Z.
  destruct (Num.sub (fst k) t); try discriminate. reflexivity.
Qed.

Lemma keyNear_self (t : num) (v : jsval) :
  Num.isFinite t = true -> keyNear t (t, v) = true.
Proof.
  intros T. unfold keyNear, AE.dist. simpl fst. rewrite (NumFacts.sub_diag t T).
  reflexivity.
Qed.

Lemma keyPresent_keysNear (t : num) (ks : list keyframe) :
  keyPresent t ks = negb (keysNear t ks =? 0).
Proof.
  unfold keyPresent, keysNear. induction ks as [|k r IH]; simpl; [reflexivity|].
  destruct (keyNear t k); simpl; [reflexivity|exact IH].
Qed.

Lemma keyPresent_false (t : num) (ks : list keyframe) :
  keyPresent t ks = false -> forall k, In k ks -> keyNear t k = false.
Proof.
  unfold keyPresent. induction ks as [|k0 r IH]; simpl; intros E k []; subst;
    apply orb_false_iff in E; destruct E; auto.
Qed.

(** The scan for the nearest keyframe: the result is the running best
    or an index into the rest; when the running best or a keyframe of
    the rest is within the tolerance, so is the one found. *)
Lemma nearest_from_pick (t : num) (ks : list keyframe) :
  forall (best : nat) (bestd : num) (i : nat),
    AE.nearest_from t best bestd i ks = best \/
    exists m kj, AE.nearest_from t best bestd i ks = i + m /\ nth_error ks m = Some kj.
Proof.
  induction ks as [|k r IH]; intros best bestd i; simpl; [left; reflexivity|].
  destruct (Num.ltb (AE.dist t (fst k)) bestd).
  - destruct (IH i (AE.dist t (fst k)) (S i)) as [E|(m & kj & E & N)].
    + right. exists 0, k. rewrite E. split; [lia|reflexivity].
    + right. exists (S m), kj. rewrite E. split; [lia|exact N].
  - destruct (IH best bestd (S i)) as [E|(m & kj & E & N)].
    + left. exact E.
    + right. exists (S m), kj. rewrite E. split; [lia|exact N].
Qed.

Lemma nearest_from_near (t : num) (ks : list keyframe) :
  Num.isFinite t = true -> timesFinite ks ->
  forall (best : nat) (bestd : num) (i : nat),
    Num.is_nan bestd = false ->
    Num.ltb bestd Num.thousandth = true \/ keyPresent t ks = true ->
    (AE.nearest_from t best bestd i ks = best /\ Num.ltb bestd Num.thousandth = true) \/
    exists m kj, AE.nearest_from t best bestd i ks = i + m /\ nth_error ks m = Some kj /\
                 keyNear t kj = true.
Proof.
  intros T F. induction F as [|k r Fk Fr IH]; intros best bestd i NB P; simpl.
  - destruct P as [P|P]; [left; auto|discriminate].
  - pose proof (dist_not_nan t (fst k) Fk T) as NK.
    destruct (Num.ltb (AE.dist t (fst k)) bestd) eqn:L.
    + assert (P' : Num.ltb (AE.dist t (fst k)) Num.thousandth = true \/
                   keyPresent t r = true).
      { destruct P as [P|P].
        - left. exact (NumFacts.ltb_trans _ _ _ L P).
        - unfold keyPresent in P. simpl in P. apply orb_true_iff in P.
          destruct P as [P|P]; [left; exact P|right; exact P]. }
      destruct (IH i (AE.dist t (fst k)) (S i) NK P') as [[E N]|(m & kj & E & N & Q)].
      * right. exists 0, k. rewrite E. split; [lia|]. split; [reflexivity|exact N].
      * right. exists (S m), kj. rewrite E. split; [lia|]. split; [exact N|exact Q].
    + assert (P' : Num.ltb bestd Num.thousandth = true \/ keyPresent t r = true).
      { destruct P as [P|P]; [left; exact P|].
        unfold keyPresent in P. simpl in P. apply orb_true_iff in P.
        destruct P as [P|P]; [|right; exact P].
        left. apply (NumFacts.leb_ltb_trans _ (AE.dist t (fst k))); [|exact P].
        apply NumFacts.ltb_false_leb; assumption. }
      destruct (IH best bestd (S i) NB P') as [[E N]|(m & kj & E & N & Q)].
      * left. auto.
      * right. exists (S m), kj. rewrite E. split; [lia|]. split; [exact N|exact Q].
Qed.

(** [nearestKeyIndex] on a non-empty list of keyframes. *)
Lemma nearestKeyIndex_pick (p : Property) (t : num) :
  p_keys p <> [] ->
  exists m kj, AE.nearestKeyIndex p t = Ok (S m) /\ nth_error (p_keys p) m = Some kj.
Proof.
  unfold AE.nearestKeyIndex. destruct (p_keys p) as [|k r]; [congruence|]. intros _.
  destruct (nearest_from_pick t r 1 (AE.dist t (fst k)) 2) as [E|(m & kj & E & N)].
  - exists 0, k. rewrite E. auto.
  - exists (S m), kj. rewrite E. auto.
Qed.

Lemma nearestKeyIndex_near (p : Property) (t : num) :
  Num.isFinite t = true -> timesFinite (p_keys p) ->
  keyPresent t (p_keys p) = true ->
  exists m kj, AE.nearestKeyIndex p t = Ok (S m) /\ nth_error (p_keys p) m = Some kj /\
               keyNear t kj = true.
Proof.
  unfold AE.nearestKeyIndex. destruct (p_keys p) as [|k r]; [discriminate|].
  intros T F P. inversion F as [|k' r' Fk Fr]; subst.
  assert (P' : Num.ltb (AE.dist t (fst k)) Num.thousandth = true \/ keyPresent t r = true).
  { unfold keyPresent in P. simpl in P. apply orb_true_iff in P. exact P. }
  destruct (nearest_from_near t r T Fr 1 (AE.dist t (fst k)) 2
              (dist_not_nan t (fst k) Fk T) P') as [[E N]|(m & kj & E & N & Q)].
  - exists 0, k. rewrite E. auto.
  - exists (S m), kj. rewrite E. auto.
Qed.

Lemma keysNear_remove (t : num) (ks : list keyframe) :
  forall (m : nat) (k : keyframe),
    nth_error ks m = Some k -> keyNear t k = true ->
    keysNear t ks = S (keysNear t (AE.remove_nth m ks)).
Proof.
  unfold keysNear. induction ks as [|k0 r IH]; intros [|m] k N Q; simpl in N;
    try discriminate.
  - inversion N; subst. simpl. rewrite Q. reflexivity.
  - simpl. destruct (keyNear t k0); simpl; rewrite (IH m k N Q); reflexivity.
Qed.

Lemma timesFinite_remove (ks : list keyframe) :
  timesFinite ks -> forall m, timesFinite (AE.remove_nth m ks).
Proof.
  unfold timesFinite. induction 1 as [|k r Fk Fr IH]; intros [|m]; simpl; auto;
    try constructor; auto.
Qed.

Lemma timesFinite_putKey (t : num) (v : jsval) (ks : list keyframe) :
  Num.isFinite t = true -> timesFinite ks -> timesFinite (AE.putKey t v ks).
Proof.
  unfold timesFinite. intros T. induction 1 as [|k r Fk Fr IH]; simpl.
  - constructor; auto.
  - destruct (Num.eqb (fst k) t); [constructor; auto|].
    destruct (Num.ltb t (fst k)); repeat (constructor; auto).
Qed.

(** A keyframe set at a time with none near is the only one near. *)
Lemma keysNear_putKey (t : num) (v : jsval) (ks : list keyframe) :
  Num.isFinite t = true -> timesFinite ks -> keyPresent t ks = false ->
  keysNear t (AE.putKey t v ks) = 1.
Proof.
  intros T F. unfold keysNear, keyPresent. induction F as [|k r Fk Fr IH]; simpl; intros P.
  - rewrite (keyNear_self t v T). reflexivity.
  - apply orb_false_iff in P. destruct P as [Pk Pr].
    destruct (Num.eqb (fst k) t) eqn:E.
    + rewrite (keyNear_eqb t k Fk E) in Pk. discriminate.
    + destruct (Num.ltb t (fst k)); simpl.
      * rewrite (keyNear_self t v T), Pk. simpl. f_equal.
        clear IH. induction r as [|k1 r1 IH1]; simpl; [reflexivity|].
        simpl in Pr. apply orb_false_iff in Pr. destruct Pr as [P1 Pr1].
        rewrite P1. apply IH1; [inversion Fr; auto|exact Pr1].
      * rewrite Pk. apply IH. exact Pr.
Qed.

Lemma nth_error_replace_nth {A : Type} (l : list A) :
  forall (j : nat) (a b : A),
    nth_error l j = Some b -> nth_error (AE.replace_nth j a l) j = Some a.
Proof.
  induction l as [|x r IH]; intros [|j] a b N; simpl in *; try discriminate; eauto.
Qed.

(** *** The toggle *)

Local Abbreviation toggle :=
  (onSelectedProperty faultMessage "Keyframe toggle error: " toggleKeyframe).

Lemma nearby_is_keyNear (t : num) (k : keyframe) :
  Num.ltb (Num.abs (Num.sub (fst k) t)) Num.thousandth = keyNear t k.
Proof. reflexivity. Qed.

(** The body of the toggle on a property that is in the store. *)
Lemma toggleKeyframe_run (pinfo : PropInfo) (w : World) (comp : Comp) (prop : Property) :
  activeItem (host w) = Some comp ->
  nth_error (properties (host w)) (pi_prop pinfo) = Some prop ->
  Num.isFinite (c_time comp) = true ->
  timesFinite (p_keys prop) ->
  exists (status : string) (keys' : list keyframe),
    toggleKeyframe pinfo w
    = Ok (setStatus status
            (Upd.on_host (AE.storeProperty (pi_prop pinfo) (AE.set_p_keys keys' prop)) w)) /\
    timesFinite keys' /\
    (keyPresent (c_time comp) (p_keys prop) = true ->
     exists m k, keys' = AE.remove_nth m (p_keys prop) /\
                 nth_error (p_keys prop) m = Some k /\
                 keyNear (c_time comp) k = true) /\
    (keyPresent (c_time comp) (p_keys prop) = false ->
     keys' = AE.putKey (c_time comp) (propValue valueAtTime (c_time comp) prop)
                       (p_keys prop)).
Proof.
  intros A N T F. unfold Panel.toggleKeyframe, activeComp, AE.lookupProperty.
  rewrite A, N. unfold bind at 1 2.
  destruct (keyPresent (c_time comp) (p_keys prop)) eqn:P.
  - destruct (nearestKeyIndex_near prop (c_time comp) T F P) as (m & kj & E & Nj & Q).
    assert (L : (0 <? AE.numKeys prop) = true).
    { apply Nat.ltb_lt. unfold AE.numKeys.
      assert (m < List.length (p_keys prop)) by (apply nth_error_Some; congruence). lia. }
    rewrite L, E. unfold bind at 2. unfold AE.keyTime. rewrite Nj. unfold bind at 2.
    rewrite nearby_is_keyNear, Q. unfold bind. simpl Nat.ltb.
    unfold AE.removeKey.
    assert (M : (m <? List.length (p_keys prop)) = true)
      by (apply Nat.ltb_lt, nth_error_Some; congruence).
    rewrite M. eexists. exists (AE.remove_nth m (p_keys prop)).
    split; [reflexivity|]. split; [apply timesFinite_remove, F|].
    split; [|discriminate]. intros _. exists m, kj. auto.
  - assert (K : (if 0 <? AE.numKeys prop
                 then bind (AE.nearestKeyIndex prop (c_time comp)) (fun nearestKey =>
                      bind (AE.keyTime prop nearestKey) (fun keyTime =>
                      if Num.ltb (Num.abs (Num.sub keyTime (c_time comp))) Num.thousandth
                      then Ok nearestKey else Ok 0))
                 else Ok 0) = Ok 0).
    { destruct (0 <? AE.numKeys prop) eqn:L; [|reflexivity].
      assert (NE : p_keys prop <> []).
      { apply Nat.ltb_lt in L. unfold AE.numKeys in L.
        destruct (p_keys prop); [simpl in L; lia|discriminate]. }
      destruct (nearestKeyIndex_pick prop (c_time comp) NE) as (m & kj & E & Nj).
      rewrite E. unfold bind at 1. unfold AE.keyTime. rewrite Nj. unfold bind.
      rewrite nearby_is_keyNear.
      rewrite (keyPresent_false _ _ P kj (nth_error_In _ _ Nj)). reflexivity. }
    rewrite K. unfold bind. simpl Nat.ltb. cbv iota.
    eexists. eexists. split; [reflexivity|].
    split; [apply timesFinite_putKey; assumption|].
    split; [discriminate|]. intros _. reflexivity.
Qed.

(** One press of the toggle key on the selected property. *)
Lemma toggle_once (w : World) (pinfo : PropInfo) (comp : Comp) (prop : Property) :
  selectedProperty w = Some pinfo ->
  activeItem (host w) = Some comp ->
  nth_error (properties (host w)) (pi_prop pinfo) = Some prop ->
  Num.isFinite (c_time comp) = true ->
  timesFinite (p_keys prop) ->
  exists prop1,
    selectedProperty (toggle w) = Some pinfo /\
    activeItem (host (toggle w)) = Some comp /\
    nth_error (properties (host (toggle w))) (pi_prop pinfo) = Some prop1 /\
    timesFinite (p_keys prop1) /\
    (keyPresent (c_time comp) (p_keys prop) = true ->
     exists m k, p_keys prop1 = AE.remove_nth m (p_keys prop) /\
                 nth_error (p_keys prop) m = Some k /\
                 keyNear (c_time comp) k = true) /\
    (keyPresent (c_time comp) (p_keys prop) = false ->
     p_keys prop1 = AE.putKey (c_time comp) (propValue valueAtTime (c_time comp) prop)
                              (p_keys prop)).
Proof.
  intros S A N T F.
  destruct (toggleKeyframe_run pinfo w comp prop A N T F) as (status & keys' & E & F' & P1 & P2).
  unfold onSelectedProperty. rewrite S, E.
  exists (AE.set_p_keys keys' prop).
  split; [destruct w as [h v u]; exact S|].
  split; [destruct w as [h v u]; exact A|].
  split.
  { destruct w as [h v u]. simpl in N |- *.
    apply (nth_error_replace_nth _ _ _ prop). exact N. }
  split; [exact F'|]. split; [exact P1|exact P2].
Qed.

Lemma toggle_once_count (w : World) (pinfo : PropInfo) (comp : Comp) (prop : Property) :
  selectedProperty w = Some pinfo ->
  activeItem (host w) = Some comp ->
  nth_error (properties (host w)) (pi_prop pinfo) = Some prop ->
  Num.isFinite (c_time comp) = true ->
  timesFinite (p_keys prop) ->
  exists prop1,
    selectedProperty (toggle w) = Some pinfo /\
    activeItem (host (toggle w)) = Some comp /\
    nth_error (properties (host (toggle w))) (pi_prop pinfo) = Some prop1 /\
    timesFinite (p_keys prop1) /\
    keysNear (c_time comp) (p_keys prop1)
    = match keysNear (c_time comp) (p_keys prop) with
      | O => 1
      | S c => c
      end.
Proof.
  intros S A N T F.
  destruct (toggle_once w pinfo comp prop S A N T F) as (prop1 & S1 & A1 & N1 & F1 & P & Q).
  exists prop1. repeat (split; [assumption|]).
  pose proof (keyPresent_keysNear (c_time comp) (p_keys prop)) as PK.
  destruct (keysNear (c_time comp) (p_keys prop)) as [|c] eqn:C; simpl in PK.
  - rewrite (Q PK). apply keysNear_putKey; assumption.
  - destruct (P PK) as (m & k & -> & Nk & Nr).
    rewrite (keysNear_remove _ _ m k Nk Nr) in C. congruence.
Qed.

Lemma dispatchRest_toggle (fs : FileSystem) (w : World) :
  dispatchRest fs (JStr "8") w = toggle w.
Proof. reflexivity. Qed.

Lemma keyframeAtPlayhead_count (w : World) (id : nat) (comp : Comp) (prop : Property) :
  activeItem (host w) = Some comp ->
  nth_error (properties (host w)) id = Some prop ->
  keyframeAtPlayhead w id = Some (negb (keysNear (c_time comp) (p_keys prop) =? 0)).
Proof.
  intros A N. unfold keyframeAtPlayhead. rewrite A, N, keyPresent_keysNear. reflexivity.
Qed.

(** C6, amended. The playhead of the composition is at a finite time
    [t], the selected property is in the store and its key times are
    finite.  One press of keypad 8 removes one keyframe that lies
    within the tolerance of [t] when there is such a keyframe, and
    otherwise sets a keyframe at [t] with the value of the property at
    [t].  Two presses in a row restore the keyframe presence at [t]
    whenever the number of keyframes within the tolerance of [t] is
    not two; when it is two, both are removed and the presence goes
    from true to false. *)
Theorem toggle_twice_restores_presence :
  forall (fs : FileSystem) (w : World) (pinfo : PropInfo) (comp : Comp) (prop : Property),
    selectedProperty w = Some pinfo ->
    activeItem (host w) = Some comp ->
    nth_error (properties (host w)) (pi_prop pinfo) = Some prop ->
    Num.isFinite (c_time comp) = true ->
    timesFinite (p_keys prop) ->
    let t := c_time comp in
    let press := dispatchRest fs (JStr "8") in
    (exists prop1,
        nth_error (properties (host (press w))) (pi_prop pinfo) = Some prop1 /\
        (keyPresent t (p_keys prop) = true ->
         exists m k, p_keys prop1 = AE.remove_nth m (p_keys prop) /\
                     nth_error (p_keys prop) m = Some k /\ keyNear t k = true) /\
        (keyPresent t (p_keys prop) = false ->
         p_keys prop1 = AE.putKey t (propValue valueAtTime t prop) (p_keys prop) /\
         keyPresent t (p_keys prop1) = true)) /\
    (keysNear t (p_keys prop) <> 2 ->
     keyframeAtPlayhead (press (press w)) (pi_prop pinfo)
     = keyframeAtPlayhead w (pi_prop pinfo)) /\
    (keysNear t (p_keys prop) = 2 ->
     keyframeAtPlayhead w (pi_prop pinfo) = Some true /\
     keyframeAtPlayhead (press (press w)) (pi_prop pinfo) = Some false).
Proof.
  intros fs w pinfo comp prop Sel A N T F t press. unfold press.
  rewrite !dispatchRest_toggle.
  destruct (toggle_once w pinfo comp prop Sel A N T F) as (p1 & _ & _ & N1 & F1 & P & Q).
  destruct (toggle_once_count w pinfo comp prop Sel A N T F)
    as (prop1 & S1 & A1 & N1' & F1' & C1).
  destruct (toggle_once_count (toggle w) pinfo comp prop1 S1 A1 N1' T F1')
    as (prop2 & S2 & A2 & N2 & F2 & C2).
  rewrite (keyframeAtPlayhead_count _ _ comp prop2 A2 N2).
  rewrite (keyframeAtPlayhead_count _ _ comp prop A N).
  fold t in C1, C2 |- *.
  split.
  { exists p1. split; [exact N1|]. split; [exact P|].
    intros Ab. split; [exact (Q Ab)|].
    rewrite keyPresent_keysNear, (Q Ab).
    unfold t. rewrite keysNear_putKey by assumption. reflexivity. }
  destruct (keysNear t (p_keys prop)) as [|[|[|c]]];
    rewrite C1 in C2; simpl in C2; rewrite C2; simpl; split; intros H;
    try reflexivity; try discriminate; try (split; reflexivity); contradiction.
Qed.

Lemma missing_everywhere_position (fs : FileSystem) (paths : list string) :
  (forall p, fs p = None) ->
  Forall (fun p => positionUsable JSON_parse fs p = false) paths.
Proof.
  intros M. apply Forall_forall. intros p _. unfold positionUsable. rewrite M. reflexivity.
Qed.

Lemma missing_everywhere_button (fs : FileSystem) (paths : list string) :
  (forall p, fs p = None) ->
  Forall (fun p => buttonUsable JSON_parse fs p = false) paths.
Proof.
  intros M. apply Forall_forall. intros p _. unfold buttonUsable. rewrite M. reflexivity.
Qed.

(** C3, amended. When no candidate path holds a usable position file
    (every file is missing, or fails one of the guards),
    [readPositionFile] returns the last valid position and leaves it
    in place.  When no candidate path holds a usable button file,
    [readButtonFile] returns [null]: the script keeps no last valid
    button record.  Both hold in particular when the files are missing
    everywhere. *)
Theorem failed_read_falls_back :
  (forall (fs : FileSystem) (v : Vars),
      Forall (fun p => positionUsable JSON_parse fs p = false)
             (positionPaths fallbackCandidates) ->
      fst (readPositionFile fs v) = lastValidPosition v /\
      lastValidPosition (snd (readPositionFile fs v)) = lastValidPosition v) /\
  (forall (fs : FileSystem) (v : Vars),
      Forall (fun p => buttonUsable JSON_parse fs p = false)
             (buttonPaths fallbackCandidates) ->
      fst (readButtonFile fs v) = JNull) /\
  (forall (fs : FileSystem) (v : Vars),
      (forall p, fs p = None) ->
      fst (readPositionFile fs v) = lastValidPosition v /\
      fst (readButtonFile fs v) = JNull).
Proof.
  split; [exact readPositionFile_all_unusable|].
  split; [exact readButtonFile_all_unusable|].
  intros fs v M. split.
  - apply readPositionFile_all_unusable, missing_everywhere_position, M.
  - apply readButtonFile_all_unusable, missing_everywhere_button, M.
Qed.

(** *** The position channel: cache and precedence *)

Lemma validPosition_truthy (p : jsval) : validPosition p = true -> JS.truthy p = true.
Proof.
  unfold validPosition. destruct p; simpl; try discriminate; auto.
  all: intros H; try reflexivity; discriminate.
Qed.

(** One path: a result that counts is the cache as it stands; a
    result that does not leaves the cache alone. *)
Lemma tryPath_cache (fs : FileSystem) (path : string) (v : Vars) :
  (JS.truthy (fst (tryPath JSON_parse fs path v)) = true /\
   fst (tryPath JSON_parse fs path v)
   = lastValidPosition (snd (tryPath JSON_parse fs path v))) \/
  (JS.truthy (fst (tryPath JSON_parse fs path v)) = false /\
   lastValidPosition (snd (tryPath JSON_parse fs path v)) = lastValidPosition v).
Proof.
  unfold tryPath. destruct (fs path) as [c|]; [|right; auto].
  destruct (String.eqb c ""); [right; destruct v; auto|].
  destruct (negb (Str.braced (Str.trim c))); [right; destruct v; auto|].
  destruct (JSON_parse (Str.trim c)) as [parsed|]; [|right; destruct v; auto].
  cbv zeta.
  match goal with |- context [if ?b then (lastValidPosition _, _) else _] => destruct b end.
  - destruct (JS.truthy (lastValidPosition (Upd.set_lastRawPositionContent c v))) eqn:T.
    + left. simpl fst. simpl snd. auto.
    + right. simpl fst. simpl snd. split; [exact T|destruct v; reflexivity].
  - match goal with |- context [if ?b then Upd.set_lastPositionTS _ _ else _] => destruct b end.
    all: destruct (JS.get parsed "x") as [px|] eqn:X; [|right; destruct v; auto].
    all: destruct (JS.get parsed "y") as [py|] eqn:Y; [|right; destruct v; auto].
    all: destruct (JS.finite_number px && JS.finite_number py) eqn:F;
      [|right; destruct v; auto].
    all: left; simpl fst; simpl snd; split;
      [apply validPosition_truthy; unfold validPosition; rewrite X, Y; exact F
      |destruct v; reflexivity].
Qed.

Lemma tryFallbacks_cache (fs : FileSystem) (cands : list string) : forall v,
  (JS.truthy (fst (tryFallbacks JSON_parse fs cands v)) = true /\
   fst (tryFallbacks JSON_parse fs cands v)
   = lastValidPosition (snd (tryFallbacks JSON_parse fs cands v))) \/
  (JS.truthy (fst (tryFallbacks JSON_parse fs cands v)) = false /\
   lastValidPosition (snd (tryFallbacks JSON_parse fs cands v)) = lastValidPosition v).
Proof.
  induction cands as [|c rest IH]; intros v; simpl; [right; auto|].
  destruct (String.eqb c ""); [apply IH|].
  pose proof (tryPath_cache fs (Str.dropTrailingSlash c ++ "/logi_position.json") v) as P.
  destruct (tryPath JSON_parse fs (Str.dropTrailingSlash c ++ "/logi_position.json") v)
    as [res v1]. simpl fst in P. simpl snd in P.
  destruct P as [[T E]|[T E]]; rewrite T.
  - left. simpl. auto.
  - destruct (IH v1) as [[T1 E1]|[T1 E1]]; [left; auto|right].
    split; [exact T1|congruence].
Qed.

Lemma markMissingPosition_cache (v : Vars) :
  lastValidPosition (markMissingPosition v) = lastValidPosition v.
Proof. unfold markMissingPosition. destruct (String.eqb _ _); destruct v; reflexivity. Qed.

Lemma readPositionFile_is_cache (fs : FileSystem) (v : Vars) :
  fst (readPositionFile fs v) = lastValidPosition (snd (readPositionFile fs v)).
Proof.
  unfold Panel.readPositionFile.
  pose proof (tryPath_cache fs POSITION_FILE (Upd.set_lastRawPositionContent "" v)) as P.
  destruct (tryPath JSON_parse fs POSITION_FILE (Upd.set_lastRawPositionContent "" v))
    as [res v1]. simpl fst in P. simpl snd in P.
  destruct P as [[T E]|[T E]]; rewrite T; [exact E|].
  pose proof (tryFallbacks_cache fs fallbackCandidates v1) as Q.
  destruct (tryFallbacks JSON_parse fs fallbackCandidates v1) as [res2 v2].
  simpl fst in Q. simpl snd in Q.
  destruct Q as [[T2 E2]|[T2 E2]]; rewrite T2; [exact E2|reflexivity].
Qed.

(** One path keeps a valid cache valid. *)
Lemma tryPath_valid (fs : FileSystem) (path : string) (v : Vars) :
  validPosition (lastValidPosition v) = true ->
  validPosition (lastValidPosition (snd (tryPath JSON_parse fs path v))) = true.
Proof.
  intros V. unfold tryPath. destruct (fs path) as [c|]; [|exact V].
  destruct (String.eqb c ""); [destruct v; exact V|].
  destruct (negb (Str.braced (Str.trim c))); [destruct v; exact V|].
  destruct (JSON_parse (Str.trim c)) as [parsed|]; [|destruct v; exact V].
  cbv zeta.
  match goal with |- context [if ?b then (lastValidPosition _, _) else _] => destruct b end;
    [destruct v; exact V|].
  match goal with |- context [if ?b then Upd.set_lastPositionTS _ _ else _] => destruct b end.
  all: destruct (JS.get parsed "x") as [px|] eqn:X; [|destruct v; exact V].
  all: destruct (JS.get parsed "y") as [py|] eqn:Y; [|destruct v; exact V].
  all: destruct (JS.finite_number px && JS.finite_number py) eqn:F; [|destruct v; exact V].
  all: simpl snd; destruct v; simpl; unfold validPosition; rewrite X, Y; exact F.
Qed.

Lemma tryFallbacks_valid (fs : FileSystem) (cands : list string) : forall v,
  validPosition (lastValidPosition v) = true ->
  validPosition (lastValidPosition (snd (tryFallbacks JSON_parse fs cands v))) = true.
Proof.
  induction cands as [|c rest IH]; intros v V; simpl; [exact V|].
  destruct (String.eqb c ""); [apply IH, V|].
  pose proof (tryPath_valid fs (Str.dropTrailingSlash c ++ "/logi_position.json") v V) as P.
  destruct (tryPath JSON_parse fs (Str.dropTrailingSlash c ++ "/logi_position.json") v)
    as [res v1]. simpl snd in P.
  destruct (JS.truthy res); [exact P|apply IH, P].
Qed.

Lemma readPositionFile_valid (fs : FileSystem) (v : Vars) :
  validPosition (lastValidPosition v) = true ->
  validPosition (lastValidPosition (snd (readPositionFile fs v))) = true.
Proof.
  intros V. unfold Panel.readPositionFile.
  assert (V0 : validPosition (lastValidPosition (Upd.set_lastRawPositionContent "" v)) = true)
    by (destruct v; exact V).
  pose proof (tryPath_valid fs POSITION_FILE _ V0) as P.
  destruct (tryPath JSON_parse fs POSITION_FILE (Upd.set_lastRawPositionContent "" v))
    as [res v1]. simpl snd in P.
  destruct (JS.truthy res); [exact P|].
  pose proof (tryFallbacks_valid fs fallbackCandidates v1 P) as Q.
  destruct (tryFallbacks JSON_parse fs fallbackCandidates v1) as [res2 v2]. simpl snd in Q.
  destruct (JS.truthy res2); [exact Q|].
  simpl snd. rewrite markMissingPosition_cache. exact Q.
Qed.

Lemma validPosition_numbers (p : jsval) :
  validPosition p = true ->
  exists x y, JS.get p "x" = Some (JNum x) /\ JS.get p "y" = Some (JNum y) /\
              Num.isFinite x = true /\ Num.isFinite y = true.
Proof.
  unfold validPosition.
  destruct (JS.get p "x") as [px|]; [|discriminate].
  destruct (JS.get p "y") as [py|]; [|discriminate].
  intros H. apply andb_true_iff in H. destruct H as [X Y].
  destruct px as [| |?|x|?|?|?]; try discriminate.
  destruct py as [| |?|y|?|?|?]; try discriminate.
  simpl in X, Y. exists x, y. auto.
Qed.

Lemma legacy_read_is_cache (fs : FileSystem) (v : Vars) :
  fst (legacyRead fs v) = lastValidPosition (snd (legacyRead fs v)) /\
  (validPosition (lastValidPosition v) = true ->
   validPosition (lastValidPosition (snd (legacyRead fs v))) = true).
Proof.
  unfold Legacy.readPositionFile. destruct (fs POSITION_FILE) as [c|]; [|auto].
  destruct (String.eqb c ""); [auto|].
  destruct (negb (Str.braced (Str.trim c))); [auto|].
  destruct (JSON_parse (Str.trim c)) as [parsed|]; [|auto].
  destruct (JS.get parsed "x") as [px|] eqn:X; [|auto].
  destruct (JS.get parsed "y") as [py|] eqn:Y; [|auto].
  destruct (JS.finite_number px && JS.finite_number py) eqn:F; [|auto].
  destruct v; simpl. split; [reflexivity|]. intros _. unfold validPosition.
  rewrite X, Y. exact F.
Qed.

(** One path leaves the cache as it was or puts a record with finite
    numbers there. *)
Lemma tryPath_kept_or_valid (fs : FileSystem) (path : string) (v : Vars) :
  lastValidPosition (snd (tryPath JSON_parse fs path v)) = lastValidPosition v \/
  validPosition (lastValidPosition (snd (tryPath JSON_parse fs path v))) = true.
Proof.
  unfold tryPath. destruct (fs path) as [c|]; [|left; reflexivity].
  destruct (String.eqb c ""); [left; destruct v; reflexivity|].
  destruct (negb (Str.braced (Str.trim c))); [left; destruct v; reflexivity|].
  destruct (JSON_parse (Str.trim c)) as [parsed|]; [|left; destruct v; reflexivity].
  cbv zeta.
  match goal with |- context [if ?b then (lastValidPosition _, _) else _] => destruct b end;
    [left; destruct v; reflexivity|].
  match goal with |- context [if ?b then Upd.set_lastPositionTS _ _ else _] => destruct b end.
  all: destruct (JS.get parsed "x") as [px|] eqn:X; [|left; destruct v; reflexivity].
  all: destruct (JS.get parsed "y") as [py|] eqn:Y; [|left; destruct v; reflexivity].
  all: destruct (JS.finite_number px && JS.finite_number py) eqn:F;
    [|left; destruct v; reflexivity].
  all: right; simpl snd; destruct v; simpl; unfold validPosition; rewrite X, Y; exact F.
Qed.

Lemma tryFallbacks_kept_or_valid (fs : FileSystem) (cands : list string) : forall v,
  lastValidPosition (snd (tryFallbacks JSON_parse fs cands v)) = lastValidPosition v \/
  validPosition (lastValidPosition (snd (tryFallbacks JSON_parse fs cands v))) = true.
Proof.
  induction cands as [|c rest IH]; intros v; simpl; [left; reflexivity|].
  destruct (String.eqb c ""); [apply IH|].
  pose proof (tryPath_kept_or_valid fs (Str.dropTrailingSlash c ++ "/logi_position.json") v)
    as P.
  pose proof (tryPath_valid fs (Str.dropTrailingSlash c ++ "/logi_position.json") v) as V.
  destruct (tryPath JSON_parse fs (Str.dropTrailingSlash c ++ "/logi_position.json") v)
    as [res v1]. simpl snd in P, V.
  destruct (JS.truthy res); [exact P|].
  destruct P as [P|P].
  - destruct (IH v1) as [Q|Q]; [left; congruence|right; exact Q].
  - right. apply tryFallbacks_valid, P.
Qed.

Lemma readPositionFile_kept_or_valid (fs : FileSystem) (v : Vars) :
  lastValidPosition (snd (readPositionFile fs v)) = lastValidPosition v \/
  validPosition (lastValidPosition (snd (readPositionFile fs v))) = true.
Proof.
  unfold Panel.readPositionFile.
  pose proof (tryPath_kept_or_valid fs POSITION_FILE (Upd.set_lastRawPositionContent "" v))
    as P.
  destruct (tryPath JSON_parse fs POSITION_FILE (Upd.set_lastRawPositionContent "" v))
    as [res v1]. simpl snd in P.
  replace (lastValidPosition (Upd.set_lastRawPositionContent "" v))
    with (lastValidPosition v) in P by (destruct v; reflexivity).
  destruct (JS.truthy res); [exact P|].
  pose proof (tryFallbacks_kept_or_valid fs fallbackCandidates v1) as Q.
  pose proof (tryFallbacks_valid fs fallbackCandidates v1) as V.
  destruct (tryFallbacks JSON_parse fs fallbackCandidates v1) as [res2 v2].
  simpl snd in Q, V.
  assert (R : lastValidPosition v2 = lastValidPosition v \/
              validPosition (lastValidPosition v2) = true).
  { destruct P as [P|P]; [|right; exact (V P)].
    destruct Q as [Q|Q]; [left; congruence|right; exact Q]. }
  destruct (JS.truthy res2); [exact R|].
  simpl snd. rewrite markMissingPosition_cache. exact R.
Qed.

Lemma legacy_read_kept_or_valid (fs : FileSystem) (v : Vars) :
  lastValidPosition (snd (legacyRead fs v)) = lastValidPosition v \/
  validPosition (lastValidPosition (snd (legacyRead fs v))) = true.
Proof.
  unfold Legacy.readPositionFile. destruct (fs POSITION_FILE) as [c|]; [|auto].
  destruct (String.eqb c ""); [auto|].
  destruct (negb (Str.braced (Str.trim c))); [auto|].
  destruct (JSON_parse (Str.trim c)) as [parsed|]; [|auto].
  destruct (JS.get parsed "x") as [px|] eqn:X; [|auto].
  destruct (JS.get parsed "y") as [py|] eqn:Y; [|auto].
  destruct (JS.finite_number px && JS.finite_number py) eqn:F; [|auto].
  right. destruct v; simpl. unfold validPosition. rewrite X, Y. exact F.
Qed.

(** X1. Whatever the files hold, [readPositionFile] returns the
    position that the script holds as the last valid one after the
    read, and that is either the one it held before the read or a
    record with finite numbers in [x] and [y]; the same for the
    earlier script.  So a read returns [null] only if the cache held
    [null] before it: with a record in the cache, as there is from
    the start, the result is never [null]. *)
Theorem position_read_returns_the_cache :
  (forall (fs : FileSystem) (v : Vars),
      fst (readPositionFile fs v) = lastValidPosition (snd (readPositionFile fs v)) /\
      (fst (readPositionFile fs v) = lastValidPosition v \/
       validPosition (fst (readPositionFile fs v)) = true) /\
      (JS.truthy (lastValidPosition v) = true ->
       JS.truthy (fst (readPositionFile fs v)) = true /\
       fst (readPositionFile fs v) <> JNull)) /\
  (forall (fs : FileSystem) (v : Vars),
      fst (legacyRead fs v) = lastValidPosition (snd (legacyRead fs v)) /\
      (fst (legacyRead fs v) = lastValidPosition v \/
       validPosition (fst (legacyRead fs v)) = true) /\
      (JS.truthy (lastValidPosition v) = true ->
       JS.truthy (fst (legacyRead fs v)) = true /\
       fst (legacyRead fs v) <> JNull)) /\
  JS.truthy (lastValidPosition initialVars) = true.
Proof.
  assert (N : forall p : jsval, JS.truthy p = true -> p <> JNull)
    by (intros p T E; rewrite E in T; discriminate T).
  assert (K : forall r c : jsval,
             r = c \/ validPosition r = true ->
             JS.truthy c = true -> JS.truthy r = true /\ r <> JNull).
  { intros r c [E|V] T.
    - rewrite E. split; [exact T|exact (N c T)].
    - pose proof (validPosition_truthy r V) as T'. split; [exact T'|exact (N r T')]. }
  split; [|split; [|reflexivity]].
  - intros fs v. pose proof (readPositionFile_is_cache fs v) as E.
    assert (R : fst (readPositionFile fs v) = lastValidPosition v \/
                validPosition (fst (readPositionFile fs v)) = true)
      by (rewrite E; apply readPositionFile_kept_or_valid).
    split; [exact E|]. split; [exact R|]. exact (K _ _ R).
  - intros fs v. destruct (legacy_read_is_cache fs v) as [E _].
    assert (R : fst (legacyRead fs v) = lastValidPosition v \/
                validPosition (fst (legacyRead fs v)) = true)
      by (rewrite E; apply legacy_read_kept_or_valid).
    split; [exact E|]. split; [exact R|]. exact (K _ _ R).
Qed.

(** X2. When the cached position has finite numbers in [x] and [y],
    so has the position that [readPositionFile] returns and caches,
    whatever the files hold: corrupted, partial or non-numeric
    contents never reach the dial values.  The same for the earlier
    script. *)
Theorem position_read_keeps_finite_numbers :
  (forall (fs : FileSystem) (v : Vars),
      validPosition (lastValidPosition v) = true ->
      validPosition (lastValidPosition (snd (readPositionFile fs v))) = true /\
      exists x y,
        JS.get (fst (readPositionFile fs v)) "x" = Some (JNum x) /\
        JS.get (fst (readPositionFile fs v)) "y" = Some (JNum y) /\
        Num.isFinite x = true /\ Num.isFinite y = true) /\
  (forall (fs : FileSystem) (v : Vars),
      validPosition (lastValidPosition v) = true ->
      validPosition (lastValidPosition (snd (legacyRead fs v))) = true /\
      exists x y,
        JS.get (fst (legacyRead fs v)) "x" = Some (JNum x) /\
        JS.get (fst (legacyRead fs v)) "y" = Some (JNum y) /\
        Num.isFinite x = true /\ Num.isFinite y = true) /\
  validPosition (lastValidPosition initialVars) = true.
Proof.
  split; [|split; [|reflexivity]].
  - intros fs v V. pose proof (readPositionFile_valid fs v V) as V'.
    split; [exact V'|]. rewrite readPositionFile_is_cache.
    apply validPosition_numbers, V'.
  - intros fs v V. destruct (legacy_read_is_cache fs v) as [E V'].
    split; [exact (V' V)|]. rewrite E. apply validPosition_numbers, V', V.
Qed.

(** A usable file at a path. *)
Lemma tryPath_usable (fs : FileSystem) (path c : string) (parsed : jsval) (v : Vars) :
  fs path = Some c ->
  String.eqb c "" = false ->
  Str.braced (Str.trim c) = true ->
  JSON_parse (Str.trim c) = Some parsed ->
  validPosition parsed = true ->
  tryPath JSON_parse fs path v
  = if sameStamp parsed v
    then (lastValidPosition v, Upd.set_lastRawPositionContent c v)
    else (parsed,
          Upd.set_lastValidPosition parsed
            (if JS.truthy (positionStamp parsed)
             then Upd.set_lastPositionTS (positionStamp parsed)
                    (Upd.set_lastRawPositionContent c v)
             else Upd.set_lastRawPositionContent c v)).
Proof.
  intros F E B P V. unfold tryPath. rewrite F, E, B, P. simpl negb. cbv iota zeta.
  fold (positionStamp parsed).
  replace (lastPositionTS (Upd.set_lastRawPositionContent c v)) with (lastPositionTS v)
    by (destruct v; reflexivity).
  fold (sameStamp parsed v).
  destruct (sameStamp parsed v); [destruct v; reflexivity|].
  unfold validPosition in V.
  destruct (JS.get parsed "x") as [px|]; [|discriminate].
  destruct (JS.get parsed "y") as [py|]; [|discriminate].
  rewrite V. reflexivity.
Qed.

(** X3. The file at the primary path holds a braced text that parses
    to a record with finite [x] and [y].  If the record's timestamp
    is absent, zero or different from the last one seen,
    [readPositionFile] returns the record, caches it and keeps the
    raw text.  If the timestamp is the last one seen, the file counts
    as unchanged: the cached position, when it is a record, is
    returned and stays, even when the record read differs from it. *)
Theorem position_file_is_read_once_per_stamp :
  forall (fs : FileSystem) (v : Vars) (c : string) (parsed : jsval),
    fs POSITION_FILE = Some c ->
    String.eqb c "" = false ->
    Str.braced (Str.trim c) = true ->
    JSON_parse (Str.trim c) = Some parsed ->
    validPosition parsed = true ->
    (sameStamp parsed v = false ->
     fst (readPositionFile fs v) = parsed /\
     lastValidPosition (snd (readPositionFile fs v)) = parsed /\
     lastRawPositionContent (snd (readPositionFile fs v)) = c) /\
    (sameStamp parsed v = true ->
     JS.truthy (lastValidPosition v) = true ->
     fst (readPositionFile fs v) = lastValidPosition v /\
     lastValidPosition (snd (readPositionFile fs v)) = lastValidPosition v /\
     lastPositionTS (snd (readPositionFile fs v)) = lastPositionTS v).
Proof.
  intros fs v c parsed F E B P V.
  pose proof (tryPath_usable fs POSITION_FILE c parsed
                (Upd.set_lastRawPositionContent "" v) F E B P V) as T.
  replace (sameStamp parsed (Upd.set_lastRawPositionContent "" v))
    with (sameStamp parsed v) in T by (destruct v; reflexivity).
  split; intros S; rewrite S in T; unfold Panel.readPositionFile; rewrite T.
  - rewrite (validPosition_truthy parsed V).
    destruct (JS.truthy (positionStamp parsed)); destruct v; simpl; auto.
  - intros C.
    replace (lastValidPosition (Upd.set_lastRawPositionContent "" v))
      with (lastValidPosition v) by (destruct v; reflexivity).
    rewrite C. destruct v; simpl; auto.
Qed.

(** X4. When the file at the primary path gives a result, no
    fallback folder is looked at: two file systems that agree on the
    primary path give the same read.  This is the case for a usable
    primary file as soon as the cached position is a record. *)
Theorem primary_position_path_comes_first :
  forall (fs fs' : FileSystem) (v : Vars) (c : string) (parsed : jsval),
    fs POSITION_FILE = Some c ->
    fs' POSITION_FILE = Some c ->
    String.eqb c "" = false ->
    Str.braced (Str.trim c) = true ->
    JSON_parse (Str.trim c) = Some parsed ->
    validPosition parsed = true ->
    JS.truthy (lastValidPosition v) = true ->
    readPositionFile fs v = readPositionFile fs' v.
Proof.
  intros fs fs' v c parsed F F' E B P V C.
  pose proof (tryPath_usable fs POSITION_FILE c parsed
                (Upd.set_lastRawPositionContent "" v) F E B P V) as T.
  pose proof (tryPath_usable fs' POSITION_FILE c parsed
                (Upd.set_lastRawPositionContent "" v) F' E B P V) as T'.
  unfold Panel.readPositionFile. rewrite T, T'.
  destruct (sameStamp parsed (Upd.set_lastRawPositionContent "" v)).
  - replace (lastValidPosition (Upd.set_lastRawPositionContent "" v))
      with (lastValidPosition v) by (destruct v; reflexivity).
    rewrite C. reflexivity.
  - rewrite (validPosition_truthy parsed V). reflexivity.
Qed.

(** *** The button channel *)

Lemma tryFallbacksB_missing (fs : FileSystem) (cands : list string) : forall v,
  (forall p, fs p = None) -> tryFallbacksB JSON_parse fs cands v = (JNull, v).
Proof.
  induction cands as [|c rest IH]; intros v M; simpl; [reflexivity|].
  destruct (String.eqb c ""); [apply IH, M|].
  unfold tryPathB. rewrite M. simpl. apply IH, M.
Qed.

(** X5. [readButtonFile] writes the raw content and nothing else:
    putting the old raw content back gives the old variables.  When no
    file exists on any path the raw content reads "(missing)" and the
    result is [null]; a usable file at the primary path is returned
    as parsed, with its text as the raw content. *)
Theorem button_read_touches_only_the_raw_content :
  (forall (fs : FileSystem) (v : Vars),
      Upd.set_lastRawButtonContent (lastRawButtonContent v) (snd (readButtonFile fs v)) = v) /\
  (forall (fs : FileSystem) (v : Vars),
      (forall p, fs p = None) ->
      fst (readButtonFile fs v) = JNull /\
      lastRawButtonContent (snd (readButtonFile fs v)) = "(missing)") /\
  (forall (fs : FileSystem) (v : Vars) (c : string) (parsed : jsval),
      fs BUTTON_FILE = Some c ->
      String.eqb c "" = false ->
      Str.braced (Str.trim c) = true ->
      JSON_parse (Str.trim c) = Some parsed ->
      JS.truthy parsed = true ->
      fst (readButtonFile fs v) = parsed /\
      lastRawButtonContent (snd (readButtonFile fs v)) = c).
Proof.
  split; [|split].
  - intros fs v. destruct (readButtonFile_shape fs v) as (raw & ->).
    destruct v; reflexivity.
  - intros fs v M. unfold Panel.readButtonFile, tryPathB. rewrite M.
    simpl JS.truthy. cbv iota. rewrite (tryFallbacksB_missing fs _ _ M).
    simpl JS.truthy. cbv iota. destruct v; split; reflexivity.
  - intros fs v c parsed F E B P T. unfold Panel.readButtonFile, tryPathB.
    rewrite F, E, B, P, T. destruct v; split; reflexivity.
Qed.

(** *** File names and trimmed texts *)

Lemma sanitize_length (s : string) : String.length (sanitize s) = String.length s.
Proof. induction s as [|a r IH]; simpl; congruence. Qed.

Lemma sanitize_safe (s : string) : allChars safeChar (sanitize s) = true.
Proof.
  induction s as [|a r IH]; simpl; [reflexivity|]. rewrite IH, andb_true_r.
  unfold safeChar. destruct (isAlnum a) eqn:A; [rewrite A|]; reflexivity.
Qed.

Lemma sanitize_alnum (s : string) : allChars isAlnum s = true -> sanitize s = s.
Proof.
  induction s as [|a r IH]; simpl; [reflexivity|]. intros H.
  apply andb_true_iff in H. destruct H as [A R]. rewrite A, (IH R). reflexivity.
Qed.

Lemma sanitize_idempotent (s : string) : sanitize (sanitize s) = sanitize s.
Proof.
  induction s as [|a r IH]; simpl; [reflexivity|]. rewrite IH.
  destruct (isAlnum a) eqn:A; [rewrite A|]; reflexivity.
Qed.

Lemma sanitize_app (s t : string) : sanitize (s ++ t) = sanitize s ++ sanitize t.
Proof. induction s as [|a r IH]; simpl; [reflexivity|]. rewrite IH. reflexivity. Qed.

Lemma length_append (s t : string) :
  String.length (s ++ t) = String.length s + String.length t.
Proof. induction s as [|a r IH]; simpl; [reflexivity|]. rewrite IH. reflexivity. Qed.

Lemma append_cancel_r (s t u : string) : s ++ u = t ++ u -> s = t.
Proof.
  revert t. induction s as [|a r IH]; intros [|b t'] H; simpl in H.
  - reflexivity.
  - exfalso. apply (f_equal String.length) in H. simpl in H.
    rewrite length_append in H. lia.
  - exfalso. apply (f_equal String.length) in H. simpl in H.
    rewrite length_append in H. lia.
  - inversion H. f_equal. apply IH. assumption.
Qed.

(** X6. The mapping file of an effect is named by the effect name
    with every character that is not a letter or a digit replaced by
    an underscore, followed by ".json": the base has the length of
    the name and only letters, digits and underscores; a name of
    letters and digits is kept as it is, so two such names share a
    file only when they are equal; sanitising twice changes nothing
    more. *)
Theorem mapping_file_name_is_safe :
  forall name : string,
    getEffectFileName name = sanitize name ++ ".json" /\
    String.length (sanitize name) = String.length name /\
    allChars safeChar (sanitize name) = true /\
    sanitize (sanitize name) = sanitize name /\
    (allChars isAlnum name = true -> sanitize name = name) /\
    (forall other : string,
        allChars isAlnum name = true -> allChars isAlnum other = true ->
        getEffectFileName name = getEffectFileName other -> name = other).
Proof.
  intros name. split; [reflexivity|].
  split; [apply sanitize_length|]. split; [apply sanitize_safe|].
  split; [apply sanitize_idempotent|]. split; [apply sanitize_alnum|].
  intros other A B E. unfold getEffectFileName in E.
  apply append_cancel_r in E. rewrite (sanitize_alnum _ A), (sanitize_alnum _ B) in E.
  exact E.
Qed.

(** X7. Two effect names that differ in one character, which is
    neither a letter nor a digit in either of them, have the same
    mapping file name, although the names differ. *)
Theorem mapping_file_names_collide :
  forall (s t : string) (a b : ascii),
    isAlnum a = false -> isAlnum b = false ->
    getEffectFileName (s ++ String a t) = getEffectFileName (s ++ String b t) /\
    (a <> b -> s ++ String a t <> s ++ String b t).
Proof.
  intros s t a b A B. split.
  - unfold getEffectFileName. rewrite !sanitize_app. simpl. rewrite A, B. reflexivity.
  - intros N E. apply N. induction s as [|c r IH]; simpl in E; inversion E; auto.
Qed.

Lemma ltrim_first (s : string) :
  forall a, Str.first (Str.ltrim s) = Some a -> Str.is_space a = false.
Proof.
  induction s as [|b r IH]; intros a; simpl; [discriminate|].
  destruct (Str.is_space b) eqn:B; [apply IH|]. simpl. intros H. inversion H; subst. exact B.
Qed.

Lemma ltrim_fixed (s : string) :
  (forall a, Str.first s = Some a -> Str.is_space a = false) -> Str.ltrim s = s.
Proof.
  destruct s as [|b r]; simpl; [reflexivity|]. intros H. rewrite (H b eq_refl). reflexivity.
Qed.

Lemma rtrim_first (s : string) :
  forall a, Str.first s = Some a -> Str.is_space a = false ->
            Str.first (Str.rtrim s) = Some a.
Proof.
  destruct s as [|b r]; intros a; simpl; [discriminate|]. intros H B. inversion H; subst.
  destruct (Str.rtrim r); [rewrite B|]; reflexivity.
Qed.

Lemma rtrim_first_inv (s : string) :
  forall a, Str.first (Str.rtrim s) = Some a -> Str.first s = Some a.
Proof.
  destruct s as [|b r]; intros a; simpl; [discriminate|].
  destruct (Str.rtrim r); [destruct (Str.is_space b)|]; simpl; intros H;
    try discriminate; exact H.
Qed.

Lemma rtrim_last (s : string) :
  forall a, Str.last (Str.rtrim s) = Some a -> Str.is_space a = false.
Proof.
  induction s as [|b r IH]; intros a; simpl; [discriminate|].
  destruct (Str.rtrim r) as [|c r'] eqn:R.
  - destruct (Str.is_space b) eqn:B; simpl; [discriminate|].
    intros H. inversion H; subst. exact B.
  - intros H. apply IH. exact H.
Qed.

Lemma rtrim_idempotent (s : string) : Str.rtrim (Str.rtrim s) = Str.rtrim s.
Proof.
  induction s as [|b r IH]; simpl; [reflexivity|].
  destruct (Str.rtrim r) as [|c r'] eqn:R.
  - destruct (Str.is_space b) eqn:B; simpl; [reflexivity|]. rewrite B. reflexivity.
  - change (Str.rtrim (String b (String c r'))) with
      (match Str.rtrim (String c r') with
       | EmptyString => if Str.is_space b then EmptyString else String b EmptyString
       | r0 => String b r0
       end).
    rewrite IH. reflexivity.
Qed.

Lemma rtrim_fixed (s : string) :
  (forall a, Str.last s = Some a -> Str.is_space a = false) -> Str.rtrim s = s.
Proof.
  induction s as [|b r IH]; simpl; [reflexivity|]. intros H.
  destruct r as [|c r'].
  - simpl. rewrite (H b eq_refl). reflexivity.
  - rewrite IH by exact H. reflexivity.
Qed.

Lemma trim_idempotent (s : string) : Str.trim (Str.trim s) = Str.trim s.
Proof.
  unfold Str.trim.
  rewrite (ltrim_fixed (Str.rtrim (Str.ltrim s))).
  - apply rtrim_idempotent.
  - intros a H. apply rtrim_first_inv in H. exact (ltrim_first s a H).
Qed.

Lemma braced_ends (c : string) :
  Str.braced c = true -> Str.first c = Some "{"%char /\ Str.last c = Some "}"%char.
Proof.
  unfold Str.braced, Str.is_char. intros H. apply andb_true_iff in H. destruct H as [F L].
  destruct (Str.first c) as [a|]; [|discriminate].
  destruct (Str.last c) as [b|]; [|discriminate].
  apply Ascii.eqb_eq in F. apply Ascii.eqb_eq in L. subst. auto.
Qed.

(** X8. The trimming that the file guards apply removes the white
    space at both ends: the trimmed text neither begins nor ends with
    a white-space character, trimming twice is trimming once, and a
    text that begins with an opening brace and ends with a closing
    one is left as it is. *)
Theorem trim_strips_both_ends :
  forall c : string,
    (forall a, Str.first (Str.trim c) = Some a -> Str.is_space a = false) /\
    (forall a, Str.last (Str.trim c) = Some a -> Str.is_space a = false) /\
    Str.trim (Str.trim c) = Str.trim c /\
    (Str.braced c = true -> Str.trim c = c).
Proof.
  intros c. split; [|split; [|split]].
  - intros a H. unfold Str.trim in H. apply rtrim_first_inv in H.
    exact (ltrim_first c a H).
  - intros a H. exact (rtrim_last _ a H).
  - apply trim_idempotent.
  - intros B. destruct (braced_ends c B) as [F L]. unfold Str.trim.
    rewrite (ltrim_fixed c).
    + apply rtrim_fixed. intros a H. rewrite L in H. inversion H. reflexivity.
    + intros a H. rewrite F in H. inversion H. reflexivity.
Qed.

(** *** Enumerating effects and properties *)

Local Abbreviation getEffectProperties := (getEffectProperties valueAtTime).
Local Abbreviation propertiesOfNode := (propertiesOfNode valueAtTime).
Local Abbreviation propertiesFrom := (propertiesFrom valueAtTime).

Lemma propertiesOfNode_adjustable (h : Host) :
  forall (n : PropNode) (prefix : string) (i : nat),
    Forall (adjustable valueAtTime h) (propertiesOfNode h prefix i n).
Proof.
  fix IH 1. intros [id|name matchName children] prefix i.
  - simpl. destruct (nth_error (properties h) id) as [p|] eqn:N; [|constructor].
    destruct (hasNumericValue (propValue valueAtTime (hostTime h) p)) eqn:V;
      [|constructor].
    constructor; [|constructor]. unfold adjustable. simpl. rewrite N. auto.
  - simpl. generalize 1.
    induction children as [|c r IHr]; intros j; [constructor|].
    apply Forall_app. split; [apply IH|apply IHr].
Qed.

Lemma propertiesFrom_adjustable (h : Host) (l : list PropNode) :
  forall (prefix : string) (i : nat),
    Forall (adjustable valueAtTime h) (propertiesFrom h prefix i l).
Proof.
  induction l as [|c r IH]; intros prefix i; simpl; [constructor|].
  apply Forall_app. split; [apply propertiesOfNode_adjustable|apply IH].
Qed.

(** X9. Every entry that [getEffectProperties] lists refers to a
    property of the application whose value at the current time is
    a number or an array that begins with a number, and carries that
    value, the value type and the match name of the property: no
    entry refers to a property that is missing or has another kind
    of value. *)
Theorem listed_properties_are_adjustable :
  forall (h : Host) (effect : Effect) (prefix : string),
    Forall (adjustable valueAtTime h) (getEffectProperties h effect prefix).
Proof.
  intros h effect prefix. apply propertiesFrom_adjustable.
Qed.

(** *** The dropdowns show what the script holds *)

Lemma listed_lists (w w' : World) : lists w' = lists w -> listed w -> listed w'.
Proof.
  unfold lists. intros E. inversion E as [[E1 E2 E3 E4 E5]].
  unfold listed, effectsListed, propertiesListed, keypadsListed.
  rewrite E1, E2, E3, E4, E5. auto.
Qed.

Lemma addItems_items (names : list string) : forall d,
  dd_items (addItems names d) = (dd_items d ++ names)%list /\
  dd_selection (addItems names d) = dd_selection d.
Proof.
  induction names as [|n r IH]; intros d; simpl.
  - rewrite app_nil_r. auto.
  - destruct (IH (DD.add n d)) as [I S]. rewrite I, S. simpl.
    rewrite <- app_assoc. auto.
Qed.

Lemma select_first_of (names : list string) (d : Dropdown) :
  names <> [] ->
  DD.select 0 (addItems names (DD.removeAll d)) = mkDropdown names (Some 0).
Proof.
  intros N. unfold DD.select. destruct (addItems_items names (DD.removeAll d)) as [I _].
  rewrite I. simpl. destruct names; [congruence|reflexivity].
Qed.

(** What [populateProperties] leaves: the properties of the selected
    effect, listed, the first one selected. *)
Lemma populateProperties_listed (w : World) :
  propertiesListed (populateProperties w) /\
  currentEffects (vars (populateProperties w)) = currentEffects (vars w) /\
  effectDropdown (ui (populateProperties w)) = effectDropdown (ui w) /\
  keypadDropdowns (ui (populateProperties w)) = keypadDropdowns (ui w).
Proof.
  unfold Panel.populateProperties, propertiesListed.
  destruct w as [h v u]. destruct v, u. norm_upd.
  match goal with |- context [if ?c then _ else _] => destruct c end;
    [simpl; auto|].
  match goal with |- context [match nth_error ?l ?i with _ => _ end] =>
    destruct (nth_error l i) as [ei|] end; [|simpl; auto].
  match goal with |- context [match ?props with [] => _ | _ :: _ => _ end] =>
    destruct props as [|p ps] eqn:P end; [simpl; auto|].
  split; [|auto]. right.
  rewrite (select_first_of (map pi_name (p :: ps))) by discriminate.
  split; [reflexivity|]. exists 0. split; [reflexivity|simpl; lia].
Qed.

Lemma selectionWithin_select (i bound : nat) (d : Dropdown) :
  i < bound -> bound <= List.length (dd_items d) -> selectionWithin bound (DD.select i d).
Proof.
  intros I B. exists i. unfold DD.select. simpl.
  assert (L : (i <? List.length (dd_items d)) = true) by (apply Nat.ltb_lt; lia).
  rewrite L. auto.
Qed.

Lemma refillKeypad_listed (props : list PropInfo) (d : Dropdown) :
  keypadListed props (refillKeypad props d).
Proof.
  unfold refillKeypad, keypadListed.
  destruct (addItems_items (map pi_name props) (DD.add "(none)" (DD.removeAll d)))
    as [I _]. simpl in I.
  assert (L : List.length (dd_items (addItems (map pi_name props)
                              (DD.add "(none)" (DD.removeAll d))))
              = S (List.length props)).
  { rewrite I. simpl. rewrite length_map. reflexivity. }
  destruct (_ && _) eqn:C.
  - apply andb_true_iff in C. destruct C as [_ C]. apply Nat.leb_le in C.
    split; [exact I|]. apply selectionWithin_select; lia.
  - split; [exact I|]. apply selectionWithin_select; lia.
Qed.

Lemma updateKeypadDropdowns_listed (w : World) :
  Forall (keypadListed (currentProperties (vars w)))
         (keypadDropdowns (ui (updateKeypadDropdowns w))) /\
  currentEffects (vars (updateKeypadDropdowns w)) = currentEffects (vars w) /\
  currentProperties (vars (updateKeypadDropdowns w)) = currentProperties (vars w) /\
  effectDropdown (ui (updateKeypadDropdowns w)) = effectDropdown (ui w) /\
  propDropdown (ui (updateKeypadDropdowns w)) = propDropdown (ui w).
Proof.
  destruct w as [h v u]. destruct v, u. unfold updateKeypadDropdowns. norm_upd.
  split; [|auto]. apply Forall_forall. intros d D. apply in_map_iff in D.
  destruct D as (d0 & <- & _). apply refillKeypad_listed.
Qed.

Lemma findProperty_bound (propName : jsval) (props : list PropInfo) :
  forall j s, findProperty propName props j = Some s -> j < s <= j + List.length props.
Proof.
  induction props as [|p r IH]; intros j s; simpl; [discriminate|].
  destruct (JS.is_str propName (pi_name p)).
  - intros E. inversion E. lia.
  - intros E. apply IH in E. lia.
Qed.

Lemma applyMapping_listed (mappings : jsval) (props : list PropInfo) (btnName : string)
      (d : Dropdown) :
  keypadListed props d -> keypadListed props (applyMapping mappings props btnName d).
Proof.
  intros [I _].
  assert (Z : keypadListed props (DD.select 0 d)).
  { split; [exact I|]. apply selectionWithin_select; [lia|]. rewrite I. simpl.
    rewrite length_map. lia. }
  unfold applyMapping.
  destruct (JS.get mappings "buttons") as [buttons|]; [|exact Z].
  destruct (JS.truthy buttons); [|exact Z].
  destruct (JS.get buttons btnName) as [propName|]; [|exact Z].
  destruct (JS.truthy propName); [|exact Z].
  destruct (findProperty propName props 0) as [sel|] eqn:F; [|exact Z].
  apply findProperty_bound in F. split; [exact I|].
  apply selectionWithin_select; [lia|]. rewrite I. simpl. rewrite length_map. lia.
Qed.

Lemma applyMappings_listed (mappings : jsval) (props : list PropInfo)
      (dds : list Dropdown) :
  Forall (keypadListed props) dds ->
  forall i, Forall (keypadListed props) (applyMappings mappings props i dds).
Proof.
  induction 1 as [|d r D R IH]; intros i; simpl; constructor.
  - apply applyMapping_listed, D.
  - apply IH.
Qed.

Lemma autoLoadMappings_lists (fs : FileSystem) (w : World) :
  currentEffects (vars (autoLoadMappings fs w)) = currentEffects (vars w) /\
  currentProperties (vars (autoLoadMappings fs w)) = currentProperties (vars w) /\
  effectDropdown (ui (autoLoadMappings fs w)) = effectDropdown (ui w) /\
  propDropdown (ui (autoLoadMappings fs w)) = propDropdown (ui w) /\
  (Forall (keypadListed (currentProperties (vars w))) (keypadDropdowns (ui w)) ->
   Forall (keypadListed (currentProperties (vars w)))
          (keypadDropdowns (ui (autoLoadMappings fs w)))).
Proof.
  destruct w as [h v u]. destruct v, u. unfold Panel.autoLoadMappings. norm_upd.
  destruct (_ || _);
    [|destruct (nth_error _ _) as [ei|];
      [destruct (JS.truthy (cacheGet _ _));
       [|destruct (fs _); [destruct (JSON_parse _) as [m|]; [destruct (JS.truthy m)|]|]]|]];
    cbv beta iota; repeat (split; [reflexivity|]); intros K; try exact K;
    apply applyMappings_listed; exact K.
Qed.

(** What [populateEffects] leaves. *)
Lemma populateEffects_listed (fs : FileSystem) (w : World) : listed (populateEffects fs w).
Proof.
  unfold Panel.populateEffects. cbv zeta.
  destruct (activeItem (host _)) as [comp|];
    [|split; [left|split; left]; destruct w as [h v u]; destruct v; reflexivity].
  destruct (AE.selectedLayer0 comp) as [[i layer]|];
    [|split; [left|split; left]; destruct w as [h v u]; destruct v; reflexivity].
  destruct (getLayerEffects layer) as [|e es] eqn:GE;
    [split; [left|split; left]; destruct w as [h v u]; destruct v; reflexivity|].
  match goal with |- listed (Panel.autoLoadMappings _ _
                               (updateKeypadDropdowns (Panel.populateProperties _ ?w0))) =>
    set (w1 := w0) end.
  destruct (populateProperties_listed w1) as (PL & PE & PD & PK).
  destruct (updateKeypadDropdowns_listed (populateProperties w1)) as (KL & KE & KP & KD & KQ).
  destruct (autoLoadMappings_lists fs (updateKeypadDropdowns (populateProperties w1)))
    as (AE1 & AP & AD & AQ & AK).
  assert (E1 : currentEffects (vars w1) = e :: es)
    by (destruct w as [h v u]; destruct v; reflexivity).
  assert (D1 : effectDropdown (ui w1) = mkDropdown (map ei_name (e :: es)) (Some 0)).
  { destruct w as [h v u]. destruct v, u. unfold w1. norm_upd.
    apply (select_first_of (map ei_name (e :: es))). discriminate. }
  split; [|split].
  - right. rewrite AE1, KE, PE, E1, AD, KD, PD, D1. split; [reflexivity|].
    exists 0. split; [reflexivity|simpl; lia].
  - unfold propertiesListed in *. rewrite AP, KP, AQ, KQ. exact PL.
  - right. rewrite AP. apply AK. rewrite KP. exact KL.
Qed.

Lemma lists_setStatus (text : string) (w : World) : lists (setStatus text w) = lists w.
Proof. destruct w as [h v u]. destruct u. reflexivity. Qed.

Lemma lists_baseline (l : option num) (w : World) :
  lists (Upd.on_vars (Upd.set_lastDialValue l) w) = lists w.
Proof. destruct w as [h v u]. destruct v. reflexivity. Qed.

Lemma new_effect_index (button : jsval) (cur n : nat) :
  cur < n ->
  (0 <= (if JS.is_str button "TOP RIGHT"
         then (if Z.of_nat n <=? Z.of_nat cur + 1 then 0 else Z.of_nat cur + 1)
         else if JS.is_str button "TOP LEFT"
         then (if Z.of_nat cur - 1 <? 0 then Z.of_nat n - 1 else Z.of_nat cur - 1)
         else Z.of_nat cur) < Z.of_nat n)%Z.
Proof.
  intros C. destruct (JS.is_str button "TOP RIGHT").
  - destruct (Z.leb_spec (Z.of_nat n) (Z.of_nat cur + 1)); lia.
  - destruct (JS.is_str button "TOP LEFT"); [|lia].
    destruct (Z.ltb_spec (Z.of_nat cur - 1) 0); lia.
Qed.

(** Moving to another effect keeps the lists in step. *)
Lemma navigateEffects_listed (button : jsval) (w : World) :
  listed w -> listed (fst (navigateEffects button w)).
Proof.
  intros L. unfold Panel.navigateEffects. cbv zeta.
  match goal with |- context [if ?c then _ else _] => destruct c eqn:C end;
    [|exact L].
  apply andb_true_iff in C. destruct C as [_ C]. apply Z.ltb_lt in C.
  destruct L as (LE & LP & LK).
  destruct LE as [LE|[LI (cur & LS & LC)]]; [rewrite LE in C; simpl in C; lia|].
  unfold DD.indexOr. rewrite LS.
  pose proof (new_effect_index button cur _ LC) as B.
  set (newIdx := if JS.is_str button "TOP RIGHT" then _ else _) in *.
  set (w1 := Upd.on_ui _ w).
  assert (E1 : currentEffects (vars w1) = currentEffects (vars w))
    by (destruct w as [h v u]; reflexivity).
  assert (D1 : effectDropdown (ui w1)
               = DD.select (Z.to_nat newIdx) (effectDropdown (ui w)))
    by (destruct w as [h v u]; destruct u; reflexivity).
  destruct (populateProperties_listed w1) as (PL & PE & PD & PK).
  destruct (updateKeypadDropdowns_listed (populateProperties w1)) as (KL & KE & KP & KD & KQ).
  set (w3 := updateKeypadDropdowns (populateProperties w1)) in *.
  assert (L3 : listed w3).
  { split; [|split].
    - right. rewrite KE, PE, E1, KD, PD, D1. split; [exact LI|].
      apply selectionWithin_select; [lia|]. rewrite LI, length_map. lia.
    - unfold propertiesListed in *. rewrite KP, KQ. exact PL.
    - right. rewrite KP. exact KL. }
  destruct (nth_error _ _); simpl fst.
  - apply (listed_lists w3); [|exact L3].
    rewrite lists_setStatus. apply lists_baseline.
  - apply (listed_lists w3); [|exact L3]. apply lists_baseline.
Qed.

(** A keypad key selects a listed property. *)
Lemma selectMapped_listed (k : nat) (w : World) : listed w -> listed (selectMapped k w).
Proof.
  intros L. unfold selectMapped.
  destruct (nth_error (keypadDropdowns (ui w)) k) as [dropdown|]; [|exact L].
  destruct (_ && _) eqn:C; [|exact L].
  apply andb_true_iff in C. destruct C as [C1 C2].
  apply Nat.ltb_lt in C1. apply Nat.leb_le in C2.
  destruct (nth_error (currentProperties (vars w)) _) as [pinfo|]; [|exact L].
  destruct L as (LE & LP & LK).
  destruct LP as [LP|[LI _]]; [rewrite LP in C2; simpl in C2; lia|].
  split; [|split].
  - destruct w as [h v u]. destruct v, u. exact LE.
  - right. destruct w as [h v u]. destruct v, u. simpl in *. split; [exact LI|].
    apply selectionWithin_select; [lia|]. rewrite LI, length_map. lia.
  - destruct w as [h v u]. destruct v, u. exact LK.
Qed.

Lemma selectLayerByIndex_listed (fs : FileSystem) (i : Z) (w : World) :
  listed w -> listed (selectLayerByIndex fs i w).
Proof.
  intros L. unfold Panel.selectLayerByIndex. cbv zeta.
  destruct (activeItem (host w)) as [comp|]; [|exact L].
  destruct (_ && _); [|exact L].
  destruct (nth_error _ _);
    [apply (listed_lists _ _ (lists_setStatus _ _))|]; apply populateEffects_listed.
Qed.

Lemma navigateLayers_listed (fs : FileSystem) (button : jsval) (w : World) :
  listed w -> listed (navigateLayers fs button w).
Proof.
  intros L. unfold Panel.navigateLayers. cbv zeta.
  destruct (activeItem (host w)) as [comp|]; [|exact L].
  destruct (negb _); [|exact L]. apply selectLayerByIndex_listed, L.
Qed.

Lemma lists_on_host (f : Host -> Host) (w : World) : lists (Upd.on_host f w) = lists w.
Proof. destruct w as [h v u]. reflexivity. Qed.

Lemma lists_setCompTime (t : num) (w : World) : lists (setCompTime t w) = lists w.
Proof. unfold setCompTime. destruct (activeItem (host w)); [apply lists_on_host|reflexivity]. Qed.

Lemma lists_valDisplay (text : string) (w : World) :
  lists (Upd.on_ui (Upd.set_valDisplay text) w) = lists w.
Proof. destruct w as [h v u]. destruct u. reflexivity. Qed.

Lemma lists_layerText (text : string) (w : World) :
  lists (Upd.on_ui (Upd.set_layerText text) w) = lists w.
Proof. destruct w as [h v u]. destruct u. reflexivity. Qed.

Ltac lists_step :=
  rewrite ?lists_setStatus, ?lists_setCompTime, ?lists_on_host, ?lists_valDisplay,
    ?lists_layerText, ?lists_baseline.

Lemma lists_prevKeyframe (p : PropInfo) (w w' : World) :
  prevKeyframe p w = Ok w' -> lists w' = lists w.
Proof.
  unfold prevKeyframe. intros E. outcome_cases E; lists_step; reflexivity.
Qed.

Lemma lists_nextKeyframe (p : PropInfo) (w w' : World) :
  nextKeyframe p w = Ok w' -> lists w' = lists w.
Proof.
  unfold nextKeyframe. intros E. outcome_cases E; lists_step; reflexivity.
Qed.

Lemma lists_toggleKeyframe (p : PropInfo) (w w' : World) :
  toggleKeyframe p w = Ok w' -> lists w' = lists w.
Proof.
  unfold Panel.toggleKeyframe. intros E. outcome_cases E; lists_step; reflexivity.
Qed.

Lemma lists_onSelectedProperty (prefix : string)
      (body : PropInfo -> World -> outcome World) (w : World) :
  (forall p w0 w', body p w0 = Ok w' -> lists w' = lists w0) ->
  lists (onSelectedProperty faultMessage prefix body w) = lists w.
Proof.
  intros H. unfold onSelectedProperty.
  destruct (selectedProperty w) as [p|]; [|reflexivity].
  destruct (body p w) as [w'|f] eqn:E; [exact (H _ _ _ E)|apply lists_setStatus].
Qed.

Lemma lists_pollFiles (fs : FileSystem) (w : World) :
  lists (snd (pollFiles fs w)) = lists w.
Proof.
  destruct (pollFiles_frame fs w) as (_ & (raw & ts & pos & rawb & V) & _ & E & P & K).
  unfold lists. rewrite V, E, P, K. destruct (vars w); reflexivity.
Qed.

Lemma lists_accepted (ts : jsval) (w : World) : lists (accepted ts w) = lists w.
Proof. destruct w as [h v u]. destruct v. reflexivity. Qed.

Lemma dispatchRest_listed (fs : FileSystem) (button : jsval) (w : World) :
  listed w -> listed (dispatchRest fs button w).
Proof.
  intros L. unfold Panel.dispatchRest. cbv zeta.
  set (w1 := if _ || _ then _ else w).
  assert (L1 : listed w1)
    by (unfold w1; destruct (_ || _); [apply navigateLayers_listed|]; exact L).
  set (w2 := match keypadIndex button with Some i => _ | None => w1 end).
  assert (L2 : listed w2)
    by (unfold w2; destruct (keypadIndex button); [apply selectMapped_listed|]; exact L1).
  set (w3 := if JS.is_str button "7" then _ else w2).
  assert (L3 : listed w3).
  { unfold w3. destruct (JS.is_str button "7"); [|exact L2].
    apply (listed_lists w2); [|exact L2].
    apply lists_onSelectedProperty. exact lists_prevKeyframe. }
  set (w4 := if JS.is_str button "8" then _ else w3).
  assert (L4 : listed w4).
  { unfold w4. destruct (JS.is_str button "8"); [|exact L3].
    apply (listed_lists w3); [|exact L3].
    apply lists_onSelectedProperty. exact lists_toggleKeyframe. }
  destruct (JS.is_str button "9"); [|exact L4].
  apply (listed_lists w4); [|exact L4].
  apply lists_onSelectedProperty. exact lists_nextKeyframe.
Qed.

Lemma dispatchButton_listed (fs : FileSystem) (button : jsval) (w : World) :
  listed w -> listed (fst (dispatchButton fs button w)).
Proof.
  intros L. unfold Panel.dispatchButton.
  destruct (_ || _); [|apply dispatchRest_listed, L].
  pose proof (navigateEffects_listed button w L) as N.
  destruct (navigateEffects button w) as [w' [f|]]; simpl fst in *;
    [exact N|apply dispatchRest_listed, N].
Qed.

Lemma checkButtons_listed (fs : FileSystem) (w : World) :
  listed w -> listed (fst (checkButtons fs w)).
Proof.
  intros L. unfold Panel.checkButtons.
  pose proof (lists_pollFiles fs w) as P.
  destruct (pollFiles fs w) as [btnData w0]. simpl snd in P.
  assert (L0 : listed w0) by (apply (listed_lists w); assumption).
  destruct (negb (JS.truthy btnData)); [exact L0|].
  destruct (JS.get btnData "button") as [button|]; [|exact L0].
  destruct (JS.get btnData "timestamp") as [timestamp|]; [|exact L0].
  destruct (JS.get btnData "pressed") as [pressed|]; [|exact L0].
  destruct (negb (JS.truthy button)); [exact L0|]. cbv zeta.
  destruct (jsLe _ _ _); [exact L0|].
  assert (L1 : listed (Upd.on_vars
                         (Upd.set_lastButtonTimestamp (JS.or timestamp (JNum Num.zero))) w0))
    by (apply (listed_lists w0); [apply lists_accepted|exact L0]).
  destruct (negb (JS.truthy pressed)); [exact L1|].
  apply dispatchButton_listed, L1.
Qed.

Lemma lists_scrubTimeline (d : num) (w : World) : lists (scrubTimeline d w) = lists w.
Proof.
  unfold Panel.scrubTimeline. destruct (activeItem (host w)); [|reflexivity].
  apply lists_setCompTime.
Qed.

Lemma lists_writeValue (propInfo : PropInfo) (prop : Property) (v : jsval)
      (shown label : string) (w w' : World) :
  writeValue propInfo prop v shown label w = Ok w' -> lists w' = lists w.
Proof.
  unfold Panel.writeValue. destruct (0 <? AE.numKeys prop).
  - intros E; inversion E; subst; clear E. lists_step. reflexivity.
  - destruct (AE.setValue prop v); simpl; [|discriminate].
    intros E; inversion E; subst; clear E. lists_step. reflexivity.
Qed.

Lemma lists_adjustProperty (propInfo : PropInfo) (d : num) (w : World) :
  lists (adjustProperty propInfo d w) = lists w.
Proof.
  unfold Panel.adjustProperty.
  destruct (AE.lookupProperty (host w) (pi_prop propInfo)) as [prop|f];
    [|apply lists_setStatus].
  match goal with |- context [match ?a with Ok _ => _ | Throw _ => _ end] =>
    destruct a as [w'|f] eqn:E end; [|apply lists_setStatus].
  destruct (propValue valueAtTime (hostTime (host w)) prop) as [| |b|x|s|[|[] rest]|fs0];
    try (inversion E; subst; apply lists_setStatus);
    eapply lists_writeValue; exact E.
Qed.

Lemma lists_applyDials (propInfo : PropInfo) (px py : jsval) (w : World) :
  lists (applyDials propInfo px py w) = lists w.
Proof.
  unfold Panel.applyDials. destruct px as [| | |x| | |]; try reflexivity.
  destruct (negb (Num.isFinite x)); [reflexivity|]. cbv zeta.
  destruct (_ && _); [reflexivity|].
  set (w1 := Upd.on_vars (Upd.set_lastSmallDialValue _) _).
  assert (E1 : lists w1 = lists w) by (destruct w as [h v u]; destruct v; reflexivity).
  set (w2 := if negb _ then _ else w1).
  assert (E2 : lists w2 = lists w)
    by (unfold w2; match goal with |- lists (if ?c then _ else _) = _ => destruct c end;
        [rewrite lists_scrubTimeline|]; exact E1).
  match goal with |- lists (if ?c then _ else _) = _ => destruct c end;
    [exact E2|]. rewrite lists_adjustProperty. exact E2.
Qed.

Lemma onLayerChange_listed (fs : FileSystem) (layer : Layer) (w : World) :
  listed w -> listed (onLayerChange JSON_parse valueAtTime fs layer w).
Proof.
  intros L. unfold onLayerChange. destruct (negb _); [|exact L]. cbv zeta.
  apply (listed_lists _ _ (lists_baseline _ _)). apply populateEffects_listed.
Qed.

Lemma lists_debugTexts (w : World) : lists (debugTexts w) = lists w.
Proof.
  destruct (debugTexts_frame w) as (_ & V & _ & _ & E & P & K & _).
  unfold lists. rewrite V, E, P, K. reflexivity.
Qed.

Lemma updateProperty_listed (fs : FileSystem) (w : World) :
  listed w -> listed (updateProperty fs w).
Proof.
  intros L. unfold Panel.updateProperty.
  destruct (negb (isActive (vars w))); [exact L|].
  destruct (activeItem (host w)) as [comp|];
    [|apply (listed_lists w); [lists_step; reflexivity|exact L]].
  destruct (AE.selectedLayer0 comp) as [[i layer]|];
    [|apply (listed_lists w); [lists_step; reflexivity|exact L]].
  cbv zeta. pose proof (onLayerChange_listed fs layer w L) as L1.
  set (w1 := onLayerChange JSON_parse valueAtTime fs layer w) in *.
  destruct (_ || _); [apply (listed_lists w1); [apply lists_valDisplay|exact L1]|].
  destruct (selectedProperty w1) as [propInfo|];
    [|apply (listed_lists w1); [apply lists_valDisplay|exact L1]].
  destruct (readPositionFile_shape fs (vars w1)) as (raw & ts & pos & E1).
  destruct (readPositionFile fs (vars w1)) as [p v1]. simpl in E1. subst v1.
  destruct (readButtonFile_shape fs (positionFields raw ts pos (vars w1))) as (rawb & E2).
  destruct (readButtonFile fs _) as [b v2]. simpl in E2. subst v2.
  set (w2 := Upd.set_vars _ w1).
  assert (E : lists w2 = lists w1)
    by (unfold w2; destruct w1 as [h v u]; destruct v; reflexivity).
  destruct (JS.get p "x") as [px|];
    [|apply (listed_lists w1); [rewrite lists_setStatus; exact E|exact L1]].
  destruct (JS.get p "y") as [py|];
    [|apply (listed_lists w1); [rewrite lists_setStatus; exact E|exact L1]].
  apply (listed_lists w1); [|exact L1].
  rewrite lists_applyDials, lists_debugTexts. exact E.
Qed.

Lemma lists_beat (w : World) : lists (beat w) = lists w.
Proof. destruct w as [h v u]. destruct u. reflexivity. Qed.

Lemma tick_listed (fs : FileSystem) (w : World) :
  listed w -> listed (fst (logiReceiverUpdate fs w)).
Proof.
  intros L. unfold Panel.logiReceiverUpdate, Panel.tick. cbv zeta.
  assert (L0 : listed (beat w)) by (apply (listed_lists w); [apply lists_beat|exact L]).
  destruct (isActive (vars (beat w))); [|exact L0].
  pose proof (checkButtons_listed fs (beat w) L0) as L1.
  destruct (checkButtons fs (beat w)) as [w1 [f|]]; simpl fst in L1.
  - apply (listed_lists w1); [apply lists_setStatus|exact L1].
  - apply updateProperty_listed, L1.
Qed.

Lemma schedule_listed (files : list FileSystem) : forall w,
  listed w -> listed (fst (schedule logiReceiverUpdate files w)).
Proof.
  induction files as [|fs rest IH]; intros w L; simpl; [exact L|].
  pose proof (tick_listed fs w L) as L1.
  destruct (logiReceiverUpdate fs w) as [w1 [f|]]; simpl fst in L1; [exact L1|].
  specialize (IH w1 L1). destruct (schedule logiReceiverUpdate rest w1) as [w2 n].
  exact IH.
Qed.

Lemma initial_listed (h : Host) : listed (initialWorld h).
Proof.
  split; [left; reflexivity|]. split; [left; reflexivity|]. left. reflexivity.
Qed.

Lemma populateProperties_holds (w : World) (i : nat) (ei : EffectInfo) :
  dd_selection (effectDropdown (ui w)) = Some i ->
  nth_error (currentEffects (vars w)) i = Some ei ->
  currentProperties (vars (populateProperties w))
  = getEffectProperties (host w) (ei_effect ei) "".
Proof.
  intros S N. unfold Panel.populateProperties.
  destruct w as [h v u].
  destruct v as [ia ld lsd lln ce cp0 lbt mc lm lrp lrb vd lpt lvp], u.
  simpl in S, N. norm_upd.
  unfold DD.indexOr. rewrite S. simpl dd_selection.
  assert (B : i < List.length ce) by (apply nth_error_Some; congruence).
  replace (Z.of_nat i <? 0)%Z with false by (symmetry; apply Z.ltb_ge; lia).
  replace (Z.of_nat (List.length ce) <=? Z.of_nat i)%Z with false
    by (symmetry; apply Z.leb_gt; lia).
  simpl orb. cbv iota. rewrite Nat2Z.id, N.
  destruct (Panel.getEffectProperties valueAtTime h (ei_effect ei) "") eqn:G;
    reflexivity.
Qed.

Lemma populateEffects_holds (fs : FileSystem) (w : World) (comp : Comp) (i : nat)
      (layer : Layer) :
  activeItem (host w) = Some comp ->
  AE.selectedLayer0 comp = Some (i, layer) ->
  currentEffects (vars (populateEffects fs w)) = getLayerEffects layer /\
  (forall e es,
      getLayerEffects layer = e :: es ->
      dd_selection (effectDropdown (ui (populateEffects fs w))) = Some 0 /\
      currentProperties (vars (populateEffects fs w))
      = getEffectProperties (host w) (ei_effect e) "").
Proof.
  intros A S. unfold Panel.populateEffects. cbv zeta.
  replace (activeItem (host _)) with (Some comp)
    by (destruct w as [h v u]; destruct v; symmetry; exact A).
  rewrite S.
  destruct (getLayerEffects layer) as [|e es] eqn:GE.
  - split; [destruct w as [h v u]; destruct v; reflexivity|]. intros e es E. discriminate.
  - match goal with |- context [Panel.autoLoadMappings _ _
                               (updateKeypadDropdowns (Panel.populateProperties _ ?w0))] =>
      set (w1 := w0) end.
    destruct (populateProperties_listed w1) as (_ & PE & PD & _).
    destruct (updateKeypadDropdowns_listed (populateProperties w1))
      as (_ & KE & KP & KD & _).
    destruct (autoLoadMappings_lists fs (updateKeypadDropdowns (populateProperties w1)))
      as (AE1 & AP & AD & _ & _).
    assert (E1 : currentEffects (vars w1) = e :: es)
      by (destruct w as [h v u]; destruct v; reflexivity).
    assert (D1 : effectDropdown (ui w1) = mkDropdown (map ei_name (e :: es)) (Some 0)).
    { destruct w as [h v u]. destruct v, u. unfold w1. norm_upd.
      apply (select_first_of (map ei_name (e :: es))). discriminate. }
    assert (H1 : host w1 = host w) by (destruct w as [h v u]; reflexivity).
    split; [rewrite AE1, KE, PE; exact E1|].
    intros e0 es0 Q. inversion Q; subst e0 es0.
    split; [rewrite AD, KD, PD, D1; reflexivity|].
    rewrite AP, KP, <- H1. apply (populateProperties_holds w1 0).
    + rewrite D1. reflexivity.
    + rewrite E1. reflexivity.
Qed.

(** X10. After [populateEffects], from any state, the effect
    dropdown shows the names of the effects the script holds with one
    of them selected, the property dropdown shows the names of the
    properties it holds with one of them selected, and every keypad
    dropdown shows "(none)" followed by those names, its selection
    among them.  (Nothing is said of the effect dropdown and the
    keypad dropdowns when the script holds no effects, nor of the
    property dropdown when it holds no properties.)  The application
    is not changed.  With a layer selected the effects held are those
    of the first selected layer; when it has effects the first one is
    selected and the properties held are those that
    [getEffectProperties] lists for that effect. *)
Theorem populateEffects_lists_what_it_holds :
  forall (fs : FileSystem) (w : World),
    listed (populateEffects fs w) /\
    host (populateEffects fs w) = host w /\
    (forall (comp : Comp) (i : nat) (layer : Layer),
        activeItem (host w) = Some comp ->
        AE.selectedLayer0 comp = Some (i, layer) ->
        currentEffects (vars (populateEffects fs w)) = getLayerEffects layer /\
        (forall e es,
            getLayerEffects layer = e :: es ->
            dd_selection (effectDropdown (ui (populateEffects fs w))) = Some 0 /\
            currentProperties (vars (populateEffects fs w))
            = getEffectProperties (host w) (ei_effect e) "")).
Proof.
  intros fs w. split; [apply populateEffects_listed|].
  split; [apply host_populateEffects|]. apply populateEffects_holds.
Qed.

(** X11. The agreement between the dropdowns and the lists the script
    holds is kept by every tick, whatever the files contain: by
    [checkButtons] with any button, by [updateProperty], by
    [logiReceiverUpdate], and so by any run of the scheduler from the
    initial state.  In every state so reached the selected effect
    index is below the number of effects, whenever there are any, and
    a property is selected, whenever there are any. *)
Theorem ticks_keep_the_dropdowns_in_step :
  (forall (fs : FileSystem) (w : World), listed w -> listed (fst (checkButtons fs w))) /\
  (forall (fs : FileSystem) (w : World), listed w -> listed (updateProperty fs w)) /\
  (forall (fs : FileSystem) (w : World), listed w -> listed (fst (logiReceiverUpdate fs w))) /\
  (forall (h : Host) (files : list FileSystem),
      listed (fst (schedule logiReceiverUpdate files (initialWorld h)))) /\
  (forall w : World,
      listed w -> currentEffects (vars w) <> [] ->
      List.length (dd_items (effectDropdown (ui w)))
      = List.length (currentEffects (vars w)) /\
      exists cur, dd_selection (effectDropdown (ui w)) = Some cur /\
                  cur < List.length (currentEffects (vars w))) /\
  (forall w : World,
      listed w -> currentProperties (vars w) <> [] ->
      exists p, selectedProperty w = Some p).
Proof.
  split; [exact checkButtons_listed|]. split; [exact updateProperty_listed|].
  split; [exact tick_listed|]. split; [|split].
  - intros h files. apply schedule_listed, initial_listed.
  - intros w (LE & _) N. destruct LE as [LE|[LI S]]; [contradiction|].
    split; [rewrite LI; apply length_map|exact S].
  - intros w (_ & LP & _) N. destruct LP as [LP|[_ (i & S & B)]]; [contradiction|].
    unfold selectedProperty, DD.indexOr. rewrite S.
    replace (0 <=? Z.of_nat i)%Z with true by (symmetry; apply Z.leb_le; lia).
    replace (Z.of_nat i <? Z.of_nat (List.length (currentProperties (vars w))))%Z
      with true by (symmetry; apply Z.ltb_lt; lia).
    simpl andb. cbv iota. rewrite Nat2Z.id.
    destruct (nth_error (currentProperties (vars w)) i) as [p|] eqn:E; [eauto|].
    apply nth_error_None in E. lia.
Qed.

(** *** Events that are only acknowledged *)

Lemma checkButtons_release (fs : FileSystem) (w : World) (button tsv pressed : jsval) :
  JS.get (fst (pollFiles fs w)) "button" = Some button ->
  JS.truthy button = true ->
  JS.get (fst (pollFiles fs w)) "timestamp" = Some tsv ->
  JS.get (fst (pollFiles fs w)) "pressed" = Some pressed ->
  JS.truthy pressed = false ->
  jsLe looseLe (JS.or tsv (JNum Num.zero)) (lastButtonTimestamp (vars w)) = false ->
  checkButtons fs w
  = (accepted (JS.or tsv (JNum Num.zero)) (snd (pollFiles fs w)), None).
Proof.
  intros B TB T P TP G. unfold Panel.checkButtons, accepted.
  pose proof (pollFiles_timestamp fs w) as PT.
  destruct (pollFiles fs w) as [btnData w1]. simpl in *.
  assert (TD : JS.truthy btnData = true)
    by (destruct btnData; simpl in *; try discriminate; try reflexivity;
        inversion B; subst; discriminate).
  rewrite TD, B, T, P, TB, TP, PT, G. reflexivity.
Qed.

Lemma unknown_button_dispatch (fs : FileSystem) (button : jsval) (w : World) :
  (forall name, In name knownButtons -> JS.is_str button name = false) ->
  dispatchButton fs button w = (w, None).
Proof.
  intros U. unfold Panel.dispatchButton, Panel.dispatchRest, keypadIndex.
  rewrite !U by (simpl; auto 20). reflexivity.
Qed.

(** X12. A button record with a fresh timestamp that reports a
    release, or that names a button the script does not know, is
    acknowledged and nothing more: the state after [checkButtons] is
    the polled state with the timestamp as the last one seen.  The
    timestamp is used up: a later record that carries it, a press
    included, is not processed. *)
Theorem release_and_unknown_button_are_only_acknowledged :
  forall (fs : FileSystem) (w : World) (button pressed : jsval) (t : num),
    JS.get (fst (pollFiles fs w)) "button" = Some button ->
    JS.truthy button = true ->
    JS.get (fst (pollFiles fs w)) "timestamp" = Some (JNum t) ->
    Num.is_nan t = false ->
    Num.is_zero t = false ->
    JS.get (fst (pollFiles fs w)) "pressed" = Some pressed ->
    jsLe looseLe (JNum t) (lastButtonTimestamp (vars w)) = false ->
    JS.truthy pressed = false \/
    (forall name, In name knownButtons -> JS.is_str button name = false) ->
    checkButtons fs w = (accepted (JNum t) (snd (pollFiles fs w)), None) /\
    (forall fs2 : FileSystem,
        JS.get (fst (pollFiles fs2 (fst (checkButtons fs w)))) "timestamp"
        = Some (JNum t) ->
        checkButtons fs2 (fst (checkButtons fs w))
        = (snd (pollFiles fs2 (fst (checkButtons fs w))), None)).
Proof.
  intros fs w button pressed t B TB T N Z P G H.
  assert (O : JS.or (JNum t) (JNum Num.zero) = JNum t)
    by (unfold JS.or; simpl; rewrite Z, N; reflexivity).
  assert (E : checkButtons fs w = (accepted (JNum t) (snd (pollFiles fs w)), None)).
  { destruct (JS.truthy pressed) eqn:TP.
    - destruct H as [H|H]; [discriminate|].
      rewrite (checkButtons_fresh fs w button (JNum t) pressed B TB T P TP), O
        by (rewrite O; exact G).
      apply unknown_button_dispatch, H.
    - rewrite (checkButtons_release fs w button (JNum t) pressed B TB T P TP), O
        by (rewrite O; exact G).
      reflexivity. }
  split; [exact E|]. intros fs2 T2. rewrite E in *. simpl fst in *.
  apply (checkButtons_gate fs2 _ (JNum t) T2). rewrite O.
  unfold accepted. destruct (snd (pollFiles fs w)) as [h v u]. destruct v. simpl.
  apply NumFacts.leb_refl, N.
Qed.

(** X13. The last timestamp seen never goes down: when it is a
    number and the record's timestamp is a number or falsy,
    [checkButtons] leaves a number that is not below it. *)
Theorem last_button_timestamp_never_decreases :
  forall (fs : FileSystem) (w : World) (l : num),
    lastButtonTimestamp (vars w) = JNum l ->
    Num.is_nan l = false ->
    (forall tsv, JS.get (fst (pollFiles fs w)) "timestamp" = Some tsv ->
                 JS.truthy tsv = false \/ exists t, tsv = JNum t) ->
    exists l',
      lastButtonTimestamp (vars (fst (checkButtons fs w))) = JNum l' /\
      Num.is_nan l' = false /\
      Num.leb l l' = true.
Proof.
  intros fs w l L N H.
  destruct (checkButtons_marker_cases fs w) as [E|(tsv & T & G & E)].
  - exists l. rewrite E. split; [exact L|]. split; [exact N|].
    apply NumFacts.leb_refl, N.
  - rewrite E, L in *. destruct (H tsv T) as [F|(t & ->)].
    + unfold JS.or in *. rewrite F in *. exists Num.zero.
      split; [reflexivity|]. split; [reflexivity|].
      simpl in G. apply NumFacts.ltb_leb. apply NumFacts.leb_false_ltb; auto.
    + unfold JS.or in *. destruct (JS.truthy (JNum t)) eqn:TT.
      * simpl in TT. apply negb_true_iff in TT. apply orb_false_iff in TT.
        destruct TT as [_ NT]. exists t. split; [reflexivity|]. split; [exact NT|].
        simpl in G. apply NumFacts.ltb_leb. apply NumFacts.leb_false_ltb; auto.
      * exists Num.zero. split; [reflexivity|]. split; [reflexivity|].
        simpl in G. apply NumFacts.ltb_leb. apply NumFacts.leb_false_ltb; auto.
Qed.

(** *** Keyframe navigation *)

Lemma keyTime_In (prop : Property) (i : nat) (t : num) :
  AE.keyTime prop i = Ok t -> exists k, In k (p_keys prop) /\ t = fst k.
Proof.
  unfold AE.keyTime. destruct i as [|j]; [discriminate|].
  destruct (nth_error (p_keys prop) j) as [k|] eqn:N; [|discriminate].
  intros E. inversion E. exists k. split; [exact (nth_error_In _ _ N)|reflexivity].
Qed.

Lemma prevKeyframe_jumped (p : PropInfo) (w w' : World) :
  prevKeyframe p w = Ok w' -> jumped p w w'.
Proof.
  unfold prevKeyframe. intros E. outcome_cases E;
    try (eexists; left; reflexivity);
    match goal with
    | H : AE.keyTime ?prop _ = Ok ?t |- jumped _ _ (setStatus _ (setCompTime ?t _)) =>
        destruct (keyTime_In _ _ _ H) as (k & K & ->);
        eexists; right; exists prop, k; auto
    end.
Qed.

Lemma nextKeyframe_jumped (p : PropInfo) (w w' : World) :
  nextKeyframe p w = Ok w' -> jumped p w w'.
Proof.
  unfold nextKeyframe. intros E. outcome_cases E;
    try (eexists; left; reflexivity);
    match goal with
    | H : AE.keyTime ?prop _ = Ok ?t |- jumped _ _ (setStatus _ (setCompTime ?t _)) =>
        destruct (keyTime_In _ _ _ H) as (k & K & ->);
        eexists; right; exists prop, k; auto
    end.
Qed.

Lemma jumped_frame (p : PropInfo) (w w' : World) :
  jumped p w w' ->
  properties (host w') = properties (host w) /\
  vars w' = vars w /\
  (activeItem (host w) = None -> activeItem (host w') = None) /\
  (forall comp,
      activeItem (host w) = Some comp ->
      exists comp',
        activeItem (host w') = Some comp' /\
        c_layers comp' = c_layers comp /\
        c_duration comp' = c_duration comp /\
        c_frameDuration comp' = c_frameDuration comp /\
        (c_time comp' = c_time comp \/
         exists prop k,
           nth_error (properties (host w)) (pi_prop p) = Some prop /\
           In k (p_keys prop) /\ c_time comp' = fst k)).
Proof.
  intros (status & [->|(prop & k & L & K & ->)]).
  - destruct w as [h v u]. simpl. repeat split; auto.
    intros comp A. exists comp. auto 10.
  - unfold setCompTime. destruct (activeItem (host w)) as [c|] eqn:A.
    + destruct w as [h v u]. simpl in *. repeat split; auto; try discriminate.
      intros comp E. inversion E; subst comp. eexists. split; [reflexivity|].
      simpl. repeat split; auto. right. exists prop, k.
      unfold AE.lookupProperty in L. simpl in L.
      destruct (nth_error (properties h) (pi_prop p)); inversion L; auto.
    + destruct w as [h v u]. simpl in *. repeat split; auto.
      intros comp E. discriminate.
Qed.

Lemma keyframe_key_cases (body : PropInfo -> World -> outcome World) (w : World) :
  (forall p w0 w', body p w0 = Ok w' -> jumped p w0 w') ->
  onSelectedProperty faultMessage "Keyframe nav error: " body w = w \/
  exists p, selectedProperty w = Some p /\
            jumped p w (onSelectedProperty faultMessage "Keyframe nav error: " body w).
Proof.
  intros H. unfold onSelectedProperty.
  destruct (selectedProperty w) as [p|]; [|left; reflexivity].
  right. exists p. split; [reflexivity|].
  destruct (body p w) as [w'|f] eqn:E; [exact (H _ _ _ E)|].
  eexists. left. reflexivity.
Qed.

Lemma no_keys_no_jump (p : PropInfo) (prop : Property) (w : World) :
  nth_error (properties (host w)) (pi_prop p) = Some prop ->
  p_keys prop = [] ->
  prevKeyframe p w = Ok (setStatus "No keyframes on this property" w) /\
  nextKeyframe p w = Ok (setStatus "No keyframes on this property" w).
Proof.
  intros N K. unfold prevKeyframe, nextKeyframe, AE.lookupProperty.
  rewrite N. cbv beta iota delta [bind]. unfold AE.numKeys. rewrite K.
  split; reflexivity.
Qed.

(** X14. Keypad 7 and keypad 9 move the playhead and do nothing
    else to the application or to the variables of the script:
    properties and keyframes, layers, duration and frame duration
    are as before, and the new time is the old one or the time of a
    keyframe of the selected property.  On a property without
    keyframes the time stays and the status line says so. *)
Theorem keyframe_keys_move_only_the_playhead :
  forall (fs : FileSystem) (w : World) (button : jsval),
    button = JStr "7" \/ button = JStr "9" ->
    properties (host (dispatchRest fs button w)) = properties (host w) /\
    vars (dispatchRest fs button w) = vars w /\
    (forall comp,
        activeItem (host w) = Some comp ->
        exists comp',
          activeItem (host (dispatchRest fs button w)) = Some comp' /\
          c_layers comp' = c_layers comp /\
          c_duration comp' = c_duration comp /\
          c_frameDuration comp' = c_frameDuration comp /\
          (c_time comp' = c_time comp \/
           exists p prop k,
             selectedProperty w = Some p /\
             nth_error (properties (host w)) (pi_prop p) = Some prop /\
             In k (p_keys prop) /\ c_time comp' = fst k)) /\
    (forall p prop,
        selectedProperty w = Some p ->
        nth_error (properties (host w)) (pi_prop p) = Some prop ->
        p_keys prop = [] ->
        dispatchRest fs button w = setStatus "No keyframes on this property" w).
Proof.
  intros fs w button B.
  assert (E : exists body,
             dispatchRest fs button w
             = onSelectedProperty faultMessage "Keyframe nav error: " body w /\
             (forall p w0 w', body p w0 = Ok w' -> jumped p w0 w') /\
             (forall p prop, nth_error (properties (host w)) (pi_prop p) = Some prop ->
                             p_keys prop = [] ->
                             body p w = Ok (setStatus "No keyframes on this property" w))).
  { destruct B as [->| ->].
    - exists prevKeyframe. split; [reflexivity|]. split; [exact prevKeyframe_jumped|].
      intros p prop N K. apply (no_keys_no_jump p prop w N K).
    - exists nextKeyframe. split; [reflexivity|]. split; [exact nextKeyframe_jumped|].
      intros p prop N K. apply (no_keys_no_jump p prop w N K). }
  destruct E as (body & -> & J & Z).
  split; [|split; [|split]].
  - destruct (keyframe_key_cases body w J) as [->|(p & _ & K)]; [reflexivity|].
    apply (jumped_frame p w _ K).
  - destruct (keyframe_key_cases body w J) as [->|(p & _ & K)]; [reflexivity|].
    apply (jumped_frame p w _ K).
  - intros comp A.
    destruct (keyframe_key_cases body w J) as [->|(p & S & K)].
    + exists comp. auto 10.
    + destruct (jumped_frame p w _ K) as (_ & _ & _ & C).
      destruct (C comp A) as (comp' & A' & L & D & F & T).
      exists comp'. repeat (split; [assumption|]).
      destruct T as [T|(prop & k & N & I & T)]; [left; exact T|].
      right. exists p, prop, k. auto.
  - intros p prop S N K. unfold onSelectedProperty. rewrite S, (Z p prop N K).
    reflexivity.
Qed.

(** *** Keypad 1 to 6 *)

Lemma dispatchRest_keypad (fs : FileSystem) (k : nat) (w : World) :
  k < 6 -> dispatchRest fs (JStr (nth k keypadButtons "")) w = selectMapped k w.
Proof.
  intros K. destruct k as [|[|[|[|[|[|k]]]]]]; try lia; reflexivity.
Qed.

(** X15. Keypad key [k + 1], for [k] below 6: when the dropdown of
    the key selects the item [i + 1] and the script holds a property
    at position [i] that the property dropdown shows, that property
    becomes the selected one, the dial baseline is dropped, the
    status line names the property, and the application is not
    touched.  When the dropdown selects "(none)" or nothing, or an
    item beyond the properties held, the key does nothing. *)
Theorem keypad_key_selects_the_mapped_property :
  forall (fs : FileSystem) (w : World) (k : nat) (d : Dropdown),
    k < 6 ->
    nth_error (keypadDropdowns (ui w)) k = Some d ->
    (forall (i : nat) (p : PropInfo),
        dd_selection d = Some (S i) ->
        nth_error (currentProperties (vars w)) i = Some p ->
        i < List.length (dd_items (propDropdown (ui w))) ->
        let w' := dispatchRest fs (JStr (nth k keypadButtons "")) w in
        selectedProperty w' = Some p /\
        lastDialValue (vars w') = None /\
        statusText (ui w') = "Property: " ++ pi_name p /\
        host w' = host w) /\
    (dd_selection d = None \/ dd_selection d = Some 0 \/
     (exists i, dd_selection d = Some i /\ List.length (currentProperties (vars w)) < i) ->
     dispatchRest fs (JStr (nth k keypadButtons "")) w = w).
Proof.
  intros fs w k d K N. rewrite (dispatchRest_keypad fs k w K).
  unfold selectMapped. rewrite N. split.
  - intros i p Sel P I. rewrite Sel.
    assert (B : i < List.length (currentProperties (vars w)))
      by (apply nth_error_Some; congruence).
    replace ((0 <? S i) && (S i <=? List.length (currentProperties (vars w))))
      with true by (symmetry; apply andb_true_iff; split;
                    [apply Nat.ltb_lt|apply Nat.leb_le]; lia).
    replace (S i - 1) with i by lia. rewrite P.
    destruct w as [h v u].
    destruct v as [ia ld lsd lln ce cp0 lbt mc lm lrp lrb vd lpt lvp],
             u as [st lt vdp hb pe pr be br ed pd kd si sit].
    simpl in *.
    unfold selectedProperty, DD.indexOr, DD.select. simpl.
    replace (i <? List.length (dd_items pd)) with true
      by (symmetry; apply Nat.ltb_lt; exact I).
    replace (0 <=? Z.of_nat i)%Z with true by (symmetry; apply Z.leb_le; lia).
    replace (Z.of_nat i <? Z.of_nat (List.length cp0))%Z with true
      by (symmetry; apply Z.ltb_lt; lia).
    simpl. rewrite Nat2Z.id. auto.
  - intros [Sel|[Sel|(i & Sel & B)]]; rewrite Sel; [reflexivity|reflexivity|].
    replace (i <=? List.length (currentProperties (vars w))) with false
      by (symmetry; apply Nat.leb_gt; exact B).
    rewrite andb_false_r. reflexivity.
Qed.

(** *** A tick without a baseline *)

Lemma applyDials_no_baseline (propInfo : PropInfo) (px py : jsval) (w : World) :
  lastDialValue (vars w) = None ->
  properties (host (applyDials propInfo px py w)) = properties (host w).
Proof.
  intros L. apply applyDials_idle. intros x _. rewrite L. reflexivity.
Qed.

Lemma onLayerChange_no_baseline (fs : FileSystem) (layer : Layer) (w : World) :
  lastDialValue (vars w) = None ->
  lastDialValue (vars (onLayerChange JSON_parse valueAtTime fs layer w)) = None /\
  host (onLayerChange JSON_parse valueAtTime fs layer w) = host w.
Proof.
  intros L. unfold onLayerChange. destruct (negb _); [|auto]. cbv zeta.
  match goal with |- context [Panel.populateEffects _ _ fs ?w0] =>
    pose proof (host_populateEffects fs w0) as H;
    destruct (Panel.populateEffects JSON_parse valueAtTime fs w0) as [h1 v1 u1] end.
  destruct v1. destruct w as [h v u]. simpl in *. auto.
Qed.

Lemma updateProperty_no_baseline (fs : FileSystem) (w : World) :
  lastDialValue (vars w) = None ->
  properties (host (updateProperty fs w)) = properties (host w).
Proof.
  intros L. unfold Panel.updateProperty.
  destruct (negb (isActive (vars w))); [reflexivity|].
  destruct (activeItem (host w)) as [comp|]; [|destruct w; reflexivity].
  destruct (AE.selectedLayer0 comp) as [[i layer]|]; [|destruct w; reflexivity].
  cbv zeta. destruct (onLayerChange_no_baseline fs layer w L) as [L1 H1].
  set (w1 := onLayerChange JSON_parse valueAtTime fs layer w) in *.
  rewrite <- H1.
  destruct (_ || _); [destruct w1; reflexivity|].
  destruct (selectedProperty w1) as [propInfo|]; [|destruct w1; reflexivity].
  destruct (readPositionFile_shape fs (vars w1)) as (raw & ts & pos & E1).
  destruct (readPositionFile fs (vars w1)) as [p v1]. simpl in E1. subst v1.
  destruct (readButtonFile_shape fs (positionFields raw ts pos (vars w1))) as (rawb & E2).
  destruct (readButtonFile fs _) as [b v2]. simpl in E2. subst v2.
  set (w2 := Upd.set_vars _ w1).
  assert (H2 : host w2 = host w1) by (destruct w1; reflexivity).
  assert (L2 : lastDialValue (vars w2) = None)
    by (unfold w2; destruct w1 as [h v u]; destruct v; exact L1).
  destruct (JS.get p "x") as [px|]; [|destruct w2; rewrite <- H2; reflexivity].
  destruct (JS.get p "y") as [py|]; [|destruct w2; rewrite <- H2; reflexivity].
  rewrite applyDials_no_baseline.
  - destruct (debugTexts_frame w2) as (-> & _). rewrite H2. reflexivity.
  - destruct (debugTexts_frame w2) as (_ & -> & _). exact L2.
Qed.

Lemma navigateEffects_baseline (button : jsval) (w : World) :
  fst (navigateEffects button w) = w \/
  lastDialValue (vars (fst (navigateEffects button w))) = None.
Proof.
  unfold Panel.navigateEffects. cbv zeta.
  match goal with |- context [if ?c then _ else _] => destruct c end; [|left; reflexivity].
  right. destruct (nth_error _ _); simpl fst.
  - match goal with |- lastDialValue (vars (setStatus _ (Upd.on_vars _ ?w0))) = None =>
      destruct w0 as [h v u]; destruct v; reflexivity end.
  - match goal with |- lastDialValue (vars (Upd.on_vars _ ?w0)) = None =>
      destruct w0 as [h v u]; destruct v; reflexivity end.
Qed.

(** X16. With no dial baseline, [updateProperty] writes no property,
    in any state and whatever the position file holds: the first
    sample only becomes the baseline.  The baseline is dropped by a
    TOP button that changes the selected effect; hence the tick that
    follows such a change never applies the distance the dial was
    turned before it. *)
Theorem first_tick_after_a_change_writes_nothing :
  (forall (fs : FileSystem) (w : World),
      lastDialValue (vars w) = None ->
      properties (host (updateProperty fs w)) = properties (host w)) /\
  (forall (button : jsval) (w : World),
      fst (navigateEffects button w) = w \/
      lastDialValue (vars (fst (navigateEffects button w))) = None) /\
  (forall (fs : FileSystem) (button : jsval) (w : World),
      dd_selection (effectDropdown (ui (fst (navigateEffects button w))))
      <> dd_selection (effectDropdown (ui w)) ->
      properties (host (updateProperty fs (fst (navigateEffects button w))))
      = properties (host (fst (navigateEffects button w)))).
Proof.
  split; [exact updateProperty_no_baseline|].
  split; [exact navigateEffects_baseline|].
  intros fs button w D. apply updateProperty_no_baseline.
  destruct (navigateEffects_baseline button w) as [E|E]; [|exact E].
  rewrite E in D. contradiction.
Qed.

(** *** The playhead stays inside the composition *)

Lemma min_below (x y : num) :
  Num.is_nan x = false -> Num.is_nan y = false ->
  (Num.min x y = x \/ Num.min x y = y) /\
  Num.leb (Num.min x y) x = true /\ Num.leb (Num.min x y) y = true.
Proof.
  intros X Y.
  pose proof (NumFacts.compare_refl x X) as Cxx.
  pose proof (NumFacts.compare_refl y Y) as Cyy.
  pose proof (NumFacts.compare_antisym x y) as Cyx.
  unfold Num.min, Num.leb, SFleb.
  destruct (SFcompare x y) as [[]|] eqn:E; simpl in Cyx.
  - destruct x as [[]| | |]; rewrite ?Cxx, ?Cyy, ?Cyx, ?E; auto.
  - rewrite Cxx, E. auto.
  - rewrite Cyy, Cyx. auto.
  - destruct (NumFacts.compare_none _ _ E); congruence.
Qed.

Lemma max_above (x y : num) :
  Num.is_nan x = false -> Num.is_nan y = false ->
  (Num.max x y = x \/ Num.max x y = y) /\
  Num.leb x (Num.max x y) = true /\ Num.leb y (Num.max x y) = true.
Proof.
  intros X Y.
  pose proof (NumFacts.compare_refl x X) as Cxx.
  pose proof (NumFacts.compare_refl y Y) as Cyy.
  pose proof (NumFacts.compare_antisym x y) as Cyx.
  unfold Num.max, Num.leb, SFleb.
  destruct (SFcompare x y) as [[]|] eqn:E; simpl in Cyx.
  - destruct x as [[]| | |]; rewrite ?Cxx, ?Cyy, ?Cyx, ?E; auto.
  - rewrite Cyy, E. auto.
  - rewrite Cxx, Cyx. auto.
  - destruct (NumFacts.compare_none _ _ E); congruence.
Qed.

(** [Math.max(0, Math.min(hi, v))] lies between [0] and [hi]. *)
Lemma clamp_between (hi v : num) :
  Num.is_nan hi = false -> Num.is_nan v = false ->
  Num.leb Num.zero hi = true ->
  Num.is_nan (Num.max Num.zero (Num.min hi v)) = false /\
  Num.leb Num.zero (Num.max Num.zero (Num.min hi v)) = true /\
  Num.leb (Num.max Num.zero (Num.min hi v)) hi = true.
Proof.
  intros H V P.
  destruct (min_below hi v H V) as (M & Mh & _).
  assert (N : Num.is_nan (Num.min hi v) = false) by (destruct M as [-> | ->]; assumption).
  destruct (max_above Num.zero (Num.min hi v) eq_refl N) as (X & X0 & _).
  split; [destruct X as [-> | ->]; [reflexivity|exact N]|].
  split; [exact X0|]. destruct X as [-> | ->]; assumption.
Qed.

(** X17. The small dial never takes the playhead out of the
    composition.  When the time, the duration and the frame duration
    are finite, a frame lasts some time and the composition at least
    one frame, a finite, non-zero delta of the small dial leaves a
    time between 0 and the duration less one frame; the layers, the
    duration and the frame duration are as before. *)
Theorem small_dial_keeps_the_playhead_inside :
  forall (d : num) (w : World) (comp : Comp),
    activeItem (host w) = Some comp ->
    Num.isFinite (c_time comp) = true ->
    Num.isFinite (c_duration comp) = true ->
    Num.isFinite (c_frameDuration comp) = true ->
    Num.is_zero (c_frameDuration comp) = false ->
    Num.leb Num.zero (Num.sub (c_duration comp) (c_frameDuration comp)) = true ->
    Num.isFinite d = true ->
    Num.is_zero d = false ->
    exists comp',
      activeItem (host (scrubTimeline d w)) = Some comp' /\
      Num.leb Num.zero (c_time comp') = true /\
      Num.leb (c_time comp') (Num.sub (c_duration comp) (c_frameDuration comp)) = true /\
      c_layers comp' = c_layers comp /\
      c_duration comp' = c_duration comp /\
      c_frameDuration comp' = c_frameDuration comp.
Proof.
  intros d w comp A T D F FZ P Fd Zd.
  unfold Panel.scrubTimeline. rewrite A. cbv zeta. unfold setCompTime. rewrite A.
  eexists. split; [destruct w; reflexivity|]. simpl.
  assert (NS : Num.is_nan (JS.numOr (parseFloat (sensInputTimeline (ui w))) Num.one) = false)
    by (apply NumFacts.numOr_ok; reflexivity).
  assert (N1 : Num.is_nan (Num.mul d (JS.numOr (parseFloat (sensInputTimeline (ui w)))
                                              Num.one)) = false)
    by (apply NumFacts.mul_not_nan; assumption).
  assert (N2 : Num.is_nan
                 (Num.mul (Num.mul d (JS.numOr (parseFloat (sensInputTimeline (ui w)))
                                               Num.one))
                          (c_frameDuration comp)) = false)
    by (apply NumFacts.mul_not_nan_r; assumption).
  assert (N3 : Num.is_nan
                 (Num.add (c_time comp)
                    (Num.mul (Num.mul d (JS.numOr (parseFloat (sensInputTimeline (ui w)))
                                                  Num.one))
                             (c_frameDuration comp))) = false)
    by (apply NumFacts.add_not_nan; assumption).
  assert (NH : Num.is_nan (Num.sub (c_duration comp) (c_frameDuration comp)) = false).
  { apply NumFacts.sub_not_nan; [exact D|].
    destruct (c_frameDuration comp); try discriminate; reflexivity. }
  destruct (clamp_between _ _ NH N3 P) as (_ & L0 & L1).
  repeat split; assumption.
Qed.

(** *** The earlier script and keyframes *)

Lemma legacy_applyDial_keyframed (propInfo : PropInfo) (x l : num) (w : World)
      (prop : Property) :
  Num.isFinite x = true ->
  lastDialValue (vars w) = Some l ->
  Num.gtb (Num.abs (Num.sub x l)) Num.n50 = false ->
  Num.eqb (Num.sub x l) Num.zero = false ->
  AE.lookupProperty (host w) (pi_prop propInfo) = Ok prop ->
  p_keys prop <> [] ->
  hasNumericValue (propValue valueAtTime (hostTime (host w)) prop) = true ->
  legacyApply propInfo (JNum x) w
  = setStatus ("Cannot set: " ++ faultMessage KeyframedSetValue)
              (Upd.on_vars (Upd.set_lastDialValue (Some x)) w).
Proof.
  intros F L A D P K N. unfold Legacy.applyDial. rewrite F, L.
  rewrite (differs_of_delta _ _ F D). change (negb true) with false.
  cbv beta iota zeta. simpl deltaFrom. rewrite A, D.
  change (AE.lookupProperty
            (host (Upd.on_vars (Upd.set_lastDialValue (Some x)) w)) (pi_prop propInfo))
    with (AE.lookupProperty (host w) (pi_prop propInfo)).
  rewrite P.
  change (hostTime (host (Upd.on_vars (Upd.set_lastDialValue (Some x)) w)))
    with (hostTime (host w)).
  unfold Legacy.writeValue, AE.setValue.
  destruct (p_keys prop) as [|k ks] eqn:Q; [congruence|].
  destruct (propValue valueAtTime (hostTime (host w)) prop)
    as [| |b|old|s|[|[| | |c| | |] rest]|fs0]; try discriminate; reflexivity.
Qed.

(** X18. The earlier script cannot adjust a property that has
    keyframes: it always calls [setValue], which the application
    refuses there.  In a steady state, with an accepted, non-zero
    delta on a selected property that has keyframes and a numeric
    value, the tick reports "Cannot set: " with the message of the
    application, changes nothing in the application, and still takes
    the sample as the new baseline, so that the turn of the dial is
    lost. *)
Theorem earlier_script_refuses_keyframed_properties :
  forall (fs : FileSystem) (w : World) (propInfo : PropInfo) (prop : Property)
         (x l : num),
    steady w propInfo ->
    JS.get (fst (legacyRead fs (vars w))) "x" = Some (JNum x) ->
    Num.isFinite x = true ->
    lastDialValue (vars w) = Some l ->
    Num.gtb (Num.abs (Num.sub x l)) Num.n50 = false ->
    Num.eqb (Num.sub x l) Num.zero = false ->
    AE.lookupProperty (host w) (pi_prop propInfo) = Ok prop ->
    p_keys prop <> [] ->
    hasNumericValue (propValue valueAtTime (hostTime (host w)) prop) = true ->
    host (legacyUpdate fs w) = host w /\
    statusText (ui (legacyUpdate fs w)) = "Cannot set: " ++ faultMessage KeyframedSetValue /\
    lastDialValue (vars (legacyUpdate fs w)) = Some x.
Proof.
  intros fs w propInfo prop x l S X F L A D P K N.
  rewrite (legacy_updateProperty_steady fs w propInfo S), X.
  destruct (legacy_polled_frame fs w) as (H1 & L1 & U1 & _).
  set (w1 := Upd.set_vars (snd (legacyRead fs (vars w))) w) in *.
  rewrite (legacy_applyDial_keyframed propInfo x l w1 prop F);
    try assumption; try (rewrite H1; assumption); try (rewrite L1; assumption).
  destruct w1 as [h1 v1 u1]. destruct v1, u1. simpl in *. auto.
Qed.

(** *** Selecting a layer *)

Lemma setSelected_names (ls : list Layer) : forall (k : nat) (b : bool),
  map l_name (AE.setSelected k b ls) = map l_name ls /\
  map l_effects (AE.setSelected k b ls) = map l_effects ls.
Proof.
  induction ls as [|l r IH]; intros k b; [destruct k; auto|].
  destruct k as [|[|k']]; simpl; auto.
  destruct (IH (S k') b) as [N E]. simpl in N, E. rewrite N, E. auto.
Qed.

Lemma deselect_names (ls : list Layer) :
  map l_name (map (AE.set_l_selected false) ls) = map l_name ls /\
  map l_effects (map (AE.set_l_selected false) ls) = map l_effects ls /\
  Forall (fun l => l_selected l = false) (map (AE.set_l_selected false) ls).
Proof.
  induction ls as [|l r (N & E & F)]; simpl; [auto|].
  rewrite N, E. repeat split; auto.
Qed.

Lemma setSelected_flags (ls : list Layer) :
  Forall (fun l => l_selected l = false) ls ->
  forall (k j : nat) (layer : Layer),
    1 <= k ->
    nth_error (AE.setSelected k true ls) j = Some layer ->
    l_selected layer = (S j =? k).
Proof.
  induction 1 as [|l r Fl Fr IH]; intros k j layer K N.
  - destruct k, j; discriminate.
  - destruct k as [|[|k']]; [lia| |].
    + simpl in N. destruct j as [|j']; simpl in N.
      * inversion N. reflexivity.
      * apply nth_error_In in N. rewrite Forall_forall in Fr. rewrite (Fr _ N).
        reflexivity.
    + change (AE.setSelected (S (S k')) true (l :: r))
        with (l :: AE.setSelected (S k') true r) in N.
      destruct j as [|j']; simpl in N.
      * inversion N; subst. rewrite Fl. reflexivity.
      * rewrite (IH (S k') j' layer) by (lia || exact N). reflexivity.
Qed.

(** X19. [selectLayerByIndex] does nothing without a composition or
    for an index that is not a layer of it.  For a layer index [k] of
    the composition it leaves exactly that layer selected: the layer
    at position [j] is selected if and only if [j + 1 = k]; the names
    and effects of the layers, the time and the properties of the
    application stay, and the current layer index is [k]. *)
Theorem selectLayerByIndex_selects_exactly_one :
  (forall (fs : FileSystem) (i : Z) (w : World),
      activeItem (host w) = None -> selectLayerByIndex fs i w = w) /\
  (forall (fs : FileSystem) (i : Z) (w : World) (comp : Comp),
      activeItem (host w) = Some comp ->
      (i < 1 \/ Z.of_nat (AE.numLayers comp) < i)%Z ->
      selectLayerByIndex fs i w = w) /\
  (forall (fs : FileSystem) (w : World) (comp : Comp) (k : nat),
      activeItem (host w) = Some comp ->
      1 <= k <= AE.numLayers comp ->
      exists comp',
        activeItem (host (selectLayerByIndex fs (Z.of_nat k) w)) = Some comp' /\
        (forall j layer, nth_error (c_layers comp') j = Some layer ->
                         l_selected layer = (S j =? k)) /\
        map l_name (c_layers comp') = map l_name (c_layers comp) /\
        map l_effects (c_layers comp') = map l_effects (c_layers comp) /\
        c_time comp' = c_time comp /\
        properties (host (selectLayerByIndex fs (Z.of_nat k) w)) = properties (host w) /\
        getCurrentLayerIndex (selectLayerByIndex fs (Z.of_nat k) w) = Z.of_nat k).
Proof.
  split; [|split].
  - intros fs i w A. unfold Panel.selectLayerByIndex. rewrite A. reflexivity.
  - intros fs i w comp A R. unfold Panel.selectLayerByIndex. rewrite A.
    replace ((1 <=? i)%Z && (i <=? Z.of_nat (AE.numLayers comp))%Z) with false;
      [reflexivity|].
    symmetry. apply andb_false_iff. destruct R as [R|R];
      [left; apply Z.leb_gt|right; apply Z.leb_gt]; lia.
  - intros fs w comp k A K.
    destruct (selectLayerByIndex_selects fs w comp k A K) as [G P].
    exists (AE.set_c_layers
              (AE.setSelected k true (map (AE.set_l_selected false) (c_layers comp)))
              comp).
    destruct (deselect_names (c_layers comp)) as (DN & DE & DF).
    destruct (setSelected_names (map (AE.set_l_selected false) (c_layers comp)) k true)
      as [SN SE].
    split; [|split; [|split; [|split; [|split; [|split]]]]];
      try assumption; try reflexivity.
    + unfold Panel.selectLayerByIndex. rewrite A.
      replace (1 <=? Z.of_nat k)%Z with true by (symmetry; apply Z.leb_le; lia).
      replace (Z.of_nat k <=? Z.of_nat (AE.numLayers comp))%Z with true
        by (symmetry; apply Z.leb_le; lia).
      simpl andb. cbv iota zeta. rewrite Nat2Z.id.
      match goal with |- context [Panel.populateEffects _ _ _ ?w0] =>
        pose proof (host_populateEffects fs w0) as H;
        destruct (Panel.populateEffects JSON_parse valueAtTime fs w0) as [h1 v1 u1] end.
      simpl in H. subst h1.
      destruct (nth_error _ _); destruct w; reflexivity.
    + intros j layer N. simpl in N. apply (setSelected_flags _ DF k j layer); [lia|exact N].
    + simpl. rewrite SN. exact DN.
    + simpl. rewrite SE. exact DE.
Qed.

(** *** Keypad mappings *)

Lemma assoc_assocSet (k : string) (v : jsval) (l : list (string * jsval)) :
  JS.assoc k (assocSet k v l) = Some v /\
  (forall k', k' <> k -> JS.assoc k' (assocSet k v l) = JS.assoc k' l).
Proof.
  induction l as [|[k0 v0] r [IH1 IH2]]; simpl.
  - rewrite String.eqb_refl. split; [reflexivity|].
    intros k' N. apply String.eqb_neq in N. rewrite N. reflexivity.
  - destruct (String.eqb k k0) eqn:E; simpl.
    + rewrite String.eqb_refl. split; [reflexivity|].
      intros k' N. apply String.eqb_eq in E. subst k0.
      apply String.eqb_neq in N. rewrite N. reflexivity.
    + rewrite E. split; [exact IH1|]. intros k' N.
      destruct (String.eqb k' k0); [reflexivity|apply IH2, N].
Qed.

Lemma selected_effect (w : World) (idx : nat) (ei : EffectInfo) :
  dd_selection (effectDropdown (ui w)) = Some idx ->
  nth_error (currentEffects (vars w)) idx = Some ei ->
  ((DD.indexOr (-1) (effectDropdown (ui w)) <? 0)%Z
   || (Z.of_nat (List.length (currentEffects (vars w)))
       <=? DD.indexOr (-1) (effectDropdown (ui w)))%Z) = false /\
  Z.to_nat (DD.indexOr (-1) (effectDropdown (ui w))) = idx.
Proof.
  intros S N. unfold DD.indexOr. rewrite S.
  assert (B : idx < List.length (currentEffects (vars w)))
    by (apply nth_error_Some; congruence).
  split; [|apply Nat2Z.id].
  apply orb_false_iff. split; [apply Z.ltb_ge|apply Z.leb_gt]; lia.
Qed.

(** X20. [autoLoadMappings] looks in the cache first: when the cache
    holds a mapping for the selected effect, the files are not read
    and the result is the same on any file system.  A mapping read
    from the file of the effect is put in the cache under the name of
    the effect, where a lookup finds it again.  On every path,
    a file that does not parse included, the loading flag is off
    when the function returns. *)
Theorem mappings_are_cached :
  (forall (fs fs' : FileSystem) (w : World) (idx : nat) (ei : EffectInfo),
      dd_selection (effectDropdown (ui w)) = Some idx ->
      nth_error (currentEffects (vars w)) idx = Some ei ->
      JS.truthy (cacheGet (ei_name ei) (mappingsCache (vars w))) = true ->
      autoLoadMappings fs w = autoLoadMappings fs' w) /\
  (forall (fs : FileSystem) (w : World) (idx : nat) (ei : EffectInfo)
          (content : string) (mappings : jsval),
      dd_selection (effectDropdown (ui w)) = Some idx ->
      nth_error (currentEffects (vars w)) idx = Some ei ->
      JS.truthy (cacheGet (ei_name ei) (mappingsCache (vars w))) = false ->
      fs (MAPPINGS_FOLDER ++ "/" ++ getEffectFileName (ei_name ei)) = Some content ->
      JSON_parse content = Some mappings ->
      mappingsCache (vars (autoLoadMappings fs w))
      = assocSet (ei_name ei) mappings (mappingsCache (vars w)) /\
      cacheGet (ei_name ei) (mappingsCache (vars (autoLoadMappings fs w))) = mappings) /\
  (forall (fs : FileSystem) (w : World),
      isLoadingMappings (vars (autoLoadMappings fs w)) = false).
Proof.
  split; [|split].
  - intros fs fs' w idx ei S N C.
    destruct (selected_effect w idx ei S N) as [G I].
    unfold Panel.autoLoadMappings. cbv zeta.
    replace (effectDropdown (ui (Upd.on_vars (Upd.set_isLoadingMappings true) w)))
      with (effectDropdown (ui w)) by (destruct w; reflexivity).
    replace (currentEffects (vars (Upd.on_vars (Upd.set_isLoadingMappings true) w)))
      with (currentEffects (vars w)) by (destruct w as [h v u]; destruct v; reflexivity).
    replace (mappingsCache (vars (Upd.on_vars (Upd.set_isLoadingMappings true) w)))
      with (mappingsCache (vars w)) by (destruct w as [h v u]; destruct v; reflexivity).
    rewrite G, I, N, C. reflexivity.
  - intros fs w idx ei content mappings S N C F P.
    destruct (selected_effect w idx ei S N) as [G I].
    unfold Panel.autoLoadMappings. cbv zeta.
    replace (effectDropdown (ui (Upd.on_vars (Upd.set_isLoadingMappings true) w)))
      with (effectDropdown (ui w)) by (destruct w; reflexivity).
    replace (currentEffects (vars (Upd.on_vars (Upd.set_isLoadingMappings true) w)))
      with (currentEffects (vars w)) by (destruct w as [h v u]; destruct v; reflexivity).
    replace (mappingsCache (vars (Upd.on_vars (Upd.set_isLoadingMappings true) w)))
      with (mappingsCache (vars w)) by (destruct w as [h v u]; destruct v; reflexivity).
    rewrite G, I, N, C, F, P.
    destruct (negb (JS.truthy mappings));
      destruct w as [h v u]; destruct v as [ia ld lsd lln ce cp0 lbt mc lm lrp lrb vd lpt lvp];
      cbv beta iota; norm_upd; (split; [reflexivity|]);
      unfold cacheGet;
      destruct (assoc_assocSet (ei_name ei) mappings mc) as [-> _]; reflexivity.
  - intros fs w. destruct (autoLoadMappings_shape fs w) as (mc & u & -> & _).
    destruct (vars w); reflexivity.
Qed.

Lemma findProperty_found (name : string) (props : list PropInfo) :
  forall j s,
    findProperty (JStr name) props j = Some s ->
    exists i p,
      s = S (j + i) /\ nth_error props i = Some p /\ pi_name p = name /\
      (forall i' q, i' < i -> nth_error props i' = Some q -> pi_name q <> name).
Proof.
  induction props as [|p r IH]; intros j s; simpl; [discriminate|].
  destruct (String.eqb name (pi_name p)) eqn:E.
  - intros Q. inversion Q. exists 0, p. apply String.eqb_eq in E.
    split; [lia|]. split; [reflexivity|]. split; [auto|]. intros i' q L. lia.
  - intros Q. destruct (IH _ _ Q) as (i & p0 & -> & N & M & F).
    exists (S i), p0. split; [lia|]. split; [exact N|]. split; [exact M|].
    intros [|i'] q L; simpl; intros H.
    + inversion H; subst q. apply String.eqb_neq in E. congruence.
    + apply (F i' q); [lia|exact H].
Qed.

Lemma findProperty_missing (name : string) (props : list PropInfo) :
  forall j, findProperty (JStr name) props j = None ->
            forall p, In p props -> pi_name p <> name.
Proof.
  induction props as [|p r IH]; intros j; simpl; [intros _ q []|].
  destruct (String.eqb name (pi_name p)) eqn:E; [discriminate|].
  intros Q q [<-|I]; [apply String.eqb_neq in E; congruence|exact (IH _ Q q I)].
Qed.

(** X21. A keypad button whose mapping names a property gets, in
    its dropdown, the first property of that name among those held:
    the item selected is one more than the position of the first
    property with that name, and "(none)" when no property has it
    or when the button has no mapping. *)
Theorem mapping_selects_the_first_property_of_that_name :
  forall (mappings buttons : jsval) (props : list PropInfo) (btnName name : string)
         (d : Dropdown),
    JS.get mappings "buttons" = Some buttons ->
    JS.truthy buttons = true ->
    keypadListed props d ->
    (JS.get buttons btnName = Some (JStr name) -> name <> "" ->
     (exists i p,
         dd_selection (applyMapping mappings props btnName d) = Some (S i) /\
         nth_error props i = Some p /\ pi_name p = name /\
         (forall i' q, i' < i -> nth_error props i' = Some q -> pi_name q <> name)) \/
     (dd_selection (applyMapping mappings props btnName d) = Some 0 /\
      forall p, In p props -> pi_name p <> name)) /\
    (JS.get buttons btnName = Some JUndefined ->
     dd_selection (applyMapping mappings props btnName d) = Some 0) /\
    dd_items (applyMapping mappings props btnName d) = dd_items d.
Proof.
  intros mappings buttons props btnName name d B T [I _].
  assert (L : List.length (dd_items d) = S (List.length props))
    by (rewrite I; simpl; rewrite length_map; reflexivity).
  assert (Z : dd_selection (DD.select 0 d) = Some 0)
    by (unfold DD.select; simpl; rewrite L; reflexivity).
  unfold applyMapping. rewrite B, T. split; [|split].
  - intros G N. rewrite G. simpl JS.truthy.
    apply String.eqb_neq in N. rewrite N. simpl negb. cbv iota.
    destruct (findProperty (JStr name) props 0) as [s|] eqn:F.
    + left. destruct (findProperty_found name props 0 s F) as (i & p & -> & P & M & A).
      exists i, p. simpl plus. split; [|auto].
      unfold DD.select. simpl. rewrite L.
      assert (i < List.length props) by (apply nth_error_Some; congruence).
      replace (S i <? S (List.length props)) with true
        by (symmetry; apply Nat.ltb_lt; lia).
      reflexivity.
    + right. split; [exact Z|]. exact (findProperty_missing name props 0 F).
  - intros G. rewrite G. exact Z.
  - destruct (JS.get buttons btnName) as [pn|]; [|reflexivity].
    destruct (JS.truthy pn); [|reflexivity].
    destruct (findProperty pn props 0); reflexivity.
Qed.

(** *** Saving and loading the keypad mappings *)

Section Handlers.

Variable JSON_stringify : jsval -> string.
Variable canWrite : string -> bool.

Local Abbreviation autoSaveMappings :=
  (Controls.autoSaveMappings JSON_stringify canWrite).
Local Abbreviation resetDial := (Controls.resetDial canWrite).
Local Abbreviation startPolling := (Controls.startPolling JSON_parse valueAtTime).

Lemma keypadButton_distinct (i j : nat) :
  i < 9 -> j < 9 -> i <> j ->
  nth i keypadButtons "undefined" <> nth j keypadButtons "undefined".
Proof.
  intros I J N E. apply N.
  assert (D : NoDup keypadButtons) by (unfold keypadButtons; repeat constructor; simpl;
      repeat (let H := fresh in intros [H|H]; [discriminate H|revert H]); auto).
  apply (proj1 (NoDup_nth keypadButtons "undefined") D i j); assumption.
Qed.

Lemma savedButtons_other (props : list PropInfo) (dds : list Dropdown) :
  forall (i : nat) (acc : list (string * jsval)) (key : string),
    (forall m, m < List.length dds -> nth (i + m) keypadButtons "undefined" <> key) ->
    JS.assoc key (Controls.savedButtons props i dds acc) = JS.assoc key acc.
Proof.
  induction dds as [|d r IH]; intros i acc key K; simpl; [reflexivity|].
  rewrite IH.
  - assert (K0 : key <> nth i keypadButtons "undefined").
    { intros E. apply (K 0); [simpl; lia|]. rewrite Nat.add_0_r. auto. }
    destruct (_ && _); [|reflexivity].
    destruct (nth_error props _); [|reflexivity].
    apply assoc_assocSet. exact K0.
  - intros m M. replace (S i + m) with (i + S m) by lia. apply K. simpl. lia.
Qed.

Lemma mappedName_valid (props : list PropInfo) (d : Dropdown) :
  selectionWithin (S (List.length props)) d ->
  (exists j p, dd_selection d = Some (S j) /\ nth_error props j = Some p /\
               mappedName props d = Some (JStr (pi_name p))) \/
  (dd_selection d = Some 0 /\ mappedName props d = None).
Proof.
  intros (s & S & B). unfold mappedName. rewrite S. destruct s as [|j]; [right; auto|].
  left. destruct (nth_error props j) as [p|] eqn:N.
  - exists j, p. auto.
  - apply nth_error_None in N. lia.
Qed.

Lemma savedButtons_at (props : list PropInfo) (dds : list Dropdown) :
  forall (i : nat) (acc : list (string * jsval)),
    i + List.length dds <= 9 ->
    Forall (keypadListed props) dds ->
    forall m d,
      nth_error dds m = Some d ->
      JS.assoc (nth (i + m) keypadButtons "undefined")
               (Controls.savedButtons props i dds acc)
      = match mappedName props d with
        | Some name => Some name
        | None => JS.assoc (nth (i + m) keypadButtons "undefined") acc
        end.
Proof.
  induction dds as [|d0 r IH]; intros i acc L F m d N; [destruct m; discriminate|].
  simpl in L. inversion F as [|? ? [_ F0] Fr]; subst. simpl.
  destruct m as [|m']; simpl in N.
  - inversion N; subst d0. rewrite Nat.add_0_r.
    rewrite savedButtons_other.
    + destruct (mappedName_valid props d F0) as [(j & p & S & P & M)|[S M]];
        rewrite M; unfold mappedName in M; rewrite S in *.
      * assert (j < List.length props) by (apply nth_error_Some; congruence).
        replace ((0 <? Datatypes.S j) && (Datatypes.S j <=? List.length props))
          with true by (symmetry; apply andb_true_iff; split;
                        [apply Nat.ltb_lt|apply Nat.leb_le]; lia).
        replace (Datatypes.S j - 1) with j by lia. rewrite P.
        apply assoc_assocSet.
      * reflexivity.
    + intros k K. apply keypadButton_distinct; lia.
  - assert (m' < List.length r) by (apply nth_error_Some; congruence).
    replace (i + S m') with (S i + m') by lia.
    rewrite (IH (S i) _ ltac:(lia) Fr m' d N).
    destruct (mappedName props d); [reflexivity|].
    destruct (_ && _); [|reflexivity].
    destruct (nth_error props _); [|reflexivity].
    apply assoc_assocSet. apply keypadButton_distinct; lia.
Qed.

Lemma findProperty_nodup (props : list PropInfo) (j : nat) (p : PropInfo) :
  NoDup (map pi_name props) ->
  nth_error props j = Some p ->
  findProperty (JStr (pi_name p)) props 0 = Some (S j).
Proof.
  intros D N.
  destruct (findProperty (JStr (pi_name p)) props 0) as [s|] eqn:F.
  - destruct (findProperty_found _ _ _ _ F) as (i & q & -> & Q & M & _).
    simpl. do 2 f_equal.
    apply (proj1 (NoDup_nth (map pi_name props) "") D).
    + rewrite length_map. apply nth_error_Some. congruence.
    + rewrite length_map. apply nth_error_Some. congruence.
    + rewrite (nth_error_nth _ _ _ (map_nth_error pi_name _ _ Q)).
      rewrite (nth_error_nth _ _ _ (map_nth_error pi_name _ _ N)). exact M.
  - exfalso. apply (findProperty_missing _ _ _ F p (nth_error_In _ _ N)). reflexivity.
Qed.

Lemma select_same (d d0 : Dropdown) (s : nat) :
  dd_items d0 = dd_items d -> dd_selection d = Some s ->
  s < List.length (dd_items d) -> DD.select s d0 = d.
Proof.
  intros I S B. unfold DD.select. rewrite I.
  replace (s <? List.length (dd_items d)) with true by (symmetry; apply Nat.ltb_lt; exact B).
  destruct d. simpl in *. congruence.
Qed.

(** Loading puts back what was saved. *)
Lemma applyMappings_restore (effectName : string) (props : list PropInfo)
      (bs : list (string * jsval)) :
  NoDup (map pi_name props) ->
  Forall (fun p => pi_name p <> "") props ->
  forall (l0 l : list Dropdown) (i : nat),
    map dd_items l0 = map dd_items l ->
    Forall (keypadListed props) l ->
    (forall m d, nth_error l m = Some d ->
                 JS.assoc (nth (i + m) keypadButtons "undefined") bs = mappedName props d) ->
    applyMappings (JObj [("effectName", JStr effectName); ("buttons", JObj bs)])
                  props i l0 = l.
Proof.
  intros D NE. induction l0 as [|d0 r0 IH]; intros l i I F A.
  - destruct l; [reflexivity|discriminate].
  - destruct l as [|d r]; [discriminate|]. simpl in I. inversion I as [[I0 Ir]].
    inversion F as [|? ? [It Fd] Fr]; subst. cbn [applyMappings]. f_equal.
    + pose proof (A 0 d eq_refl) as A0. rewrite Nat.add_0_r in A0.
      assert (L : List.length (dd_items d) = S (List.length props))
        by (rewrite It; simpl; rewrite length_map; reflexivity).
      unfold applyMapping.
      change (JS.get (JObj [("effectName", JStr effectName); ("buttons", JObj bs)]) "buttons")
        with (Some (JObj bs)).
      change (JS.truthy (JObj bs)) with true. cbv iota.
      unfold JS.get. rewrite A0.
      destruct (mappedName_valid props d Fd) as [(j & p & S & P & M)|[S M]]; rewrite M.
      * assert (T : JS.truthy (JStr (pi_name p)) = true).
        { simpl. apply negb_true_iff. apply String.eqb_neq.
          rewrite Forall_forall in NE. apply NE. exact (nth_error_In _ _ P). }
        rewrite T, (findProperty_nodup props j p D P).
        apply select_same; [exact I0|exact S|].
        assert (j < List.length props) by (apply nth_error_Some; congruence). lia.
      * change (JS.truthy JUndefined) with false. cbv iota. apply select_same; [exact I0|exact S|lia].
    + apply IH; [exact Ir|exact Fr|].
      intros m d' N. replace (S i + m) with (i + S m) by lia. apply A. exact N.
Qed.

Lemma saved_lookup (w : World) :
  List.length (keypadDropdowns (ui w)) <= 9 ->
  Forall (keypadListed (currentProperties (vars w))) (keypadDropdowns (ui w)) ->
  forall m d,
    nth_error (keypadDropdowns (ui w)) m = Some d ->
    JS.assoc (nth (0 + m) keypadButtons "undefined")
             (Controls.savedButtons (currentProperties (vars w)) 0
                                    (keypadDropdowns (ui w)) [])
    = mappedName (currentProperties (vars w)) d.
Proof.
  intros L F m d N.
  rewrite (savedButtons_at _ _ 0 [] L F m d N).
  destruct (mappedName _ d); reflexivity.
Qed.

Lemma autoLoadMappings_applies (fs : FileSystem) (w : World) (idx : nat)
      (ei : EffectInfo) (m : jsval) :
  dd_selection (effectDropdown (ui w)) = Some idx ->
  nth_error (currentEffects (vars w)) idx = Some ei ->
  JS.truthy m = true ->
  (cacheGet (ei_name ei) (mappingsCache (vars w)) = m \/
   (JS.truthy (cacheGet (ei_name ei) (mappingsCache (vars w))) = false /\
    exists content,
      fs (MAPPINGS_FOLDER ++ "/" ++ getEffectFileName (ei_name ei)) = Some content /\
      JSON_parse content = Some m)) ->
  keypadDropdowns (ui (autoLoadMappings fs w))
  = applyMappings m (currentProperties (vars w)) 0 (keypadDropdowns (ui w)).
Proof.
  intros S N T C.
  destruct (selected_effect w idx ei S N) as [G I].
  unfold Panel.autoLoadMappings. cbv zeta.
  replace (effectDropdown (ui (Upd.on_vars (Upd.set_isLoadingMappings true) w)))
    with (effectDropdown (ui w)) by (destruct w; reflexivity).
  replace (currentEffects (vars (Upd.on_vars (Upd.set_isLoadingMappings true) w)))
    with (currentEffects (vars w)) by (destruct w as [h v u]; destruct v; reflexivity).
  replace (mappingsCache (vars (Upd.on_vars (Upd.set_isLoadingMappings true) w)))
    with (mappingsCache (vars w)) by (destruct w as [h v u]; destruct v; reflexivity).
  rewrite G, I, N.
  destruct C as [C|(C & content & F & P)].
  - rewrite C, T. simpl negb. cbv iota.
    destruct w as [h v u]; destruct v; destruct u; reflexivity.
  - rewrite C, F, P, T. simpl negb. cbv iota.
    destruct w as [h v u]; destruct v; destruct u; reflexivity.
Qed.

(** X22. What [autoSaveMappings] saves, [autoLoadMappings] puts
    back.  Take a state where an effect is selected, the (at most
    nine) keypad dropdowns list the properties held and these have
    distinct names, none empty; save it; later, with the same effect
    and properties listed and the keypad dropdowns on any selection,
    load.  In the same session (the cache is the one the save left)
    the keypad dropdowns are again exactly those of the saved state,
    whatever the files hold and whether or not the file could be
    written.  In a session whose cache has nothing for the effect,
    the same holds when the file could be written and [JSON.parse]
    gives back what [JSON.stringify] was given. *)
Theorem saved_mappings_are_restored :
  forall (fs : FileSystem) (w w0 : World) (idx : nat) (ei : EffectInfo),
    isLoadingMappings (vars w) = false ->
    dd_selection (effectDropdown (ui w)) = Some idx ->
    nth_error (currentEffects (vars w)) idx = Some ei ->
    List.length (keypadDropdowns (ui w)) <= 9 ->
    Forall (keypadListed (currentProperties (vars w))) (keypadDropdowns (ui w)) ->
    NoDup (map pi_name (currentProperties (vars w))) ->
    Forall (fun p => pi_name p <> "") (currentProperties (vars w)) ->
    effectDropdown (ui w0) = effectDropdown (ui w) ->
    currentEffects (vars w0) = currentEffects (vars w) ->
    currentProperties (vars w0) = currentProperties (vars w) ->
    map dd_items (keypadDropdowns (ui w0)) = map dd_items (keypadDropdowns (ui w)) ->
    let path := MAPPINGS_FOLDER ++ "/" ++ getEffectFileName (ei_name ei) in
    let saved := Controls.mappingsOf (ei_name ei) w in
    (forall fs0 : FileSystem,
        mappingsCache (vars w0) = mappingsCache (vars (snd (autoSaveMappings fs w))) ->
        keypadDropdowns (ui (autoLoadMappings fs0 w0)) = keypadDropdowns (ui w)) /\
    (JS.truthy (cacheGet (ei_name ei) (mappingsCache (vars w0))) = false ->
     canWrite path = true ->
     JSON_parse (JSON_stringify saved) = Some saved ->
     keypadDropdowns (ui (autoLoadMappings (fst (autoSaveMappings fs w)) w0))
     = keypadDropdowns (ui w)).
Proof.
  intros fs w w0 idx ei LM S N L F D NE E0 CE CP IT path saved.
  destruct (selected_effect w idx ei S N) as [G I].
  assert (SV : autoSaveMappings fs w
               = (Controls.save canWrite path (JSON_stringify saved) fs,
                  Upd.on_vars (fun v => Upd.set_mappingsCache
                                 (assocSet (ei_name ei) saved (mappingsCache v)) v) w)).
  { unfold Controls.autoSaveMappings. rewrite LM, G, I, N. reflexivity. }
  assert (R : applyMappings saved (currentProperties (vars w0)) 0 (keypadDropdowns (ui w0))
              = keypadDropdowns (ui w)).
  { rewrite CP. unfold saved, Controls.mappingsOf.
    apply applyMappings_restore; auto. apply saved_lookup; assumption. }
  assert (S0 : dd_selection (effectDropdown (ui w0)) = Some idx) by (rewrite E0; exact S).
  assert (N0 : nth_error (currentEffects (vars w0)) idx = Some ei) by (rewrite CE; exact N).
  split.
  - intros fs0 C. rewrite <- R.
    apply (autoLoadMappings_applies fs0 w0 idx ei saved S0 N0 eq_refl).
    left. rewrite C, SV. unfold cacheGet.
    destruct w as [h v u];
      destruct v as [ia ld lsd lln ce cp0 lbt mc lm lrp lrb vd lpt lvp]. cbn.
    destruct (assoc_assocSet (ei_name ei) saved mc) as [-> _]. reflexivity.
  - intros C W P. rewrite <- R.
    apply (autoLoadMappings_applies _ w0 idx ei saved S0 N0 eq_refl).
    right. split; [exact C|]. exists (JSON_stringify saved). split; [|exact P].
    rewrite SV. unfold fst, Controls.save. fold path. rewrite W.
    unfold writeFile. rewrite String.eqb_refl. reflexivity.
Qed.

(** *** Reset, Start and Stop *)

Lemma applyDials_no_baselines (propInfo : PropInfo) (px py : jsval) (w : World) :
  lastDialValue (vars w) = None ->
  lastSmallDialValue (vars w) = None ->
  host (applyDials propInfo px py w) = host w.
Proof.
  intros L S. unfold Panel.applyDials. destruct px as [| | |x| | |]; try reflexivity.
  destruct (negb (Num.isFinite x)); [reflexivity|].
  destruct (_ && _); [reflexivity|].
  rewrite L, S. unfold deltaFrom.
  change (limitDelta Num.n200 Num.zero) with Num.zero.
  change (Num.eqb Num.zero Num.zero) with true.
  change (negb true) with false. cbv iota zeta.
  destruct w; reflexivity.
Qed.

Lemma updateProperty_no_baselines (fs : FileSystem) (w : World) :
  lastDialValue (vars w) = None ->
  lastSmallDialValue (vars w) = None ->
  host (updateProperty fs w) = host w.
Proof.
  intros L S.
  destruct (updateProperty_inv fs w)
    as [->|(propInfo & w1 & px & py & H1 & S1 & D & _ & _ & ->)]; [reflexivity|].
  rewrite applyDials_no_baselines; [exact H1| |congruence].
  destruct D as [D|D]; congruence.
Qed.

(** X23. Reset Dial drops the baselines of both dials.  It changes
    nothing in the application, and neither does the tick that
    follows it, whatever the position file holds by then.  Of the
    files it replaces the position file alone, by an object with [x]
    and [y] at 0, when that file can be opened for writing;
    otherwise no file changes and the baselines are dropped all the
    same. *)
Theorem reset_rebases_both_dials :
  forall (fs fs' : FileSystem) (w : World),
    lastDialValue (vars (snd (resetDial fs w))) = None /\
    lastSmallDialValue (vars (snd (resetDial fs w))) = None /\
    host (snd (resetDial fs w)) = host w /\
    host (updateProperty fs' (snd (resetDial fs w))) = host w /\
    (forall p : string,
        fst (resetDial fs w) p
        = if canWrite POSITION_FILE && String.eqb p POSITION_FILE
          then Some zeroPositionText else fs p).
Proof.
  intros fs fs' w.
  split; [destruct w as [h v u]; destruct v; reflexivity|].
  split; [destruct w as [h v u]; destruct v; reflexivity|].
  split; [destruct w; reflexivity|]. split.
  - unfold Controls.resetDial. cbv zeta. unfold snd.
    rewrite updateProperty_no_baselines;
      destruct w as [h v u]; destruct v; reflexivity.
  - intros p. unfold Controls.resetDial, Controls.save, writeFile. cbv zeta. unfold fst.
    destruct (canWrite POSITION_FILE); reflexivity.
Qed.

Lemma inactive_tick (fs : FileSystem) (w : World) :
  isActive (vars w) = false -> logiReceiverUpdate fs w = (beat w, None).
Proof.
  intros A. unfold Panel.logiReceiverUpdate, tick. cbv zeta.
  replace (isActive (vars (beat w))) with false
    by (rewrite <- A; destruct w; reflexivity).
  reflexivity.
Qed.

Lemma inactive_schedule (files : list FileSystem) :
  forall w : World,
    isActive (vars w) = false ->
    (exists hb, fst (schedule logiReceiverUpdate files w)
                = Upd.on_ui (Upd.set_heartbeatText hb) w) /\
    snd (schedule logiReceiverUpdate files w) = List.length files.
Proof.
  induction files as [|fs r IH]; intros w A; simpl.
  - split; [|reflexivity]. exists (heartbeatText (ui w)).
    destruct w as [h v u]; destruct u; reflexivity.
  - rewrite (inactive_tick fs w A).
    destruct (IH (beat w)) as [[hb E] N]; [rewrite <- A; destruct w; reflexivity|].
    destruct (schedule logiReceiverUpdate r (beat w)) as [w2 n]. simpl in *.
    split; [|congruence]. exists hb. rewrite E.
    destruct w as [h v u]; destruct u; reflexivity.
Qed.

(** X24. After Stop the tick is harmless: however often the task
    still runs and whatever the files hold, every run completes and
    the state differs from the one Stop left, in which the
    application is as it was before Stop, by the heartbeat text at
    most. *)
Theorem stopped_ticks_only_beat :
  forall (sw : Shell * World) (files : list FileSystem),
    host (snd (Controls.stopPolling sw)) = host (snd sw) /\
    (exists hb,
        fst (schedule logiReceiverUpdate files (snd (Controls.stopPolling sw)))
        = Upd.on_ui (Upd.set_heartbeatText hb) (snd (Controls.stopPolling sw))) /\
    snd (schedule logiReceiverUpdate files (snd (Controls.stopPolling sw)))
    = List.length files.
Proof.
  intros [s w] files. split; [destruct w; reflexivity|].
  apply inactive_schedule. destruct w as [h v u]; destruct v; reflexivity.
Qed.

Lemma cancel_only (id : nat) : Controls.cancel id [id] = [].
Proof. simpl. rewrite Nat.eqb_refl. reflexivity. Qed.

(** X25. Start and Stop keep at most one task.  As long as
    [app.scheduleTask] returns ids other than 0, the ids scheduled
    and not cancelled are the one registered globally and no other:
    this holds at first and after every Start and Stop.  A Start
    while an id is registered schedules nothing and keeps that id;
    after a Stop nothing is scheduled and no id counts as
    registered. *)
Theorem polling_task_is_never_doubled :
  oneTask initialShell /\
  (forall (batExists : bool) (id : nat) (fs : FileSystem) (sw : Shell * World),
      id <> 0 ->
      oneTask (fst sw) ->
      oneTask (fst (startPolling batExists id fs sw)) /\
      (Controls.idSet (taskId (fst sw)) = true ->
       scheduled (fst (startPolling batExists id fs sw)) = scheduled (fst sw) /\
       taskId (fst (startPolling batExists id fs sw)) = taskId (fst sw)) /\
      (Controls.idSet (taskId (fst sw)) = false ->
       taskId (fst (startPolling batExists id fs sw)) = Some id)) /\
  (forall sw : Shell * World,
      oneTask (fst sw) ->
      oneTask (fst (Controls.stopPolling sw)) /\
      scheduled (fst (Controls.stopPolling sw)) = [] /\
      Controls.idSet (taskId (fst (Controls.stopPolling sw))) = false).
Proof.
  split; [reflexivity|]. split.
  - intros batExists id fs [s w] N O. unfold oneTask in *. simpl fst in *.
    destruct s as [se pe [[|n]|] sc al la]; simpl in O; subst sc;
      destruct batExists; (destruct id as [|i]; [congruence|]);
      simpl; (split; [reflexivity|split; [intros Q|intros Q]]);
      try discriminate Q; auto.
  - intros [s w] O. unfold oneTask in *. simpl fst in *.
    destruct s as [se pe [[|n]|] sc al la]; simpl in O; subst sc; simpl;
      rewrite ?Nat.eqb_refl; auto.
Qed.

Lemma populateEffects_baseline (fs : FileSystem) (w : World) :
  lastDialValue (vars (populateEffects fs w)) = lastDialValue (vars w).
Proof.
  destruct (populateEffects_shape fs w) as (ce & cp & lm & mc & u & ->).
  destruct w as [h v u0]; destruct v; reflexivity.
Qed.

Lemma startPolling_world (batExists : bool) (id : nat) (fs : FileSystem)
      (sw : Shell * World) :
  exists status,
    snd (startPolling batExists id fs sw)
    = setStatus status
        (populateEffects fs
           (Upd.on_vars (Upd.set_lastLayerName "")
              (Upd.on_vars (Upd.set_lastDialValue None)
                 (Upd.on_vars (Upd.set_isActive true) (snd sw))))).
Proof.
  destruct sw as [s w]. unfold Controls.startPolling. cbv zeta.
  destruct batExists; simpl taskId; destruct (Controls.idSet (taskId s));
    eexists; simpl snd; unfold Panel.setStatus;
    match goal with |- context [Panel.populateEffects _ _ fs ?w0] =>
      destruct (Panel.populateEffects JSON_parse valueAtTime fs w0) as [h1 v1 u1] end;
    destruct u1; reflexivity.
Qed.

(** X26. Every handler that changes what the big dial drives drops
    its baseline: after Start, after a change of the effect dropdown
    and after a change of the property dropdown, the tick that
    follows writes no property value, whatever the position file
    holds; the distance the dial was turned before is never applied
    to the new target.  None of the three changes the application
    itself. *)
Theorem handlers_drop_the_baseline :
  (forall (batExists : bool) (id : nat) (fs fs' : FileSystem) (sw : Shell * World),
      host (snd (startPolling batExists id fs sw)) = host (snd sw) /\
      isActive (vars (snd (startPolling batExists id fs sw))) = true /\
      properties (host (updateProperty fs' (snd (startPolling batExists id fs sw))))
      = properties (host (snd sw))) /\
  (forall (fs fs' : FileSystem) (w : World),
      host (Controls.effectChanged JSON_parse valueAtTime fs w) = host w /\
      properties (host (updateProperty fs' (Controls.effectChanged JSON_parse valueAtTime fs w)))
      = properties (host w)) /\
  (forall (fs' : FileSystem) (w : World),
      host (Controls.propertyChanged w) = host w /\
      properties (host (updateProperty fs' (Controls.propertyChanged w)))
      = properties (host w)).
Proof.
  split; [|split].
  - intros batExists id fs fs' sw.
    destruct (startPolling_world batExists id fs sw) as [status E].
    set (w0 := Upd.on_vars (Upd.set_lastLayerName "") _) in E.
    assert (H : host (snd (startPolling batExists id fs sw)) = host (snd sw)).
    { rewrite E. unfold Panel.setStatus.
      replace (host (Upd.on_ui (Upd.set_statusText status) (populateEffects fs w0)))
        with (host (populateEffects fs w0)) by (destruct (populateEffects fs w0); reflexivity).
      rewrite host_populateEffects. unfold w0. destruct (snd sw); reflexivity. }
    split; [exact H|]. split.
    + rewrite E. destruct (populateEffects_shape fs w0) as (ce & cp & lm & mc & u & ->).
      unfold w0. destruct (snd sw) as [h v u0]; destruct v; reflexivity.
    + rewrite updateProperty_no_baseline; [rewrite H; reflexivity|].
      rewrite E. unfold Panel.setStatus.
      replace (vars (Upd.on_ui (Upd.set_statusText status) (populateEffects fs w0)))
        with (vars (populateEffects fs w0)) by (destruct (populateEffects fs w0); reflexivity).
      rewrite populateEffects_baseline. unfold w0.
      destruct (snd sw) as [h v u0]; destruct v; reflexivity.
  - intros fs fs' w.
    assert (E : exists mc cp u,
               Controls.effectChanged JSON_parse valueAtTime fs w
               = mkWorld (host w)
                   (Upd.set_lastDialValue None
                      (Upd.set_isLoadingMappings false
                         (Upd.set_mappingsCache mc
                            (Upd.set_currentProperties cp (vars w))))) u).
    { unfold Controls.effectChanged. cbv zeta.
      destruct (populateProperties_shape w) as (cp & u1 & -> & _ & _).
      match goal with |- context [updateKeypadDropdowns ?w0] =>
        destruct (updateKeypadDropdowns_shape w0) as (u2 & -> & _ & _) end.
      match goal with |- context [Panel.autoLoadMappings _ fs ?w0] =>
        destruct (autoLoadMappings_shape fs w0) as (mc & u3 & -> & _ & _) end.
      exists mc, cp, u3. destruct w as [h v u]; destruct v; reflexivity. }
    destruct E as (mc & cp & u & ->). split; [reflexivity|].
    rewrite updateProperty_no_baseline; [reflexivity|].
    destruct w as [h v u0]; destruct v; reflexivity.
  - intros fs' w. split; [destruct w; reflexivity|].
    rewrite updateProperty_no_baseline; destruct w as [h v u]; destruct v; reflexivity.
Qed.

End Handlers.

End Facts.

(** ** The statements on the concrete environment *)

Ltac demo_steady :=
  split; [reflexivity|];
  split; [do 3 eexists; split; [vm_compute; reflexivity|];
          split; [vm_compute; reflexivity|vm_compute; reflexivity]|];
  split; [eexists; split; [vm_compute; reflexivity|vm_compute; lia]|];
  vm_compute; reflexivity.

(** A jump of the dial from 10 to 900 leaves every property as it is. *)
Lemma glitch_sample_applies_nothing_witness :
  properties (host (Demo.dials (Demo.dialAt "{x:900,y:0}") Demo.dialed))
  = properties (host Demo.dialed).
Proof.
  apply (proj1 (glitch_sample_applies_nothing Demo.JSON_parse Demo.parseFloat Demo.toFixed
                  Demo.toStr Demo.valueAtTime Demo.faultMessage Demo.fallbackCandidates)
               (Demo.dialAt "{x:900,y:0}") Demo.dialed (Num.ofZ 10) (Num.ofZ 900));
    vm_compute; reflexivity.
Defined.

(** The dial at 10, then at 15, with the sensitivity 0.1: Opacity goes
    from 50 to 50.5. *)
Lemma delta_is_difference_of_samples_witness :
  properties (host (Demo.dials (Demo.dialAt "{x:15,y:0}") Demo.dialed))
  = [AE.set_p_static (JNum (Num.dec 505 10)) Demo.opacity; Demo.color].
Proof.
  destruct (delta_is_difference_of_samples Demo.JSON_parse Demo.parseFloat Demo.toFixed
              Demo.toStr Demo.valueAtTime Demo.faultMessage Demo.fallbackCandidates)
    as [OnPanel _].
  destruct (OnPanel (Demo.dialAt "{x:15,y:0}") Demo.dialed Demo.opacityInfo Demo.opacity
                    (Num.ofZ 15) (Num.ofZ 50)) as [_ Next];
    [demo_steady|vm_compute; reflexivity..|].
  destruct (Next (Num.ofZ 10)) as [E _]; [vm_compute; reflexivity..|].
  refine (eq_trans E _). vm_compute. reflexivity.
Defined.

(** With no file anywhere the position read gives the cached position
    and the button read gives null. *)
Lemma failed_read_falls_back_witness :
  fst (Demo.readPosition Demo.noFiles (vars Demo.dialed))
  = lastValidPosition (vars Demo.dialed) /\
  fst (Demo.readButton Demo.noFiles (vars Demo.dialed)) = JNull.
Proof.
  apply (proj2 (proj2 (failed_read_falls_back Demo.JSON_parse Demo.fallbackCandidates))
               Demo.noFiles (vars Demo.dialed)).
  intros p. reflexivity.
Defined.

(** After a button file has been read, a read that finds no file gives
    null, not the record read before. *)
Lemma failed_button_read_returns_null :
  let fs := Demo.event "{button:'TOP RIGHT',pressed:true,timestamp:1000}" in
  let v := snd (Demo.readButton fs (vars Demo.started)) in
  fst (Demo.readButton fs (vars Demo.started)) = Demo.button "TOP RIGHT" 1000 /\
  Forall (fun p => buttonUsable Demo.JSON_parse Demo.noFiles p = false)
         (buttonPaths Demo.fallbackCandidates) /\
  fst (Demo.readButton Demo.noFiles v) = JNull /\
  fst (Demo.readButton Demo.noFiles v) <> fst (Demo.readButton fs (vars Demo.started)).
Proof.
  split; [vm_compute; reflexivity|].
  split; [repeat constructor|].
  split; [vm_compute; reflexivity|].
  vm_compute. discriminate.
Qed.

(** The same TOP RIGHT record read twice: the second read changes
    nothing but what polling writes. *)
Lemma duplicate_timestamp_is_no_event_witness :
  let fs := Demo.event "{button:'TOP RIGHT',pressed:true,timestamp:1000}" in
  let w1 := fst (Demo.buttons fs Demo.dialed) in
  Demo.buttons fs w1 = (snd (Demo.poll fs w1), None).
Proof.
  apply (duplicate_timestamp_is_no_event Demo.JSON_parse Demo.toFixed Demo.valueAtTime
           Demo.faultMessage Demo.looseLe Demo.fallbackCandidates
           (Demo.event "{button:'TOP RIGHT',pressed:true,timestamp:1000}")
           (Demo.event "{button:'TOP RIGHT',pressed:true,timestamp:1000}")
           Demo.dialed (JStr "TOP RIGHT") (Num.ofZ 1000));
    vm_compute; reflexivity.
Defined.

(** TOP RIGHT on the first of three effects selects the second. *)
Lemma navigation_wraps_cyclically_witness :
  dd_selection
    (effectDropdown
       (ui (fst (Demo.buttons
                   (Demo.event "{button:'TOP RIGHT',pressed:true,timestamp:1000}")
                   Demo.dialed))))
  = Some ((0 + 1) mod 3).
Proof.
  destruct (navigation_wraps_cyclically Demo.JSON_parse Demo.toFixed Demo.valueAtTime
              Demo.faultMessage Demo.looseLe Demo.fallbackCandidates
              (Demo.event "{button:'TOP RIGHT',pressed:true,timestamp:1000}")
              Demo.dialed (JStr "TOP RIGHT") (JNum (Num.ofZ 1000)) (JBool true))
    as [Effects _]; [vm_compute; reflexivity..|].
  destruct (Effects 0 3) as [Next _]; [vm_compute; reflexivity| vm_compute; reflexivity
                                      | lia | vm_compute; reflexivity |].
  destruct (Next eq_refl) as [E _]. exact E.
Defined.

(** Two presses of keypad 8 on Opacity without keyframes: a keyframe is
    set, then removed. *)
Lemma toggle_twice_restores_presence_witness :
  keyframeAtPlayhead (Demo.press Demo.noFiles (Demo.press Demo.noFiles Demo.dialed)) 0
  = keyframeAtPlayhead Demo.dialed 0.
Proof.
  destruct (toggle_twice_restores_presence Demo.JSON_parse Demo.toFixed Demo.valueAtTime
              Demo.faultMessage Demo.noFiles Demo.dialed Demo.opacityInfo Demo.scene
              Demo.opacity) as (_ & Restored & _);
    [vm_compute; reflexivity | vm_compute; reflexivity | vm_compute; reflexivity
     | vm_compute; reflexivity | constructor |].
  apply Restored. vm_compute. lia.
Defined.

(** With two keyframes half a millisecond apart and the playhead on the
    first, two presses remove both: a keyframe was present, none is. *)
Lemma toggle_twice_loses_presence :
  keysNear (Num.ofZ 1) (p_keys Demo.keyedOpacity) = 2 /\
  keyframeAtPlayhead Demo.keyed 0 = Some true /\
  keyframeAtPlayhead (Demo.press Demo.noFiles (Demo.press Demo.noFiles Demo.keyed)) 0
  = Some false /\
  keyframeAtPlayhead (Demo.press Demo.noFiles (Demo.press Demo.noFiles Demo.keyed)) 0
  <> keyframeAtPlayhead Demo.keyed 0.
Proof.
  repeat split; try (vm_compute; reflexivity). vm_compute. discriminate.
Qed.

(** Color at 0.95, the dial from 10 to 20 with the sensitivity 1: the
    first component becomes 1. *)
Lemma color_component_scaled_and_clamped_witness :
  properties (host (Demo.dials (Demo.dialAt "{x:20,y:0}") (Demo.onColor Demo.dialed)))
  = [Demo.opacity;
     AE.set_p_static
       (JArr [JNum Num.one; JNum (Num.dec 1 2); JNum (Num.dec 1 4); JNum Num.one])
       Demo.color].
Proof.
  destruct (color_component_scaled_and_clamped Demo.JSON_parse Demo.parseFloat Demo.toFixed
              Demo.toStr Demo.valueAtTime Demo.faultMessage Demo.fallbackCandidates)
    as [OnPanel _].
  destruct (OnPanel (Demo.dialAt "{x:20,y:0}") (Demo.onColor Demo.dialed) Demo.colorInfo
                    Demo.color (Num.ofZ 20) (Num.ofZ 10) (Num.dec 95 100)
                    [JNum (Num.dec 1 2); JNum (Num.dec 1 4); JNum Num.one]) as [E _];
    [demo_steady|vm_compute; reflexivity..|].
  refine (eq_trans E _). vm_compute. reflexivity.
Defined.

(** A button step that raises: the tick returns, and the status line
    carries the message. *)
Lemma tick_failures_are_contained_witness :
  fst (tick Demo.faultMessage (fun w => (w, Some TypeError)) (fun w => (w, None))
            Demo.started)
  = setStatus "Scheduler error: undefined is not an object" (beat Demo.started).
Proof.
  apply (proj1 (proj2 (tick_failures_are_contained Demo.JSON_parse Demo.parseFloat
                         Demo.toFixed Demo.valueAtTime Demo.faultMessage Demo.looseLe
                         Demo.fallbackCandidates))
               (fun w => (w, Some TypeError)) (fun w => (w, None)) Demo.started
               (beat Demo.started) TypeError);
    reflexivity.
Defined.

(** A first record with the marker 0 is not processed. *)
Lemma zero_marker_is_never_processed_witness :
  let fs := Demo.event "{button:'TOP RIGHT',pressed:true,timestamp:0}" in
  Demo.buttons fs Demo.started = (snd (Demo.poll fs Demo.started), None).
Proof.
  destruct (zero_marker_is_never_processed Demo.JSON_parse Demo.toFixed Demo.valueAtTime
              Demo.faultMessage Demo.looseLe Demo.fallbackCandidates
              (Demo.event "{button:'TOP RIGHT',pressed:true,timestamp:0}")
              Demo.started (JNum (Num.ofZ 0)) Num.zero) as [Zero _];
    [vm_compute; reflexivity..|].
  destruct (Zero eq_refl) as [E _]. exact E.
Defined.

(** The big dial jumps from 10 to 900: 900 is the baseline of the next
    tick.  The small dial jumps from 0 to 700: 700 is its baseline. *)
Lemma rejected_sample_becomes_baseline_witness :
  lastDialValue (vars (Demo.dials (Demo.dialAt "{x:900,y:0}") Demo.dialed))
  = Some (Num.ofZ 900) /\
  lastSmallDialValue (vars (Demo.dials (Demo.dialAt "{x:15,y:700}") Demo.dialed))
  = Some (Num.ofZ 700).
Proof.
  destruct (rejected_sample_becomes_baseline Demo.JSON_parse Demo.parseFloat Demo.toFixed
              Demo.toStr Demo.valueAtTime Demo.faultMessage Demo.fallbackCandidates)
    as (Big & Small & _).
  split.
  - destruct (Big (Demo.dialAt "{x:900,y:0}") Demo.dialed Demo.opacityInfo
                  (Num.ofZ 900) (Num.ofZ 10)) as [E _];
      [demo_steady|vm_compute; reflexivity..|].
    exact E.
  - destruct (Small (Demo.dialAt "{x:15,y:700}") Demo.dialed Demo.opacityInfo
                    (Num.ofZ 15) (Num.ofZ 700) Num.zero) as [E _];
      [demo_steady|vm_compute; reflexivity..|].
    exact E.
Defined.

(** A corrupted position file: the read gives the position read
    before, with its finite numbers. *)
Lemma position_read_keeps_finite_numbers_witness :
  validPosition
    (lastValidPosition
       (snd (Demo.readPosition (Demo.dialAt "{x:15,") (vars Demo.dialed)))) = true.
Proof.
  apply (proj1 (position_read_keeps_finite_numbers Demo.JSON_parse Demo.fallbackCandidates)
               (Demo.dialAt "{x:15,") (vars Demo.dialed)).
  vm_compute. reflexivity.
Defined.

(** A fresh position file is parsed and returned. *)
Lemma position_file_is_read_once_per_stamp_witness :
  fst (Demo.readPosition (Demo.dialAt "{x:15,y:0}") (vars Demo.dialed))
  = Demo.position 15 0.
Proof.
  destruct (position_file_is_read_once_per_stamp Demo.JSON_parse Demo.fallbackCandidates
              (Demo.dialAt "{x:15,y:0}") (vars Demo.dialed) "{x:15,y:0}"
              (Demo.position 15 0)) as [Fresh _]; [vm_compute; reflexivity..|].
  destruct Fresh as [E _]; [vm_compute; reflexivity|exact E].
Defined.

(** With a usable primary file, files elsewhere make no difference. *)
Lemma primary_position_path_comes_first_witness :
  Demo.readPosition (Demo.dialAt "{x:15,y:0}") (vars Demo.dialed)
  = Demo.readPosition (Demo.everywhere "{x:15,y:0}") (vars Demo.dialed).
Proof.
  apply (primary_position_path_comes_first Demo.JSON_parse Demo.fallbackCandidates
           (Demo.dialAt "{x:15,y:0}") (Demo.everywhere "{x:15,y:0}") (vars Demo.dialed)
           "{x:15,y:0}" (Demo.position 15 0));
    vm_compute; reflexivity.
Defined.

(** With no file anywhere the button read reports the file missing. *)
Lemma button_read_touches_only_the_raw_content_witness :
  fst (Demo.readButton Demo.noFiles (vars Demo.dialed)) = JNull /\
  lastRawButtonContent (snd (Demo.readButton Demo.noFiles (vars Demo.dialed)))
  = "(missing)".
Proof.
  apply (proj1 (proj2 (button_read_touches_only_the_raw_content
                         Demo.JSON_parse Demo.fallbackCandidates))
               Demo.noFiles (vars Demo.dialed)).
  intros p. reflexivity.
Defined.

(** A name of letters and digits is its own file name. *)
Lemma mapping_file_name_is_safe_witness : sanitize "Glow2" = "Glow2".
Proof.
  destruct (mapping_file_name_is_safe "Glow2") as (_ & _ & _ & _ & Same & _).
  apply Same. vm_compute. reflexivity.
Defined.

(** "Glow 2" and "Glow-2" get the same file. *)
Lemma mapping_file_names_collide_witness :
  getEffectFileName "Glow 2" = getEffectFileName "Glow-2" /\
  ("Glow 2" <> "Glow-2").
Proof.
  destruct (mapping_file_names_collide "Glow" "2" " " "-") as [E N];
    [vm_compute; reflexivity..|].
  split; [exact E|]. apply N. discriminate.
Defined.

(** A braced text is left as it is. *)
Lemma trim_strips_both_ends_witness : Str.trim "{x:10,y:0}" = "{x:10,y:0}".
Proof.
  destruct (trim_strips_both_ends "{x:10,y:0}") as (_ & _ & _ & Same).
  apply Same. vm_compute. reflexivity.
Defined.

(** The effects of the layer A are listed, Glow first, with its two
    properties. *)
Lemma populateEffects_lists_what_it_holds_witness :
  currentEffects (vars Demo.started)
  = getLayerEffects (mkLayer "A" true [Demo.glow; Demo.tint; Demo.blur]).
Proof.
  destruct (populateEffects_lists_what_it_holds Demo.JSON_parse Demo.valueAtTime
              Demo.noFiles
              (Upd.on_vars (Upd.set_isActive true) (initialWorld Demo.app)))
    as (_ & _ & Held).
  destruct (Held Demo.scene 1 (mkLayer "A" true [Demo.glow; Demo.tint; Demo.blur]))
    as [E _]; [vm_compute; reflexivity..|].
  exact E.
Defined.

(** After one tick on a fresh panel that is not active nothing is
    listed; on the started panel a property is selected. *)
Lemma ticks_keep_the_dropdowns_in_step_witness :
  exists p,
    selectedProperty (fst (Demo.update (Demo.dialAt "{x:10,y:0}") Demo.started)) = Some p.
Proof.
  destruct (ticks_keep_the_dropdowns_in_step Demo.JSON_parse Demo.parseFloat Demo.toFixed
              Demo.valueAtTime Demo.faultMessage Demo.looseLe Demo.fallbackCandidates)
    as (_ & _ & Tick & _ & _ & Sel).
  refine (Sel (fst (Demo.update (Demo.dialAt "{x:10,y:0}") Demo.started)) _ _).
  - exact (Tick (Demo.dialAt "{x:10,y:0}") Demo.started
                (populateEffects_listed Demo.JSON_parse Demo.valueAtTime Demo.noFiles
                   (Upd.on_vars (Upd.set_isActive true) (initialWorld Demo.app)))).
  - vm_compute. discriminate.
Defined.

(** A release of TOP RIGHT is acknowledged and nothing else. *)
Lemma release_and_unknown_button_are_only_acknowledged_witness :
  checkButtons Demo.JSON_parse_release Demo.toFixed Demo.valueAtTime Demo.faultMessage
               Demo.looseLe Demo.fallbackCandidates
               (Demo.event "{button:'TOP RIGHT',pressed:false,timestamp:2000}") Demo.dialed
  = (accepted (JNum (Num.ofZ 2000))
              (snd (pollFiles Demo.JSON_parse_release Demo.fallbackCandidates
                              (Demo.event "{button:'TOP RIGHT',pressed:false,timestamp:2000}")
                              Demo.dialed)),
     None).
Proof.
  refine (proj1 (release_and_unknown_button_are_only_acknowledged Demo.JSON_parse_release
           Demo.toFixed Demo.valueAtTime Demo.faultMessage Demo.looseLe
           Demo.fallbackCandidates
           (Demo.event "{button:'TOP RIGHT',pressed:false,timestamp:2000}")
           Demo.dialed (JStr "TOP RIGHT") (JBool false) (Num.ofZ 2000) _ _ _ _ _ _ _ _));
    try (vm_compute; reflexivity).
  left. reflexivity.
Defined.

(** After a press stamped 1000 the last timestamp is a number not
    below 0. *)
Lemma last_button_timestamp_never_decreases_witness :
  exists l',
    lastButtonTimestamp
      (vars (fst (Demo.buttons
                    (Demo.event "{button:'TOP RIGHT',pressed:true,timestamp:1000}")
                    Demo.dialed))) = JNum l' /\
    Num.is_nan l' = false /\ Num.leb Num.zero l' = true.
Proof.
  apply (last_button_timestamp_never_decreases Demo.JSON_parse Demo.toFixed
           Demo.valueAtTime Demo.faultMessage Demo.looseLe Demo.fallbackCandidates
           (Demo.event "{button:'TOP RIGHT',pressed:true,timestamp:1000}")
           Demo.dialed Num.zero); [vm_compute; reflexivity..|].
  intros tsv E. vm_compute in E. inversion E. right. eexists. reflexivity.
Defined.

(** Keypad 9 on the keyframed Opacity writes no property. *)
Lemma keyframe_keys_move_only_the_playhead_witness :
  properties
    (host (dispatchRest Demo.JSON_parse Demo.toFixed Demo.valueAtTime Demo.faultMessage
                        Demo.noFiles (JStr "9") Demo.keyed))
  = properties (host Demo.keyed).
Proof.
  apply (proj1 (keyframe_keys_move_only_the_playhead Demo.JSON_parse Demo.toFixed
                  Demo.valueAtTime Demo.faultMessage Demo.noFiles Demo.keyed (JStr "9")
                  (or_intror eq_refl))).
Defined.

(** With Color on every key, keypad 1 selects Color. *)
Lemma keypad_key_selects_the_mapped_property_witness :
  selectedProperty
    (dispatchRest Demo.JSON_parse Demo.toFixed Demo.valueAtTime Demo.faultMessage
                  Demo.noFiles (JStr "1") Demo.mapped)
  = Some Demo.colorInfo.
Proof.
  destruct (keypad_key_selects_the_mapped_property Demo.JSON_parse Demo.toFixed
              Demo.valueAtTime Demo.faultMessage Demo.noFiles Demo.mapped 0
              (mkDropdown ["(none)"; "Opacity"; "Color"] (Some 2)))
    as [Sel _]; [lia|vm_compute; reflexivity|].
  destruct (Sel 1 Demo.colorInfo) as [E _];
    [vm_compute; reflexivity|vm_compute; reflexivity|vm_compute; lia|].
  exact E.
Defined.

(** With no baseline a tick writes no property. *)
Lemma first_tick_after_a_change_writes_nothing_witness :
  properties (host (Demo.dials (Demo.dialAt "{x:10,y:0}") Demo.started))
  = properties (host Demo.started).
Proof.
  apply (proj1 (first_tick_after_a_change_writes_nothing Demo.JSON_parse Demo.parseFloat
                  Demo.toFixed Demo.valueAtTime Demo.faultMessage Demo.fallbackCandidates)
               (Demo.dialAt "{x:10,y:0}") Demo.started).
  vm_compute. reflexivity.
Defined.

(** A thousand steps of the small dial end inside the composition. *)
Lemma small_dial_keeps_the_playhead_inside_witness :
  exists comp',
    activeItem (host (scrubTimeline Demo.parseFloat (Num.ofZ 1000) Demo.dialed))
    = Some comp' /\
    Num.leb Num.zero (c_time comp') = true /\
    Num.leb (c_time comp')
            (Num.sub (c_duration Demo.scene) (c_frameDuration Demo.scene)) = true /\
    c_layers comp' = c_layers Demo.scene /\
    c_duration comp' = c_duration Demo.scene /\
    c_frameDuration comp' = c_frameDuration Demo.scene.
Proof.
  apply (small_dial_keeps_the_playhead_inside Demo.parseFloat (Num.ofZ 1000) Demo.dialed
           Demo.scene); vm_compute; reflexivity.
Defined.

(** The earlier script on a keyframed Opacity: the dial from 10 to 15
    writes nothing. *)
Lemma earlier_script_refuses_keyframed_properties_witness :
  host (Demo.legacyDials (Demo.dialAt "{x:15,y:0}") Demo.legacyKeyed)
  = host Demo.legacyKeyed.
Proof.
  apply (proj1 (earlier_script_refuses_keyframed_properties Demo.JSON_parse
                  Demo.parseFloat Demo.toFixed Demo.toStr Demo.valueAtTime
                  Demo.faultMessage (Demo.dialAt "{x:15,y:0}") Demo.legacyKeyed
                  Demo.opacityInfo Demo.keyedOpacity (Num.ofZ 15) (Num.ofZ 10)
                  ltac:(demo_steady) ltac:(vm_compute; reflexivity)
                  ltac:(vm_compute; reflexivity) ltac:(vm_compute; reflexivity)
                  ltac:(vm_compute; reflexivity) ltac:(vm_compute; reflexivity)
                  ltac:(vm_compute; reflexivity) ltac:(discriminate)
                  ltac:(vm_compute; reflexivity))).
Defined.

(** Selecting the second of three layers. *)
Lemma selectLayerByIndex_selects_exactly_one_witness :
  getCurrentLayerIndex
    (selectLayerByIndex Demo.JSON_parse Demo.valueAtTime Demo.noFiles 2%Z Demo.dialed)
  = 2%Z.
Proof.
  destruct (selectLayerByIndex_selects_exactly_one Demo.JSON_parse Demo.valueAtTime)
    as (_ & _ & One).
  destruct (One Demo.noFiles Demo.dialed Demo.scene 2) as (comp' & _ & _ & _ & _ & _ & _ & E);
    [vm_compute; reflexivity|vm_compute; lia|].
  exact E.
Defined.

(** A button mapped to Color gets the item of the first property of
    that name, or none. *)
Lemma mapping_selects_the_first_property_of_that_name_witness :
  let props := [Demo.opacityInfo; Demo.colorInfo] in
  let d := mkDropdown ["(none)"; "Opacity"; "Color"] (Some 0) in
  let m := JObj [("buttons", JObj [("1", JStr "Color")])] in
  (exists i p,
      dd_selection (applyMapping m props "1" d) = Some (S i) /\
      nth_error props i = Some p /\ pi_name p = "Color" /\
      (forall i' q, i' < i -> nth_error props i' = Some q -> pi_name q <> "Color")) \/
  (dd_selection (applyMapping m props "1" d) = Some 0 /\
   forall p, In p props -> pi_name p <> "Color").
Proof.
  intros props d m.
  apply (proj1 (mapping_selects_the_first_property_of_that_name
                  m (JObj [("1", JStr "Color")]) props "1" "Color" d
                  eq_refl eq_refl
                  (conj eq_refl (ex_intro _ 0 (conj eq_refl (Nat.lt_0_succ _))))));
    [reflexivity|discriminate].
Defined.

(** With no file anywhere the read gives the cached record, not
    null. *)
Lemma position_read_returns_the_cache_witness :
  JS.truthy (fst (Demo.readPosition Demo.noFiles (vars Demo.dialed))) = true /\
  fst (Demo.readPosition Demo.noFiles (vars Demo.dialed)) <> JNull.
Proof.
  refine (proj2 (proj2 (proj1 (position_read_returns_the_cache Demo.JSON_parse
                                 Demo.fallbackCandidates)
                              Demo.noFiles (vars Demo.dialed))) _).
  vm_compute. reflexivity.
Defined.

(** With the mappings of Glow in the cache, the files are not looked
    at. *)
Lemma mappings_are_cached_witness :
  autoLoadMappings Demo.JSON_parse Demo.noFiles Demo.cleared
  = autoLoadMappings Demo.JSON_parse (Demo.everywhere "{x:10,y:0}") Demo.cleared.
Proof.
  destruct (nth_error (currentEffects (vars Demo.cleared)) 0) as [ei|] eqn:N;
    [|vm_compute in N; discriminate N].
  refine (proj1 (mappings_are_cached Demo.JSON_parse) Demo.noFiles
                (Demo.everywhere "{x:10,y:0}") Demo.cleared 0 ei _ N _).
  - vm_compute. reflexivity.
  - vm_compute in N. inversion N. vm_compute. reflexivity.
Defined.

(** Color on every key, saved, the keys cleared, loaded: Color is on
    every key again. *)
Lemma saved_mappings_are_restored_witness :
  keypadDropdowns (ui (autoLoadMappings Demo.JSON_parse Demo.noFiles Demo.cleared))
  = keypadDropdowns (ui Demo.mapped).
Proof.
  destruct (nth_error (currentEffects (vars Demo.mapped)) 0) as [ei|] eqn:N;
    [|vm_compute in N; discriminate N].
  refine (proj1 (saved_mappings_are_restored Demo.JSON_parse Demo.JSON_stringify
                   Demo.canWrite Demo.noFiles Demo.mapped Demo.cleared 0 ei
                   _ _ N _ _ _ _ _ _ _ _) Demo.noFiles _).
  - vm_compute. reflexivity.
  - vm_compute. reflexivity.
  - vm_compute. lia.
  - match goal with |- Forall _ ?l => let l' := eval vm_compute in l in change l with l' end.
    repeat (apply Forall_cons;
            [split; [vm_compute; reflexivity
                    |exists 2; split; [reflexivity|vm_compute; lia]]|]).
    apply Forall_nil.
  - match goal with |- NoDup ?l => let l' := eval vm_compute in l in change l with l' end.
    repeat constructor; simpl; intuition discriminate.
  - match goal with |- Forall _ ?l => let l' := eval vm_compute in l in change l with l' end.
    repeat (apply Forall_cons; [simpl; discriminate|]). apply Forall_nil.
  - vm_compute. reflexivity.
  - vm_compute. reflexivity.
  - vm_compute. reflexivity.
  - vm_compute. reflexivity.
  - vm_compute. reflexivity.
Defined.

(** A first Start with the id 7 leaves that one task scheduled. *)
Lemma polling_task_is_never_doubled_witness :
  oneTask (fst (Controls.startPolling Demo.JSON_parse Demo.valueAtTime true 7 Demo.noFiles
                                      (initialShell, initialWorld Demo.app))).
Proof.
  refine (proj1 (proj1 (proj2 (polling_task_is_never_doubled Demo.JSON_parse
                                 Demo.valueAtTime))
                       true 7 Demo.noFiles (initialShell, initialWorld Demo.app) _ _)).
  - discriminate.
  - reflexivity.
Defined.

